(** * The gearman job server: job bookkeeping of [libgearman/server_job.c]

    A shallow embedding of the server-side job broker: [gearman_server_job_add],
    [gearman_server_job_create], [gearman_server_job_free],
    [gearman_server_job_get], [gearman_server_job_peek],
    [gearman_server_job_take], [gearman_server_job_queue], the private
    [_server_job_hash] and [_server_job_get_unique], and
    [gearman_server_function_get] / [gearman_server_function_create] of
    [libgearman/server_function.c].

    Conventions of the embedding.
    - C objects live in stores keyed by their address ([ptr]); a pointer field
      is an [option ptr], [None] being [NULL].  Two fields holding the same
      address alias the same object.
    - [uint32_t] is a [Z] with the wrap-around written out ([wrap32]);
      [size_t] is a [nat].
    - A [char] buffer is the list of its [char] values, from the pointer to
      the end of the allocation.
    - Lists that the source maintains only through the [GEARMAN_LIST_*] and
      [GEARMAN_HASH_*] macros of [common.h] are kept as the sequence of their
      nodes, head first.  The per-priority job queue, which [server_job.c]
      threads by hand through [job_list], [job_end] and [function_next], is
      kept at the level of those pointers.
    - A computation is a function from the server state to [option]: [None]
      stands for an execution without a defined result (a [NULL] or dangling
      dereference, an index outside its array, a read past a buffer), or for
      exhausted fuel in the two recursive entry points. *)

From Stdlib Require Import ZArith List Bool Lia.
From stdpp Require Import base option list gmap.

Open Scope Z_scope.

(** ** Machine integers *)

Definition wrap32 (x : Z) : Z := x mod 2 ^ 32.

Definition ptr := nat.

(** ** [_server_job_hash] *)

(** The loop of [_server_job_hash]: [ptr] walks the buffer while [key_size]
    counts down. *)
Fixpoint _server_job_hash_loop (ptr : list Z) (key_size : nat) (value : Z)
  : option Z :=
  match key_size with
  | O => Some value
  | S key_size' =>
      match ptr with
      | [] => None
      | c :: ptr' =>
          let value := wrap32 (value + c) in
          let value := wrap32 (value + wrap32 (Z.shiftl value 10)) in
          let value := Z.lxor value (Z.shiftr value 6) in
          _server_job_hash_loop ptr' key_size' value
      end
  end.

Definition _server_job_hash (key : list Z) (key_size : nat) : option Z :=
  match _server_job_hash_loop key key_size 0 with
  | None => None
  | Some value =>
      let value := wrap32 (value + wrap32 (Z.shiftl value 3)) in
      let value := Z.lxor value (Z.shiftr value 11) in
      let value := wrap32 (value + wrap32 (Z.shiftl value 15)) in
      Some (if value =? 0 then 1 else value)
  end.

(** The hash as the specification words it: a 32-bit recurrence per byte, a
    finalization, and 0 mapped to 1. *)
Module HashSpec.

Definition add32 (v x : Z) : Z := (v + x) mod 2 ^ 32.

Definition mix (v b : Z) : Z :=
  let v := add32 v b in
  let v := add32 v (Z.shiftl v 10) in
  Z.lxor v (Z.shiftr v 6).

Definition finalize (v : Z) : Z :=
  let v := add32 v (Z.shiftl v 3) in
  let v := Z.lxor v (Z.shiftr v 11) in
  add32 v (Z.shiftl v 15).

Definition hash (bytes : list Z) : Z :=
  let v := finalize (fold_left mix bytes 0) in
  if v =? 0 then 1 else v.

End HashSpec.

(** ** Constants and enumerations of [constants.h] *)

Definition GEARMAN_DEFAULT_MAX_QUEUE_SIZE : Z := 0.
Definition GEARMAN_JOB_HANDLE_SIZE : nat := 64.
Definition GEARMAN_UNIQUE_SIZE : nat := 64.
Definition GEARMAN_JOB_HASH_SIZE : Z := 383.
Definition GEARMAN_MAX_FREE_SERVER_JOB : Z := 1000.

Inductive gearman_return_t : Set :=
  | GEARMAN_SUCCESS | GEARMAN_IO_WAIT | GEARMAN_SHUTDOWN
  | GEARMAN_SHUTDOWN_GRACEFUL | GEARMAN_ERRNO | GEARMAN_EVENT
  | GEARMAN_TOO_MANY_ARGS | GEARMAN_NO_ACTIVE_FDS | GEARMAN_INVALID_MAGIC
  | GEARMAN_INVALID_COMMAND | GEARMAN_INVALID_PACKET
  | GEARMAN_UNEXPECTED_PACKET | GEARMAN_GETADDRINFO | GEARMAN_NO_SERVERS
  | GEARMAN_LOST_CONNECTION | GEARMAN_MEMORY_ALLOCATION_FAILURE
  | GEARMAN_JOB_EXISTS | GEARMAN_JOB_QUEUE_FULL | GEARMAN_SERVER_ERROR
  | GEARMAN_WORK_ERROR | GEARMAN_WORK_DATA | GEARMAN_WORK_WARNING
  | GEARMAN_WORK_STATUS | GEARMAN_WORK_EXCEPTION | GEARMAN_WORK_FAIL
  | GEARMAN_NOT_CONNECTED | GEARMAN_COULD_NOT_CONNECT
  | GEARMAN_SEND_IN_PROGRESS | GEARMAN_RECV_IN_PROGRESS
  | GEARMAN_NOT_FLUSHING | GEARMAN_DATA_TOO_LARGE
  | GEARMAN_INVALID_FUNCTION_NAME | GEARMAN_INVALID_WORKER_FUNCTION
  | GEARMAN_NO_REGISTERED_FUNCTIONS | GEARMAN_NO_JOBS
  | GEARMAN_ECHO_DATA_CORRUPTION | GEARMAN_NEED_WORKLOAD_FN | GEARMAN_PAUSE
  | GEARMAN_UNKNOWN_STATE | GEARMAN_PTHREAD | GEARMAN_PIPE_EOF
  | GEARMAN_QUEUE_ERROR | GEARMAN_FLUSH_DATA
  | GEARMAN_SEND_BUFFER_TOO_SMALL | GEARMAN_IGNORE_PACKET
  | GEARMAN_UNKNOWN_OPTION | GEARMAN_MAX_RETURN.

#[global] Instance gearman_return_t_eq_dec : EqDecision gearman_return_t.
Proof. solve_decision. Defined.

Definition is_success (r : gearman_return_t) : bool :=
  match r with GEARMAN_SUCCESS => true | _ => false end.

Inductive gearman_job_priority_t : Set :=
  | GEARMAN_JOB_PRIORITY_HIGH
  | GEARMAN_JOB_PRIORITY_NORMAL
  | GEARMAN_JOB_PRIORITY_LOW
  | GEARMAN_JOB_PRIORITY_MAX.

#[global] Instance gearman_job_priority_t_eq_dec :
  EqDecision gearman_job_priority_t.
Proof. solve_decision. Defined.

(** [priority++] *)
Definition priority_succ (p : gearman_job_priority_t) : gearman_job_priority_t :=
  match p with
  | GEARMAN_JOB_PRIORITY_HIGH => GEARMAN_JOB_PRIORITY_NORMAL
  | GEARMAN_JOB_PRIORITY_NORMAL => GEARMAN_JOB_PRIORITY_LOW
  | _ => GEARMAN_JOB_PRIORITY_MAX
  end.

Inductive gearman_magic_t : Set :=
  | GEARMAN_MAGIC_TEXT | GEARMAN_MAGIC_REQUEST | GEARMAN_MAGIC_RESPONSE.

Inductive gearman_command_t : Set :=
  | GEARMAN_COMMAND_TEXT | GEARMAN_COMMAND_CAN_DO | GEARMAN_COMMAND_CANT_DO
  | GEARMAN_COMMAND_RESET_ABILITIES | GEARMAN_COMMAND_PRE_SLEEP
  | GEARMAN_COMMAND_UNUSED | GEARMAN_COMMAND_NOOP
  | GEARMAN_COMMAND_SUBMIT_JOB | GEARMAN_COMMAND_JOB_CREATED
  | GEARMAN_COMMAND_GRAB_JOB | GEARMAN_COMMAND_NO_JOB
  | GEARMAN_COMMAND_JOB_ASSIGN.

#[global] Instance gearman_magic_t_eq_dec : EqDecision gearman_magic_t.
Proof. solve_decision. Defined.
#[global] Instance gearman_command_t_eq_dec : EqDecision gearman_command_t.
Proof. solve_decision. Defined.

(** Option bits. *)
Definition GEARMAN_SERVER_QUEUE_REPLAY : Z := Z.shiftl 1 2.
Definition GEARMAN_SERVER_CON_SLEEPING : Z := Z.shiftl 1 0.
Definition GEARMAN_SERVER_FUNCTION_ALLOCATED : Z := Z.shiftl 1 0.
Definition GEARMAN_SERVER_JOB_ALLOCATED : Z := Z.shiftl 1 0.
Definition GEARMAN_SERVER_JOB_QUEUED : Z := Z.shiftl 1 1.
Definition GEARMAN_SERVER_JOB_IGNORE : Z := Z.shiftl 1 2.

(** [options & flag], read as a C condition. *)
Definition has_flag (options flag : Z) : bool :=
  negb (Z.land options flag =? 0).
(** [options |= flag] and [options &= ~flag]. *)
Definition set_flag (options flag : Z) : Z := Z.lor options flag.
Definition clear_flag (options flag : Z) : Z := Z.land options (Z.lnot flag).

(** ** Structures

    [structs.h] is not among the sources; each record lists the fields that
    [server_job.c] and [server_function.c] read or write, under their names. *)

Record gearman_server_job_st : Type := {
  job_handle : list Z;          (* char job_handle[GEARMAN_JOB_HANDLE_SIZE], as a C string *)
  unique : list Z;              (* char unique[GEARMAN_UNIQUE_SIZE], as a C string *)
  job_options : Z;
  priority : gearman_job_priority_t;
  job_handle_key : Z;
  unique_key : Z;
  numerator : Z;
  denominator : Z;
  data : option (list Z);
  data_size : nat;
  function : option ptr;
  client_list : list ptr;
  worker : option ptr;
  function_next : option ptr
}.

Record gearman_server_function_st : Type := {
  function_options : Z;
  function_name : option (list Z);
  function_name_size : nat;
  max_queue_size : Z;
  job_total : Z;
  job_running : Z;
  job_count : Z;
  worker_list : list ptr;
  job_list : gearman_job_priority_t -> option ptr;
  job_end : gearman_job_priority_t -> option ptr
}.

Record gearman_server_worker_st : Type := {
  worker_con : ptr;
  worker_function : ptr;
  worker_job : option ptr
}.

Record gearman_packet_st : Type := {
  magic : gearman_magic_t;
  command : gearman_command_t
}.

Record gearman_server_con_st : Type := {
  con_options : Z;
  noop_queued : bool;
  con_worker_list : list ptr;
  io_packet_list : list gearman_packet_st
}.

Record gearman_server_client_st : Type := {
  client_con : ptr;
  client_job : option ptr
}.

(** One invocation of a persistent-queue callback, with its arguments. *)
Inductive queue_call : Type :=
  | QueueAdd (unique : list Z) (unique_size : nat)
             (function_name : list Z) (function_name_size : nat)
             (data : option (list Z)) (data_size : nat)
             (priority : gearman_job_priority_t)
  | QueueFlush
  | QueueDone (unique : list Z) (unique_size : nat)
              (function_name : option (list Z)) (function_name_size : nat).

(** The callbacks of [gearman_st].  A callback is a function pointer that
    may be [NULL]; its return code may depend on every call made so far,
    the current one first. *)
Record gearman_st : Type := {
  queue_add_fn : option (list queue_call -> gearman_return_t);
  queue_flush_fn : option (list queue_call -> gearman_return_t);
  queue_done_fn : option (list queue_call -> gearman_return_t)
}.

Record gearman_server_st : Type := {
  gearman : gearman_st;
  options : Z;
  job_handle_prefix : list Z;
  job_handle_count : Z;
  function_list : list ptr;
  function_count : Z;
  job_hash : Z -> list ptr;
  job_hash_count : Z;           (* server->job_count *)
  unique_hash : Z -> list ptr;
  unique_count : Z;
  free_job_list : list ptr;
  free_job_count : Z;
  (* the objects, by address *)
  functions : gmap ptr gearman_server_function_st;
  jobs : gmap ptr gearman_server_job_st;
  workers : gmap ptr gearman_server_worker_st;
  cons : gmap ptr gearman_server_con_st;
  clients : gmap ptr gearman_server_client_st;
  (* every persistent-queue callback invoked so far, latest first *)
  queue_log : list queue_call
}.

(** What the code under [src/] leaves to its surroundings: whether each
    [malloc] of the call succeeds, what [gearman_server_io_packet_add]
    answers for a connection, and the value an uninitialised [uint32_t]
    local happens to hold. *)
Record environment : Type := {
  malloc_function : bool;
  malloc_function_name : bool;
  malloc_job : bool;
  io_packet_add_ret : ptr -> gearman_return_t;
  indeterminate : Z
}.

(** ** Field assignment

    [set_f v x] is [x] after [x.f = v]. *)

Definition set_job_handle (v : list Z) (x : gearman_server_job_st)
  : gearman_server_job_st :=
  {| job_handle := v; unique := unique x; job_options := job_options x;
     priority := priority x; job_handle_key := job_handle_key x;
     unique_key := unique_key x; numerator := numerator x;
     denominator := denominator x; data := data x; data_size := data_size x;
     function := function x; client_list := client_list x;
     worker := worker x; function_next := function_next x |}.

Definition set_unique (v : list Z) (x : gearman_server_job_st)
  : gearman_server_job_st :=
  {| job_handle := job_handle x; unique := v; job_options := job_options x;
     priority := priority x; job_handle_key := job_handle_key x;
     unique_key := unique_key x; numerator := numerator x;
     denominator := denominator x; data := data x; data_size := data_size x;
     function := function x; client_list := client_list x;
     worker := worker x; function_next := function_next x |}.

Definition set_job_options (v : Z) (x : gearman_server_job_st)
  : gearman_server_job_st :=
  {| job_handle := job_handle x; unique := unique x; job_options := v;
     priority := priority x; job_handle_key := job_handle_key x;
     unique_key := unique_key x; numerator := numerator x;
     denominator := denominator x; data := data x; data_size := data_size x;
     function := function x; client_list := client_list x;
     worker := worker x; function_next := function_next x |}.

Definition set_priority (v : gearman_job_priority_t) (x : gearman_server_job_st)
  : gearman_server_job_st :=
  {| job_handle := job_handle x; unique := unique x;
     job_options := job_options x; priority := v;
     job_handle_key := job_handle_key x; unique_key := unique_key x;
     numerator := numerator x; denominator := denominator x; data := data x;
     data_size := data_size x; function := function x;
     client_list := client_list x; worker := worker x;
     function_next := function_next x |}.

Definition set_job_handle_key (v : Z) (x : gearman_server_job_st)
  : gearman_server_job_st :=
  {| job_handle := job_handle x; unique := unique x;
     job_options := job_options x; priority := priority x;
     job_handle_key := v; unique_key := unique_key x;
     numerator := numerator x; denominator := denominator x; data := data x;
     data_size := data_size x; function := function x;
     client_list := client_list x; worker := worker x;
     function_next := function_next x |}.

Definition set_unique_key (v : Z) (x : gearman_server_job_st)
  : gearman_server_job_st :=
  {| job_handle := job_handle x; unique := unique x;
     job_options := job_options x; priority := priority x;
     job_handle_key := job_handle_key x; unique_key := v;
     numerator := numerator x; denominator := denominator x; data := data x;
     data_size := data_size x; function := function x;
     client_list := client_list x; worker := worker x;
     function_next := function_next x |}.

Definition set_numerator (v : Z) (x : gearman_server_job_st)
  : gearman_server_job_st :=
  {| job_handle := job_handle x; unique := unique x;
     job_options := job_options x; priority := priority x;
     job_handle_key := job_handle_key x; unique_key := unique_key x;
     numerator := v; denominator := denominator x; data := data x;
     data_size := data_size x; function := function x;
     client_list := client_list x; worker := worker x;
     function_next := function_next x |}.

Definition set_denominator (v : Z) (x : gearman_server_job_st)
  : gearman_server_job_st :=
  {| job_handle := job_handle x; unique := unique x;
     job_options := job_options x; priority := priority x;
     job_handle_key := job_handle_key x; unique_key := unique_key x;
     numerator := numerator x; denominator := v; data := data x;
     data_size := data_size x; function := function x;
     client_list := client_list x; worker := worker x;
     function_next := function_next x |}.

Definition set_data (v : option (list Z)) (x : gearman_server_job_st)
  : gearman_server_job_st :=
  {| job_handle := job_handle x; unique := unique x;
     job_options := job_options x; priority := priority x;
     job_handle_key := job_handle_key x; unique_key := unique_key x;
     numerator := numerator x; denominator := denominator x; data := v;
     data_size := data_size x; function := function x;
     client_list := client_list x; worker := worker x;
     function_next := function_next x |}.

Definition set_data_size (v : nat) (x : gearman_server_job_st)
  : gearman_server_job_st :=
  {| job_handle := job_handle x; unique := unique x;
     job_options := job_options x; priority := priority x;
     job_handle_key := job_handle_key x; unique_key := unique_key x;
     numerator := numerator x; denominator := denominator x; data := data x;
     data_size := v; function := function x; client_list := client_list x;
     worker := worker x; function_next := function_next x |}.

Definition set_function (v : option ptr) (x : gearman_server_job_st)
  : gearman_server_job_st :=
  {| job_handle := job_handle x; unique := unique x;
     job_options := job_options x; priority := priority x;
     job_handle_key := job_handle_key x; unique_key := unique_key x;
     numerator := numerator x; denominator := denominator x; data := data x;
     data_size := data_size x; function := v; client_list := client_list x;
     worker := worker x; function_next := function_next x |}.

Definition set_client_list (v : list ptr) (x : gearman_server_job_st)
  : gearman_server_job_st :=
  {| job_handle := job_handle x; unique := unique x;
     job_options := job_options x; priority := priority x;
     job_handle_key := job_handle_key x; unique_key := unique_key x;
     numerator := numerator x; denominator := denominator x; data := data x;
     data_size := data_size x; function := function x; client_list := v;
     worker := worker x; function_next := function_next x |}.

Definition set_worker (v : option ptr) (x : gearman_server_job_st)
  : gearman_server_job_st :=
  {| job_handle := job_handle x; unique := unique x;
     job_options := job_options x; priority := priority x;
     job_handle_key := job_handle_key x; unique_key := unique_key x;
     numerator := numerator x; denominator := denominator x; data := data x;
     data_size := data_size x; function := function x;
     client_list := client_list x; worker := v;
     function_next := function_next x |}.

Definition set_function_next (v : option ptr) (x : gearman_server_job_st)
  : gearman_server_job_st :=
  {| job_handle := job_handle x; unique := unique x;
     job_options := job_options x; priority := priority x;
     job_handle_key := job_handle_key x; unique_key := unique_key x;
     numerator := numerator x; denominator := denominator x; data := data x;
     data_size := data_size x; function := function x;
     client_list := client_list x; worker := worker x; function_next := v |}.

Definition set_function_options (v : Z) (x : gearman_server_function_st)
  : gearman_server_function_st :=
  {| function_options := v; function_name := function_name x;
     function_name_size := function_name_size x;
     max_queue_size := max_queue_size x; job_total := job_total x;
     job_running := job_running x; job_count := job_count x;
     worker_list := worker_list x; job_list := job_list x;
     job_end := job_end x |}.

Definition set_function_name (v : option (list Z)) (x : gearman_server_function_st)
  : gearman_server_function_st :=
  {| function_options := function_options x; function_name := v;
     function_name_size := function_name_size x;
     max_queue_size := max_queue_size x; job_total := job_total x;
     job_running := job_running x; job_count := job_count x;
     worker_list := worker_list x; job_list := job_list x;
     job_end := job_end x |}.

Definition set_function_name_size (v : nat) (x : gearman_server_function_st)
  : gearman_server_function_st :=
  {| function_options := function_options x;
     function_name := function_name x; function_name_size := v;
     max_queue_size := max_queue_size x; job_total := job_total x;
     job_running := job_running x; job_count := job_count x;
     worker_list := worker_list x; job_list := job_list x;
     job_end := job_end x |}.

Definition set_max_queue_size (v : Z) (x : gearman_server_function_st)
  : gearman_server_function_st :=
  {| function_options := function_options x;
     function_name := function_name x;
     function_name_size := function_name_size x; max_queue_size := v;
     job_total := job_total x; job_running := job_running x;
     job_count := job_count x; worker_list := worker_list x;
     job_list := job_list x; job_end := job_end x |}.

Definition set_job_total (v : Z) (x : gearman_server_function_st)
  : gearman_server_function_st :=
  {| function_options := function_options x;
     function_name := function_name x;
     function_name_size := function_name_size x;
     max_queue_size := max_queue_size x; job_total := v;
     job_running := job_running x; job_count := job_count x;
     worker_list := worker_list x; job_list := job_list x;
     job_end := job_end x |}.

Definition set_job_running (v : Z) (x : gearman_server_function_st)
  : gearman_server_function_st :=
  {| function_options := function_options x;
     function_name := function_name x;
     function_name_size := function_name_size x;
     max_queue_size := max_queue_size x; job_total := job_total x;
     job_running := v; job_count := job_count x;
     worker_list := worker_list x; job_list := job_list x;
     job_end := job_end x |}.

Definition set_job_count (v : Z) (x : gearman_server_function_st)
  : gearman_server_function_st :=
  {| function_options := function_options x;
     function_name := function_name x;
     function_name_size := function_name_size x;
     max_queue_size := max_queue_size x; job_total := job_total x;
     job_running := job_running x; job_count := v;
     worker_list := worker_list x; job_list := job_list x;
     job_end := job_end x |}.

Definition set_worker_list (v : list ptr) (x : gearman_server_function_st)
  : gearman_server_function_st :=
  {| function_options := function_options x;
     function_name := function_name x;
     function_name_size := function_name_size x;
     max_queue_size := max_queue_size x; job_total := job_total x;
     job_running := job_running x; job_count := job_count x;
     worker_list := v; job_list := job_list x; job_end := job_end x |}.

Definition set_job_list (v : gearman_job_priority_t -> option ptr) (x : gearman_server_function_st)
  : gearman_server_function_st :=
  {| function_options := function_options x;
     function_name := function_name x;
     function_name_size := function_name_size x;
     max_queue_size := max_queue_size x; job_total := job_total x;
     job_running := job_running x; job_count := job_count x;
     worker_list := worker_list x; job_list := v; job_end := job_end x |}.

Definition set_job_end (v : gearman_job_priority_t -> option ptr) (x : gearman_server_function_st)
  : gearman_server_function_st :=
  {| function_options := function_options x;
     function_name := function_name x;
     function_name_size := function_name_size x;
     max_queue_size := max_queue_size x; job_total := job_total x;
     job_running := job_running x; job_count := job_count x;
     worker_list := worker_list x; job_list := job_list x; job_end := v |}.

Definition set_worker_job (v : option ptr) (x : gearman_server_worker_st)
  : gearman_server_worker_st :=
  {| worker_con := worker_con x; worker_function := worker_function x;
     worker_job := v |}.

Definition set_con_options (v : Z) (x : gearman_server_con_st)
  : gearman_server_con_st :=
  {| con_options := v; noop_queued := noop_queued x;
     con_worker_list := con_worker_list x;
     io_packet_list := io_packet_list x |}.

Definition set_noop_queued (v : bool) (x : gearman_server_con_st)
  : gearman_server_con_st :=
  {| con_options := con_options x; noop_queued := v;
     con_worker_list := con_worker_list x;
     io_packet_list := io_packet_list x |}.

Definition set_io_packet_list (v : list gearman_packet_st) (x : gearman_server_con_st)
  : gearman_server_con_st :=
  {| con_options := con_options x; noop_queued := noop_queued x;
     con_worker_list := con_worker_list x; io_packet_list := v |}.

Definition set_client_job (v : option ptr) (x : gearman_server_client_st)
  : gearman_server_client_st :=
  {| client_con := client_con x; client_job := v |}.

Definition set_options (v : Z) (x : gearman_server_st)
  : gearman_server_st :=
  {| gearman := gearman x; options := v;
     job_handle_prefix := job_handle_prefix x;
     job_handle_count := job_handle_count x;
     function_list := function_list x; function_count := function_count x;
     job_hash := job_hash x; job_hash_count := job_hash_count x;
     unique_hash := unique_hash x; unique_count := unique_count x;
     free_job_list := free_job_list x; free_job_count := free_job_count x;
     functions := functions x; jobs := jobs x; workers := workers x;
     cons := cons x; clients := clients x; queue_log := queue_log x |}.

Definition set_job_handle_count (v : Z) (x : gearman_server_st)
  : gearman_server_st :=
  {| gearman := gearman x; options := options x;
     job_handle_prefix := job_handle_prefix x; job_handle_count := v;
     function_list := function_list x; function_count := function_count x;
     job_hash := job_hash x; job_hash_count := job_hash_count x;
     unique_hash := unique_hash x; unique_count := unique_count x;
     free_job_list := free_job_list x; free_job_count := free_job_count x;
     functions := functions x; jobs := jobs x; workers := workers x;
     cons := cons x; clients := clients x; queue_log := queue_log x |}.

Definition set_function_list (v : list ptr) (x : gearman_server_st)
  : gearman_server_st :=
  {| gearman := gearman x; options := options x;
     job_handle_prefix := job_handle_prefix x;
     job_handle_count := job_handle_count x; function_list := v;
     function_count := function_count x; job_hash := job_hash x;
     job_hash_count := job_hash_count x; unique_hash := unique_hash x;
     unique_count := unique_count x; free_job_list := free_job_list x;
     free_job_count := free_job_count x; functions := functions x;
     jobs := jobs x; workers := workers x; cons := cons x;
     clients := clients x; queue_log := queue_log x |}.

Definition set_function_count (v : Z) (x : gearman_server_st)
  : gearman_server_st :=
  {| gearman := gearman x; options := options x;
     job_handle_prefix := job_handle_prefix x;
     job_handle_count := job_handle_count x;
     function_list := function_list x; function_count := v;
     job_hash := job_hash x; job_hash_count := job_hash_count x;
     unique_hash := unique_hash x; unique_count := unique_count x;
     free_job_list := free_job_list x; free_job_count := free_job_count x;
     functions := functions x; jobs := jobs x; workers := workers x;
     cons := cons x; clients := clients x; queue_log := queue_log x |}.

Definition set_job_hash (v : Z -> list ptr) (x : gearman_server_st)
  : gearman_server_st :=
  {| gearman := gearman x; options := options x;
     job_handle_prefix := job_handle_prefix x;
     job_handle_count := job_handle_count x;
     function_list := function_list x; function_count := function_count x;
     job_hash := v; job_hash_count := job_hash_count x;
     unique_hash := unique_hash x; unique_count := unique_count x;
     free_job_list := free_job_list x; free_job_count := free_job_count x;
     functions := functions x; jobs := jobs x; workers := workers x;
     cons := cons x; clients := clients x; queue_log := queue_log x |}.

Definition set_job_hash_count (v : Z) (x : gearman_server_st)
  : gearman_server_st :=
  {| gearman := gearman x; options := options x;
     job_handle_prefix := job_handle_prefix x;
     job_handle_count := job_handle_count x;
     function_list := function_list x; function_count := function_count x;
     job_hash := job_hash x; job_hash_count := v;
     unique_hash := unique_hash x; unique_count := unique_count x;
     free_job_list := free_job_list x; free_job_count := free_job_count x;
     functions := functions x; jobs := jobs x; workers := workers x;
     cons := cons x; clients := clients x; queue_log := queue_log x |}.

Definition set_unique_hash (v : Z -> list ptr) (x : gearman_server_st)
  : gearman_server_st :=
  {| gearman := gearman x; options := options x;
     job_handle_prefix := job_handle_prefix x;
     job_handle_count := job_handle_count x;
     function_list := function_list x; function_count := function_count x;
     job_hash := job_hash x; job_hash_count := job_hash_count x;
     unique_hash := v; unique_count := unique_count x;
     free_job_list := free_job_list x; free_job_count := free_job_count x;
     functions := functions x; jobs := jobs x; workers := workers x;
     cons := cons x; clients := clients x; queue_log := queue_log x |}.

Definition set_unique_count (v : Z) (x : gearman_server_st)
  : gearman_server_st :=
  {| gearman := gearman x; options := options x;
     job_handle_prefix := job_handle_prefix x;
     job_handle_count := job_handle_count x;
     function_list := function_list x; function_count := function_count x;
     job_hash := job_hash x; job_hash_count := job_hash_count x;
     unique_hash := unique_hash x; unique_count := v;
     free_job_list := free_job_list x; free_job_count := free_job_count x;
     functions := functions x; jobs := jobs x; workers := workers x;
     cons := cons x; clients := clients x; queue_log := queue_log x |}.

Definition set_free_job_list (v : list ptr) (x : gearman_server_st)
  : gearman_server_st :=
  {| gearman := gearman x; options := options x;
     job_handle_prefix := job_handle_prefix x;
     job_handle_count := job_handle_count x;
     function_list := function_list x; function_count := function_count x;
     job_hash := job_hash x; job_hash_count := job_hash_count x;
     unique_hash := unique_hash x; unique_count := unique_count x;
     free_job_list := v; free_job_count := free_job_count x;
     functions := functions x; jobs := jobs x; workers := workers x;
     cons := cons x; clients := clients x; queue_log := queue_log x |}.

Definition set_free_job_count (v : Z) (x : gearman_server_st)
  : gearman_server_st :=
  {| gearman := gearman x; options := options x;
     job_handle_prefix := job_handle_prefix x;
     job_handle_count := job_handle_count x;
     function_list := function_list x; function_count := function_count x;
     job_hash := job_hash x; job_hash_count := job_hash_count x;
     unique_hash := unique_hash x; unique_count := unique_count x;
     free_job_list := free_job_list x; free_job_count := v;
     functions := functions x; jobs := jobs x; workers := workers x;
     cons := cons x; clients := clients x; queue_log := queue_log x |}.

Definition set_functions (v : gmap ptr gearman_server_function_st) (x : gearman_server_st)
  : gearman_server_st :=
  {| gearman := gearman x; options := options x;
     job_handle_prefix := job_handle_prefix x;
     job_handle_count := job_handle_count x;
     function_list := function_list x; function_count := function_count x;
     job_hash := job_hash x; job_hash_count := job_hash_count x;
     unique_hash := unique_hash x; unique_count := unique_count x;
     free_job_list := free_job_list x; free_job_count := free_job_count x;
     functions := v; jobs := jobs x; workers := workers x; cons := cons x;
     clients := clients x; queue_log := queue_log x |}.

Definition set_jobs (v : gmap ptr gearman_server_job_st) (x : gearman_server_st)
  : gearman_server_st :=
  {| gearman := gearman x; options := options x;
     job_handle_prefix := job_handle_prefix x;
     job_handle_count := job_handle_count x;
     function_list := function_list x; function_count := function_count x;
     job_hash := job_hash x; job_hash_count := job_hash_count x;
     unique_hash := unique_hash x; unique_count := unique_count x;
     free_job_list := free_job_list x; free_job_count := free_job_count x;
     functions := functions x; jobs := v; workers := workers x;
     cons := cons x; clients := clients x; queue_log := queue_log x |}.

Definition set_workers (v : gmap ptr gearman_server_worker_st) (x : gearman_server_st)
  : gearman_server_st :=
  {| gearman := gearman x; options := options x;
     job_handle_prefix := job_handle_prefix x;
     job_handle_count := job_handle_count x;
     function_list := function_list x; function_count := function_count x;
     job_hash := job_hash x; job_hash_count := job_hash_count x;
     unique_hash := unique_hash x; unique_count := unique_count x;
     free_job_list := free_job_list x; free_job_count := free_job_count x;
     functions := functions x; jobs := jobs x; workers := v; cons := cons x;
     clients := clients x; queue_log := queue_log x |}.

Definition set_cons (v : gmap ptr gearman_server_con_st) (x : gearman_server_st)
  : gearman_server_st :=
  {| gearman := gearman x; options := options x;
     job_handle_prefix := job_handle_prefix x;
     job_handle_count := job_handle_count x;
     function_list := function_list x; function_count := function_count x;
     job_hash := job_hash x; job_hash_count := job_hash_count x;
     unique_hash := unique_hash x; unique_count := unique_count x;
     free_job_list := free_job_list x; free_job_count := free_job_count x;
     functions := functions x; jobs := jobs x; workers := workers x;
     cons := v; clients := clients x; queue_log := queue_log x |}.

Definition set_clients (v : gmap ptr gearman_server_client_st) (x : gearman_server_st)
  : gearman_server_st :=
  {| gearman := gearman x; options := options x;
     job_handle_prefix := job_handle_prefix x;
     job_handle_count := job_handle_count x;
     function_list := function_list x; function_count := function_count x;
     job_hash := job_hash x; job_hash_count := job_hash_count x;
     unique_hash := unique_hash x; unique_count := unique_count x;
     free_job_list := free_job_list x; free_job_count := free_job_count x;
     functions := functions x; jobs := jobs x; workers := workers x;
     cons := cons x; clients := v; queue_log := queue_log x |}.

Definition set_queue_log (v : list queue_call) (x : gearman_server_st)
  : gearman_server_st :=
  {| gearman := gearman x; options := options x;
     job_handle_prefix := job_handle_prefix x;
     job_handle_count := job_handle_count x;
     function_list := function_list x; function_count := function_count x;
     job_hash := job_hash x; job_hash_count := job_hash_count x;
     unique_hash := unique_hash x; unique_count := unique_count x;
     free_job_list := free_job_list x; free_job_count := free_job_count x;
     functions := functions x; jobs := jobs x; workers := workers x;
     cons := cons x; clients := clients x; queue_log := v |}.

(** ** Computations over the server state *)

Definition M (A : Type) : Type :=
  gearman_server_st -> option (A * gearman_server_st).

Definition ret {A : Type} (a : A) : M A := fun s => Some (a, s).

Definition bind {A B : Type} (m : M A) (k : A -> M B) : M B :=
  fun s => match m s with
           | Some (a, s') => k a s'
           | None => None
           end.

(** An execution the C standard gives no meaning to. *)
Definition undefined {A : Type} : M A := fun _ => None.

Definition get : M gearman_server_st := fun s => Some (s, s).

Definition modify (f : gearman_server_st -> gearman_server_st) : M unit :=
  fun s => Some (tt, f s).

Declare Scope gearman_scope.
Delimit Scope gearman_scope with gearman.
Notation "x <- c1 ;; c2" := (bind c1 (fun x => c2))
  (at level 20, c1 at level 99, c2 at level 200, only parsing)
  : gearman_scope.
Notation "' pat <- c1 ;; c2" :=
  (bind c1 (fun x => match x with pat => c2 end))
  (at level 20, pat pattern, c1 at level 99, c2 at level 200, only parsing)
  : gearman_scope.
Notation "c1 ;; c2" := (bind c1 (fun _ => c2))
  (at level 100, c2 at level 200, only parsing, right associativity)
  : gearman_scope.
Open Scope gearman_scope.

(** [*p] for a pointer that may be [NULL]. *)
Definition deref {A : Type} (o : option A) : M A :=
  match o with
  | Some a => ret a
  | None => undefined
  end.

Definition when (b : bool) (m : M unit) : M unit :=
  if b then m else ret tt.

Definition load_job (p : ptr) : M gearman_server_job_st :=
  s <- get;; deref (jobs s !! p).
Definition update_job (p : ptr)
  (f : gearman_server_job_st -> gearman_server_job_st) : M unit :=
  j <- load_job p;; modify (fun s => set_jobs (<[p := f j]> (jobs s)) s).

Definition load_function (p : ptr) : M gearman_server_function_st :=
  s <- get;; deref (functions s !! p).
Definition update_function (p : ptr)
  (f : gearman_server_function_st -> gearman_server_function_st) : M unit :=
  x <- load_function p;;
  modify (fun s => set_functions (<[p := f x]> (functions s)) s).

Definition load_worker (p : ptr) : M gearman_server_worker_st :=
  s <- get;; deref (workers s !! p).
Definition update_worker (p : ptr)
  (f : gearman_server_worker_st -> gearman_server_worker_st) : M unit :=
  x <- load_worker p;;
  modify (fun s => set_workers (<[p := f x]> (workers s)) s).

Definition load_con (p : ptr) : M gearman_server_con_st :=
  s <- get;; deref (cons s !! p).
Definition update_con (p : ptr)
  (f : gearman_server_con_st -> gearman_server_con_st) : M unit :=
  x <- load_con p;;
  modify (fun s => set_cons (<[p := f x]> (cons s)) s).

Definition load_client (p : ptr) : M gearman_server_client_st :=
  s <- get;; deref (clients s !! p).
Definition update_client (p : ptr)
  (f : gearman_server_client_st -> gearman_server_client_st) : M unit :=
  x <- load_client p;;
  modify (fun s => set_clients (<[p := f x]> (clients s)) s).

(** ** Arrays, buffers and strings *)

(** [a[p]] for an array of [GEARMAN_JOB_PRIORITY_MAX] elements. *)
Definition index {A : Type} (a : gearman_job_priority_t -> A)
  (p : gearman_job_priority_t) : M A :=
  match p with
  | GEARMAN_JOB_PRIORITY_MAX => undefined
  | _ => ret (a p)
  end.

(** [a[p]= v] *)
Definition assign {A : Type} (a : gearman_job_priority_t -> A)
  (p : gearman_job_priority_t) (v : A) : gearman_job_priority_t -> A :=
  fun q => if decide (q = p) then v else a q.

(** The first [n] bytes of a buffer; no result when the buffer is shorter. *)
Definition read_bytes (buf : list Z) (n : nat) : option (list Z) :=
  if (n <=? length buf)%nat then Some (firstn n buf) else None.

(** The characters before the first NUL. *)
Fixpoint c_str (buf : list Z) : list Z :=
  match buf with
  | [] => []
  | c :: buf' => if c =? 0 then [] else c :: c_str buf'
  end.

(** [strcmp(a, b) == 0], where [a] is the content of a NUL-terminated array
    and [b] a buffer; the comparison stops at the first difference. *)
Fixpoint strcmp_eq (a b : list Z) : option bool :=
  match a, b with
  | [], [] => None
  | [], c :: _ => Some (c =? 0)
  | _ :: _, [] => None
  | x :: a', c :: b' =>
      if x =? 0 then Some (c =? 0)
      else if x =? c then strcmp_eq a' b' else Some false
  end.

(** [memcmp(a, b, n) == 0] *)
Definition memcmp_eq (a b : list Z) (n : nat) : option bool :=
  match read_bytes a n, read_bytes b n with
  | Some x, Some y => Some (bool_decide (x = y))
  | _, _ => None
  end.

(** [snprintf(dst, size, "%.*s", precision, src)], as the content of [dst]. *)
Definition snprintf_s (size precision : nat) (src : list Z) : list Z :=
  firstn (size - 1) (c_str (firstn precision src)).

Fixpoint uint_chars (d : Decimal.uint) : list Z :=
  match d with
  | Decimal.Nil => []
  | Decimal.D0 d => 48 :: uint_chars d
  | Decimal.D1 d => 49 :: uint_chars d
  | Decimal.D2 d => 50 :: uint_chars d
  | Decimal.D3 d => 51 :: uint_chars d
  | Decimal.D4 d => 52 :: uint_chars d
  | Decimal.D5 d => 53 :: uint_chars d
  | Decimal.D6 d => 54 :: uint_chars d
  | Decimal.D7 d => 55 :: uint_chars d
  | Decimal.D8 d => 56 :: uint_chars d
  | Decimal.D9 d => 57 :: uint_chars d
  end.

(** [snprintf(dst, size, "%s:%u", prefix, count)], as the content of [dst]. *)
Definition snprintf_handle (size : nat) (prefix : list Z) (count : Z)
  : list Z :=
  firstn (size - 1)
    (c_str prefix ++ 58 :: uint_chars (N.to_uint (Z.to_N count))).

(** ** The list and hash macros of [common.h] *)

(** The chain without its node [obj]. *)
Fixpoint unlink (obj : ptr) (l : list ptr) : list ptr :=
  match l with
  | [] => []
  | x :: l' => if decide (x = obj) then l' else x :: unlink obj l'
  end.

(** [GEARMAN_HASH_ADD]: [obj] becomes the head of bucket [key]. *)
Definition GEARMAN_HASH_ADD (hash : Z -> list ptr) (key : Z) (obj : ptr)
  : Z -> list ptr :=
  fun k => if k =? key then obj :: hash k else hash k.

(** [GEARMAN_HASH_DEL]: [obj] is unlinked from bucket [key]. *)
Definition GEARMAN_HASH_DEL (hash : Z -> list ptr) (key : Z) (obj : ptr)
  : Z -> list ptr :=
  fun k => if k =? key then unlink obj (hash k) else hash k.

(** ** The operations *)

Section Broker.

Variable env : environment.

(** Modelled from the spec: [gearman_server_io_packet_add] (declared in the
    connection layer, not under [src/]).  "Outbound packets for a connection
    form a FIFO": on success the packet is appended to the connection's
    FIFO; otherwise the failure code is returned and the FIFO is as before. *)
Definition gearman_server_io_packet_add (con : ptr)
  (magic : gearman_magic_t) (command : gearman_command_t)
  : M gearman_return_t :=
  _ <- load_con con;;
  match io_packet_add_ret env con with
  | GEARMAN_SUCCESS =>
      update_con con (fun c =>
        set_io_packet_list
          (io_packet_list c ++ [{| magic := magic; command := command |}]) c);;
      ret GEARMAN_SUCCESS
  | r => ret r
  end.

(** Modelled from the spec: [gearman_server_client_free] (only declared in
    [server_client.h]).  "When the client disconnects, each such job is
    marked IGNORE if still queued, and the client is removed from the job's
    client list." *)
Definition gearman_server_client_free (client : ptr) : M unit :=
  c <- load_client client;;
  match client_job c with
  | Some job =>
      update_job job (fun j =>
        set_client_list (unlink client (client_list j))
          (match worker j with
           | Some _ => j
           | None =>
               set_job_options
                 (set_flag (job_options j) GEARMAN_SERVER_JOB_IGNORE) j
           end))
  | None => ret tt
  end;;
  modify (fun s => set_clients (delete client (clients s)) s).

(** *** [server_function.c] *)

(** [memset(server_function, 0, sizeof(gearman_server_function_st))] *)
Definition zeroed_function : gearman_server_function_st :=
  {| function_options := 0; function_name := None;
     function_name_size := 0%nat; max_queue_size := 0; job_total := 0;
     job_running := 0; job_count := 0; worker_list := [];
     job_list := fun _ => None; job_end := fun _ => None |}.

Definition gearman_server_function_create (server_function : option ptr)
  : M (option ptr) :=
  r <- match server_function with
       | None =>
           if malloc_function env then
             s <- get;;
             let p := fresh (dom (functions s)) in
             modify (fun s =>
               set_functions
                 (<[p := set_function_options
                           (set_flag 0 GEARMAN_SERVER_FUNCTION_ALLOCATED)
                           zeroed_function]> (functions s)) s);;
             ret (Some p)
           else ret None
       | Some p =>
           update_function p (fun _ => zeroed_function);;
           ret (Some p)
       end;;
  match r with
  | None => ret None
  | Some p =>
      update_function p (set_max_queue_size GEARMAN_DEFAULT_MAX_QUEUE_SIZE);;
      (* GEARMAN_LIST_ADD(server->function, server_function,) *)
      modify (fun s =>
        set_function_count (wrap32 (function_count s + 1))
          (set_function_list (p :: function_list s) s));;
      ret (Some p)
  end.

Definition gearman_server_function_free (server_function : ptr) : M unit :=
  f <- load_function server_function;;
  (* GEARMAN_LIST_DEL(server_function->server->function, server_function,) *)
  modify (fun s =>
    set_function_count (wrap32 (function_count s - 1))
      (set_function_list (unlink server_function (function_list s)) s));;
  when (has_flag (function_options f) GEARMAN_SERVER_FUNCTION_ALLOCATED)
    (modify (fun s =>
       set_functions (delete server_function (functions s)) s)).

(** The search loop of [gearman_server_function_get]; it only reads. *)
Fixpoint function_get_loop (server : gearman_server_st) (l : list ptr)
  (function_name' : list Z) (function_name_size' : nat)
  : option (option ptr) :=
  match l with
  | [] => Some None
  | server_function :: l' =>
      match functions server !! server_function with
      | None => None
      | Some f =>
          let same :=
            if decide (function_name_size f = function_name_size') then
              match function_name f with
              | None => None
              | Some name => memcmp_eq name function_name' function_name_size'
              end
            else Some false in
          match same with
          | None => None
          | Some true => Some (Some server_function)
          | Some false =>
              function_get_loop server l' function_name' function_name_size'
          end
      end
  end.

Definition gearman_server_function_get (function_name' : list Z)
  (function_name_size' : nat) : M (option ptr) :=
  s <- get;;
  found <- deref (function_get_loop s (function_list s) function_name'
                    function_name_size');;
  match found with
  | Some server_function => ret (Some server_function)
  | None =>
      created <- gearman_server_function_create None;;
      match created with
      | None => ret None
      | Some server_function =>
          if malloc_function_name env then
            name <- deref (read_bytes function_name' function_name_size');;
            update_function server_function (fun f =>
              set_function_name_size function_name_size'
                (set_function_name (Some (name ++ [0])) f));;
            ret (Some server_function)
          else
            gearman_server_function_free server_function;;
            ret None
      end
  end.

(** *** [server_job.c] *)

(** [memset(server_job, 0, sizeof(gearman_server_job_st))] *)
Definition zeroed_job : gearman_server_job_st :=
  {| job_handle := []; unique := []; job_options := 0;
     priority := GEARMAN_JOB_PRIORITY_HIGH; job_handle_key := 0;
     unique_key := 0; numerator := 0; denominator := 0; data := None;
     data_size := 0%nat; function := None; client_list := [];
     worker := None; function_next := None |}.

Definition gearman_server_job_create (server_job : option ptr)
  : M (option ptr) :=
  let allocated :=
    set_job_options (set_flag 0 GEARMAN_SERVER_JOB_ALLOCATED) zeroed_job in
  match server_job with
  | None =>
      s <- get;;
      if 0 <? free_job_count s then
        (* server_job= server->free_job_list;
           GEARMAN_LIST_DEL(server->free_job, server_job,) *)
        p <- deref (head (free_job_list s));;
        _ <- load_job p;;
        modify (fun s =>
          set_free_job_count (wrap32 (free_job_count s - 1))
            (set_free_job_list (unlink p (free_job_list s)) s));;
        update_job p (fun _ => allocated);;
        ret (Some p)
      else if malloc_job env then
        let p := fresh (dom (jobs s)) in
        modify (fun s => set_jobs (<[p := allocated]> (jobs s)) s);;
        ret (Some p)
      else ret None
  | Some p =>
      update_job p (fun _ => zeroed_job);;
      ret (Some p)
  end.

(** [while (server_job->client_list != NULL)
      gearman_server_client_free(server_job->client_list);]
    The fuel is the length of the list on entry. *)
Fixpoint job_free_clients (fuel : nat) (server_job : ptr) : M unit :=
  j <- load_job server_job;;
  match client_list j with
  | [] => ret tt
  | client :: _ =>
      match fuel with
      | O => undefined
      | S fuel' =>
          gearman_server_client_free client;;
          job_free_clients fuel' server_job
      end
  end.

Definition gearman_server_job_free (server_job : ptr) : M unit :=
  j <- load_job server_job;;
  f <- deref (function j);;
  when (bool_decide (worker j <> None))
    (update_function f (fun x =>
       set_job_running (wrap32 (job_running x - 1)) x));;
  update_function f (fun x => set_job_total (wrap32 (job_total x - 1)) x);;
  (* free((void * )(server_job->data)) releases the payload only *)
  job_free_clients (length (client_list j)) server_job;;
  j <- load_job server_job;;
  match worker j with
  | Some w => update_worker w (set_worker_job None)
  | None => ret tt
  end;;
  let key := unique_key j mod GEARMAN_JOB_HASH_SIZE in
  modify (fun s =>
    set_unique_count (wrap32 (unique_count s - 1))
      (set_unique_hash (GEARMAN_HASH_DEL (unique_hash s) key server_job) s));;
  let key := job_handle_key j mod GEARMAN_JOB_HASH_SIZE in
  modify (fun s =>
    set_job_hash_count (wrap32 (job_hash_count s - 1))
      (set_job_hash (GEARMAN_HASH_DEL (job_hash s) key server_job) s));;
  when (has_flag (job_options j) GEARMAN_SERVER_JOB_ALLOCATED)
    (s <- get;;
     if free_job_count s <? GEARMAN_MAX_FREE_SERVER_JOB then
       (* GEARMAN_LIST_ADD(server_job->server->free_job, server_job,) *)
       modify (fun s =>
         set_free_job_count (wrap32 (free_job_count s + 1))
           (set_free_job_list (server_job :: free_job_list s) s))
     else
       modify (fun s => set_jobs (delete server_job (jobs s)) s)).

(** The loop of [gearman_server_job_get] over one bucket. *)
Fixpoint job_get_loop (server : gearman_server_st) (chain : list ptr)
  (key : Z) (job_handle' : list Z) : option (option ptr) :=
  match chain with
  | [] => Some None
  | server_job :: chain' =>
      match jobs server !! server_job with
      | None => None
      | Some j =>
          let same :=
            if job_handle_key j =? key
            then strcmp_eq (job_handle j) job_handle'
            else Some false in
          match same with
          | None => None
          | Some true => Some (Some server_job)
          | Some false => job_get_loop server chain' key job_handle'
          end
      end
  end.

(** [gearman_server_job_get] only reads; [job_handle'] is the caller's
    buffer, which [strlen] reads up to its NUL. *)
Definition gearman_server_job_get (server : gearman_server_st)
  (job_handle' : list Z) : option (option ptr) :=
  match strcmp_eq (c_str job_handle') job_handle' with
  | None => None
  | Some _ =>
      match _server_job_hash job_handle' (length (c_str job_handle')) with
      | None => None
      | Some key =>
          job_get_loop server
            (job_hash server (key mod GEARMAN_JOB_HASH_SIZE)) key job_handle'
      end
  end.

(** The wake-up loop of [gearman_server_job_queue] over the function's
    [worker_list]. *)
Fixpoint job_queue_noop_loop (l : list ptr) : M gearman_return_t :=
  match l with
  | [] => ret GEARMAN_SUCCESS
  | server_worker :: l' =>
      w <- load_worker server_worker;;
      c <- load_con (worker_con w);;
      if negb (noop_queued c) &&
         negb (has_flag (con_options c) GEARMAN_SERVER_CON_SLEEPING)
      then job_queue_noop_loop l'
      else
        r <- gearman_server_io_packet_add (worker_con w)
               GEARMAN_MAGIC_RESPONSE GEARMAN_COMMAND_NOOP;;
        if is_success r then
          update_con (worker_con w) (set_noop_queued true);;
          job_queue_noop_loop l'
        else ret r
  end.

Definition gearman_server_job_queue (server_job : ptr)
  : M gearman_return_t :=
  j <- load_job server_job;;
  when (bool_decide (worker j <> None))
    (f <- deref (function j);;
     update_function f (fun x =>
       set_job_running (wrap32 (job_running x - 1)) x);;
     update_job server_job (set_function_next None));;
  update_job server_job (set_worker None);;
  update_job server_job (set_numerator 0);;
  update_job server_job (set_denominator 0);;
  (* Queue NOOP for possible sleeping workers. *)
  j <- load_job server_job;;
  f <- deref (function j);;
  x <- load_function f;;
  r <- job_queue_noop_loop (worker_list x);;
  if negb (is_success r) then ret r
  else
    (* Queue the job to be run. *)
    j <- load_job server_job;;
    f <- deref (function j);;
    x <- load_function f;;
    head <- index (job_list x) (priority j);;
    match head with
    | None =>
        update_function f (fun x =>
          set_job_list (assign (job_list x) (priority j) (Some server_job)) x)
    | Some _ =>
        e <- index (job_end x) (priority j);;
        e <- deref e;;
        update_job e (set_function_next (Some server_job))
    end;;
    update_function f (fun x =>
      set_job_end (assign (job_end x) (priority j) (Some server_job)) x);;
    update_function f (fun x => set_job_count (wrap32 (job_count x + 1)) x);;
    ret GEARMAN_SUCCESS.

(** [for (priority= GEARMAN_JOB_PRIORITY_HIGH;
         priority != GEARMAN_JOB_PRIORITY_MAX; priority++)
      if (job_list[priority] != NULL) break;]
    The value of [priority] after the loop. *)
Definition first_priority (job_list' : gearman_job_priority_t -> option ptr)
  : gearman_job_priority_t :=
  let fix scan (n : nat) (priority' : gearman_job_priority_t) :=
    match n with
    | O => priority'
    | S n' =>
        match priority' with
        | GEARMAN_JOB_PRIORITY_MAX => priority'
        | _ => match job_list' priority' with
               | Some _ => priority'
               | None => scan n' (priority_succ priority')
               end
        end
    end in
  scan 3%nat GEARMAN_JOB_PRIORITY_HIGH.

(** The first loop of [gearman_server_job_take]: the first worker of the
    connection whose function has [job_count != 0]. *)
Fixpoint job_take_worker (server : gearman_server_st) (l : list ptr)
  : option (option ptr) :=
  match l with
  | [] => Some None
  | server_worker :: l' =>
      match workers server !! server_worker with
      | None => None
      | Some w =>
          match functions server !! worker_function w with
          | None => None
          | Some x =>
              if negb (job_count x =? 0) then Some (Some server_worker)
              else job_take_worker server l'
          end
      end
  end.

Fixpoint gearman_server_job_take (fuel : nat) (server_con : ptr)
  : M (option ptr) :=
  match fuel with
  | O => undefined
  | S fuel' =>
      c <- load_con server_con;;
      s <- get;;
      found <- deref (job_take_worker s (con_worker_list c));;
      match found with
      | None => ret None
      | Some server_worker =>
          w <- load_worker server_worker;;
          x <- load_function (worker_function w);;
          let priority' := first_priority (job_list x) in
          head <- index (job_list x) priority';;
          server_job <- deref head;;
          j <- load_job server_job;;
          f <- deref (function j);;
          update_function f (fun x =>
            set_job_list (assign (job_list x) priority' (function_next j)) x);;
          x <- load_function f;;
          when (bool_decide (job_end x priority' = Some server_job))
            (update_function f (fun x =>
               set_job_end (assign (job_end x) priority' None) x));;
          update_function f (fun x =>
            set_job_count (wrap32 (job_count x - 1)) x);;
          update_job server_job (set_worker (Some server_worker));;
          update_worker server_worker (set_worker_job (Some server_job));;
          update_function f (fun x =>
            set_job_running (wrap32 (job_running x + 1)) x);;
          j <- load_job server_job;;
          if has_flag (job_options j) GEARMAN_SERVER_JOB_IGNORE then
            gearman_server_job_free server_job;;
            gearman_server_job_take fuel' server_con
          else ret (Some server_job)
      end
  end.

(** The nested loops of [gearman_server_job_peek]: the head of the first
    non-empty priority list among the functions, in the order of the
    connection's workers, whose [job_count] is not 0. *)
Fixpoint job_peek_head (server : gearman_server_st) (l : list ptr)
  : option (option ptr) :=
  match l with
  | [] => Some None
  | server_worker :: l' =>
      match workers server !! server_worker with
      | None => None
      | Some w =>
          match functions server !! worker_function w with
          | None => None
          | Some x =>
              if negb (job_count x =? 0) then
                match first_priority (job_list x) with
                | GEARMAN_JOB_PRIORITY_MAX => job_peek_head server l'
                | priority' => Some (job_list x priority')
                end
              else job_peek_head server l'
          end
      end
  end.

Fixpoint gearman_server_job_peek (fuel : nat) (server_con : ptr)
  : M (option ptr) :=
  match fuel with
  | O => undefined
  | S fuel' =>
      c <- load_con server_con;;
      s <- get;;
      head <- deref (job_peek_head s (con_worker_list c));;
      match head with
      | None => ret None
      | Some server_job =>
          j <- load_job server_job;;
          if has_flag (job_options j) GEARMAN_SERVER_JOB_IGNORE then
            (* This is only happens when a client disconnects from a
               foreground job. *)
            update_job server_job (fun j =>
              set_job_options
                (clear_flag (job_options j) GEARMAN_SERVER_JOB_IGNORE) j);;
            taken <- gearman_server_job_take (S fuel') server_con;;
            taken <- deref taken;;
            gearman_server_job_free taken;;
            gearman_server_job_peek fuel' server_con
          else ret (Some server_job)
      end
  end.

(** The loop of [_server_job_get_unique] over one bucket. *)
Fixpoint _server_job_get_unique_loop (server : gearman_server_st)
  (chain : list ptr) (unique_key' : Z) (server_function : ptr)
  (unique' : list Z) (data_size' : nat) : option (option ptr) :=
  match chain with
  | [] => Some None
  | server_job :: chain' =>
      match jobs server !! server_job with
      | None => None
      | Some j =>
          let same :=
            if decide (data_size' = 0%nat) then
              if bool_decide (function j = Some server_function) &&
                 (unique_key j =? unique_key')
              then strcmp_eq (unique j) unique'
              else Some false
            else
              if bool_decide (function j = Some server_function) &&
                 (unique_key j =? unique_key') &&
                 bool_decide (data_size j = data_size')
              then match data j with
                   | None => None
                   | Some d => memcmp_eq d unique' data_size'
                   end
              else Some false in
          match same with
          | None => None
          | Some true => Some (Some server_job)
          | Some false =>
              _server_job_get_unique_loop server chain' unique_key'
                server_function unique' data_size'
          end
      end
  end.

(** [_server_job_get_unique] only reads. *)
Definition _server_job_get_unique (server : gearman_server_st)
  (unique_key' : Z) (server_function : ptr) (unique' : list Z)
  (data_size' : nat) : option (option ptr) :=
  _server_job_get_unique_loop server
    (unique_hash server (unique_key' mod GEARMAN_JOB_HASH_SIZE))
    unique_key' server_function unique' data_size'.

(** [uint32_t key;] of [gearman_server_job_add] is [None] until it is
    assigned; reading it before gives whatever the stack holds. *)
Definition read_key (key : option Z) : Z :=
  match key with
  | Some k => k
  | None => wrap32 (indeterminate env)
  end.

(** Lines 66-92 of [gearman_server_job_add]: the search for a duplicate,
    which only reads.  The result is the pair of the locals [key] and
    [server_job]. *)
Definition job_add_lookup (server : gearman_server_st)
  (server_function : ptr) (unique' : list Z) (unique_size : nat)
  (data' : option (list Z)) (data_size' : nat)
  : option (option Z * option ptr) :=
  if decide (unique_size = 0%nat) then Some (None, None)
  else
    let dash :=
      if decide (unique_size = 1%nat) then
        match head unique' with
        | None => None
        | Some c => Some (c =? 45)
        end
      else Some false in
    match dash with
    | None => None
    | Some true =>
        if decide (data_size' = 0%nat) then Some (Some 0, None)
        else
          (* Look up job via unique data when unique = '-'. *)
          match data' with
          | None => None
          | Some d =>
              match _server_job_hash d data_size' with
              | None => None
              | Some key =>
                  match _server_job_get_unique server key server_function d
                          data_size' with
                  | None => None
                  | Some server_job => Some (Some key, server_job)
                  end
              end
          end
    | Some false =>
        (* Look up job via unique ID first to make sure it's not a
           duplicate. *)
        match _server_job_hash unique' unique_size with
        | None => None
        | Some key =>
            match _server_job_get_unique server key server_function unique'
                    0%nat with
            | None => None
            | Some server_job => Some (Some key, server_job)
            end
        end
    end.

(** Invokes a persistent-queue callback: the call is recorded, and the
    callback answers. *)
Definition queue_invoke (fn : list queue_call -> gearman_return_t)
  (call : queue_call) : M gearman_return_t :=
  modify (fun s => set_queue_log (call :: queue_log s) s);;
  s <- get;;
  ret (fn (queue_log s)).

(** Lines 133-164 of [gearman_server_job_add]: replay, or write-through to
    the persistent queue.  [Some r] is the early [return NULL] with
    [*ret_ptr == r], after the job was freed. *)
Definition job_add_persist (server_job : ptr) (function_name' : list Z)
  (function_name_size' : nat) (unique_size : nat) (data' : option (list Z))
  (data_size' : nat) (priority' : gearman_job_priority_t)
  (server_client : option ptr) : M (option gearman_return_t) :=
  s <- get;;
  if has_flag (options s) GEARMAN_SERVER_QUEUE_REPLAY then
    update_job server_job (fun j =>
      set_job_options (set_flag (job_options j) GEARMAN_SERVER_JOB_QUEUED) j);;
    ret None
  else
    match server_client, queue_add_fn (gearman s) with
    | None, Some add_fn =>
        j <- load_job server_job;;
        r <- queue_invoke add_fn
               (QueueAdd (unique j) unique_size function_name'
                  function_name_size' data' data_size' priority');;
        if negb (is_success r) then
          update_job server_job (set_data None);;
          gearman_server_job_free server_job;;
          ret (Some r)
        else
          flushed <-
            match queue_flush_fn (gearman s) with
            | Some flush_fn =>
                r <- queue_invoke flush_fn QueueFlush;;
                if negb (is_success r) then
                  update_job server_job (set_data None);;
                  gearman_server_job_free server_job;;
                  ret (Some r)
                else ret None
            | None => ret None
            end;;
          match flushed with
          | Some r => ret (Some r)
          | None =>
              update_job server_job (fun j =>
                set_job_options
                  (set_flag (job_options j) GEARMAN_SERVER_JOB_QUEUED) j);;
              ret None
          end
    | _, _ => ret None
    end.

(** Lines 96-131 of [gearman_server_job_add]: the bound on the queue, the
    allocation, and the entry into both hash tables.  [inl server_job] is
    the fresh job; [inr r] is the early [return NULL] with [*ret_ptr == r]. *)
Definition job_add_create (server_function : ptr) (key : option Z)
  (unique' : list Z) (unique_size : nat) (data' : option (list Z))
  (data_size' : nat) (priority' : gearman_job_priority_t)
  : M (ptr + gearman_return_t) :=
  x <- load_function server_function;;
  if (0 <? max_queue_size x) && (max_queue_size x <=? job_total x)
  then ret (inr GEARMAN_JOB_QUEUE_FULL)
  else
    allocated <- gearman_server_job_create None;;
    match allocated with
    | None => ret (inr GEARMAN_MEMORY_ALLOCATION_FAILURE)
    | Some server_job =>
        update_job server_job (set_priority priority');;
        update_job server_job (set_function (Some server_function));;
        update_function server_function (fun x =>
          set_job_total (wrap32 (job_total x + 1)) x);;
        s <- get;;
        update_job server_job
          (set_job_handle
             (snprintf_handle GEARMAN_JOB_HANDLE_SIZE (job_handle_prefix s)
                (job_handle_count s)));;
        update_job server_job
          (set_unique (snprintf_s GEARMAN_UNIQUE_SIZE unique_size unique'));;
        modify (fun s =>
          set_job_handle_count (wrap32 (job_handle_count s + 1)) s);;
        update_job server_job (set_data data');;
        update_job server_job (set_data_size data_size');;
        let key := read_key key in
        update_job server_job (set_unique_key key);;
        let key := key mod GEARMAN_JOB_HASH_SIZE in
        modify (fun s =>
          set_unique_count (wrap32 (unique_count s + 1))
            (set_unique_hash
               (GEARMAN_HASH_ADD (unique_hash s) key server_job) s));;
        j <- load_job server_job;;
        key <- deref (_server_job_hash (job_handle j)
                        (length (job_handle j)));;
        update_job server_job (set_job_handle_key key);;
        let key := key mod GEARMAN_JOB_HASH_SIZE in
        modify (fun s =>
          set_job_hash_count (wrap32 (job_hash_count s + 1))
            (set_job_hash (GEARMAN_HASH_ADD (job_hash s) key server_job) s));;
        ret (inl server_job)
    end.

(** Lines 166-181 of [gearman_server_job_add]: the job is queued; when that
    fails the persistent queue is told, as far as it can be, and the job is
    freed. *)
Definition job_add_enqueue (server_job : ptr) (unique_size : nat)
  (server_client : option ptr) : M (option ptr * gearman_return_t) :=
  r <- gearman_server_job_queue server_job;;
  if negb (is_success r) then
    s <- get;;
    match server_client, queue_done_fn (gearman s) with
    | None, Some done_fn =>
        (* Do our best to remove the job from the queue. *)
        j <- load_job server_job;;
        f <- deref (function j);;
        x <- load_function f;;
        _ <- queue_invoke done_fn
               (QueueDone (unique j) unique_size (function_name x)
                  (function_name_size x));;
        ret tt
    | _, _ => ret tt
    end;;
    gearman_server_job_free server_job;;
    ret (None, r)
  else ret (Some server_job, r).

(** Lines 186-190 of [gearman_server_job_add]. *)
Definition job_add_client (server_job : ptr) (server_client : option ptr)
  : M unit :=
  match server_client with
  | Some client =>
      update_client client (set_client_job (Some server_job));;
      (* GEARMAN_LIST_ADD(server_job->client, server_client, job_) *)
      update_job server_job (fun j =>
        set_client_list (client :: client_list j) j)
  | None => ret tt
  end.

(** The result is the returned pointer and the final [*ret_ptr]. *)
Definition gearman_server_job_add (function_name' : list Z)
  (function_name_size' : nat) (unique' : list Z) (unique_size : nat)
  (data' : option (list Z)) (data_size' : nat)
  (priority' : gearman_job_priority_t) (server_client : option ptr)
  : M (option ptr * gearman_return_t) :=
  found <- gearman_server_function_get function_name' function_name_size';;
  match found with
  | None => ret (None, GEARMAN_MEMORY_ALLOCATION_FAILURE)
  | Some server_function =>
      s <- get;;
      '(key, existing) <- deref (job_add_lookup s server_function unique'
                                   unique_size data' data_size');;
      result <-
        match existing with
        | Some server_job => ret (Some server_job, GEARMAN_JOB_EXISTS)
        | None =>
            created <- job_add_create server_function key unique' unique_size
                         data' data_size' priority';;
            match created with
            | inr r => ret (None, r)
            | inl server_job =>
                failed <- job_add_persist server_job function_name'
                            function_name_size' unique_size data' data_size'
                            priority' server_client;;
                match failed with
                | Some r => ret (None, r)
                | None => job_add_enqueue server_job unique_size server_client
                end
            end
        end;;
      match result with
      | (None, r) => ret (None, r)
      | (Some server_job, r) =>
          job_add_client server_job server_client;;
          ret (Some server_job, r)
      end
  end.

End Broker.

(** ** Observations on a server state *)

(** [chain jobs head l]: following [function_next] from [head] visits
    exactly the jobs [l], in this order, and ends at [NULL]. *)
Inductive chain (jobs : gmap ptr gearman_server_job_st)
  : option ptr -> list ptr -> Prop :=
  | chain_nil : chain jobs None []
  | chain_cons (p : ptr) (j : gearman_server_job_st) (l : list ptr) :
      jobs !! p = Some j ->
      chain jobs (function_next j) l ->
      chain jobs (Some p) (p :: l).

(** The same walk as a function, for at most [fuel] jobs. *)
Fixpoint chain_list (fuel : nat) (jobs : gmap ptr gearman_server_job_st)
  (head : option ptr) : option (list ptr) :=
  match head with
  | None => Some []
  | Some p =>
      match fuel with
      | O => None
      | S fuel' =>
          match jobs !! p with
          | None => None
          | Some j =>
              match chain_list fuel' jobs (function_next j) with
              | Some l => Some (p :: l)
              | None => None
              end
          end
      end
  end.

(** [queue_of s f priority' l]: [l] is the priority list
    [job_list[priority']] of the function at [f]. *)
Definition queue_of (s : gearman_server_st) (f : ptr)
  (priority' : gearman_job_priority_t) (l : list ptr) : Prop :=
  exists x, functions s !! f = Some x /\
            priority' <> GEARMAN_JOB_PRIORITY_MAX /\
            chain (jobs s) (job_list x priority') l.

(** The NOOP packet that [gearman_server_job_queue] sends. *)
Definition noop_packet : gearman_packet_st :=
  {| magic := GEARMAN_MAGIC_RESPONSE; command := GEARMAN_COMMAND_NOOP |}.

(** The workers of [l] and their connections are allocated. *)
Definition wakeable (wks : gmap ptr gearman_server_worker_st)
  (cs : gmap ptr gearman_server_con_st) (l : list ptr) : Prop :=
  forall w, w ∈ l ->
    exists wk c, wks !! w = Some wk /\ cs !! worker_con wk = Some c.

(** The condition under which the loop of [gearman_server_job_queue] does
    not [continue]. *)
Definition needs_noop (c : gearman_server_con_st) : bool :=
  noop_queued c || has_flag (con_options c) GEARMAN_SERVER_CON_SLEEPING.

(** What the wake-up loop did to connection [c0], now [c1]: it appended
    [n] NOOP packets. *)
Definition woken (c0 c1 : gearman_server_con_st) (n : nat) : Prop :=
  con_options c1 = con_options c0 /\
  con_worker_list c1 = con_worker_list c0 /\
  io_packet_list c1 = io_packet_list c0 ++ repeat noop_packet n /\
  (n = 0%nat -> c1 = c0) /\
  (n <> 0%nat -> noop_queued c1 = true) /\
  (needs_noop c0 = false -> n = 0%nat).

(** ** The effect of [gearman_server_job_queue] in closed form *)

(** The return code of the wake-up loop over [l] and the connections it
    leaves, from the workers [wks] and the connections [cs]. *)
Fixpoint noop_cons (env : environment)
  (wks : gmap ptr gearman_server_worker_st) (l : list ptr)
  (cs : gmap ptr gearman_server_con_st)
  : gearman_return_t * gmap ptr gearman_server_con_st :=
  match l with
  | [] => (GEARMAN_SUCCESS, cs)
  | w :: l' =>
      match wks !! w with
      | None => (GEARMAN_SUCCESS, cs)
      | Some wk =>
          match cs !! worker_con wk with
          | None => (GEARMAN_SUCCESS, cs)
          | Some c =>
              if needs_noop c then
                if is_success (io_packet_add_ret env (worker_con wk)) then
                  noop_cons env wks l'
                    (<[worker_con wk :=
                         set_noop_queued true
                           (set_io_packet_list
                              (io_packet_list c ++ [noop_packet]) c)]> cs)
                else (io_packet_add_ret env (worker_con wk), cs)
              else noop_cons env wks l' cs
          end
      end
  end.

(** The job after lines 361-369. *)
Definition queue_reset (j : gearman_server_job_st) : gearman_server_job_st :=
  set_denominator 0
    (set_numerator 0
       (set_worker None
          (if bool_decide (worker j <> None) then set_function_next None j
           else j))).

(** Its function after lines 361-365. *)
Definition queue_release (j : gearman_server_job_st)
  (x : gearman_server_function_st) : gearman_server_function_st :=
  if bool_decide (worker j <> None)
  then set_job_running (wrap32 (job_running x - 1)) x
  else x.

(** The function after lines 391-399, [p] being the job queued. *)
Definition queue_append (p : ptr) (priority' : gearman_job_priority_t)
  (x : gearman_server_function_st) : gearman_server_function_st :=
  set_job_count (wrap32 (job_count x + 1))
    (set_job_end (assign (job_end x) priority' (Some p))
       (match job_list x priority' with
        | None => set_job_list (assign (job_list x) priority' (Some p)) x
        | Some _ => x
        end)).

(** The jobs after lines 391-399: the last job of a non-empty list is
    linked to [p]. *)
Definition queue_link (p : ptr) (priority' : gearman_job_priority_t)
  (x : gearman_server_function_st)
  (jobs' : gmap ptr gearman_server_job_st)
  : gmap ptr gearman_server_job_st :=
  match job_list x priority', job_end x priority' with
  | Some _, Some e =>
      match jobs' !! e with
      | Some je => <[e := set_function_next (Some p) je]> jobs'
      | None => jobs'
      end
  | _, _ => jobs'
  end.

(** The return code of [gearman_server_job_queue] for the job [j] of the
    function [x], and the state in which it returns. *)
Definition queue_ret (env : environment) (x : gearman_server_function_st)
  (s : gearman_server_st) : gearman_return_t :=
  fst (noop_cons env (workers s) (worker_list x) (cons s)).

Definition queue_state (env : environment) (p f : ptr)
  (j : gearman_server_job_st) (x : gearman_server_function_st)
  (s : gearman_server_st) : gearman_server_st :=
  let jobs1 := <[p := queue_reset j]> (jobs s) in
  let x1 := queue_release j x in
  let cons' := snd (noop_cons env (workers s) (worker_list x) (cons s)) in
  if is_success (queue_ret env x s) then
    set_functions (<[f := queue_append p (priority j) x1]> (functions s))
      (set_jobs (queue_link p (priority j) x1 jobs1) (set_cons cons' s))
  else
    set_functions (<[f := x1]> (functions s))
      (set_jobs jobs1 (set_cons cons' s)).

(** ** The effect of [gearman_server_job_take] in closed form *)

(** The worker [w] is declared capable of a function with [job_count == 0]. *)
Definition idle (s : gearman_server_st) (w : ptr) : Prop :=
  exists wk x, workers s !! w = Some wk /\
               functions s !! worker_function wk = Some x /\
               job_count x = 0.

(** The function after lines 337-345, [p] being the job taken from the
    head of its list [priority']. *)
Definition take_function (p : ptr) (priority' : gearman_job_priority_t)
  (j : gearman_server_job_st) (x : gearman_server_function_st)
  : gearman_server_function_st :=
  let x := set_job_list (assign (job_list x) priority' (function_next j)) x in
  let x := if bool_decide (job_end x priority' = Some p)
           then set_job_end (assign (job_end x) priority' None) x
           else x in
  let x := set_job_count (wrap32 (job_count x - 1)) x in
  set_job_running (wrap32 (job_running x + 1)) x.

(** The state after lines 337-345: the job [p] left the list of the
    function [f] and is assigned to the worker [w]. *)
Definition take_state (p w f : ptr) (priority' : gearman_job_priority_t)
  (j : gearman_server_job_st) (x : gearman_server_function_st)
  (wk : gearman_server_worker_st) (s : gearman_server_st)
  : gearman_server_st :=
  set_functions (<[f := take_function p priority' j x]> (functions s))
    (set_workers (<[w := set_worker_job (Some p) wk]> (workers s))
       (set_jobs (<[p := set_worker (Some w) j]> (jobs s)) s)).

(** ** The effect of [gearman_server_job_free] in closed form *)

(** The clients on the list of the job at [p] are allocated, distinct, and
    registered for this job. *)
Definition clients_ok (cls : gmap ptr gearman_server_client_st) (p : ptr)
  (l : list ptr) : Prop :=
  NoDup l /\
  forall c, c ∈ l -> exists cl, cls !! c = Some cl /\ client_job cl = Some p.

(** The job after its clients were freed one by one. *)
Definition free_clients_job (j : gearman_server_job_st)
  : gearman_server_job_st :=
  match client_list j, worker j with
  | [], _ => j
  | _ :: _, None =>
      set_client_list []
        (set_job_options
           (set_flag (job_options j) GEARMAN_SERVER_JOB_IGNORE) j)
  | _ :: _, Some _ => set_client_list [] j
  end.

(** The state in which [gearman_server_job_free] returns, for the job [j]
    at [p] of the function [x] at [f]. *)
Definition free_state (p f : ptr) (j : gearman_server_job_st)
  (x : gearman_server_function_st) (s : gearman_server_st)
  : gearman_server_st :=
  let x1 := queue_release j x in
  let x2 := set_job_total (wrap32 (job_total x1 - 1)) x1 in
  let jobs1 := <[p := free_clients_job j]> (jobs s) in
  let recycled :=
    has_flag (job_options j) GEARMAN_SERVER_JOB_ALLOCATED &&
    (free_job_count s <? GEARMAN_MAX_FREE_SERVER_JOB) in
  let released :=
    has_flag (job_options j) GEARMAN_SERVER_JOB_ALLOCATED &&
    negb (free_job_count s <? GEARMAN_MAX_FREE_SERVER_JOB) in
  {| gearman := gearman s;
     options := options s;
     job_handle_prefix := job_handle_prefix s;
     job_handle_count := job_handle_count s;
     function_list := function_list s;
     function_count := function_count s;
     job_hash :=
       GEARMAN_HASH_DEL (job_hash s)
         (job_handle_key j mod GEARMAN_JOB_HASH_SIZE) p;
     job_hash_count := wrap32 (job_hash_count s - 1);
     unique_hash :=
       GEARMAN_HASH_DEL (unique_hash s)
         (unique_key j mod GEARMAN_JOB_HASH_SIZE) p;
     unique_count := wrap32 (unique_count s - 1);
     free_job_list :=
       if recycled then p :: free_job_list s else free_job_list s;
     free_job_count :=
       if recycled then wrap32 (free_job_count s + 1) else free_job_count s;
     functions := <[f := x2]> (functions s);
     jobs := if released then delete p jobs1 else jobs1;
     workers :=
       match worker j with
       | Some w =>
           match workers s !! w with
           | Some wk => <[w := set_worker_job None wk]> (workers s)
           | None => workers s
           end
       | None => workers s
       end;
     cons := cons s;
     clients := foldr delete (clients s) (client_list j);
     queue_log := queue_log s |}.

(** ** The effect of [gearman_server_job_add] in closed form *)

(** The function that [gearman_server_function_get] creates. *)
Definition new_function (function_name' : list Z)
  (function_name_size' : nat) : gearman_server_function_st :=
  set_function_name_size function_name_size'
    (set_function_name (Some (firstn function_name_size' function_name' ++ [0]))
       (set_max_queue_size GEARMAN_DEFAULT_MAX_QUEUE_SIZE
          (set_function_options
             (set_flag 0 GEARMAN_SERVER_FUNCTION_ALLOCATED)
             zeroed_function))).

(** The state with that function, at a fresh address. *)
Definition function_added (function_name' : list Z)
  (function_name_size' : nat) (s : gearman_server_st) : gearman_server_st :=
  let f := fresh (dom (functions s)) in
  set_functions
    (<[f := new_function function_name' function_name_size']> (functions s))
    (set_function_count (wrap32 (function_count s + 1))
       (set_function_list (f :: function_list s) s)).

(** Where [gearman_server_job_create] finds the job structure: the head of
    the free list, or a fresh allocation. *)
Definition job_slot (env : environment) (s : gearman_server_st)
  : option ptr :=
  if 0 <? free_job_count s then head (free_job_list s)
  else if malloc_job env then Some (fresh (dom (jobs s)))
  else None.

(** The job that lines 103-131 of [gearman_server_job_add] fill in. *)
Definition created_job (env : environment) (f : ptr) (key : option Z)
  (unique' : list Z) (unique_size : nat) (data' : option (list Z))
  (data_size' : nat) (priority' : gearman_job_priority_t)
  (s : gearman_server_st) : gearman_server_job_st :=
  let handle :=
    snprintf_handle GEARMAN_JOB_HANDLE_SIZE (job_handle_prefix s)
      (job_handle_count s) in
  {| job_handle := handle;
     unique := snprintf_s GEARMAN_UNIQUE_SIZE unique_size unique';
     job_options := set_flag 0 GEARMAN_SERVER_JOB_ALLOCATED;
     priority := priority';
     job_handle_key := HashSpec.hash handle;
     unique_key := read_key env key;
     numerator := 0; denominator := 0;
     data := data'; data_size := data_size';
     function := Some f; client_list := [];
     worker := None; function_next := None |}.

(** The state after lines 103-131: the job [j], at [p], is in both hash
    tables and counted by its function [x], at [f]. *)
Definition created_state (p f : ptr) (j : gearman_server_job_st)
  (x : gearman_server_function_st) (s : gearman_server_st)
  : gearman_server_st :=
  let recycled := 0 <? free_job_count s in
  {| gearman := gearman s;
     options := options s;
     job_handle_prefix := job_handle_prefix s;
     job_handle_count := wrap32 (job_handle_count s + 1);
     function_list := function_list s;
     function_count := function_count s;
     job_hash :=
       GEARMAN_HASH_ADD (job_hash s)
         (job_handle_key j mod GEARMAN_JOB_HASH_SIZE) p;
     job_hash_count := wrap32 (job_hash_count s + 1);
     unique_hash :=
       GEARMAN_HASH_ADD (unique_hash s)
         (unique_key j mod GEARMAN_JOB_HASH_SIZE) p;
     unique_count := wrap32 (unique_count s + 1);
     free_job_list :=
       if recycled then unlink p (free_job_list s) else free_job_list s;
     free_job_count :=
       if recycled then wrap32 (free_job_count s - 1) else free_job_count s;
     functions :=
       <[f := set_job_total (wrap32 (job_total x + 1)) x]> (functions s);
     jobs := <[p := j]> (jobs s);
     workers := workers s;
     cons := cons s;
     clients := clients s;
     queue_log := queue_log s |}.

(** The bound of line 96. *)
Definition queue_full (x : gearman_server_function_st) : bool :=
  (0 <? max_queue_size x) && (max_queue_size x <=? job_total x).

(** [server_job->options|= GEARMAN_SERVER_JOB_QUEUED] *)
Definition queued_job (j : gearman_server_job_st) : gearman_server_job_st :=
  set_job_options (set_flag (job_options j) GEARMAN_SERVER_JOB_QUEUED) j.

(** The state after a persistent-queue callback was invoked. *)
Definition logged (call : queue_call) (s : gearman_server_st)
  : gearman_server_st :=
  set_queue_log (call :: queue_log s) s.

(** The state after lines 186-190. *)
Definition client_added (server_client : option ptr) (p : ptr)
  (s : gearman_server_st) : gearman_server_st :=
  match server_client with
  | None => s
  | Some c =>
      match clients s !! c, jobs s !! p with
      | Some cl, Some j =>
          set_jobs (<[p := set_client_list (c :: client_list j) j]> (jobs s))
            (set_clients (<[c := set_client_job (Some p) cl]> (clients s)) s)
      | _, _ => s
      end
  end.

(** ** The invariant of the broker *)

(** The job at [p] is in the hash table of the job handles. *)
Definition live (s : gearman_server_st) (p : ptr) : Prop :=
  exists k, p ∈ job_hash s k.

(** The payload of a job is there: [data_size] bytes can be read. *)
Definition data_ok (data' : option (list Z)) (data_size' : nat) : Prop :=
  data_size' <> 0%nat ->
  exists d, data' = Some d /\ (data_size' <= length d)%nat.

(** The three priority lists [q] of the function [x], at [f]: the chains of
    [job_list], ended by [job_end], hold live jobs of this function and
    priority that no worker has, and [job_count] counts them. *)
Definition queues_ok (s : gearman_server_st) (f : ptr)
  (x : gearman_server_function_st)
  (q : gearman_job_priority_t -> list ptr) : Prop :=
  (forall priority', priority' <> GEARMAN_JOB_PRIORITY_MAX ->
     chain (jobs s) (job_list x priority') (q priority') /\
     (forall e, last (q priority') = Some e ->
        job_end x priority' = Some e) /\
     (forall p, p ∈ q priority' ->
        live s p /\
        exists j, jobs s !! p = Some j /\ function j = Some f /\
                  priority j = priority' /\ worker j = None)) /\
  job_count x
  = wrap32 (Z.of_nat (length (q GEARMAN_JOB_PRIORITY_HIGH) +
                      length (q GEARMAN_JOB_PRIORITY_NORMAL) +
                      length (q GEARMAN_JOB_PRIORITY_LOW))).

(** A live job [j], at [p]: its function is registered, its payload and
    clients are there, and it has a worker or is on the priority list of
    its function, unless it is the job [pending] between its creation and
    its first queueing. *)
Definition job_ok (pending : option ptr) (s : gearman_server_st) (p : ptr)
  (j : gearman_server_job_st) : Prop :=
  exists f,
    function j = Some f /\
    f ∈ function_list s /\
    priority j <> GEARMAN_JOB_PRIORITY_MAX /\
    data_ok (data j) (data_size j) /\
    clients_ok (clients s) p (client_list j) /\
    match worker j with
    | Some w => is_Some (workers s !! w)
    | None =>
        if decide (pending = Some p) then function_next j = None
        else exists l, queue_of s f (priority j) l /\ p ∈ l
    end.

Record server_inv_upto (pending : option ptr) (s : gearman_server_st)
  : Prop := {
  inv_function_list :
    forall f, f ∈ function_list s ->
      exists x name, functions s !! f = Some x /\
                     function_name x = Some name /\
                     (function_name_size x <= length name)%nat;
  inv_workers :
    forall f x, f ∈ function_list s -> functions s !! f = Some x ->
      wakeable (workers s) (cons s) (worker_list x);
  inv_cons :
    forall c con, cons s !! c = Some con ->
      forall w, w ∈ con_worker_list con ->
        exists wk, workers s !! w = Some wk /\
                   worker_function wk ∈ function_list s;
  inv_job_hash :
    forall k p, p ∈ job_hash s k ->
      exists j, jobs s !! p = Some j /\
                k = job_handle_key j mod GEARMAN_JOB_HASH_SIZE;
  inv_job_hash_NoDup : forall k, NoDup (job_hash s k);
  inv_unique_hash :
    forall k p, p ∈ unique_hash s k <->
      live s p /\
      exists j, jobs s !! p = Some j /\
                k = unique_key j mod GEARMAN_JOB_HASH_SIZE;
  inv_unique_hash_NoDup : forall k, NoDup (unique_hash s k);
  inv_free_count :
    free_job_count s = Z.of_nat (length (free_job_list s)) /\
    free_job_count s <= GEARMAN_MAX_FREE_SERVER_JOB;
  inv_free_list :
    NoDup (free_job_list s) /\
    forall p, p ∈ free_job_list s -> is_Some (jobs s !! p) /\ ~ live s p;
  inv_live :
    forall p j, live s p -> jobs s !! p = Some j -> job_ok pending s p j;
  inv_queues :
    forall f x, f ∈ function_list s -> functions s !! f = Some x ->
      exists q, queues_ok s f x q /\
                forall p priority', pending = Some p ->
                  priority' <> GEARMAN_JOB_PRIORITY_MAX -> p ∉ q priority';
  inv_pending :
    forall p, pending = Some p ->
      live s p /\ exists j, jobs s !! p = Some j /\ worker j = None
}.

(** The invariant between two operations: no job is pending. *)
Definition server_inv (s : gearman_server_st) : Prop :=
  server_inv_upto None s.

(** What a caller of [gearman_server_job_add] passes: buffers that hold as
    many bytes as their sizes say, a unique that is a C string, a priority
    of the enumeration, and a client registered for no job yet. *)
Record job_add_args_ok (s : gearman_server_st) (function_name' : list Z)
  (function_name_size' : nat) (unique' : list Z) (unique_size : nat)
  (data' : option (list Z)) (data_size' : nat)
  (priority' : gearman_job_priority_t) (server_client : option ptr)
  : Prop := {
  args_function_name : (function_name_size' <= length function_name')%nat;
  args_unique : (unique_size <= length unique')%nat;
  args_unique_nul : unique_size <> 0%nat -> 0 ∈ unique';
  args_data : data_ok data' data_size';
  args_priority : priority' <> GEARMAN_JOB_PRIORITY_MAX;
  args_client :
    forall c, server_client = Some c ->
      exists cl, clients s !! c = Some cl /\ client_job cl = None
}.

(** *** [gearman_server_job_create] *)

Definition create_state (p : ptr) (s : gearman_server_st)
  : gearman_server_st :=
  let allocated :=
    set_job_options (set_flag 0 GEARMAN_SERVER_JOB_ALLOCATED) zeroed_job in
  if 0 <? free_job_count s then
    set_jobs (<[p := allocated]> (jobs s))
      (set_free_job_count (wrap32 (free_job_count s - 1))
         (set_free_job_list (unlink p (free_job_list s)) s))
  else set_jobs (<[p := allocated]> (jobs s)) s.

(** Two jobs that differ in their flags, progress, strings and clients
    only. *)
Definition job_sim (j j' : gearman_server_job_st) : Prop :=
  function j' = function j /\ priority j' = priority j /\
  worker j' = worker j /\ function_next j' = function_next j /\
  data j' = data j /\ data_size j' = data_size j /\
  unique_key j' = unique_key j /\
  job_handle_key j' = job_handle_key j.

Definition opt_sim {A} (R : A -> A -> Prop) (o o' : option A) : Prop :=
  match o, o' with
  | Some a, Some a' => R a a'
  | None, None => True
  | _, _ => False
  end.

Definition worker_sim (w w' : gearman_server_worker_st) : Prop :=
  worker_con w' = worker_con w /\ worker_function w' = worker_function w.

Definition con_sim (c c' : gearman_server_con_st) : Prop :=
  con_worker_list c' = con_worker_list c.

(** Two states that differ only in what the invariant does not read. *)
Record state_sim (s s' : gearman_server_st) : Prop := {
  sim_function_list : function_list s' = function_list s;
  sim_functions : functions s' = functions s;
  sim_workers : forall w, opt_sim worker_sim (workers s !! w) (workers s' !! w);
  sim_cons : forall c, opt_sim con_sim (cons s !! c) (cons s' !! c);
  sim_job_hash : forall k, job_hash s' k = job_hash s k;
  sim_unique_hash : forall k, unique_hash s' k = unique_hash s k;
  sim_free_job_list : free_job_list s' = free_job_list s;
  sim_free_job_count : free_job_count s' = free_job_count s;
  sim_clients :
    forall p j j', live s p -> jobs s !! p = Some j -> jobs s' !! p = Some j' ->
      clients_ok (clients s) p (client_list j) ->
      clients_ok (clients s') p (client_list j');
  sim_jobs :
    forall p, opt_sim (fun j j' => live s p -> job_sim j j')
                (jobs s !! p) (jobs s' !! p)
}.

(** *** Queueing a job *)

(** The state after lines 361-369 of [gearman_server_job_queue]. *)
Definition queue_prepared (p f : ptr) (j : gearman_server_job_st)
  (x : gearman_server_function_st) (s : gearman_server_st)
  : gearman_server_st :=
  set_functions (<[f := queue_release j x]> (functions s))
    (set_jobs (<[p := queue_reset j]> (jobs s)) s).

(** The state after lines 391-399. *)
Definition queue_appended (p f : ptr) (priority' : gearman_job_priority_t)
  (x : gearman_server_function_st) (s : gearman_server_st)
  : gearman_server_st :=
  set_functions (<[f := queue_append p priority' x]> (functions s))
    (set_jobs (queue_link p priority' x (jobs s)) s).

(** The submission is written through to the persistent queue. *)
Definition persists (server_client : option ptr) (s : gearman_server_st)
  : bool :=
  match server_client, queue_add_fn (gearman s) with
  | None, Some _ => true
  | _, _ => false
  end.

(** The early return of lines 133-164, if any, and the state after them,
    for the fresh job [j] at [p] of the function [x] at [f]. *)
Definition persisted (function_name' : list Z) (function_name_size' : nat)
  (unique_size : nat) (data' : option (list Z)) (data_size' : nat)
  (priority' : gearman_job_priority_t) (server_client : option ptr)
  (p f : ptr) (j : gearman_server_job_st) (x : gearman_server_function_st)
  (s : gearman_server_st) : option gearman_return_t * gearman_server_st :=
  let queued s' := set_jobs (<[p := queued_job j]> (jobs s)) s' in
  let dropped s' :=
    free_state p f (set_data None j) x
      (set_jobs (<[p := set_data None j]> (jobs s)) s') in
  if has_flag (options s) GEARMAN_SERVER_QUEUE_REPLAY then (None, queued s)
  else
    match server_client, queue_add_fn (gearman s) with
    | None, Some add_fn =>
        let call := QueueAdd (unique j) unique_size function_name'
                      function_name_size' data' data_size' priority' in
        let s1 := logged call s in
        if is_success (add_fn (call :: queue_log s)) then
          match queue_flush_fn (gearman s) with
          | Some flush_fn =>
              let s2 := logged QueueFlush s1 in
              if is_success (flush_fn (QueueFlush :: call :: queue_log s))
              then (None, queued s2)
              else (Some (flush_fn (QueueFlush :: call :: queue_log s)),
                    dropped s2)
          | None => (None, queued s1)
          end
        else (Some (add_fn (call :: queue_log s)), dropped s1)
    | _, _ => (None, s)
    end.

(** The job that lines 133-164 leave at [p] when they do not return. *)
Definition persisted_job (server_client : option ptr)
  (j : gearman_server_job_st) (s : gearman_server_st)
  : gearman_server_job_st :=
  if has_flag (options s) GEARMAN_SERVER_QUEUE_REPLAY || persists server_client s
  then queued_job j else j.

(** The result of lines 166-181 and the state after them. *)
Definition enqueued (env : environment) (unique_size : nat)
  (server_client : option ptr) (p f : ptr) (j : gearman_server_job_st)
  (x : gearman_server_function_st) (s : gearman_server_st)
  : (option ptr * gearman_return_t) * gearman_server_st :=
  let r := queue_ret env x s in
  let s1 := queue_state env p f j x s in
  if is_success r then ((Some p, r), s1)
  else
    let call := QueueDone (unique j) unique_size (function_name x)
                  (function_name_size x) in
    ((None, r),
     free_state p f (queue_reset j) x
       (match server_client, queue_done_fn (gearman s) with
        | None, Some _ => logged call s1
        | _, _ => s1
        end)).

(** *** The submission of a fresh job in closed form *)

(** The result of [gearman_server_job_add] and the state in which it
    returns, when the job is created at [p] for the function [x] at [f],
    found or created in the state [sf]. *)
Definition job_added (env : environment) (function_name' : list Z)
  (function_name_size' : nat) (unique' : list Z) (unique_size : nat)
  (data' : option (list Z)) (data_size' : nat)
  (priority' : gearman_job_priority_t) (server_client : option ptr)
  (f : ptr) (key : option Z) (p : ptr) (x : gearman_server_function_st)
  (sf : gearman_server_st)
  : (option ptr * gearman_return_t) * gearman_server_st :=
  let j := created_job env f key unique' unique_size data' data_size'
             priority' sf in
  let x1 := set_job_total (wrap32 (job_total x + 1)) x in
  let s1 := created_state p f j x sf in
  match persisted function_name' function_name_size' unique_size data'
          data_size' priority' server_client p f j x1 s1 with
  | (Some r, s2) => ((None, r), s2)
  | (None, s2) =>
      match enqueued env unique_size server_client p f
              (persisted_job server_client j s1) x1 s2 with
      | ((Some p', r), s3) => ((Some p', r), client_added server_client p' s3)
      | ((None, r), s3) => ((None, r), s3)
      end
  end.

(** [fifo s x priority' l]: the list [job_list[priority']] of the function
    [x] holds the jobs [l], first to last, and [job_end[priority']] is the
    last of them. *)
Definition fifo (s : gearman_server_st) (x : gearman_server_function_st)
  (priority' : gearman_job_priority_t) (l : list ptr) : Prop :=
  priority' <> GEARMAN_JOB_PRIORITY_MAX /\
  chain (jobs s) (job_list x priority') l /\
  forall e, last l = Some e -> job_end x priority' = Some e.

(** Two records of the same job: what identifies it, and its flags, are
    the same. *)
Definition job_same (j j' : gearman_server_job_st) : Prop :=
  job_handle j' = job_handle j /\ unique j' = unique j /\
  job_options j' = job_options j /\ priority j' = priority j /\
  job_handle_key j' = job_handle_key j /\ unique_key j' = unique_key j /\
  data j' = data j /\ data_size j' = data_size j /\
  function j' = function j.

(** ** Scenarios *)

(** Every allocation and every send succeeds; the stack holds 0 where
    [key] is. *)
Definition env_ok : environment :=
  {| malloc_function := true; malloc_function_name := true;
     malloc_job := true; io_packet_add_ret := fun _ => GEARMAN_SUCCESS;
     indeterminate := 0 |}.

(** No persistent queue is installed. *)
Definition no_queue : gearman_st :=
  {| queue_add_fn := None; queue_flush_fn := None; queue_done_fn := None |}.

(** A server that was just created, with the handle prefix ["H:s"], the
    persistent queue [g] and the options [options']. *)
Definition new_server (g : gearman_st) (options' : Z) : gearman_server_st :=
  {| gearman := g; options := options';
     job_handle_prefix := [72; 58; 115; 0]; job_handle_count := 1;
     function_list := []; function_count := 0;
     job_hash := fun _ => []; job_hash_count := 0;
     unique_hash := fun _ => []; unique_count := 0;
     free_job_list := []; free_job_count := 0;
     functions := ∅; jobs := ∅; workers := ∅; cons := ∅; clients := ∅;
     queue_log := [] |}.

Definition empty_server : gearman_server_st := new_server no_queue 0.

(** A persistent queue whose add callback fails. *)
Definition failing_queue : gearman_st :=
  {| queue_add_fn := Some (fun _ => GEARMAN_QUEUE_ERROR);
     queue_flush_fn := None;
     queue_done_fn := Some (fun _ => GEARMAN_SUCCESS) |}.


(** The state in which a run of the operation [m] returns, from [s]. *)
Definition exec {A} (m : M A) (s : gearman_server_st) : gearman_server_st :=
  match m s with
  | Some (_, s') => s'
  | None => s
  end.

(** The function ["f"], with one worker on one connection. *)
Definition function_f (max_queue_size' : Z) (worker_list' : list ptr)
  : gearman_server_function_st :=
  {| function_options := GEARMAN_SERVER_FUNCTION_ALLOCATED;
     function_name := Some [102; 0]; function_name_size := 1;
     max_queue_size := max_queue_size'; job_total := 0; job_running := 0;
     job_count := 0; worker_list := worker_list';
     job_list := fun _ => None; job_end := fun _ => None |}.

Definition worker_server (c : gearman_server_con_st) : gearman_server_st :=
  set_cons {[ 0%nat := c ]}
    (set_workers
       {[ 0%nat := {| worker_con := 0%nat; worker_function := 0%nat;
                      worker_job := None |} ]}
       (set_functions {[ 0%nat := function_f 0 [0%nat] ]}
          (set_function_count 1 (set_function_list [0%nat] empty_server)))).

(** A connection that is awake, with no NOOP queued. *)
Definition awake_con : gearman_server_con_st :=
  {| con_options := 0; noop_queued := false; con_worker_list := [0%nat];
     io_packet_list := [] |}.

(** A connection that sleeps (it sent PRE_SLEEP). *)
Definition sleeping_con : gearman_server_con_st :=
  {| con_options := GEARMAN_SERVER_CON_SLEEPING; noop_queued := false;
     con_worker_list := [0%nat]; io_packet_list := [] |}.

Definition submit (unique' : list Z) (priority' : gearman_job_priority_t)
  (server_client : option ptr) : M (option ptr * gearman_return_t) :=
  gearman_server_job_add env_ok [102; 0] 1 unique' (length unique' - 1)
    (Some [65]) 1 priority' server_client.

(** The error of the calls of the persistent queue in lines 135-161, if
    one of them fails, for the job with the unique [unique']. *)
Definition adapter_error (function_name' : list Z)
  (function_name_size' : nat) (unique' : list Z) (unique_size : nat)
  (data' : option (list Z)) (data_size' : nat)
  (priority' : gearman_job_priority_t) (server_client : option ptr)
  (s : gearman_server_st) : option gearman_return_t :=
  if has_flag (options s) GEARMAN_SERVER_QUEUE_REPLAY then None
  else
    match server_client, queue_add_fn (gearman s) with
    | None, Some add_fn =>
        let call := QueueAdd unique' unique_size function_name'
                      function_name_size' data' data_size' priority' in
        if is_success (add_fn (call :: queue_log s)) then
          match queue_flush_fn (gearman s) with
          | Some flush_fn =>
              if is_success (flush_fn (QueueFlush :: call :: queue_log s))
              then None
              else Some (flush_fn (QueueFlush :: call :: queue_log s))
          | None => None
          end
        else Some (add_fn (call :: queue_log s))
    | _, _ => None
    end.

Definition bounded_server : gearman_server_st :=
  set_functions {[ 0%nat := function_f 1 [] ]}
    (set_function_count 1 (set_function_list [0%nat] empty_server)).

(** The job at [p] of the function at [f], which had [total] jobs, is gone
    from [s'], and both hash tables are as in [s]. *)
Definition rolled_back (s s' : gearman_server_st) (p f : ptr) (total : Z)
  : Prop :=
  (forall k, job_hash s' k = job_hash s k) /\
  (forall k, unique_hash s' k = unique_hash s k) /\
  (exists x', functions s' !! f = Some x' /\ job_total x' = total) /\
  ~ live s' p.














(** The connection sleeps: [options & GEARMAN_SERVER_CON_SLEEPING]. *)
Definition sleeping (c : gearman_server_con_st) : bool :=
  has_flag (con_options c) GEARMAN_SERVER_CON_SLEEPING.

(** Three jobs of the function ["f"], submitted as LOW, NORMAL and HIGH. *)
Definition three_jobs (c : gearman_server_con_st) : gearman_server_st :=
  exec (submit [51; 0] GEARMAN_JOB_PRIORITY_HIGH None)
    (exec (submit [50; 0] GEARMAN_JOB_PRIORITY_NORMAL None)
       (exec (submit [49; 0] GEARMAN_JOB_PRIORITY_LOW None)
          (worker_server c))).

(** The first of two jobs of the function ["f"] runs, the second one is
    queued. *)
Definition running_server (c : gearman_server_con_st) : gearman_server_st :=
  exec (submit [50; 0] GEARMAN_JOB_PRIORITY_NORMAL None)
    (exec (gearman_server_job_take 1 0%nat)
       (exec (submit [49; 0] GEARMAN_JOB_PRIORITY_NORMAL None)
          (worker_server c))).

(** The worker of [running_server] went to sleep: its connection sleeps
    and no NOOP is pending. *)
Definition asleep_server : gearman_server_st :=
  set_cons {[ 0%nat := sleeping_con ]} (running_server awake_con).

(** *** Checks on concrete states *)

Definition function_at (s : gearman_server_st) (f : ptr)
  : gearman_server_function_st :=
  default zeroed_function (functions s !! f).

Definition job_at (s : gearman_server_st) (p : ptr) : gearman_server_job_st :=
  default zeroed_job (jobs s !! p).

Definition worker_at (s : gearman_server_st) (w : ptr)
  : gearman_server_worker_st :=
  default {| worker_con := 0%nat; worker_function := 0%nat;
             worker_job := None |} (workers s !! w).

Definition con_at (s : gearman_server_st) (c : ptr) : gearman_server_con_st :=
  default awake_con (cons s !! c).

Definition wakeableb (wks : gmap ptr gearman_server_worker_st)
  (cs : gmap ptr gearman_server_con_st) (l : list ptr) : bool :=
  forallb (fun w =>
    match wks !! w with
    | Some wk => match cs !! worker_con wk with
                 | Some _ => true
                 | None => false
                 end
    | None => false
    end) l.

(** The job at [p] is on the list [priority'] of the registered function
    at [f]. *)
Definition on_list (s : gearman_server_st) (p f : ptr)
  (priority' : gearman_job_priority_t) : Prop :=
  f ∈ function_list s /\ exists l, queue_of s f priority' l /\ p ∈ l.

(** Every live job without a worker is on exactly one priority list, and
    every live job with a worker is on none. *)
Definition job_states (s : gearman_server_st) : Prop :=
  forall p j, live s p -> jobs s !! p = Some j ->
    (worker j = None ->
     exists f priority',
       on_list s p f priority' /\
       forall f' priority'', on_list s p f' priority'' ->
         f' = f /\ priority'' = priority') /\
    (worker j <> None -> forall f priority', ~ on_list s p f priority').

(** The operations of the job store, as the broker calls them: a job is
    freed or queued again when it has a worker. *)
Inductive broker_step (env : environment)
  : gearman_server_st -> gearman_server_st -> Prop :=
  | step_job_add s s' fn fns u us d ds prio c r :
      job_add_args_ok s fn fns u us d ds prio c ->
      gearman_server_job_add env fn fns u us d ds prio c s = Some (r, s') ->
      broker_step env s s'
  | step_job_queue s s' p j :
      live s p -> jobs s !! p = Some j -> worker j <> None ->
      gearman_server_job_queue env p s = Some (GEARMAN_SUCCESS, s') ->
      broker_step env s s'
  | step_job_peek s s' fuel con r :
      gearman_server_job_peek fuel con s = Some (r, s') ->
      broker_step env s s'
  | step_job_take s s' fuel con r :
      gearman_server_job_take fuel con s = Some (r, s') ->
      broker_step env s s'
  | step_job_free s s' p j :
      live s p -> jobs s !! p = Some j -> worker j <> None ->
      gearman_server_job_free p s = Some (tt, s') ->
      broker_step env s s'.

Definition submitted_server : gearman_server_st :=
  exec (submit [49; 0] GEARMAN_JOB_PRIORITY_NORMAL None) empty_server.

(** A client waits for a job of the function ["f"]. *)
Definition client_server : gearman_server_st :=
  set_clients {[ 0%nat := {| client_con := 0%nat; client_job := None |} ]}
    (worker_server awake_con).

(** The client submits a job and disconnects; then a second job is
    submitted. *)
Definition ignored_server : gearman_server_st :=
  exec (submit [50; 0] GEARMAN_JOB_PRIORITY_NORMAL None)
    (exec (gearman_server_client_free 0%nat)
       (exec (submit [49; 0] GEARMAN_JOB_PRIORITY_NORMAL (Some 0%nat))
          client_server)).

(** The unique of a submission is ["-"]. *)
Definition dash (unique' : list Z) (unique_size : nat) : Prop :=
  unique_size = 1%nat /\ head unique' = Some 45.

#[global] Instance dash_dec unique' unique_size :
  Decision (dash unique' unique_size).
Proof. unfold dash. apply _. Defined.

(** The total of the function at [f], 0 when there is none. *)
Definition total_of (s : gearman_server_st) (f : ptr) : Z :=
  match functions s !! f with
  | Some x => job_total x
  | None => 0
  end.

(** A unique of [GEARMAN_UNIQUE_SIZE] bytes, and its terminator. *)
Definition long_unique : list Z := repeat 120 64 ++ [0].

(** The function ["f"] of a state, when it is the first one created. *)
Definition total_f (s : gearman_server_st) : option Z :=
  job_total <$> functions s !! 0%nat.

(** An environment whose allocator fails. *)
Definition env_nomem : environment :=
  {| malloc_function := true; malloc_function_name := false;
     malloc_job := false; io_packet_add_ret := fun _ => GEARMAN_SUCCESS;
     indeterminate := 0 |}.

(** *** [gearman_server_job_free] and [gearman_server_job_create] *)

(** The job structure that [gearman_server_job_create] hands out. *)
Definition allocated_job : gearman_server_job_st :=
  set_job_options (set_flag 0 GEARMAN_SERVER_JOB_ALLOCATED) zeroed_job.

(** *** The number of the live jobs *)

(** The number of the jobs in the table of the handles. *)
Definition live_count (s : gearman_server_st) : nat :=
  sum_list_with (fun k => length (job_hash s (Z.of_nat k)))
    (seq 0 (Z.to_nat GEARMAN_JOB_HASH_SIZE)).

(** An environment in which no packet can be queued. *)
Definition env_no_io : environment :=
  {| malloc_function := true; malloc_function_name := true;
     malloc_job := true; io_packet_add_ret := fun _ => GEARMAN_ERRNO;
     indeterminate := 0 |}.

(** * Proofs *)

Ltac fields :=
  cbn [ job_handle unique job_options priority job_handle_key unique_key
        numerator denominator data data_size function client_list worker
        function_next
        set_job_handle set_unique set_job_options set_priority
        set_job_handle_key set_unique_key set_numerator set_denominator
        set_data set_data_size set_function set_client_list set_worker
        set_function_next
        function_options function_name function_name_size max_queue_size
        job_total job_running job_count worker_list job_list job_end
        set_function_options set_function_name set_function_name_size
        set_max_queue_size set_job_total set_job_running set_job_count
        set_worker_list set_job_list set_job_end
        worker_con worker_function worker_job set_worker_job
        con_options noop_queued con_worker_list io_packet_list
        set_con_options set_noop_queued set_io_packet_list
        client_con client_job set_client_job
        gearman options job_handle_prefix job_handle_count function_list
        function_count job_hash job_hash_count unique_hash unique_count
        free_job_list free_job_count functions jobs workers cons clients
        queue_log
        set_options set_job_handle_count set_function_list
        set_function_count set_job_hash set_job_hash_count set_unique_hash
        set_unique_count set_free_job_list set_free_job_count set_functions
        set_jobs set_workers set_cons set_clients set_queue_log ] in *.

Lemma bind_run {A B} (m : M A) (k : A -> M B) s a s1 R :
  m s = Some (a, s1) -> k a s1 = R -> bind m k s = R.
Proof. unfold bind. by intros -> <-. Qed.

Lemma bind_inv {A B} (m : M A) (k : A -> M B) s b s' :
  bind m k s = Some (b, s') ->
  exists a s1, m s = Some (a, s1) /\ k a s1 = Some (b, s').
Proof. unfold bind. destruct (m s) as [[a s1]|]; [eauto|done]. Qed.

Lemma load_job_run p s j : jobs s !! p = Some j -> load_job p s = Some (j, s).
Proof. unfold load_job, bind, get, deref. by intros ->. Qed.

Lemma load_function_run p s x :
  functions s !! p = Some x -> load_function p s = Some (x, s).
Proof. unfold load_function, bind, get, deref. by intros ->. Qed.

Lemma load_worker_run p s x :
  workers s !! p = Some x -> load_worker p s = Some (x, s).
Proof. unfold load_worker, bind, get, deref. by intros ->. Qed.

Lemma load_con_run p s x : cons s !! p = Some x -> load_con p s = Some (x, s).
Proof. unfold load_con, bind, get, deref. by intros ->. Qed.

Lemma load_client_run p s x :
  clients s !! p = Some x -> load_client p s = Some (x, s).
Proof. unfold load_client, bind, get, deref. by intros ->. Qed.

Lemma update_job_run p f s j :
  jobs s !! p = Some j ->
  update_job p f s = Some (tt, set_jobs (<[p := f j]> (jobs s)) s).
Proof. intros H. unfold update_job. by rewrite (bind_run _ _ _ _ _ _ (load_job_run _ _ _ H) eq_refl). Qed.

Lemma update_function_run p f s x :
  functions s !! p = Some x ->
  update_function p f s
  = Some (tt, set_functions (<[p := f x]> (functions s)) s).
Proof. intros H. unfold update_function. by rewrite (bind_run _ _ _ _ _ _ (load_function_run _ _ _ H) eq_refl). Qed.

Lemma update_worker_run p f s x :
  workers s !! p = Some x ->
  update_worker p f s = Some (tt, set_workers (<[p := f x]> (workers s)) s).
Proof. intros H. unfold update_worker. by rewrite (bind_run _ _ _ _ _ _ (load_worker_run _ _ _ H) eq_refl). Qed.

Lemma update_con_run p f s x :
  cons s !! p = Some x ->
  update_con p f s = Some (tt, set_cons (<[p := f x]> (cons s)) s).
Proof. intros H. unfold update_con. by rewrite (bind_run _ _ _ _ _ _ (load_con_run _ _ _ H) eq_refl). Qed.

Lemma update_client_run p f s x :
  clients s !! p = Some x ->
  update_client p f s = Some (tt, set_clients (<[p := f x]> (clients s)) s).
Proof. intros H. unfold update_client. by rewrite (bind_run _ _ _ _ _ _ (load_client_run _ _ _ H) eq_refl). Qed.

Lemma load_job_inv p s j s' :
  load_job p s = Some (j, s') -> jobs s !! p = Some j /\ s' = s.
Proof. unfold load_job, bind, get, deref. destruct (jobs s !! p); simpl; [|done]. unfold ret. by intros [= -> ->]. Qed.

Lemma load_function_inv p s j s' :
  load_function p s = Some (j, s') -> functions s !! p = Some j /\ s' = s.
Proof. unfold load_function, bind, get, deref. destruct (functions s !! p); simpl; [|done]. unfold ret. by intros [= -> ->]. Qed.

Lemma load_worker_inv p s j s' :
  load_worker p s = Some (j, s') -> workers s !! p = Some j /\ s' = s.
Proof. unfold load_worker, bind, get, deref. destruct (workers s !! p); simpl; [|done]. unfold ret. by intros [= -> ->]. Qed.

Lemma load_con_inv p s j s' :
  load_con p s = Some (j, s') -> cons s !! p = Some j /\ s' = s.
Proof. unfold load_con, bind, get, deref. destruct (cons s !! p); simpl; [|done]. unfold ret. by intros [= -> ->]. Qed.

Lemma load_client_inv p s j s' :
  load_client p s = Some (j, s') -> clients s !! p = Some j /\ s' = s.
Proof. unfold load_client, bind, get, deref. destruct (clients s !! p); simpl; [|done]. unfold ret. by intros [= -> ->]. Qed.

Lemma update_job_inv p f s u s' :
  update_job p f s = Some (u, s') ->
  exists j, jobs s !! p = Some j /\ s' = set_jobs (<[p := f j]> (jobs s)) s.
Proof.
  unfold update_job. intros (j & s1 & H1 & H2)%bind_inv.
  apply load_job_inv in H1 as [H1 ->]. unfold modify in H2.
  injection H2 as _ <-. eauto.
Qed.

Lemma update_function_inv p f s u s' :
  update_function p f s = Some (u, s') ->
  exists j, functions s !! p = Some j
            /\ s' = set_functions (<[p := f j]> (functions s)) s.
Proof.
  unfold update_function. intros (j & s1 & H1 & H2)%bind_inv.
  apply load_function_inv in H1 as [H1 ->]. unfold modify in H2.
  injection H2 as _ <-. eauto.
Qed.

Lemma update_worker_inv p f s u s' :
  update_worker p f s = Some (u, s') ->
  exists j, workers s !! p = Some j
            /\ s' = set_workers (<[p := f j]> (workers s)) s.
Proof.
  unfold update_worker. intros (j & s1 & H1 & H2)%bind_inv.
  apply load_worker_inv in H1 as [H1 ->]. unfold modify in H2.
  injection H2 as _ <-. eauto.
Qed.

Lemma update_con_inv p f s u s' :
  update_con p f s = Some (u, s') ->
  exists j, cons s !! p = Some j /\ s' = set_cons (<[p := f j]> (cons s)) s.
Proof.
  unfold update_con. intros (j & s1 & H1 & H2)%bind_inv.
  apply load_con_inv in H1 as [H1 ->]. unfold modify in H2.
  injection H2 as _ <-. eauto.
Qed.

Lemma update_client_inv p f s u s' :
  update_client p f s = Some (u, s') ->
  exists j, clients s !! p = Some j
            /\ s' = set_clients (<[p := f j]> (clients s)) s.
Proof.
  unfold update_client. intros (j & s1 & H1 & H2)%bind_inv.
  apply load_client_inv in H1 as [H1 ->]. unfold modify in H2.
  injection H2 as _ <-. eauto.
Qed.

Lemma deref_inv {A} (o : option A) s a s' :
  deref o s = Some (a, s') -> o = Some a /\ s' = s.
Proof. destruct o; simpl; [|done]. unfold ret. by intros [= -> ->]. Qed.

Lemma ret_inv {A} (x : A) s a s' : ret x s = Some (a, s') -> a = x /\ s' = s.
Proof. unfold ret. by intros [= -> ->]. Qed.

Lemma get_inv s a s' : get s = Some (a, s') -> a = s /\ s' = s.
Proof. unfold get. by intros [= -> ->]. Qed.

Lemma modify_inv f s a s' : modify f s = Some (a, s') -> s' = f s.
Proof. unfold modify. by intros [= _ ->]. Qed.

(** Inversion of a successful run, one step at a time. *)
Ltac minv1 H :=
  lazymatch type of H with
  | bind _ _ _ = Some _ =>
      let a := fresh "a" in let s1 := fresh "s" in
      let H1 := fresh "Hm" in let H2 := fresh "Hk" in
      apply bind_inv in H as (a & s1 & H1 & H2); cbn beta in H2;
      minv1 H1
  | load_job _ _ = Some _ => apply load_job_inv in H as [H ->]
  | load_function _ _ = Some _ => apply load_function_inv in H as [H ->]
  | load_worker _ _ = Some _ => apply load_worker_inv in H as [H ->]
  | load_con _ _ = Some _ => apply load_con_inv in H as [H ->]
  | load_client _ _ = Some _ => apply load_client_inv in H as [H ->]
  | update_job _ _ _ = Some _ =>
      let j := fresh "j" in apply update_job_inv in H as (j & H & ->)
  | update_function _ _ _ = Some _ =>
      let j := fresh "x" in apply update_function_inv in H as (j & H & ->)
  | update_worker _ _ _ = Some _ =>
      let j := fresh "w" in apply update_worker_inv in H as (j & H & ->)
  | update_con _ _ _ = Some _ =>
      let j := fresh "c" in apply update_con_inv in H as (j & H & ->)
  | update_client _ _ _ = Some _ =>
      let j := fresh "c" in apply update_client_inv in H as (j & H & ->)
  | deref _ _ = Some _ => apply deref_inv in H as [H ->]
  | ret _ _ = Some _ => apply ret_inv in H as [-> ->]
  | get _ = Some _ => apply get_inv in H as [-> ->]
  | modify _ _ = Some _ => apply modify_inv in H as ->
  | undefined _ = Some _ => discriminate H
  | _ => idtac
  end.

Lemma chain_list_sound fuel jobs head l :
  chain_list fuel jobs head = Some l -> chain jobs head l.
Proof.
  revert head l. induction fuel as [|fuel IH]; intros [p|] l; simpl;
    try (intros [= <-]; constructor); try done.
  destruct (jobs !! p) as [j|] eqn:Hp; [|done].
  destruct (chain_list fuel jobs (function_next j)) as [l'|] eqn:Hl; [|done].
  intros [= <-]. econstructor; eauto.
Qed.

Lemma chain_det jobs head l1 l2 :
  chain jobs head l1 -> chain jobs head l2 -> l1 = l2.
Proof.
  intros H1. revert l2. induction H1 as [|p j l Hp _ IH]; intros l2 H2.
  - by inversion H2.
  - inversion H2 as [|p' j' l' Hp' Hc']; subst.
    rewrite Hp in Hp'. injection Hp' as <-. f_equal. by apply IH.
Qed.

Lemma chain_suffix jobs head l p :
  chain jobs head l -> p ∈ l ->
  exists l1 l2, l = l1 ++ p :: l2 /\ chain jobs (Some p) (p :: l2).
Proof.
  induction 1 as [|q j l Hq Hc IH]; intros Hin.
  - by apply elem_of_nil in Hin.
  - apply elem_of_cons in Hin as [->|Hin].
    + exists [], l. split; [done|]. econstructor; eauto.
    + destruct (IH Hin) as (l1 & l2 & -> & Hc2).
      exists (q :: l1), l2. done.
Qed.

Lemma chain_NoDup jobs head l : chain jobs head l -> NoDup l.
Proof.
  induction 1 as [|p j l Hp Hc IH]; constructor; [|done].
  intros Hin.
  destruct (chain_suffix _ _ _ _ Hc Hin) as (l1 & l2 & -> & Hc2).
  assert (Hc1 : chain jobs (Some p) (p :: l1 ++ p :: l2)) by (econstructor; eauto).
  pose proof (chain_det _ _ _ _ Hc1 Hc2) as Heq.
  apply (f_equal length) in Heq. simpl in Heq. rewrite length_app in Heq.
  simpl in Heq. lia.
Qed.

Lemma chain_lookup jobs head l p :
  chain jobs head l -> p ∈ l -> is_Some (jobs !! p).
Proof.
  induction 1 as [|q j l Hq Hc IH]; intros Hin.
  - by apply elem_of_nil in Hin.
  - apply elem_of_cons in Hin as [->|Hin]; eauto.
Qed.

(** Writing a job outside the chain, or one of its fields other than
    [function_next], leaves the chain as it is. *)
Lemma chain_insert jobs head l p j' :
  chain jobs head l ->
  (forall j, p ∈ l -> jobs !! p = Some j -> function_next j' = function_next j) ->
  chain (<[p := j']> jobs) head l.
Proof.
  induction 1 as [|q j l Hq Hc IH]; intros Hn; [constructor|].
  destruct (decide (q = p)) as [->|Hne].
  - econstructor; [apply lookup_insert_eq|].
    rewrite (Hn j) by (done || apply list_elem_of_here).
    apply IH. intros j0 Hin. apply Hn. by apply list_elem_of_further.
  - econstructor; [by rewrite lookup_insert_ne|].
    apply IH. intros j0 Hin. apply Hn. by apply list_elem_of_further.
Qed.

Lemma chain_insert_notin jobs head l p j' :
  chain jobs head l -> p ∉ l -> chain (<[p := j']> jobs) head l.
Proof. intros Hc Hn. apply chain_insert; [done|]. by intros j Hin. Qed.

Lemma chain_delete jobs head l p :
  chain jobs head l -> p ∉ l -> chain (delete p jobs) head l.
Proof.
  induction 1 as [|q j l Hq Hc IH]; intros Hn; [constructor|].
  apply not_elem_of_cons in Hn as [Hne Hn].
  econstructor; [by rewrite lookup_delete_ne|]. by apply IH.
Qed.

(** [GEARMAN_FIFO_ADD] at the level of the pointers: linking [p] behind the
    last job of the chain appends it. *)
Lemma chain_snoc jobs head l e je p jp :
  chain jobs head l ->
  last l = Some e ->
  jobs !! e = Some je ->
  jobs !! p = Some jp ->
  function_next jp = None ->
  p ∉ l ->
  chain (<[e := set_function_next (Some p) je]> jobs) head (l ++ [p]).
Proof.
  intros Hc. revert e je.
  induction Hc as [|q j l Hq Hc IH]; intros e je Hlast He Hp Hnext Hn; [done|].
  apply not_elem_of_cons in Hn as [Hne Hn].
  pose proof (chain_NoDup _ _ _ (chain_cons _ _ _ _ Hq Hc)) as Hnd.
  apply NoDup_cons in Hnd as [Hql _].
  destruct l as [|q' l'].
  - simpl in Hlast. injection Hlast as <-. rewrite Hq in He. injection He as <-.
    inversion Hc; subst. simpl.
    econstructor; [apply lookup_insert_eq|]. fields.
    econstructor; [by rewrite lookup_insert_ne|]. rewrite Hnext. constructor.
  - assert (Hlast' : last (q' :: l') = Some e) by done.
    assert (Hqe : q <> e).
    { intros ->. apply Hql. rewrite last_lookup in Hlast'.
      by eapply list_elem_of_lookup_2. }
    simpl. econstructor; [by rewrite lookup_insert_ne|].
    by apply (IH e je).
Qed.

Lemma is_success_true r : is_success r = true <-> r = GEARMAN_SUCCESS.
Proof. by destruct r. Qed.

Lemma is_success_false r : is_success r = false <-> r <> GEARMAN_SUCCESS.
Proof. by destruct r. Qed.

Lemma io_packet_add_run env con magic' command' s c :
  cons s !! con = Some c ->
  gearman_server_io_packet_add env con magic' command' s
  = Some (io_packet_add_ret env con,
          if is_success (io_packet_add_ret env con) then
            set_cons (<[con := set_io_packet_list
                                 (io_packet_list c ++
                                  [{| magic := magic'; command := command' |}]) c]>
                        (cons s)) s
          else s).
Proof.
  intros Hc. unfold gearman_server_io_packet_add.
  eapply bind_run; [by apply load_con_run|]. cbn beta.
  destruct (io_packet_add_ret env con) eqn:Hr; try reflexivity.
  eapply bind_run; [by apply update_con_run|]. reflexivity.
Qed.

Lemma woken_refl c : woken c c 0.
Proof. unfold woken. simpl. rewrite app_nil_r. naive_solver. Qed.

Lemma needs_noop_skip c :
  negb (noop_queued c) &&
  negb (has_flag (con_options c) GEARMAN_SERVER_CON_SLEEPING)
  = negb (needs_noop c).
Proof. unfold needs_noop. by rewrite negb_orb. Qed.

(** The wake-up loop changes the connections only, as [noop_cons] says. *)
Lemma noop_loop_run env l : forall s,
  wakeable (workers s) (cons s) l ->
  job_queue_noop_loop env l s
  = Some (fst (noop_cons env (workers s) l (cons s)),
          set_cons (snd (noop_cons env (workers s) l (cons s))) s).
Proof.
  induction l as [|w l IH]; intros s Hw.
  - simpl. unfold ret. by destruct s.
  - destruct (Hw w) as (wk & c & Hwk & Hc); [apply list_elem_of_here|].
    assert (Hw' : wakeable (workers s) (cons s) l).
    { intros w' Hin. apply Hw. by apply list_elem_of_further. }
    simpl. rewrite Hwk, Hc.
    eapply bind_run; [by apply load_worker_run|]. cbn beta.
    eapply bind_run; [by apply load_con_run|]. cbn beta.
    rewrite needs_noop_skip.
    destruct (needs_noop c) eqn:Hneed; simpl; [|by apply IH].
    eapply bind_run; [by apply io_packet_add_run|]. cbn beta.
    destruct (is_success (io_packet_add_ret env (worker_con wk))) eqn:Hio.
    + eapply bind_run; [apply update_con_run; fields; apply lookup_insert_eq|].
      cbn beta. fields. rewrite insert_insert_eq.
      rewrite IH; [done|]. fields.
      intros w' Hin. destruct (Hw' w' Hin) as (wk' & c0 & H1 & H2).
      exists wk'. destruct (decide (worker_con wk = worker_con wk')) as [->|Hne].
      * eexists. by rewrite lookup_insert_eq.
      * exists c0. by rewrite lookup_insert_ne.
    + unfold ret. by destruct s.
Qed.

(** What [noop_cons] does to each connection. *)
Lemma noop_cons_spec env wks l : forall cs,
  wakeable wks cs l ->
  let r := fst (noop_cons env wks l cs) in
  let cs' := snd (noop_cons env wks l cs) in
  (forall c, cs !! c = None -> cs' !! c = None) /\
  (forall c c0, cs !! c = Some c0 ->
     exists c1 n, cs' !! c = Some c1 /\ woken c0 c1 n /\
       (r = GEARMAN_SUCCESS -> needs_noop c0 = true ->
        (exists w wk, w ∈ l /\ wks !! w = Some wk /\ worker_con wk = c) ->
        n <> 0%nat)) /\
  (r = GEARMAN_SUCCESS \/
   exists w wk, w ∈ l /\ wks !! w = Some wk /\
                r = io_packet_add_ret env (worker_con wk)) /\
  ((forall w wk, w ∈ l -> wks !! w = Some wk ->
      io_packet_add_ret env (worker_con wk) = GEARMAN_SUCCESS) ->
   r = GEARMAN_SUCCESS).
Proof.
  induction l as [|w l IH]; intros cs Hw; simpl.
  - split; [done|]. split; [|by split; [left|]].
    intros c c0 Hc. exists c0, 0%nat. split; [done|]. split; [apply woken_refl|].
    intros _ _ (w & wk & Hin & _). by apply elem_of_nil in Hin.
  - destruct (Hw w) as (wk & c & Hwk & Hc); [apply list_elem_of_here|].
    assert (Hw' : wakeable wks cs l).
    { intros w' Hin. apply Hw. by apply list_elem_of_further. }
    rewrite Hwk, Hc.
    destruct (needs_noop c) eqn:Hneed.
    + destruct (is_success (io_packet_add_ret env (worker_con wk))) eqn:Hio.
      * set (c' := set_noop_queued true
                     (set_io_packet_list (io_packet_list c ++ [noop_packet]) c)).
        assert (Hw1 : wakeable wks (<[worker_con wk := c']> cs) l).
        { intros w' Hin. destruct (Hw' w' Hin) as (wk' & c0 & H1 & H2).
          exists wk'. destruct (decide (worker_con wk = worker_con wk')) as [->|Hne].
          - exists c'. by rewrite lookup_insert_eq.
          - exists c0. by rewrite lookup_insert_ne. }
        destruct (IH _ Hw1) as (Hnone & Hsome & Hprov & Hall).
        split; [|split; [|split]].
        -- intros c0 Hc0. apply Hnone.
           rewrite lookup_insert_ne; [done|]. intros <-. congruence.
        -- intros c0 c00 Hc0.
           destruct (decide (c0 = worker_con wk)) as [->|Hne].
           ++ rewrite Hc in Hc0. injection Hc0 as <-.
              destruct (Hsome (worker_con wk) c') as (c1 & n & H1 & H2 & H3);
                [apply lookup_insert_eq|].
              exists c1, (S n). split; [done|]. split; [|done].
              destruct H2 as (E1 & E2 & E3 & E4 & E5 & E6).
              unfold woken. subst c'. fields. simpl in *.
              rewrite E3, <- app_assoc. simpl.
              repeat split; try done.
              { intros _. destruct n; [by rewrite E4|]. by apply E5. }
              { intros; congruence. }
           ++ destruct (Hsome c0 c00) as (c1 & n & H1 & H2 & H3);
                [by rewrite lookup_insert_ne|].
              exists c1, n. split; [done|]. split; [done|].
              intros Hr Hn (w' & wk' & Hin & Hwk' & Hcon).
              apply elem_of_cons in Hin as [->|Hin].
              ** rewrite Hwk in Hwk'. by injection Hwk' as <-.
              ** apply H3; eauto.
        -- destruct Hprov as [Hr|(w' & wk' & Hin & Hwk' & Hr)]; [by left|].
           right. exists w', wk'. split; [by apply list_elem_of_further|done].
        -- intros Hok. apply Hall. intros w' wk' Hin. apply Hok.
           by apply list_elem_of_further.
      * simpl. split; [done|]. split; [|split].
        -- intros c0 c00 Hc0. exists c00, 0%nat. split; [done|].
           split; [apply woken_refl|]. intros Hr. apply is_success_true in Hr.
           congruence.
        -- right. exists w, wk. split; [apply list_elem_of_here|done].
        -- intros Hok. apply is_success_false in Hio. exfalso. apply Hio.
           apply (Hok w wk); [apply list_elem_of_here|done].
    + destruct (IH _ Hw') as (Hnone & Hsome & Hprov & Hall).
      split; [done|]. split; [|split].
      * intros c' c0 Hc'. destruct (Hsome c' c0 Hc') as (c1 & n & H1 & H2 & H3).
        exists c1, n. split; [done|]. split; [done|].
        intros Hr Hneed' (w' & wk' & Hin & Hwk' & Hcon).
        apply elem_of_cons in Hin as [->|Hin].
        -- exfalso. rewrite Hwk in Hwk'. injection Hwk' as <-. subst c'.
           rewrite Hc in Hc'. injection Hc' as <-. congruence.
        -- apply H3; eauto.
      * destruct Hprov as [Hr|(w' & wk' & Hin & Hwk' & Hr)]; [by left|].
        right. exists w', wk'. split; [by apply list_elem_of_further|done].
      * intros Hok. apply Hall. intros w' wk' Hin. apply Hok.
        by apply list_elem_of_further.
Qed.

Lemma index_run {A} (a : gearman_job_priority_t -> A) p s :
  p <> GEARMAN_JOB_PRIORITY_MAX -> index a p s = Some (a p, s).
Proof. by destruct p. Qed.

Lemma queue_reset_function j : function (queue_reset j) = function j.
Proof. unfold queue_reset. fields. by destruct (bool_decide _). Qed.

Lemma queue_reset_priority j : priority (queue_reset j) = priority j.
Proof. unfold queue_reset. fields. by destruct (bool_decide _). Qed.

Lemma queue_reset_worker j : worker (queue_reset j) = None.
Proof. reflexivity. Qed.

Lemma queue_release_worker_list j x :
  worker_list (queue_release j x) = worker_list x.
Proof. unfold queue_release. by destruct (bool_decide _). Qed.

Lemma queue_release_job_list j x : job_list (queue_release j x) = job_list x.
Proof. unfold queue_release. by destruct (bool_decide _). Qed.

Lemma queue_release_job_end j x : job_end (queue_release j x) = job_end x.
Proof. unfold queue_release. by destruct (bool_decide _). Qed.

Lemma queue_release_job_count j x : job_count (queue_release j x) = job_count x.
Proof. unfold queue_release. by destruct (bool_decide _). Qed.

(** [gearman_server_job_queue] returns, in the state [queue_state]. *)
Lemma job_queue_run env p s j f x :
  jobs s !! p = Some j ->
  function j = Some f ->
  functions s !! f = Some x ->
  wakeable (workers s) (cons s) (worker_list x) ->
  priority j <> GEARMAN_JOB_PRIORITY_MAX ->
  (forall h, job_list x (priority j) = Some h ->
     exists e, job_end x (priority j) = Some e /\
               is_Some (<[p := queue_reset j]> (jobs s) !! e)) ->
  gearman_server_job_queue env p s
  = Some (queue_ret env x s, queue_state env p f j x s).
Proof.
  intros Hj Hf Hx Hw Hprio Htail.
  unfold gearman_server_job_queue.
  eapply bind_run; [by apply load_job_run|]. cbn beta.
  set (s0 := set_functions (<[f := queue_release j x]> (functions s)) s).
  assert (Hpre :
    when (bool_decide (worker j <> None))
      (bind (deref (function j)) (fun f0 =>
         bind (update_function f0 (fun x0 =>
                 set_job_running (wrap32 (job_running x0 - 1)) x0))
           (fun _ => update_job p (set_function_next None)))) s
    = Some (tt, set_jobs
                  (<[p := if bool_decide (worker j <> None)
                          then set_function_next None j else j]> (jobs s)) s0)).
  { subst s0. unfold queue_release. destruct (bool_decide (worker j <> None)); simpl.
    - rewrite Hf. eapply bind_run; [reflexivity|]. cbn beta.
      eapply bind_run; [by apply update_function_run|]. cbn beta.
      by rewrite (update_job_run _ _ _ j).
    - unfold ret. rewrite !insert_id by done. by destruct s. }
  eapply bind_run; [exact Hpre|]. cbn beta.
  eapply bind_run; [apply update_job_run; fields; apply lookup_insert_eq|].
  cbn beta. fields. rewrite insert_insert_eq.
  eapply bind_run; [apply update_job_run; fields; apply lookup_insert_eq|].
  cbn beta. fields. rewrite insert_insert_eq.
  eapply bind_run; [apply update_job_run; fields; apply lookup_insert_eq|].
  cbn beta. fields. rewrite insert_insert_eq.
  fold (queue_reset j).
  eapply bind_run; [apply load_job_run; fields; apply lookup_insert_eq|].
  cbn beta.
  rewrite queue_reset_function, Hf. eapply bind_run; [reflexivity|]. cbn beta.
  eapply bind_run; [apply load_function_run; subst s0; fields; apply lookup_insert_eq|].
  cbn beta. rewrite queue_release_worker_list.
  set (s2 := set_jobs (<[p := queue_reset j]> (jobs s)) s0).
  eapply bind_run; [by apply noop_loop_run|]. cbn beta.
  unfold queue_state, queue_ret. subst s2 s0. fields.
  destruct (is_success (fst (noop_cons env (workers s) (worker_list x) (cons s))))
    eqn:Hr; simpl; [|reflexivity].
  eapply bind_run; [apply load_job_run; fields; apply lookup_insert_eq|].
  cbn beta. rewrite queue_reset_function, Hf.
  eapply bind_run; [reflexivity|]. cbn beta.
  eapply bind_run; [apply load_function_run; fields; apply lookup_insert_eq|].
  cbn beta. rewrite queue_reset_priority.
  eapply bind_run; [by apply index_run|]. cbn beta.
  unfold queue_append, queue_link.
  rewrite queue_release_job_list, queue_release_job_end.
  destruct (job_list x (priority j)) as [h|] eqn:Hh.
  - destruct (Htail h eq_refl) as (e & He & [je Hje']). rewrite He, Hje'.
    eapply bind_run.
    { eapply bind_run; [by apply index_run|]. cbn beta.
      rewrite He.
      eapply bind_run; [reflexivity|]. cbn beta.
      apply update_job_run. fields. exact Hje'. }
    cbn beta.
    eapply bind_run; [apply update_function_run; fields; apply lookup_insert_eq|].
    cbn beta.
    eapply bind_run; [apply update_function_run; fields; apply lookup_insert_eq|].
    cbn beta. fields. rewrite !insert_insert_eq.
    rewrite ?queue_release_job_end, ?queue_release_job_list.
    apply is_success_true in Hr. rewrite Hr. reflexivity.
  - eapply bind_run.
    { apply update_function_run. fields. apply lookup_insert_eq. }
    cbn beta.
    eapply bind_run; [apply update_function_run; fields; apply lookup_insert_eq|].
    cbn beta.
    eapply bind_run; [apply update_function_run; fields; apply lookup_insert_eq|].
    cbn beta. fields. rewrite !insert_insert_eq.
    rewrite ?queue_release_job_end, ?queue_release_job_list.
    apply is_success_true in Hr. rewrite Hr. reflexivity.
Qed.

Lemma job_take_worker_run s l1 : forall w wk x l2,
  (forall w', w' ∈ l1 -> idle s w') ->
  workers s !! w = Some wk ->
  functions s !! worker_function wk = Some x ->
  job_count x <> 0 ->
  job_take_worker s (l1 ++ w :: l2) = Some (Some w).
Proof.
  induction l1 as [|w' l1 IH]; intros w wk x l2 Hidle Hw Hx Hc; simpl.
  - rewrite Hw, Hx. by destruct (Z.eqb_spec (job_count x) 0).
  - destruct (Hidle w') as (wk' & x' & Hw' & Hx' & Hc'); [apply list_elem_of_here|].
    rewrite Hw', Hx', Hc'. simpl. eapply IH; eauto.
    intros w0 Hin. apply Hidle. by apply list_elem_of_further.
Qed.

Lemma job_take_worker_none s l :
  (forall w', w' ∈ l -> idle s w') ->
  job_take_worker s l = Some None.
Proof.
  induction l as [|w' l IH]; intros Hidle; simpl; [done|].
  destruct (Hidle w') as (wk' & x' & Hw' & Hx' & Hc'); [apply list_elem_of_here|].
  rewrite Hw', Hx', Hc'. simpl. apply IH.
  intros w0 Hin. apply Hidle. by apply list_elem_of_further.
Qed.

(** One round of [gearman_server_job_take]: the head of the first non-empty
    priority list of the first function with jobs is taken; it is returned,
    unless it is marked to be ignored: then it is freed, and the search
    starts over. *)
Lemma job_take_run fuel con s c l1 w l2 wk x p j :
  cons s !! con = Some c ->
  con_worker_list c = l1 ++ w :: l2 ->
  (forall w', w' ∈ l1 -> idle s w') ->
  workers s !! w = Some wk ->
  functions s !! worker_function wk = Some x ->
  job_count x <> 0 ->
  first_priority (job_list x) <> GEARMAN_JOB_PRIORITY_MAX ->
  job_list x (first_priority (job_list x)) = Some p ->
  jobs s !! p = Some j ->
  function j = Some (worker_function wk) ->
  let s1 := take_state p w (worker_function wk) (first_priority (job_list x))
              j x wk s in
  gearman_server_job_take (S fuel) con s
  = if has_flag (job_options j) GEARMAN_SERVER_JOB_IGNORE
    then bind (gearman_server_job_free p)
           (fun _ => gearman_server_job_take fuel con) s1
    else Some (Some p, s1).
Proof.
  intros Hc Hl Hidle Hw Hx Hcount Hprio Hhead Hj Hf s1.
  cbn [gearman_server_job_take].
  eapply bind_run; [by apply load_con_run|]. cbn beta. rewrite Hl.
  eapply bind_run; [reflexivity|]. cbn beta.
  rewrite (job_take_worker_run s l1 w wk x l2) by done.
  eapply bind_run; [reflexivity|]. cbn beta.
  eapply bind_run; [by apply load_worker_run|]. cbn beta.
  eapply bind_run; [by apply load_function_run|]. cbn beta.
  eapply bind_run; [by apply index_run|]. cbn beta. rewrite Hhead.
  eapply bind_run; [reflexivity|]. cbn beta.
  eapply bind_run; [by apply load_job_run|]. cbn beta. rewrite Hf.
  eapply bind_run; [reflexivity|]. cbn beta.
  eapply bind_run; [by apply update_function_run|]. cbn beta.
  eapply bind_run; [apply load_function_run; fields; apply lookup_insert_eq|].
  cbn beta.
  eapply bind_run.
  { instantiate (1 := set_functions (<[worker_function wk :=
       let x0 := set_job_list (assign (job_list x) (first_priority (job_list x)) (function_next j)) x in
       if bool_decide (job_end x0 (first_priority (job_list x)) = Some p)
       then set_job_end (assign (job_end x0) (first_priority (job_list x)) None) x0
       else x0]> (functions s)) s). instantiate (1 := tt).
    cbn zeta. fields.
    destruct (bool_decide (job_end x (first_priority (job_list x)) = Some p)); simpl.
    - erewrite update_function_run by (fields; apply lookup_insert_eq).
      fields. by rewrite insert_insert_eq.
    - reflexivity. }
  cbn beta.
  eapply bind_run; [apply update_function_run; fields; apply lookup_insert_eq|].
  cbn beta.
  eapply bind_run; [apply update_job_run; fields; exact Hj|]. cbn beta.
  eapply bind_run; [apply update_worker_run; fields; exact Hw|]. cbn beta.
  eapply bind_run; [apply update_function_run; fields; apply lookup_insert_eq|].
  cbn beta.
  eapply bind_run; [apply load_job_run; fields; apply lookup_insert_eq|].
  cbn beta. fields. rewrite !insert_insert_eq.
  destruct (has_flag (job_options j) GEARMAN_SERVER_JOB_IGNORE); reflexivity.
Qed.

Lemma has_flag_set_other o f g :
  Z.land f g = 0 -> has_flag (set_flag o f) g = has_flag o g.
Proof.
  intros H. unfold has_flag, set_flag.
  by rewrite Z.land_lor_distr_l, H, Z.lor_0_r.
Qed.

Lemma set_flag_idem o f : set_flag (set_flag o f) f = set_flag o f.
Proof. unfold set_flag. by rewrite <- Z.lor_assoc, Z.lor_diag. Qed.


Lemma unlink_head p l : unlink p (p :: l) = l.
Proof. simpl. by rewrite decide_True. Qed.

Lemma unlink_notin p l : p ∉ l -> unlink p l = l.
Proof.
  induction l as [|q l IH]; [done|]. intros [Hne Hn]%not_elem_of_cons. simpl.
  rewrite decide_False by done. by rewrite IH.
Qed.

Lemma elem_of_unlink p q l : q ∈ unlink p l -> q ∈ l.
Proof.
  induction l as [|x l IH]; [done|]. simpl. destruct (decide (x = p)).
  - apply list_elem_of_further.
  - intros [->|H]%elem_of_cons; [apply list_elem_of_here|].
    apply list_elem_of_further. by apply IH.
Qed.

Lemma elem_of_unlink_ne p q l : q ∈ l -> q <> p -> q ∈ unlink p l.
Proof.
  induction l as [|x l IH]; [done|]. simpl.
  intros [->|H]%elem_of_cons Hne.
  - rewrite decide_False by done. apply list_elem_of_here.
  - destruct (decide (x = p)); [done|]. apply list_elem_of_further. by apply IH.
Qed.

Lemma NoDup_unlink p l : NoDup l -> NoDup (unlink p l) /\ p ∉ unlink p l.
Proof.
  induction 1 as [|x l Hx Hnd [IH1 IH2]]; simpl.
  - split; [constructor|]. apply not_elem_of_nil.
  - destruct (decide (x = p)) as [->|Hne]; [done|]. split.
    + constructor; [|done]. intros H. by apply elem_of_unlink in H.
    + apply not_elem_of_cons. done.
Qed.

(** The loop that frees the clients of a job. *)
Lemma job_free_clients_run p : forall l s j,
  jobs s !! p = Some j ->
  client_list j = l ->
  clients_ok (clients s) p l ->
  job_free_clients (length l) p s
  = Some (tt, set_clients (foldr delete (clients s) l)
                (set_jobs (<[p := free_clients_job j]> (jobs s)) s)).
Proof.
  induction l as [|c l IH]; intros s j Hj Hl [Hnd Hcl].
  - simpl. eapply bind_run; [by apply load_job_run|]. cbn beta. rewrite Hl.
    unfold ret, free_clients_job. rewrite Hl. rewrite insert_id by done.
    by destruct s.
  - apply NoDup_cons in Hnd as [Hc Hnd].
    destruct (Hcl c) as (cl & Hcl1 & Hcl2); [apply list_elem_of_here|].
    cbn [length job_free_clients].
    eapply bind_run; [by apply load_job_run|]. cbn beta. rewrite Hl.
    set (j1 := set_client_list l
                 (match worker j with
                  | Some _ => j
                  | None => set_job_options
                              (set_flag (job_options j) GEARMAN_SERVER_JOB_IGNORE) j
                  end)).
    assert (Hfree : gearman_server_client_free c s
      = Some (tt, set_clients (delete c (clients s))
                    (set_jobs (<[p := j1]> (jobs s)) s))).
    { unfold gearman_server_client_free.
      eapply bind_run; [by apply load_client_run|]. cbn beta. rewrite Hcl2.
      eapply bind_run; [by apply update_job_run|]. cbn beta.
      unfold modify. fields. rewrite Hl, unlink_head. reflexivity. }
    eapply bind_run; [exact Hfree|]. cbn beta.
    rewrite (IH _ j1).
    + f_equal. f_equal. fields. rewrite insert_insert_eq.
      assert (Hj1 : free_clients_job j1 = free_clients_job j).
      { unfold free_clients_job, j1. rewrite Hl. fields.
        destruct l as [|c' l'], (worker j) eqn:Hw; fields; rewrite ?Hw; try done.
        by rewrite set_flag_idem. }
      rewrite Hj1. simpl.
      assert (Hcomm : foldr delete (delete c (clients s)) l
                      = delete c (foldr delete (clients s) l)).
      { clear. induction l as [|a l IH]; [done|]. simpl. rewrite IH.
        apply delete_delete. }
      by rewrite Hcomm.
    + fields. apply lookup_insert_eq.
    + subst j1. by destruct (worker j).
    + split; [done|]. intros c' Hin. fields.
      destruct (Hcl c') as (cl' & H1 & H2); [by apply list_elem_of_further|].
      exists cl'. split; [|done]. rewrite lookup_delete_ne; [done|].
      intros ->. done.
Qed.

Lemma free_clients_job_worker j : worker (free_clients_job j) = worker j.
Proof.
  unfold free_clients_job. destruct (client_list j); [done|].
  by destruct (worker j) eqn:E; fields.
Qed.

Lemma free_clients_job_unique_key j :
  unique_key (free_clients_job j) = unique_key j.
Proof.
  unfold free_clients_job. destruct (client_list j); [done|].
  by destruct (worker j) eqn:E; fields.
Qed.

Lemma free_clients_job_handle_key j :
  job_handle_key (free_clients_job j) = job_handle_key j.
Proof.
  unfold free_clients_job. destruct (client_list j); [done|].
  by destruct (worker j) eqn:E; fields.
Qed.

Lemma free_clients_job_allocated j :
  has_flag (job_options (free_clients_job j)) GEARMAN_SERVER_JOB_ALLOCATED
  = has_flag (job_options j) GEARMAN_SERVER_JOB_ALLOCATED.
Proof.
  unfold free_clients_job. destruct (client_list j); [done|].
  destruct (worker j) eqn:E; fields; [done|]. by apply has_flag_set_other.
Qed.

Lemma clear_worker_job_run (o : option ptr) s :
  (forall w, o = Some w -> is_Some (workers s !! w)) ->
  match o with
  | Some w => update_worker w (set_worker_job None)
  | None => ret tt
  end s
  = Some (tt, set_workers
                match o with
                | Some w => match workers s !! w with
                            | Some wk => <[w := set_worker_job None wk]> (workers s)
                            | None => workers s
                            end
                | None => workers s
                end s).
Proof.
  intros Hw. destruct o as [w|].
  - destruct (Hw w eq_refl) as [wk Hwk]. rewrite Hwk.
    by apply update_worker_run.
  - unfold ret. by destruct s.
Qed.

(** [gearman_server_job_free] returns, in the state [free_state]. *)
Lemma job_free_run p s j f x :
  jobs s !! p = Some j ->
  function j = Some f ->
  functions s !! f = Some x ->
  clients_ok (clients s) p (client_list j) ->
  (forall w, worker j = Some w -> is_Some (workers s !! w)) ->
  gearman_server_job_free p s = Some (tt, free_state p f j x s).
Proof.
  intros Hj Hf Hx Hcl Hw.
  unfold gearman_server_job_free.
  eapply bind_run; [by apply load_job_run|]. cbn beta. rewrite Hf.
  eapply bind_run; [reflexivity|]. cbn beta.
  eapply bind_run.
  { instantiate (1 := set_functions (<[f := queue_release j x]> (functions s)) s).
    instantiate (1 := tt). unfold queue_release.
    destruct (bool_decide (worker j <> None)); simpl.
    - by rewrite (update_function_run _ _ _ x).
    - unfold ret. rewrite insert_id by done. by destruct s. }
  cbn beta.
  eapply bind_run; [apply update_function_run; fields; apply lookup_insert_eq|].
  cbn beta.
  eapply bind_run; [by apply (job_free_clients_run p _ _ j)|]. cbn beta.
  eapply bind_run; [apply load_job_run; fields; apply lookup_insert_eq|].
  cbn beta. rewrite free_clients_job_worker, free_clients_job_unique_key,
    free_clients_job_handle_key, free_clients_job_allocated.
  fields. rewrite insert_insert_eq.
  eapply bind_run; [apply clear_worker_job_run; fields; exact Hw|].
  cbn beta.
  eapply bind_run; [reflexivity|]. cbn beta.
  eapply bind_run; [reflexivity|]. cbn beta.
  unfold free_state, when.
  destruct (has_flag (job_options j) GEARMAN_SERVER_JOB_ALLOCATED); simpl.
  - eapply bind_run; [reflexivity|]. cbn beta. fields.
    destruct (free_job_count s <? GEARMAN_MAX_FREE_SERVER_JOB); reflexivity.
  - reflexivity.
Qed.

Lemma wrap32_add_wrap x y : wrap32 (x + wrap32 y) = wrap32 (x + y).
Proof. unfold wrap32. apply Zplus_mod_idemp_r. Qed.

Lemma wrap32_wrap_add x y : wrap32 (wrap32 x + y) = wrap32 (x + y).
Proof. unfold wrap32. apply Zplus_mod_idemp_l. Qed.

Lemma wrap32_range x : 0 <= wrap32 x < 2 ^ 32.
Proof. unfold wrap32. apply Z.mod_pos_bound. lia. Qed.

Lemma wrap32_small x : 0 <= x < 2 ^ 32 -> wrap32 x = x.
Proof. unfold wrap32. apply Z.mod_small. Qed.

Lemma hash_loop_spec key : forall n value,
  (n <= length key)%nat ->
  _server_job_hash_loop key n value
  = Some (fold_left HashSpec.mix (firstn n key) value).
Proof.
  induction key as [|c key IH]; intros [|n] value Hn; simpl in *; try done; [lia|].
  rewrite IH by lia. f_equal. unfold HashSpec.mix, HashSpec.add32.
  fold (wrap32 (value + c)).
  fold (wrap32 (wrap32 (value + c) + Z.shiftl (wrap32 (value + c)) 10)).
  by rewrite wrap32_add_wrap.
Qed.

Lemma finalize_range v : 0 <= HashSpec.finalize v < 2 ^ 32.
Proof. unfold HashSpec.finalize, HashSpec.add32. apply Z.mod_pos_bound. lia. Qed.

Lemma hash_range key : 0 < HashSpec.hash key < 2 ^ 32.
Proof.
  unfold HashSpec.hash. pose proof (finalize_range (fold_left HashSpec.mix key 0)).
  destruct (Z.eqb_spec (HashSpec.finalize (fold_left HashSpec.mix key 0)) 0); lia.
Qed.

(** The hash of the first [n] bytes of a buffer that holds them. *)
Lemma server_job_hash_run key n :
  (n <= length key)%nat ->
  _server_job_hash key n = Some (HashSpec.hash (firstn n key)).
Proof.
  intros Hn. unfold _server_job_hash. rewrite hash_loop_spec by done.
  unfold HashSpec.hash, HashSpec.finalize, HashSpec.add32.
  set (v := fold_left HashSpec.mix (firstn n key) 0).
  fold (wrap32 (v + Z.shiftl v 3)).
  rewrite !wrap32_add_wrap. reflexivity.
Qed.

Lemma server_job_hash_None key n :
  (length key < n)%nat -> _server_job_hash key n = None.
Proof.
  intros Hn. unfold _server_job_hash.
  assert (H : forall key n v, (length key < n)%nat -> _server_job_hash_loop key n v = None).
  { clear. induction key as [|c key IH]; intros [|n] v Hn; simpl in *; try done; try lia.
    apply IH. lia. }
  by rewrite H.
Qed.

(** C9: over a whole byte string, [_server_job_hash] returns the value of
    the reference recurrence [HashSpec.hash]: from 0, each byte is added and
    mixed ([v += b; v += v<<10; v ^= v>>6]), the result is finalised
    ([v += v<<3; v ^= v>>11; v += v<<15]) with 32-bit wrap-around, and 0 is
    mapped to 1; the hash is never 0 and fits 32 bits. *)
Theorem server_job_hash_reference (key : list Z) :
  _server_job_hash key (length key) = Some (HashSpec.hash key)
  /\ HashSpec.hash key <> 0
  /\ 0 < HashSpec.hash key < 2 ^ 32.
Proof.
  pose proof (hash_range key).
  split; [|split; [lia|done]].
  rewrite server_job_hash_run by done. by rewrite firstn_all.
Qed.

(** *** [gearman_server_function_get] *)

Lemma function_get_found env name size s f :
  function_get_loop s (function_list s) name size = Some (Some f) ->
  gearman_server_function_get env name size s = Some (Some f, s).
Proof.
  intros H. unfold gearman_server_function_get.
  eapply bind_run; [reflexivity|]. cbn beta. rewrite H.
  eapply bind_run; [reflexivity|]. reflexivity.
Qed.

Lemma fresh_function s : functions s !! fresh (dom (functions s)) = None.
Proof. apply not_elem_of_dom, is_fresh. Qed.

Lemma fresh_job s : jobs s !! fresh (dom (jobs s)) = None.
Proof. apply not_elem_of_dom, is_fresh. Qed.

Lemma function_create_run env s :
  malloc_function env = true ->
  gearman_server_function_create env None s
  = Some (Some (fresh (dom (functions s))),
          set_functions
            (<[fresh (dom (functions s)) :=
                 set_max_queue_size GEARMAN_DEFAULT_MAX_QUEUE_SIZE
                   (set_function_options
                      (set_flag 0 GEARMAN_SERVER_FUNCTION_ALLOCATED)
                      zeroed_function)]> (functions s))
            (set_function_count (wrap32 (function_count s + 1))
               (set_function_list
                  (fresh (dom (functions s)) :: function_list s) s))).
Proof.
  intros Hm. unfold gearman_server_function_create. rewrite Hm.
  eapply bind_run.
  { eapply bind_run; [reflexivity|]. cbn beta.
    eapply bind_run; reflexivity. }
  cbn beta.
  eapply bind_run; [apply update_function_run; fields; apply lookup_insert_eq|].
  cbn beta.
  eapply bind_run; [reflexivity|]. cbn beta. unfold ret. fields.
  rewrite insert_insert_eq. reflexivity.
Qed.

Lemma function_get_new env name size s :
  function_get_loop s (function_list s) name size = Some None ->
  malloc_function env = true ->
  malloc_function_name env = true ->
  (size <= length name)%nat ->
  gearman_server_function_get env name size s
  = Some (Some (fresh (dom (functions s))), function_added name size s).
Proof.
  intros H Hm1 Hm2 Hsz. unfold gearman_server_function_get.
  eapply bind_run; [reflexivity|]. cbn beta. rewrite H.
  eapply bind_run; [reflexivity|]. cbn beta.
  eapply bind_run; [by apply function_create_run|]. cbn beta.
  rewrite Hm2. unfold read_bytes.
  destruct (Nat.leb_spec size (length name)); [|lia].
  eapply bind_run; [reflexivity|]. cbn beta.
  eapply bind_run; [apply update_function_run; fields; apply lookup_insert_eq|].
  cbn beta. unfold ret, function_added, new_function. fields.
  rewrite insert_insert_eq. reflexivity.
Qed.

(** When an allocation fails, the function list is as before. *)
Lemma function_get_fail env name size s :
  function_get_loop s (function_list s) name size = Some None ->
  malloc_function env && malloc_function_name env = false ->
  exists c, gearman_server_function_get env name size s
            = Some (None, set_function_count c s).
Proof.
  intros H Hm. unfold gearman_server_function_get.
  destruct (malloc_function env) eqn:Hm1.
  - simpl in Hm. eexists.
    eapply bind_run; [reflexivity|]. cbn beta. rewrite H.
    eapply bind_run; [reflexivity|]. cbn beta.
    eapply bind_run; [by apply function_create_run|]. cbn beta.
    rewrite Hm.
    eapply bind_run.
    { unfold gearman_server_function_free.
      eapply bind_run; [apply load_function_run; fields; apply lookup_insert_eq|].
      cbn beta.
      eapply bind_run; [reflexivity|]. cbn beta. fields. reflexivity. }
    cbn beta. unfold ret. fields. rewrite unlink_head.
    rewrite delete_insert_eq, delete_id by apply fresh_function.
    reflexivity.
  - exists (function_count s).
    eapply bind_run; [reflexivity|]. cbn beta. rewrite H.
    eapply bind_run; [reflexivity|]. cbn beta.
    eapply bind_run.
    { unfold gearman_server_function_create. rewrite Hm1.
      eapply bind_run; reflexivity. }
    cbn beta. unfold ret. by destruct s.
Qed.

Lemma job_create_run env s :
  (0 < free_job_count s ->
   exists p, head (free_job_list s) = Some p /\ is_Some (jobs s !! p)) ->
  gearman_server_job_create env None s
  = Some (job_slot env s,
          match job_slot env s with
          | Some p => create_state p s
          | None => s
          end).
Proof.
  intros Hfree. unfold gearman_server_job_create, job_slot, create_state.
  eapply bind_run; [reflexivity|]. cbn beta.
  destruct (Z.ltb_spec 0 (free_job_count s)) as [Hlt|Hge].
  - destruct (Hfree Hlt) as (p & Hp & [j Hj]). rewrite Hp.
    eapply bind_run; [reflexivity|]. cbn beta.
    eapply bind_run; [by apply load_job_run|]. cbn beta.
    eapply bind_run; [reflexivity|]. cbn beta.
    eapply bind_run; [apply update_job_run; fields; exact Hj|]. cbn beta.
    reflexivity.
  - destruct (malloc_job env); [|reflexivity].
    eapply bind_run; reflexivity.
Qed.

(** *** Lines 96-131 of [gearman_server_job_add] *)

Lemma job_add_create_full env f key u us d ds prio s x :
  functions s !! f = Some x ->
  queue_full x = true ->
  job_add_create env f key u us d ds prio s
  = Some (inr GEARMAN_JOB_QUEUE_FULL, s).
Proof.
  intros Hx Hfull. unfold job_add_create.
  eapply bind_run; [by apply load_function_run|]. cbn beta.
  unfold queue_full in Hfull. by rewrite Hfull.
Qed.

Lemma job_add_create_nomem env f key u us d ds prio s x :
  functions s !! f = Some x ->
  queue_full x = false ->
  (0 < free_job_count s ->
   exists p, head (free_job_list s) = Some p /\ is_Some (jobs s !! p)) ->
  job_slot env s = None ->
  job_add_create env f key u us d ds prio s
  = Some (inr GEARMAN_MEMORY_ALLOCATION_FAILURE, s).
Proof.
  intros Hx Hfull Hfree Hslot. unfold job_add_create.
  eapply bind_run; [by apply load_function_run|]. cbn beta.
  unfold queue_full in Hfull. rewrite Hfull.
  eapply bind_run; [by apply job_create_run|]. cbn beta.
  by rewrite Hslot.
Qed.

Lemma job_add_create_run env f key u us d ds prio s x p :
  functions s !! f = Some x ->
  queue_full x = false ->
  (0 < free_job_count s ->
   exists p, head (free_job_list s) = Some p /\ is_Some (jobs s !! p)) ->
  job_slot env s = Some p ->
  job_add_create env f key u us d ds prio s
  = Some (inl p,
          created_state p f (created_job env f key u us d ds prio s) x s).
Proof.
  intros Hx Hfull Hfree Hslot. unfold job_add_create.
  eapply bind_run; [by apply load_function_run|]. cbn beta.
  unfold queue_full in Hfull. rewrite Hfull.
  eapply bind_run; [by apply job_create_run|]. cbn beta.
  rewrite Hslot.
  assert (Hp : forall s0, jobs (create_state p s0) !! p
    = Some (set_job_options (set_flag 0 GEARMAN_SERVER_JOB_ALLOCATED) zeroed_job)).
  { intros s0. unfold create_state.
    destruct (0 <? free_job_count s0); fields; apply lookup_insert_eq. }
  assert (Hf : functions (create_state p s) !! f = Some x).
  { unfold create_state. by destruct (0 <? free_job_count s). }
  eapply bind_run; [apply update_job_run; apply Hp|]. cbn beta.
  eapply bind_run; [apply update_job_run; fields; apply lookup_insert_eq|].
  cbn beta.
  eapply bind_run; [apply update_function_run; fields; exact Hf|]. cbn beta.
  eapply bind_run; [reflexivity|]. cbn beta.
  eapply bind_run; [apply update_job_run; fields; rewrite insert_insert_eq; apply lookup_insert_eq|].
  cbn beta.
  eapply bind_run; [apply update_job_run; fields; apply lookup_insert_eq|].
  cbn beta.
  eapply bind_run; [reflexivity|]. cbn beta.
  eapply bind_run; [apply update_job_run; fields; apply lookup_insert_eq|].
  cbn beta.
  eapply bind_run; [apply update_job_run; fields; apply lookup_insert_eq|].
  cbn beta.
  eapply bind_run; [apply update_job_run; fields; apply lookup_insert_eq|].
  cbn beta.
  eapply bind_run; [reflexivity|]. cbn beta.
  eapply bind_run; [apply load_job_run; fields; apply lookup_insert_eq|].
  cbn beta. fields.
  rewrite server_job_hash_run by done. rewrite firstn_all.
  eapply bind_run; [reflexivity|]. cbn beta.
  eapply bind_run; [apply update_job_run; fields; apply lookup_insert_eq|].
  cbn beta.
  eapply bind_run; [reflexivity|]. cbn beta.
  unfold ret, created_state, created_job. fields.
  rewrite !insert_insert_eq.
  assert (E1 : job_handle_prefix (create_state p s) = job_handle_prefix s).
  { unfold create_state. by destruct (0 <? free_job_count s). }
  assert (E2 : job_handle_count (create_state p s) = job_handle_count s).
  { unfold create_state. by destruct (0 <? free_job_count s). }
  rewrite E1, E2.
  unfold create_state. destruct (0 <? free_job_count s); fields;
    rewrite ?insert_insert_eq; reflexivity.
Qed.

(** *** Lines 133-164 of [gearman_server_job_add] *)

Lemma queue_invoke_run fn call s :
  queue_invoke fn call s
  = Some (fn (call :: queue_log s), logged call s).
Proof. reflexivity. Qed.

Lemma job_add_persist_replay p fn fns us d ds prio c s j :
  jobs s !! p = Some j ->
  has_flag (options s) GEARMAN_SERVER_QUEUE_REPLAY = true ->
  job_add_persist p fn fns us d ds prio c s
  = Some (None, set_jobs (<[p := queued_job j]> (jobs s)) s).
Proof.
  intros Hj Hr. unfold job_add_persist.
  eapply bind_run; [reflexivity|]. cbn beta. rewrite Hr.
  eapply bind_run; [by apply update_job_run|]. reflexivity.
Qed.

Lemma job_add_persist_skip p fn fns us d ds prio c s :
  has_flag (options s) GEARMAN_SERVER_QUEUE_REPLAY = false ->
  c <> None \/ queue_add_fn (gearman s) = None ->
  job_add_persist p fn fns us d ds prio c s = Some (None, s).
Proof.
  intros Hr Hc. unfold job_add_persist.
  eapply bind_run; [reflexivity|]. cbn beta. rewrite Hr.
  destruct c as [c|]; [done|]. destruct Hc as [|Hc]; [done|].
  by rewrite Hc.
Qed.

(** The job is freed when the callback [add] or [flush] fails. *)
Lemma job_add_persist_fail p fn fns us d ds prio s j f x add_fn :
  jobs s !! p = Some j ->
  function j = Some f ->
  functions s !! f = Some x ->
  client_list j = [] ->
  worker j = None ->
  has_flag (options s) GEARMAN_SERVER_QUEUE_REPLAY = false ->
  queue_add_fn (gearman s) = Some add_fn ->
  let call := QueueAdd (unique j) us fn fns d ds prio in
  let r := add_fn (call :: queue_log s) in
  let s1 := logged call s in
  let s2 := logged QueueFlush s1 in
  job_add_persist p fn fns us d ds prio None s
  = if is_success r then
      match queue_flush_fn (gearman s) with
      | Some flush_fn =>
          if is_success (flush_fn (QueueFlush :: call :: queue_log s)) then
            Some (None, set_jobs (<[p := queued_job j]> (jobs s)) s2)
          else
            Some (Some (flush_fn (QueueFlush :: call :: queue_log s)),
                  free_state p f (set_data None j) x
                    (set_jobs (<[p := set_data None j]> (jobs s)) s2))
      | None => Some (None, set_jobs (<[p := queued_job j]> (jobs s)) s1)
      end
    else
      Some (Some r,
            free_state p f (set_data None j) x
              (set_jobs (<[p := set_data None j]> (jobs s)) s1)).
Proof.
  intros Hj Hf Hx Hcl Hw Hr Hadd call r s1 s2. unfold job_add_persist.
  eapply bind_run; [reflexivity|]. cbn beta. rewrite Hr, Hadd.
  eapply bind_run; [by apply load_job_run|]. cbn beta.
  eapply bind_run; [apply queue_invoke_run|]. cbn beta.
  fold call r s1.
  assert (Hfree : forall s0,
    jobs s0 !! p = Some j -> functions s0 !! f = Some x ->
    bind (update_job p (set_data None))
      (fun _ => bind (gearman_server_job_free p)
                  (fun _ => ret (Some r))) s0
    = Some (Some r, free_state p f (set_data None j) x
                      (set_jobs (<[p := set_data None j]> (jobs s0)) s0))).
  { intros s0 Hj0 Hx0.
    eapply bind_run; [by apply update_job_run|]. cbn beta.
    eapply bind_run; [|reflexivity].
    apply job_free_run; fields; try done.
    - apply lookup_insert_eq.
    - rewrite Hcl. split; [constructor|]. by intros c Hin%elem_of_nil.
    - by rewrite Hw. }
  destruct (is_success r) eqn:Hs; simpl.
  2:{ by rewrite (Hfree s1). }
  destruct (queue_flush_fn (gearman s)) as [flush_fn|].
  - destruct (is_success (flush_fn (QueueFlush :: call :: queue_log s))) eqn:Hfl.
    + eapply bind_run.
      { eapply bind_run; [apply queue_invoke_run|]. cbn beta.
        change (queue_log s1) with (call :: queue_log s).
        rewrite Hfl. reflexivity. }
      cbn beta.
      eapply bind_run; [by apply update_job_run|]. reflexivity.
    + eapply bind_run.
      { eapply bind_run; [apply queue_invoke_run|]. cbn beta.
        change (queue_log s1) with (call :: queue_log s).
        rewrite Hfl. simpl.
        eapply bind_run; [by apply update_job_run|]. cbn beta.
        eapply bind_run; [|reflexivity].
        apply (job_free_run _ _ (set_data None j) f x); fields; try done.
        - apply lookup_insert_eq.
        - rewrite Hcl. split; [constructor|]. by intros c Hin%elem_of_nil.
        - by rewrite Hw. }
      reflexivity.
  - eapply bind_run; [reflexivity|]. cbn beta.
    eapply bind_run; [by apply update_job_run|]. reflexivity.
Qed.

(** *** Lines 166-181 of [gearman_server_job_add] *)

Lemma job_add_enqueue_run env p us c s j f x :
  jobs s !! p = Some j ->
  function j = Some f ->
  functions s !! f = Some x ->
  wakeable (workers s) (cons s) (worker_list x) ->
  priority j <> GEARMAN_JOB_PRIORITY_MAX ->
  (forall h, job_list x (priority j) = Some h ->
     exists e, job_end x (priority j) = Some e /\
               is_Some (<[p := queue_reset j]> (jobs s) !! e)) ->
  client_list j = [] ->
  worker j = None ->
  let r := queue_ret env x s in
  let s1 := queue_state env p f j x s in
  let call := QueueDone (unique j) us (function_name x) (function_name_size x) in
  job_add_enqueue env p us c s
  = if is_success r then Some ((Some p, r), s1)
    else
      let s2 := match c, queue_done_fn (gearman s) with
                | None, Some _ => logged call s1
                | _, _ => s1
                end in
      Some ((None, r), free_state p f (queue_reset j) x s2).
Proof.
  intros Hj Hf Hx Hwk Hprio Htail Hcl Hw r s1 call. unfold job_add_enqueue.
  eapply bind_run; [by apply job_queue_run|]. cbn beta. fold r s1.
  destruct (is_success r) eqn:Hr; simpl; [reflexivity|].
  assert (Hj1 : jobs s1 !! p = Some (queue_reset j)).
  { subst s1. unfold queue_state. fold r. rewrite Hr. fields. apply lookup_insert_eq. }
  assert (Hx1 : functions s1 !! f = Some x).
  { subst s1. unfold queue_state. fold r. rewrite Hr. fields.
    rewrite lookup_insert_eq. unfold queue_release.
    rewrite Hw. by rewrite bool_decide_false by (intros H; by apply H). }
  eapply bind_run; [reflexivity|]. cbn beta.
  eapply bind_run.
  { instantiate (1 := match c, queue_done_fn (gearman s) with
                      | None, Some _ => logged call s1
                      | _, _ => s1
                      end). instantiate (1 := tt).
    assert (Hg : gearman s1 = gearman s).
    { subst s1. unfold queue_state. fold r. by rewrite Hr. }
    rewrite Hg. destruct c as [c|]; [reflexivity|].
    destruct (queue_done_fn (gearman s)) as [done_fn|]; [|reflexivity].
    eapply bind_run; [by apply load_job_run|]. cbn beta.
    rewrite queue_reset_function, Hf.
    eapply bind_run; [reflexivity|]. cbn beta.
    eapply bind_run; [by apply load_function_run|]. cbn beta.
    eapply bind_run; [apply queue_invoke_run|]. cbn beta.
    unfold ret, call, queue_reset. fields.
    by destruct (bool_decide (worker j <> None)). }
  cbn beta.
  eapply bind_run; [|reflexivity].
  apply job_free_run.
  - by destruct c, (queue_done_fn (gearman s)).
  - by rewrite queue_reset_function.
  - by destruct c, (queue_done_fn (gearman s)).
  - assert (Hc0 : client_list (queue_reset j) = []).
    { unfold queue_reset. fields. by destruct (bool_decide _). }
    rewrite Hc0. split; [constructor|]. by intros c0 Hin%elem_of_nil.
  - by rewrite queue_reset_worker.
Qed.

(** *** Lines 186-190 of [gearman_server_job_add] *)

Lemma job_add_client_run p c s :
  (forall c', c = Some c' -> is_Some (clients s !! c') /\ is_Some (jobs s !! p)) ->
  job_add_client p c s = Some (tt, client_added c p s).
Proof.
  intros Hc. unfold job_add_client, client_added. destruct c as [c|]; [|done].
  destruct (Hc c eq_refl) as [[cl Hcl] [j Hj]]. rewrite Hcl, Hj.
  eapply bind_run; [by apply update_client_run|]. cbn beta.
  by rewrite (update_job_run _ _ _ j).
Qed.

Lemma job_sim_refl j : job_sim j j.
Proof. by repeat split. Qed.

Lemma opt_sim_refl {A} (R : A -> A -> Prop) o :
  (forall a, R a a) -> opt_sim R o o.
Proof. intros H. destruct o; simpl; auto. Qed.

Lemma opt_sim_Some_l {A} (R : A -> A -> Prop) o o' a :
  opt_sim R o o' -> o = Some a -> exists a', o' = Some a' /\ R a a'.
Proof. intros H ->. destruct o'; simpl in *; [eauto|done]. Qed.

Lemma opt_sim_Some_r {A} (R : A -> A -> Prop) o o' a' :
  opt_sim R o o' -> o' = Some a' -> exists a, o = Some a /\ R a a'.
Proof. intros H ->. destruct o; simpl in *; [eauto|done]. Qed.

Lemma chain_sim m m' head l :
  chain m head l ->
  (forall p, p ∈ l -> opt_sim job_sim (m !! p) (m' !! p)) ->
  chain m' head l.
Proof.
  induction 1 as [|p j l Hp Hc IH]; intros Hs; [constructor|].
  destruct (opt_sim_Some_l _ _ _ _ (Hs p (list_elem_of_here _ _)) Hp)
    as (j' & Hj' & Hsim).
  econstructor; [exact Hj'|].
  destruct Hsim as (_ & _ & _ & -> & _). apply IH.
  intros q Hq. apply Hs. by apply list_elem_of_further.
Qed.

Lemma live_sim s s' p : state_sim s s' -> live s p <-> live s' p.
Proof.
  intros Hs. unfold live. split; intros [k Hk]; exists k.
  - by rewrite (sim_job_hash _ _ Hs).
  - by rewrite <- (sim_job_hash _ _ Hs).
Qed.

Lemma sim_live_job s s' p :
  state_sim s s' -> live s p -> opt_sim job_sim (jobs s !! p) (jobs s' !! p).
Proof.
  intros Hs Hl. pose proof (sim_jobs _ _ Hs p) as H.
  destruct (jobs s !! p), (jobs s' !! p); simpl in *; auto.
Qed.

Lemma sim_is_Some s s' p :
  state_sim s s' -> is_Some (jobs s !! p) -> is_Some (jobs s' !! p).
Proof.
  intros Hs [j Hj]. pose proof (sim_jobs _ _ Hs p) as H. rewrite Hj in H.
  destruct (jobs s' !! p); [eauto|done].
Qed.

Lemma wakeable_sim s s' l :
  state_sim s s' ->
  wakeable (workers s) (cons s) l -> wakeable (workers s') (cons s') l.
Proof.
  intros Hs Hw w Hin. destruct (Hw w Hin) as (wk & c & Hwk & Hc).
  destruct (opt_sim_Some_l _ _ _ _ (sim_workers _ _ Hs w) Hwk)
    as (wk' & Hwk' & Hcon & _).
  destruct (opt_sim_Some_l _ _ _ _ (sim_cons _ _ Hs (worker_con wk)) Hc)
    as (c' & Hc' & _).
  exists wk', c'. by rewrite Hcon.
Qed.

Lemma queue_of_sim s s' f prio l :
  state_sim s s' -> (forall p, p ∈ l -> live s p) ->
  queue_of s f prio l -> queue_of s' f prio l.
Proof.
  intros Hs Hlive (x & Hx & Hp & Hc). exists x.
  rewrite (sim_functions _ _ Hs). split; [done|]. split; [done|].
  eapply chain_sim; [done|]. intros p Hin. apply sim_live_job; auto.
Qed.

Lemma server_inv_sim pending s s' :
  state_sim s s' -> server_inv_upto pending s -> server_inv_upto pending s'.
Proof.
  intros Hs Hi. constructor.
  - intros f Hf. rewrite (sim_function_list _ _ Hs) in Hf.
    rewrite (sim_functions _ _ Hs). by apply (inv_function_list _ _ Hi).
  - intros f x Hf Hx. rewrite (sim_function_list _ _ Hs) in Hf.
    rewrite (sim_functions _ _ Hs) in Hx.
    eapply wakeable_sim; [done|]. by eapply (inv_workers _ _ Hi).
  - intros c con Hc w Hw.
    destruct (opt_sim_Some_r _ _ _ _ (sim_cons _ _ Hs c) Hc) as (con0 & Hc0 & Hl).
    red in Hl. rewrite Hl in Hw.
    destruct (inv_cons _ _ Hi c con0 Hc0 w Hw) as (wk & Hwk & Hf).
    destruct (opt_sim_Some_l _ _ _ _ (sim_workers _ _ Hs w) Hwk)
      as (wk' & Hwk' & _ & Hfn).
    exists wk'. split; [done|]. by rewrite Hfn, (sim_function_list _ _ Hs).
  - intros k p Hp. rewrite (sim_job_hash _ _ Hs) in Hp.
    destruct (inv_job_hash _ _ Hi k p Hp) as (j & Hj & Hk).
    assert (Hl : live s p) by (by exists k).
    destruct (opt_sim_Some_l _ _ _ _ (sim_live_job _ _ p Hs Hl) Hj)
      as (j' & Hj' & Hsim).
    exists j'. split; [done|]. destruct Hsim as (_&_&_&_&_&_&_&E). by rewrite E.
  - intros k. rewrite (sim_job_hash _ _ Hs). apply (inv_job_hash_NoDup _ _ Hi).
  - intros k p. rewrite (sim_unique_hash _ _ Hs), <- (live_sim _ _ _ Hs).
    rewrite (inv_unique_hash _ _ Hi). split; intros [Hl (j & Hj & Hk)]; (split; [done|]).
    + destruct (opt_sim_Some_l _ _ _ _ (sim_live_job _ _ p Hs Hl) Hj)
        as (j' & Hj' & Hsim).
      exists j'. split; [done|]. destruct Hsim as (_&_&_&_&_&_&E&_). by rewrite E.
    + destruct (opt_sim_Some_r _ _ _ _ (sim_live_job _ _ p Hs Hl) Hj)
        as (j' & Hj' & Hsim).
      exists j'. split; [done|]. destruct Hsim as (_&_&_&_&_&_&E&_). by rewrite <- E.
  - intros k. rewrite (sim_unique_hash _ _ Hs). apply (inv_unique_hash_NoDup _ _ Hi).
  - rewrite (sim_free_job_list _ _ Hs), (sim_free_job_count _ _ Hs).
    apply (inv_free_count _ _ Hi).
  - rewrite (sim_free_job_list _ _ Hs).
    destruct (inv_free_list _ _ Hi) as [Hnd Hfl]. split; [done|].
    intros p Hp. destruct (Hfl p Hp) as [Hsome Hnl]. split.
    + by eapply sim_is_Some.
    + by rewrite <- (live_sim _ _ _ Hs).
  - intros p j' Hl Hj'. rewrite <- (live_sim _ _ _ Hs) in Hl.
    destruct (opt_sim_Some_r _ _ _ _ (sim_live_job _ _ p Hs Hl) Hj')
      as (j & Hj & Hsim).
    destruct (inv_live _ _ Hi p j Hl Hj) as (f & Hf & Hfl & Hprio & Hd & Hcl & Hw).
    pose proof (sim_clients _ _ Hs p j j' Hl Hj Hj' Hcl) as Hcl'.
    destruct Hsim as (E1 & E2 & E3 & E4 & E5 & E6 & E8 & E9).
    exists f. rewrite E1, E2, E3, E4, E5, E6, (sim_function_list _ _ Hs).
    repeat (split; [done|]).
    destruct (worker j) as [w|].
    + destruct Hw as [wk Hwk].
      destruct (opt_sim_Some_l _ _ _ _ (sim_workers _ _ Hs w) Hwk) as (wk' & Hwk' & _).
      by exists wk'.
    + destruct (decide (pending = Some p)); [done|].
      destruct Hw as (l & Hq & Hin). exists l. split; [|done].
      eapply queue_of_sim; [done| |done].
      destruct Hq as (x & Hx & _ & Hc).
      destruct (inv_queues _ _ Hi f x Hfl Hx) as (q & [Hq _] & _).
      destruct (Hq _ Hprio) as (Hc' & _ & Hall).
      pose proof (chain_det _ _ _ _ Hc Hc') as ->.
      intros a Ha. by destruct (Hall a Ha).
  - intros f x Hf Hx. rewrite (sim_function_list _ _ Hs) in Hf.
    rewrite (sim_functions _ _ Hs) in Hx.
    destruct (inv_queues _ _ Hi f x Hf Hx) as (q & [Hq Hcount] & Hpend).
    exists q. split; [|done]. split; [|done].
    intros prio Hprio. destruct (Hq prio Hprio) as (Hc & He & Hall).
    split; [|split; [done|]].
    + eapply chain_sim; [done|]. intros p Hin. apply sim_live_job; [done|].
      by destruct (Hall p Hin).
    + intros p Hp. destruct (Hall p Hp) as (Hl & j & Hj & H1 & H2 & H3).
      split; [by rewrite <- (live_sim _ _ _ Hs)|].
      destruct (opt_sim_Some_l _ _ _ _ (sim_live_job _ _ p Hs Hl) Hj)
        as (j' & Hj' & Hsim).
      destruct Hsim as (E1 & E2 & E3 & _).
      exists j'. by rewrite E1, E2, E3.
  - intros p Hp. destruct (inv_pending _ _ Hi p Hp) as (Hl & j & Hj & Hw).
    split; [by rewrite <- (live_sim _ _ _ Hs)|].
    destruct (opt_sim_Some_l _ _ _ _ (sim_live_job _ _ p Hs Hl) Hj)
      as (j' & Hj' & Hsim).
    destruct Hsim as (_ & _ & E3 & _). exists j'. by rewrite E3.
Qed.

Ltac sim_same :=
  try done;
  try (intros; apply opt_sim_refl; intros; by repeat split);
  try (intros ? ? ? _ Hj Hj'; cbn in Hj'; fields; rewrite Hj in Hj';
       by injection Hj' as <-).

Lemma state_sim_refl s : state_sim s s.
Proof. constructor; sim_same. Qed.

Lemma state_sim_logged call s : state_sim s (logged call s).
Proof. constructor; sim_same. Qed.

Lemma state_sim_function_count c s : state_sim s (set_function_count c s).
Proof. constructor; sim_same. Qed.

Lemma state_sim_job p j j' s :
  jobs s !! p = Some j ->
  (live s p -> job_sim j j' /\ client_list j' = client_list j) ->
  state_sim s (set_jobs (<[p := j']> (jobs s)) s).
Proof.
  intros Hj Hsim. constructor; sim_same.
  - intros q j0 j0' Hl Hj0 Hj0'. fields.
    destruct (decide (q = p)) as [->|Hne].
    + rewrite lookup_insert_eq in Hj0'. injection Hj0' as <-.
      assert (j0 = j) as -> by congruence.
      by rewrite (proj2 (Hsim Hl)).
    + rewrite lookup_insert_ne in Hj0' by done.
      by assert (j0' = j0) as -> by congruence.
  - intros q. fields. destruct (decide (q = p)) as [->|Hne].
    + rewrite lookup_insert_eq, Hj. simpl. intros Hl. by apply Hsim.
    + rewrite lookup_insert_ne by done. apply opt_sim_refl.
      intros a _. apply job_sim_refl.
Qed.

Lemma state_sim_noop env l s :
  wakeable (workers s) (cons s) l ->
  state_sim s (set_cons (snd (noop_cons env (workers s) l (cons s))) s).
Proof.
  intros Hw. destruct (noop_cons_spec env (workers s) l (cons s) Hw)
    as (Hnone & Hsome & _).
  constructor; sim_same.
  intros c. fields. destruct (cons s !! c) as [c0|] eqn:Hc.
  - destruct (Hsome c c0 Hc) as (c1 & n & -> & (_ & H2 & _) & _). done.
  - by rewrite (Hnone c Hc).
Qed.

Lemma state_sim_worker_job w wk o s :
  workers s !! w = Some wk ->
  state_sim s (set_workers (<[w := set_worker_job o wk]> (workers s)) s).
Proof.
  intros Hw. constructor; sim_same.
  intros w'. fields. destruct (decide (w' = w)) as [->|Hne].
  - by rewrite lookup_insert_eq, Hw.
  - rewrite lookup_insert_ne by done. apply opt_sim_refl. by split.
Qed.

Lemma state_sim_trans s1 s2 s3 :
  state_sim s1 s2 -> state_sim s2 s3 -> state_sim s1 s3.
Proof.
  intros H1 H2. constructor.
  - by rewrite (sim_function_list _ _ H2), (sim_function_list _ _ H1).
  - by rewrite (sim_functions _ _ H2), (sim_functions _ _ H1).
  - intros w. pose proof (sim_workers _ _ H1 w). pose proof (sim_workers _ _ H2 w).
    destruct (workers s1 !! w), (workers s2 !! w), (workers s3 !! w);
      simpl in *; try done. unfold worker_sim in *. intuition congruence.
  - intros c. pose proof (sim_cons _ _ H1 c). pose proof (sim_cons _ _ H2 c).
    destruct (cons s1 !! c), (cons s2 !! c), (cons s3 !! c);
      simpl in *; try done. unfold con_sim in *. congruence.
  - intros k. by rewrite (sim_job_hash _ _ H2), (sim_job_hash _ _ H1).
  - intros k. by rewrite (sim_unique_hash _ _ H2), (sim_unique_hash _ _ H1).
  - by rewrite (sim_free_job_list _ _ H2), (sim_free_job_list _ _ H1).
  - by rewrite (sim_free_job_count _ _ H2), (sim_free_job_count _ _ H1).
  - intros p j j3 Hl Hj Hj3 Hc.
    destruct (sim_is_Some _ _ p H1 (ex_intro _ j Hj)) as [j2 Hj2].
    eapply (sim_clients _ _ H2); [by apply (live_sim _ _ _ H1)|done|done|].
    by eapply (sim_clients _ _ H1).
  - intros p. pose proof (sim_jobs _ _ H1 p) as A. pose proof (sim_jobs _ _ H2 p) as B.
    pose proof (live_sim _ _ p H1) as Hl.
    destruct (jobs s1 !! p), (jobs s2 !! p), (jobs s3 !! p); simpl in *; try done.
    intros Hl1. specialize (A Hl1). specialize (B (proj1 Hl Hl1)).
    unfold job_sim in *. intuition congruence.
Qed.

(** *** A new function *)

Lemma memcmp_eq_defined a b n :
  (n <= length a)%nat -> (n <= length b)%nat -> is_Some (memcmp_eq a b n).
Proof.
  intros Ha Hb. unfold memcmp_eq, read_bytes.
  destruct (Nat.leb_spec n (length a)); [|lia].
  destruct (Nat.leb_spec n (length b)); [|lia]. eauto.
Qed.

Lemma server_inv_function_added pending name size s :
  (size <= length name)%nat ->
  server_inv_upto pending s ->
  server_inv_upto pending (function_added name size s).
Proof.
  intros Hsz Hi. set (f := fresh (dom (functions s))).
  assert (Hfresh : functions s !! f = None) by apply fresh_function.
  assert (Hnew : f ∉ function_list s).
  { intros Hin. destruct (inv_function_list _ _ Hi f Hin) as (x & ? & Hx & _).
    congruence. }
  assert (Hq : forall f' prio l, queue_of s f' prio l ->
                 queue_of (function_added name size s) f' prio l).
  { intros f' prio l (x & Hx & Hp & Hc). exists x. unfold function_added. fields.
    fold f. rewrite lookup_insert_ne by congruence. done. }
  constructor; unfold function_added; fields; fold f.
  - intros f' [->|Hin]%elem_of_cons.
    + eexists _, _. rewrite lookup_insert_eq. split; [done|].
      unfold new_function. fields. split; [done|].
      rewrite length_app, length_firstn. simpl. lia.
    + rewrite lookup_insert_ne by congruence. by apply (inv_function_list _ _ Hi).
  - intros f' x [->|Hin]%elem_of_cons.
    + rewrite lookup_insert_eq. intros [= <-]. unfold new_function. fields.
      simpl. by intros w Hw%elem_of_nil.
    + rewrite lookup_insert_ne by congruence. by apply (inv_workers _ _ Hi).
  - intros c con Hc w Hw.
    destruct (inv_cons _ _ Hi c con Hc w Hw) as (wk & Hwk & Hf).
    exists wk. split; [done|]. by apply list_elem_of_further.
  - apply (inv_job_hash _ _ Hi).
  - apply (inv_job_hash_NoDup _ _ Hi).
  - apply (inv_unique_hash _ _ Hi).
  - apply (inv_unique_hash_NoDup _ _ Hi).
  - apply (inv_free_count _ _ Hi).
  - apply (inv_free_list _ _ Hi).
  - intros p j Hl Hj.
    destruct (inv_live _ _ Hi p j Hl Hj) as (f' & Hf & Hfl & Hprio & Hd & Hcl & Hw).
    exists f'. split; [done|]. split; [by apply list_elem_of_further|].
    repeat (split; [done|]).
    destruct (worker j); [done|]. destruct (decide (pending = Some p)); [done|].
    destruct Hw as (l & Hqo & Hin). exists l. split; [|done]. by apply Hq.
  - intros f' x [->|Hin]%elem_of_cons.
    + rewrite lookup_insert_eq. intros [= <-]. exists (fun _ => []).
      split; [|by intros p prio _ _ Hp%elem_of_nil].
      split; [|done]. intros prio Hprio. unfold new_function. fields. simpl.
      split; [constructor|]. split; [done|]. by intros p Hp%elem_of_nil.
    + rewrite lookup_insert_ne by congruence. intros Hx.
      by apply (inv_queues _ _ Hi).
  - apply (inv_pending _ _ Hi).
Qed.

(** *** A new job *)

Lemma hash_add_elem h key p q k :
  q ∈ GEARMAN_HASH_ADD h key p k <-> (k = key /\ q = p) \/ q ∈ h k.
Proof.
  unfold GEARMAN_HASH_ADD. destruct (Z.eqb_spec k key) as [->|Hne].
  - rewrite elem_of_cons. intuition congruence.
  - intuition congruence.
Qed.

Lemma hash_del_elem h key p q k :
  NoDup (h k) ->
  q ∈ GEARMAN_HASH_DEL h key p k <-> q ∈ h k /\ ~ (k = key /\ q = p).
Proof.
  intros Hnd. unfold GEARMAN_HASH_DEL. destruct (Z.eqb_spec k key) as [->|Hne].
  - split.
    + intros Hq. split; [by eapply elem_of_unlink|].
      intros [_ ->]. by apply (NoDup_unlink p (h key) Hnd).
    + intros [Hq Hne]. apply elem_of_unlink_ne; [done|].
      intros ->. by apply Hne.
  - intuition congruence.
Qed.

(** The slot that [gearman_server_job_create] uses holds no live job. *)
Lemma job_slot_not_live env s p :
  server_inv s -> job_slot env s = Some p -> ~ live s p.
Proof.
  intros Hi Hslot Hl. unfold job_slot in Hslot.
  destruct (0 <? free_job_count s).
  - destruct (inv_free_list _ _ Hi) as [_ Hfl].
    apply (Hfl p); [|done]. destruct (free_job_list s); [done|].
    injection Hslot as ->. apply list_elem_of_here.
  - destruct (malloc_job env); [|done]. injection Hslot as <-.
    destruct Hl as [k Hk].
    destruct (inv_job_hash _ _ Hi k _ Hk) as (j & Hj & _).
    by rewrite fresh_job in Hj.
Qed.

Lemma job_slot_free s :
  server_inv s ->
  0 < free_job_count s ->
  exists p, head (free_job_list s) = Some p /\ is_Some (jobs s !! p).
Proof.
  intros Hi Hlt. destruct (inv_free_count _ _ Hi) as [Hc _].
  destruct (inv_free_list _ _ Hi) as [_ Hfl].
  destruct (free_job_list s) as [|p l]; [simpl in Hc; lia|].
  exists p. split; [done|]. apply Hfl, list_elem_of_here.
Qed.

Lemma queued_live s f x q prio p :
  queues_ok s f x q -> prio <> GEARMAN_JOB_PRIORITY_MAX -> p ∈ q prio ->
  live s p.
Proof. intros [Hq _] Hprio Hp. by destruct (Hq prio Hprio) as (_ & _ & Hall); apply Hall. Qed.

Lemma server_inv_created p f j x s :
  server_inv s ->
  f ∈ function_list s ->
  functions s !! f = Some x ->
  ~ live s p ->
  (if 0 <? free_job_count s then head (free_job_list s) = Some p
   else jobs s !! p = None) ->
  function j = Some f ->
  priority j <> GEARMAN_JOB_PRIORITY_MAX ->
  data_ok (data j) (data_size j) ->
  client_list j = [] ->
  worker j = None ->
  function_next j = None ->
  server_inv_upto (Some p) (created_state p f j x s).
Proof.
  intros Hi Hf Hx Hnl Hslot Hjf Hjp Hjd Hjc Hjw Hjn.
  assert (Hlive : forall q, live (created_state p f j x s) q <-> q = p \/ live s q).
  { intros q. unfold live, created_state. fields. split.
    - intros [k Hk]. apply hash_add_elem in Hk as [[_ ->]|Hk]; [by left|].
      right. by exists k.
    - intros [->|[k Hk]].
      + exists (job_handle_key j mod GEARMAN_JOB_HASH_SIZE).
        apply hash_add_elem. by left.
      + exists k. apply hash_add_elem. by right. }
  assert (Hother : forall q, live s q -> q <> p) by (intros q Hq ->; done).
  assert (Hchain : forall head l,
    chain (jobs s) head l -> (forall q, q ∈ l -> live s q) ->
    chain (<[p := j]> (jobs s)) head l).
  { intros head l Hc Hall. apply chain_insert_notin; [done|].
    intros Hin. by apply Hnl, Hall. }
  assert (Hxl : forall f' x', f' ∈ function_list s ->
    <[f := set_job_total (wrap32 (job_total x + 1)) x]> (functions s) !! f' = Some x' ->
    exists x0, functions s !! f' = Some x0 /\ job_list x' = job_list x0 /\
               job_end x' = job_end x0 /\ job_count x' = job_count x0 /\
               worker_list x' = worker_list x0 /\
               function_name x' = function_name x0 /\
               function_name_size x' = function_name_size x0).
  { intros f' x' _ Hx'. destruct (decide (f' = f)) as [->|Hne].
    - rewrite lookup_insert_eq in Hx'. injection Hx' as <-. by exists x.
    - rewrite lookup_insert_ne in Hx' by done. by exists x'. }
  assert (Hqs : forall f' x', f' ∈ function_list s ->
    <[f := set_job_total (wrap32 (job_total x + 1)) x]> (functions s) !! f' = Some x' ->
    exists q, queues_ok (created_state p f j x s) f' x' q /\
              forall p0 prio, Some p = Some p0 ->
                prio <> GEARMAN_JOB_PRIORITY_MAX -> p0 ∉ q prio).
  { intros f' x' Hf' Hx'.
    destruct (Hxl f' x' Hf' Hx') as (x0 & Hx0 & E1 & E2 & E3 & _).
    destruct (inv_queues _ _ Hi f' x0 Hf' Hx0) as (q & [Hq Hcount] & _).
    exists q. split.
    - split; [|by rewrite E3].
      intros prio Hprio. destruct (Hq prio Hprio) as (Hc & He & Hall).
      rewrite E1, E2. split; [|split; [done|]].
      + unfold created_state. fields. apply Hchain; [done|].
        intros q0 Hq0. by apply Hall.
      + intros q0 Hq0. destruct (Hall q0 Hq0) as (Hl & j0 & Hj0 & Hrest).
        split; [apply Hlive; by right|]. exists j0. split; [|done].
        unfold created_state. fields. rewrite lookup_insert_ne; [done|].
        intros ->. done.
    - intros p0 prio [= <-] Hprio Hin. apply Hnl.
      eapply queued_live; [split; eauto|exact Hprio|exact Hin]. }
  destruct (inv_free_count _ _ Hi) as [Hfc Hfm].
  destruct (inv_free_list _ _ Hi) as [Hfnd Hfl].
  constructor.
  - intros f' Hf'. unfold created_state in *. fields.
    destruct (inv_function_list _ _ Hi f' Hf') as (x0 & name & Hx0 & Hn & Hs).
    destruct (decide (f' = f)) as [->|Hne].
    + rewrite lookup_insert_eq. rewrite Hx in Hx0. injection Hx0 as <-.
      by exists (set_job_total (wrap32 (job_total x + 1)) x), name.
    + rewrite lookup_insert_ne by done. by exists x0, name.
  - intros f' x' Hf' Hx'. unfold created_state in *. fields.
    destruct (Hxl f' x' Hf' Hx') as (x0 & Hx0 & _ & _ & _ & E & _).
    rewrite E. by apply (inv_workers _ _ Hi f').
  - apply (inv_cons _ _ Hi).
  - intros k q Hq. unfold created_state in *. fields.
    apply hash_add_elem in Hq as [[-> ->]|Hq].
    + exists j. by rewrite lookup_insert_eq.
    + destruct (inv_job_hash _ _ Hi k q Hq) as (j0 & Hj0 & Hk).
      exists j0. split; [|done]. rewrite lookup_insert_ne; [done|].
      intros ->. apply Hnl. by exists k.
  - intros k. unfold created_state, GEARMAN_HASH_ADD. fields.
    destruct (Z.eqb_spec k (job_handle_key j mod GEARMAN_JOB_HASH_SIZE)) as [->|].
    + constructor; [|apply (inv_job_hash_NoDup _ _ Hi)].
      intros Hin. apply Hnl. by eexists.
    + apply (inv_job_hash_NoDup _ _ Hi).
  - intros k q. rewrite Hlive. unfold created_state. fields.
    rewrite hash_add_elem, (inv_unique_hash _ _ Hi). split.
    + intros [[-> ->]|[Hl (j0 & Hj0 & Hk)]].
      * split; [by left|]. exists j. by rewrite lookup_insert_eq.
      * split; [by right|]. exists j0. split; [|done].
        rewrite lookup_insert_ne; [done|]. intros ->. done.
    + intros [Hl (j0 & Hj0 & Hk)]. destruct (decide (q = p)) as [->|Hne].
      * rewrite lookup_insert_eq in Hj0. injection Hj0 as <-. by left.
      * rewrite lookup_insert_ne in Hj0 by done. right.
        destruct Hl as [->|Hl]; [done|]. split; [done|]. by exists j0.
  - intros k. unfold created_state, GEARMAN_HASH_ADD. fields.
    destruct (Z.eqb_spec k (unique_key j mod GEARMAN_JOB_HASH_SIZE)) as [->|].
    + constructor; [|apply (inv_unique_hash_NoDup _ _ Hi)].
      intros Hin. apply Hnl. by apply (inv_unique_hash _ _ Hi) in Hin as [? _].
    + apply (inv_unique_hash_NoDup _ _ Hi).
  - unfold created_state. fields.
    destruct (Z.ltb_spec 0 (free_job_count s)) as [Hlt|Hge]; [|done].
    destruct (free_job_list s) as [|p' l] eqn:El; [done|].
    simpl in Hslot. injection Hslot as ->. rewrite unlink_head.
    simpl in Hfc. unfold GEARMAN_MAX_FREE_SERVER_JOB in *.
    rewrite wrap32_small by lia. lia.
  - unfold created_state. fields.
    assert (Hsub : forall q,
      q ∈ (if 0 <? free_job_count s then unlink p (free_job_list s)
           else free_job_list s) -> q ∈ free_job_list s /\ q <> p).
    { intros q Hq. destruct (0 <? free_job_count s).
      - split; [by eapply elem_of_unlink|]. intros ->.
        by apply (NoDup_unlink p _ Hfnd).
      - split; [done|]. intros ->. destruct (Hfl p Hq) as [[j0 Hj0] _]. congruence. }
    split.
    + destruct (0 <? free_job_count s); [|done]. by apply NoDup_unlink.
    + intros q Hq. destruct (Hsub q Hq) as [Hq0 Hne].
      destruct (Hfl q Hq0) as [Hsome Hnlq]. split.
      * by rewrite lookup_insert_ne.
      * rewrite Hlive. intros [->|Hl]; done.
  - intros q j0 Hl Hj0. apply Hlive in Hl. unfold created_state in Hj0. fields.
    destruct (decide (q = p)) as [->|Hne].
    + rewrite lookup_insert_eq in Hj0. injection Hj0 as <-.
      exists f. repeat (split; [done|]). split.
      * rewrite Hjc. split; [constructor|]. by intros c Hc%elem_of_nil.
      * rewrite Hjw. by rewrite decide_True.
    + rewrite lookup_insert_ne in Hj0 by done.
      destruct Hl as [->|Hl]; [done|].
      destruct (inv_live _ _ Hi q j0 Hl Hj0) as (f' & Hf' & Hfl' & Hprio & Hd & Hcl & Hw).
      exists f'. repeat (split; [done|]).
      destruct (worker j0); [done|].
      rewrite decide_False by congruence. rewrite decide_False in Hw by done.
      destruct Hw as (l & (x0 & Hx0 & Hp0 & Hc0) & Hin).
      destruct (inv_queues _ _ Hi f' x0 Hfl' Hx0) as (q0 & [Hq0 _] & _).
      destruct (Hq0 _ Hp0) as (Hc1 & _ & Hall).
      pose proof (chain_det _ _ _ _ Hc0 Hc1) as ->.
      exists (q0 (priority j0)). split; [|done].
      destruct (decide (f' = f)) as [->|Hnf].
      * exists (set_job_total (wrap32 (job_total x + 1)) x).
        unfold created_state. fields. rewrite lookup_insert_eq.
        rewrite Hx in Hx0. injection Hx0 as <-.
        split; [done|]. split; [done|]. apply Hchain; [done|].
        intros q1 Hq1. by apply Hall.
      * exists x0. unfold created_state. fields.
        rewrite lookup_insert_ne by done.
        split; [done|]. split; [done|]. apply Hchain; [done|].
        intros q1 Hq1. by apply Hall.
  - intros f' x' Hf' Hx'. apply Hqs; [done|]. exact Hx'.
  - intros p0 [= <-]. split; [apply Hlive; by left|].
    exists j. unfold created_state. fields. by rewrite lookup_insert_eq.
Qed.

Lemma chain_nil_inv m head : chain m head [] -> head = None.
Proof. by inversion 1. Qed.

Lemma chain_head m head p l : chain m head (p :: l) -> head = Some p.
Proof. by inversion 1. Qed.

Lemma queues_ok_not_queued s f x q p j prio :
  queues_ok s f x q -> prio <> GEARMAN_JOB_PRIORITY_MAX ->
  jobs s !! p = Some j -> worker j <> None -> p ∉ q prio.
Proof.
  intros [Hq _] Hprio Hj Hw Hin.
  destruct (Hq prio Hprio) as (_ & _ & Hall).
  destruct (Hall p Hin) as (_ & j' & Hj' & _ & _ & Hw'). congruence.
Qed.

(** A job that is running, or pending, is on no priority list. *)
Lemma not_queued pending s p j f x q prio :
  server_inv_upto pending s ->
  jobs s !! p = Some j ->
  pending = Some p \/ worker j <> None ->
  queues_ok s f x q /\
    (forall p0 prio0, pending = Some p0 ->
       prio0 <> GEARMAN_JOB_PRIORITY_MAX -> p0 ∉ q prio0) ->
  prio <> GEARMAN_JOB_PRIORITY_MAX ->
  p ∉ q prio.
Proof.
  intros Hi Hj [Hp|Hw] [Hq Hpend] Hprio.
  - by apply Hpend.
  - by eapply queues_ok_not_queued.
Qed.

Lemma server_inv_queue_prepared pending s p j f x :
  server_inv_upto pending s ->
  pending = Some p \/ (pending = None /\ worker j <> None) ->
  live s p ->
  jobs s !! p = Some j ->
  function j = Some f ->
  functions s !! f = Some x ->
  server_inv_upto (Some p) (queue_prepared p f j x s).
Proof.
  intros Hi Hcase Hl Hj Hf Hx.
  assert (Hcase' : pending = Some p \/ worker j <> None) by tauto.
  destruct (inv_live _ _ Hi p j Hl Hj) as (f0 & Hf0 & Hfl & Hprio & Hd & Hcl & Hw).
  assert (f0 = f) as -> by congruence.
  assert (Hnext : function_next (queue_reset j) = None).
  { unfold queue_reset. fields. destruct (worker j) eqn:Ew.
    - by rewrite bool_decide_true.
    - rewrite bool_decide_false by (intros H; by apply H).
      destruct Hcase as [->|[_ ?]]; [|done]. by rewrite decide_True in Hw. }
  assert (Hlive : forall q, live (queue_prepared p f j x s) q <-> live s q) by done.
  assert (Hxl : forall f' x',
    <[f := queue_release j x]> (functions s) !! f' = Some x' ->
    exists x0, functions s !! f' = Some x0 /\ job_list x' = job_list x0 /\
               job_end x' = job_end x0 /\ job_count x' = job_count x0 /\
               worker_list x' = worker_list x0 /\
               function_name x' = function_name x0 /\
               function_name_size x' = function_name_size x0).
  { intros f' x' Hx'. destruct (decide (f' = f)) as [->|Hne].
    - rewrite lookup_insert_eq in Hx'. injection Hx' as <-. exists x.
      unfold queue_release. by destruct (bool_decide _).
    - rewrite lookup_insert_ne in Hx' by done. by exists x'. }
  assert (Hqs : forall f' x', f' ∈ function_list s ->
    <[f := queue_release j x]> (functions s) !! f' = Some x' ->
    exists x0 q, functions s !! f' = Some x0 /\
      queues_ok s f' x0 q /\
      queues_ok (queue_prepared p f j x s) f' x' q /\
      forall prio, prio <> GEARMAN_JOB_PRIORITY_MAX -> p ∉ q prio).
  { intros f' x' Hf' Hx'.
    destruct (Hxl f' x' Hx') as (x0 & Hx0 & E1 & E2 & E3 & _).
    destruct (inv_queues _ _ Hi f' x0 Hf' Hx0) as (q & Hq & Hpend).
    assert (Hnq : forall prio, prio <> GEARMAN_JOB_PRIORITY_MAX -> p ∉ q prio).
    { intros prio Hp. by eapply (not_queued pending s p j f' x0 q prio). }
    exists x0, q. split; [done|]. split; [done|]. split; [|done].
    destruct Hq as [Hq Hcount]. split; [|by rewrite E3].
    intros prio Hp. destruct (Hq prio Hp) as (Hc & He & Hall).
    rewrite E1, E2. split; [|split; [done|]].
    - unfold queue_prepared. fields. apply chain_insert_notin; [done|]. by apply Hnq.
    - intros q0 Hq0. destruct (Hall q0 Hq0) as (Hl0 & j0 & Hj0 & Hrest).
      split; [done|]. exists j0. split; [|done].
      unfold queue_prepared. fields. rewrite lookup_insert_ne; [done|].
      intros ->. by apply (Hnq prio). }
  constructor.
  - intros f' Hf'. unfold queue_prepared. fields.
    destruct (inv_function_list _ _ Hi f' Hf') as (x0 & name & Hx0 & Hn & Hs).
    destruct (decide (f' = f)) as [->|Hne].
    + rewrite lookup_insert_eq. rewrite Hx in Hx0. injection Hx0 as <-.
      exists (queue_release j x), name. unfold queue_release.
      by destruct (bool_decide _).
    + rewrite lookup_insert_ne by done. by exists x0, name.
  - intros f' x' Hf' Hx'. unfold queue_prepared in *. fields.
    destruct (Hxl f' x' Hx') as (x0 & Hx0 & _ & _ & _ & E & _).
    rewrite E. by apply (inv_workers _ _ Hi f').
  - apply (inv_cons _ _ Hi).
  - intros k q Hq. unfold queue_prepared in *. fields.
    destruct (inv_job_hash _ _ Hi k q Hq) as (j0 & Hj0 & Hk).
    destruct (decide (q = p)) as [->|Hne].
    + rewrite lookup_insert_eq. exists (queue_reset j). split; [done|].
      assert (j0 = j) as -> by congruence.
      unfold queue_reset. fields. by destruct (bool_decide _).
    + rewrite lookup_insert_ne by done. by exists j0.
  - apply (inv_job_hash_NoDup _ _ Hi).
  - intros k q. rewrite Hlive. unfold queue_prepared. fields.
    rewrite (inv_unique_hash _ _ Hi). split; intros [Hlq (j0 & Hj0 & Hk)];
      (split; [done|]); destruct (decide (q = p)) as [->|Hne].
    + rewrite lookup_insert_eq. exists (queue_reset j). split; [done|].
      assert (j0 = j) as -> by congruence.
      unfold queue_reset. fields. by destruct (bool_decide _).
    + rewrite lookup_insert_ne by done. by exists j0.
    + rewrite lookup_insert_eq in Hj0. injection Hj0 as <-. exists j.
      split; [done|]. unfold queue_reset in Hk. fields.
      by destruct (bool_decide _).
    + rewrite lookup_insert_ne in Hj0 by done. by exists j0.
  - apply (inv_unique_hash_NoDup _ _ Hi).
  - apply (inv_free_count _ _ Hi).
  - destruct (inv_free_list _ _ Hi) as [Hnd Hfree]. split; [done|].
    intros q Hq. destruct (Hfree q Hq) as [Hsome Hnl]. split; [|done].
    unfold queue_prepared. fields. destruct (decide (q = p)) as [->|Hne].
    + by rewrite lookup_insert_eq.
    + by rewrite lookup_insert_ne.
  - intros q j0 Hlq Hj0. unfold queue_prepared in Hj0. fields.
    destruct (decide (q = p)) as [->|Hne].
    + rewrite lookup_insert_eq in Hj0. injection Hj0 as <-.
      exists f. rewrite queue_reset_function, queue_reset_priority, queue_reset_worker.
      assert (Hdd : data (queue_reset j) = data j /\
                    data_size (queue_reset j) = data_size j /\
                    client_list (queue_reset j) = client_list j).
      { unfold queue_reset. fields. by destruct (bool_decide _). }
      destruct Hdd as (-> & -> & ->).
      repeat (split; [done|]). by rewrite decide_True.
    + rewrite lookup_insert_ne in Hj0 by done.
      destruct (inv_live _ _ Hi q j0 Hlq Hj0)
        as (f' & Hf' & Hfl' & Hprio' & Hd' & Hcl' & Hw').
      exists f'. repeat (split; [done|]).
      destruct (worker j0) eqn:Ew0; [done|].
      rewrite decide_False by congruence.
      assert (Hpq : pending <> Some q).
      { destruct Hcase as [->|[-> _]]; congruence. }
      rewrite decide_False in Hw' by done.
      destruct Hw' as (l & (x0 & Hx0 & Hp0 & Hc0) & Hin).
      assert (Hx0' : exists x', <[f := queue_release j x]> (functions s) !! f' = Some x').
      { destruct (decide (f' = f)) as [->|]; [rewrite lookup_insert_eq|rewrite lookup_insert_ne by done]; eauto. }
      destruct Hx0' as [x' Hx'].
      destruct (Hqs f' x' Hfl' Hx') as (x1 & q0 & Hx1 & [Hq0 _] & [Hq1 _] & _).
      assert (x1 = x0) as -> by congruence.
      destruct (Hq0 _ Hp0) as (Hc1 & _).
      pose proof (chain_det _ _ _ _ Hc0 Hc1) as ->.
      exists (q0 (priority j0)). split; [|done].
      exists x'. split; [done|]. split; [done|]. by destruct (Hq1 _ Hp0).
  - intros f' x' Hf' Hx'.
    destruct (Hqs f' x' Hf' Hx') as (x0 & q & _ & _ & Hq & Hnq).
    exists q. split; [done|]. intros p0 prio [= <-]. apply Hnq.
  - intros p0 [= <-]. split; [done|]. exists (queue_reset j).
    unfold queue_prepared. fields. by rewrite lookup_insert_eq.
Qed.

Lemma wrap32_succ n : wrap32 (wrap32 (Z.of_nat n) + 1) = wrap32 (Z.of_nat (S n)).
Proof. rewrite wrap32_wrap_add. f_equal. lia. Qed.

Lemma wrap32_pred n : wrap32 (wrap32 (Z.of_nat (S n)) - 1) = wrap32 (Z.of_nat n).
Proof.
  unfold wrap32. rewrite Zminus_mod_idemp_l. f_equal. lia.
Qed.

Lemma last_Some_elem {A} (l : list A) e : last l = Some e -> e ∈ l.
Proof. rewrite last_lookup. apply list_elem_of_lookup_2. Qed.

Lemma last_nonempty {A} (l : list A) : l <> [] -> is_Some (last l).
Proof.
  destruct l as [|a l] using rev_ind; [done|]. intros _. rewrite last_snoc. eauto.
Qed.

Lemma server_inv_queue_appended p f j x s :
  server_inv_upto (Some p) s ->
  jobs s !! p = Some j ->
  function j = Some f ->
  functions s !! f = Some x ->
  server_inv (queue_appended p f (priority j) x s).
Proof.
  intros Hi Hj Hf Hx.
  destruct (inv_pending _ _ Hi p eq_refl) as (Hl & j0 & Hj0 & Hw).
  assert (j0 = j) as -> by congruence.
  destruct (inv_live _ _ Hi p j Hl Hj) as (f0 & Hf0 & Hfl & Hprio & Hd & Hcl & Hn).
  assert (f0 = f) as -> by congruence.
  rewrite Hw, decide_True in Hn by done.
  destruct (inv_queues _ _ Hi f x Hfl Hx) as (q & [Hq Hcount] & Hnq).
  set (prio := priority j) in *.
  destruct (Hq prio Hprio) as (Hc & He & Hall).
  assert (Hpl : p ∉ q prio) by (by apply Hnq).
  set (jobs' := queue_link p prio x (jobs s)).
  set (s' := queue_appended p f prio x s).
  (* the jobs after the link *)
  assert (Hjobs : forall a,
    (a ∉ q prio \/ last (q prio) <> Some a -> jobs' !! a = jobs s !! a) /\
    (forall ja, jobs s !! a = Some ja ->
       exists ja', jobs' !! a = Some ja' /\
         function ja' = function ja /\ priority ja' = priority ja /\
         worker ja' = worker ja /\ data ja' = data ja /\
         data_size ja' = data_size ja /\ client_list ja' = client_list ja /\
         unique_key ja' = unique_key ja /\
         job_handle_key ja' = job_handle_key ja) /\
    (jobs' !! a = None -> jobs s !! a = None)).
  { intros a. subst jobs'. unfold queue_link.
    destruct (job_list x prio) as [h|] eqn:Eh; [|by split; [|split; [eauto 10|]]].
    destruct (job_end x prio) as [e|] eqn:Ee; [|by split; [|split; [eauto 10|]]].
    destruct (jobs s !! e) as [je|] eqn:Eje; [|by split; [|split; [eauto 10|]]].
    assert (Hlast : last (q prio) = Some e).
    { destruct (q prio) as [|a0 l0] eqn:El.
      - apply chain_nil_inv in Hc. congruence.
      - destruct (last_nonempty (a0 :: l0)) as [e' He']; [done|].
        pose proof (He e' He'). congruence. }
    destruct (decide (a = e)) as [->|Hne].
    - rewrite lookup_insert_eq. split.
      { intros [Hn'|Hn']; [|done]. exfalso. apply Hn'. by apply last_Some_elem. }
      split; [|done]. intros ja Hja. assert (ja = je) as -> by congruence.
      eexists. split; [done|]. by repeat split.
    - rewrite lookup_insert_ne by done. split; [done|]. split; [eauto 10|done]. }
  assert (Hsame : forall a, a ∉ q prio -> jobs' !! a = jobs s !! a).
  { intros a Ha. apply Hjobs. by left. }
  assert (Hp' : jobs' !! p = Some j).
  { rewrite (proj1 (Hjobs p)); [done|by left]. }
  (* the chains that the link leaves alone *)
  assert (Hchain : forall head l, chain (jobs s) head l ->
    (forall a, a ∈ l -> a ∉ q prio) -> chain jobs' head l).
  { intros head l Hch Hdis. eapply chain_sim; [exact Hch|].
    intros a Ha. rewrite Hsame; [apply opt_sim_refl, job_sim_refl|by apply Hdis]. }
  (* the list of [f] at [prio], with [p] at its end *)
  assert (Hnew : chain jobs' (job_list (queue_append p prio x) prio) (q prio ++ [p])).
  { subst jobs'. unfold queue_link, queue_append. fields.
    destruct (q prio) as [|a0 l0] eqn:El.
    - apply chain_nil_inv in Hc. rewrite Hc. fields. unfold assign.
      rewrite decide_True by done. simpl.
      econstructor; [exact Hj|]. rewrite Hn. constructor.
    - pose proof (chain_head _ _ _ _ Hc) as Hh. rewrite Hh.
      destruct (last_nonempty (a0 :: l0)) as [e He']; [done|].
      rewrite (He e He').
      destruct (chain_lookup _ _ _ e Hc (last_Some_elem _ _ He')) as [je Hje].
      rewrite Hje.
      eapply chain_snoc; eauto. }
  assert (Hlive : forall a, live s' a <-> live s a) by done.
  assert (Hqs : forall f' x', f' ∈ function_list s ->
    functions s' !! f' = Some x' ->
    exists x0 q0 q', functions s !! f' = Some x0 /\
      queues_ok s f' x0 q0 /\ queues_ok s' f' x' q' /\
      (forall pr a, a ∈ q0 pr -> a ∈ q' pr) /\
      (f' = f -> p ∈ q' prio)).
  { intros f' x' Hf' Hx'. subst s'. unfold queue_appended in Hx'. fields.
    destruct (decide (f' = f)) as [->|Hnf].
    - rewrite lookup_insert_eq in Hx'. injection Hx' as <-.
      exists x, q, (fun pr => if decide (pr = prio) then q prio ++ [p] else q pr).
      split; [done|]. split; [done|]. split; [|split].
      + split.
        * intros pr Hpr. destruct (decide (pr = prio)) as [->|Hnp].
          -- split; [exact Hnew|]. split.
             ++ intros e. rewrite last_snoc. intros [= <-].
                unfold queue_append. fields. unfold assign. by rewrite decide_True.
             ++ intros a [Ha| ->%list_elem_of_singleton]%elem_of_app.
                ** destruct (Hall a Ha) as (Hla & ja & Hja & H1 & H2 & H3).
                   split; [done|].
                   destruct (proj1 (proj2 (Hjobs a)) ja Hja) as (ja' & Hja' & E1 & E2 & E3 & _).
                   exists ja'. unfold queue_appended. fields. by rewrite E1, E2, E3.
                ** split; [done|]. exists j. unfold queue_appended. fields. done.
          -- destruct (Hq pr Hpr) as (Hc' & He' & Hall').
             assert (Hdis : forall a, a ∈ q pr -> a ∉ q prio).
             { intros a Ha Ha'.
               destruct (Hall a Ha') as (_ & ja & Hja & _ & E2 & _).
               destruct (Hall' a Ha) as (_ & ja' & Hja' & _ & E2' & _).
               congruence. }
             split; [|split].
             ++ assert (Hjl : job_list (queue_append p prio x) pr = job_list x pr).
                { unfold queue_append. fields.
                  destruct (job_list x prio); fields; [done|].
                  unfold assign. by rewrite decide_False. }
                rewrite Hjl. unfold queue_appended. fields. by apply Hchain.
             ++ intros e Hlast. unfold queue_append. fields. unfold assign.
                rewrite decide_False by done. by apply He'.
             ++ intros a Ha. destruct (Hall' a Ha) as (Hla & ja & Hja & Hrest).
                split; [done|]. exists ja. split; [|done].
                unfold queue_appended. fields. rewrite Hsame; [done|by apply Hdis].
        * unfold queue_append. fields. rewrite Hcount.
          rewrite wrap32_wrap_add. f_equal. clear -Hprio. clearbody prio.
          destruct prio; try done; repeat case_decide; try done;
            rewrite ?length_app; simpl; lia.
      + intros pr a Ha. destruct (decide (pr = prio)) as [->|]; [|done].
        apply elem_of_app. by left.
      + intros _. rewrite decide_True by done. apply elem_of_app. right.
        by apply list_elem_of_singleton.
    - rewrite lookup_insert_ne in Hx' by done.
      destruct (inv_queues _ _ Hi f' x' Hf' Hx') as (q0 & [Hq0 Hcount0] & _).
      exists x', q0, q0. split; [done|]. split; [done|]. split; [|split; [done|done]].
      split; [|done]. intros pr Hpr. destruct (Hq0 pr Hpr) as (Hc' & He' & Hall').
      assert (Hdis : forall a, a ∈ q0 pr -> a ∉ q prio).
      { intros a Ha Ha'.
        destruct (Hall a Ha') as (_ & ja & Hja & E1 & _).
        destruct (Hall' a Ha) as (_ & ja' & Hja' & E1' & _).
        congruence. }
      split; [|split; [done|]].
      + unfold queue_appended. fields. by apply Hchain.
      + intros a Ha. destruct (Hall' a Ha) as (Hla & ja & Hja & Hrest).
        split; [done|]. exists ja. split; [|done].
        unfold queue_appended. fields. rewrite Hsame; [done|by apply Hdis]. }
  assert (Hfun : forall f', f' ∈ function_list s ->
    exists x0 x', functions s !! f' = Some x0 /\ functions s' !! f' = Some x' /\
      worker_list x' = worker_list x0 /\ function_name x' = function_name x0 /\
      function_name_size x' = function_name_size x0).
  { intros f' Hf'. destruct (inv_function_list _ _ Hi f' Hf') as (x0 & name & Hx0 & _).
    subst s'. unfold queue_appended. fields.
    destruct (decide (f' = f)) as [->|Hnf].
    - rewrite lookup_insert_eq. exists x, (queue_append p prio x).
      split; [done|]. split; [done|]. unfold queue_append. by destruct (job_list x prio).
    - rewrite lookup_insert_ne by done. by exists x0, x0. }
  constructor.
  - intros f' Hf'. destruct (Hfun f' Hf') as (x0 & x' & Hx0 & Hx' & _ & E2 & E3).
    destruct (inv_function_list _ _ Hi f' Hf') as (x1 & name & Hx1 & Hn1 & Hs1).
    assert (x1 = x0) as -> by congruence.
    exists x', name. rewrite E2, E3. done.
  - intros f' x' Hf' Hx'. destruct (Hfun f' Hf') as (x0 & x1 & Hx0 & Hx1 & E1 & _).
    change (function_list s' ) with (function_list s) in *.
    assert (x1 = x') as -> by congruence. rewrite E1.
    by apply (inv_workers _ _ Hi f').
  - apply (inv_cons _ _ Hi).
  - intros k a Ha. destruct (inv_job_hash _ _ Hi k a Ha) as (ja & Hja & Hk).
    destruct (proj1 (proj2 (Hjobs a)) ja Hja) as (ja' & Hja' & E).
    exists ja'. split; [done|]. destruct E as (_&_&_&_&_&_&_&E). by rewrite E.
  - apply (inv_job_hash_NoDup _ _ Hi).
  - intros k a. rewrite Hlive. change (unique_hash s') with (unique_hash s).
    rewrite (inv_unique_hash _ _ Hi). split; intros [Hla (ja & Hja & Hk)]; (split; [done|]).
    + destruct (proj1 (proj2 (Hjobs a)) ja Hja) as (ja' & Hja' & E).
      exists ja'. split; [done|]. destruct E as (_&_&_&_&_&_&E&_). by rewrite E.
    + change (jobs s') with jobs' in Hja.
      destruct (jobs s !! a) as [ja0|] eqn:Hja0.
      * destruct (proj1 (proj2 (Hjobs a)) ja0 Hja0) as (ja' & Hja' & E).
        assert (ja' = ja) as -> by congruence. exists ja0. split; [done|].
        destruct E as (_&_&_&_&_&_&E&_). by rewrite <- E.
      * destruct Hla as [k' Hk'].
        destruct (inv_job_hash _ _ Hi k' a Hk') as (? & ? & _). congruence.
  - apply (inv_unique_hash_NoDup _ _ Hi).
  - apply (inv_free_count _ _ Hi).
  - destruct (inv_free_list _ _ Hi) as [Hnd Hfree]. split; [done|].
    intros a Ha. destruct (Hfree a Ha) as [[ja Hja] Hnl]. split; [|done].
    destruct (proj1 (proj2 (Hjobs a)) ja Hja) as (ja' & Hja' & _). by exists ja'.
  - intros a ja' Hla Hja'. change (jobs s') with jobs' in Hja'.
    destruct (jobs s !! a) as [ja|] eqn:Hja.
    2:{ destruct Hla as [k' Hk'].
        destruct (inv_job_hash _ _ Hi k' a Hk') as (? & ? & _). congruence. }
    destruct (proj1 (proj2 (Hjobs a)) ja Hja) as (ja0 & Hja0 & E1 & E2 & E3 & E4 & E5 & E6 & _).
    assert (ja0 = ja') as -> by congruence.
    destruct (inv_live _ _ Hi a ja Hla Hja) as (f' & Hf' & Hfl' & Hprio' & Hd' & Hcl' & Hw').
    exists f'. rewrite E1, E2, E3, E4, E5, E6. repeat (split; [done|]).
    destruct (worker ja) eqn:Ewa; [done|].
    rewrite decide_False by done.
    destruct (Hfun f' Hfl') as (x0 & x' & Hx0 & Hx' & _).
    destruct (Hqs f' x' Hfl' Hx') as (x1 & q0 & q' & Hx1 & [Hq0 _] & [Hq' _] & Hsub & Hpin).
    assert (x1 = x0) as -> by congruence.
    exists (q' (priority ja)). split.
    + exists x'. split; [done|]. split; [done|]. by destruct (Hq' _ Hprio').
    + destruct (decide (a = p)) as [->|Hne].
      * assert (ja = j) as -> by congruence.
        assert (f' = f) as -> by congruence. by apply Hpin.
      * rewrite decide_False in Hw' by congruence.
        destruct Hw' as (l & (x2 & Hx2 & _ & Hc2) & Hin).
        assert (x2 = x0) as -> by congruence.
        destruct (Hq0 _ Hprio') as (Hc0 & _).
        pose proof (chain_det _ _ _ _ Hc2 Hc0) as ->. by apply Hsub.
  - intros f' x' Hf' Hx'.
    destruct (Hqs f' x' Hf' Hx') as (x0 & q0 & q' & _ & _ & Hq' & _).
    exists q'. split; [done|]. done.
  - done.
Qed.

(** *** The invariant and [gearman_server_job_queue] *)

Lemma queue_state_success env p f j x s :
  is_success (queue_ret env x s) = true ->
  queue_state env p f j x s
  = queue_appended p f (priority j) (queue_release j x)
      (set_cons (snd (noop_cons env (workers s) (worker_list x) (cons s)))
         (queue_prepared p f j x s)).
Proof.
  intros Hr. unfold queue_state, queue_appended, queue_prepared. rewrite Hr.
  fields. by rewrite insert_insert_eq.
Qed.

Lemma queue_state_failure env p f j x s :
  is_success (queue_ret env x s) = false ->
  queue_state env p f j x s
  = set_cons (snd (noop_cons env (workers s) (worker_list x) (cons s)))
      (queue_prepared p f j x s).
Proof.
  intros Hr. unfold queue_state, queue_prepared. by rewrite Hr.
Qed.

Lemma queue_reset_fields j :
  function (queue_reset j) = function j /\
  priority (queue_reset j) = priority j /\
  worker (queue_reset j) = None /\
  client_list (queue_reset j) = client_list j /\
  job_options (queue_reset j) = job_options j /\
  unique (queue_reset j) = unique j /\
  unique_key (queue_reset j) = unique_key j /\
  job_handle_key (queue_reset j) = job_handle_key j /\
  job_handle (queue_reset j) = job_handle j /\
  data (queue_reset j) = data j /\
  data_size (queue_reset j) = data_size j.
Proof. unfold queue_reset. by destruct (bool_decide _). Qed.

Lemma server_inv_queue_noop env pending s p j f x :
  server_inv_upto pending s ->
  pending = Some p \/ (pending = None /\ worker j <> None) ->
  live s p ->
  jobs s !! p = Some j ->
  function j = Some f ->
  f ∈ function_list s ->
  functions s !! f = Some x ->
  server_inv_upto (Some p)
    (set_cons (snd (noop_cons env (workers s) (worker_list x) (cons s)))
       (queue_prepared p f j x s)).
Proof.
  intros Hi Hpend Hl Hj Hf Hfl Hx.
  eapply server_inv_sim; [|by eapply server_inv_queue_prepared].
  apply (state_sim_noop env (worker_list x) (queue_prepared p f j x s)).
  unfold queue_prepared. fields. by apply (inv_workers _ _ Hi f).
Qed.

Lemma server_inv_queue_state env pending s p j f x :
  server_inv_upto pending s ->
  pending = Some p \/ (pending = None /\ worker j <> None) ->
  live s p ->
  jobs s !! p = Some j ->
  function j = Some f ->
  f ∈ function_list s ->
  functions s !! f = Some x ->
  if is_success (queue_ret env x s)
  then server_inv (queue_state env p f j x s)
  else server_inv_upto (Some p) (queue_state env p f j x s).
Proof.
  intros Hi Hpend Hl Hj Hf Hfl Hx.
  pose proof (server_inv_queue_noop env _ _ _ _ _ _ Hi Hpend Hl Hj Hf Hfl Hx) as Hn.
  destruct (is_success (queue_ret env x s)) eqn:Hr.
  - rewrite queue_state_success by done.
    destruct (queue_reset_fields j) as (E1 & E2 & _).
    rewrite <- E2. eapply server_inv_queue_appended; [exact Hn| | |].
    + unfold queue_prepared. fields. apply lookup_insert_eq.
    + by rewrite E1.
    + unfold queue_prepared. fields. apply lookup_insert_eq.
  - by rewrite queue_state_failure.
Qed.

(** *** The invariant and [gearman_server_job_free] *)

Lemma lookup_foldr_delete {A} (m : gmap ptr A) l c :
  c ∉ l -> foldr delete m l !! c = m !! c.
Proof.
  induction l as [|a l IH]; simpl; [done|].
  intros [Hne Hn]%not_elem_of_cons. rewrite lookup_delete_ne by done. auto.
Qed.

Lemma NoDup_hash_del h key p k :
  NoDup (h k) -> NoDup (GEARMAN_HASH_DEL h key p k).
Proof.
  intros Hnd. unfold GEARMAN_HASH_DEL. destruct (k =? key); [|done].
  by apply NoDup_unlink.
Qed.

Lemma server_inv_free pending s p j f x :
  server_inv_upto pending s ->
  pending = Some p \/ (pending = None /\ worker j <> None) ->
  live s p ->
  jobs s !! p = Some j ->
  function j = Some f ->
  functions s !! f = Some x ->
  server_inv (free_state p f j x s).
Proof.
  intros Hi Hpend Hl Hj Hf Hx.
  set (s' := free_state p f j x s).
  assert (Hpend' : pending = Some p \/ worker j <> None) by tauto.
  assert (Hkey : forall k, p ∈ job_hash s k ->
                 k = job_handle_key j mod GEARMAN_JOB_HASH_SIZE).
  { intros k Hk. destruct (inv_job_hash _ _ Hi k p Hk) as (j0 & Hj0 & ->).
    congruence. }
  assert (Hlive : forall q, live s' q <-> live s q /\ q <> p).
  { intros q. unfold live, s', free_state. fields. split.
    - intros [k Hk]. apply hash_del_elem in Hk as [Hk Hn];
        [|apply (inv_job_hash_NoDup _ _ Hi)].
      split; [by exists k|]. intros ->. apply Hn. split; [|done]. by apply Hkey.
    - intros [[k Hk] Hne]. exists k. apply hash_del_elem;
        [apply (inv_job_hash_NoDup _ _ Hi)|]. split; [done|]. by intros [_ ?]. }
  assert (Hjobs : forall q, q <> p -> jobs s' !! q = jobs s !! q).
  { intros q Hne. unfold s', free_state. fields.
    destruct (_ && negb _).
    - rewrite lookup_delete_ne by done. by rewrite lookup_insert_ne.
    - by rewrite lookup_insert_ne. }
  assert (Hchain : forall head l, chain (jobs s) head l -> p ∉ l ->
                   chain (jobs s') head l).
  { intros head l Hc Hn. unfold s', free_state. fields.
    destruct (_ && negb _).
    - apply chain_delete; [|done]. by apply chain_insert_notin.
    - by apply chain_insert_notin. }
  assert (Hxl : forall f' x', functions s' !! f' = Some x' ->
    exists x0, functions s !! f' = Some x0 /\ job_list x' = job_list x0 /\
               job_end x' = job_end x0 /\ job_count x' = job_count x0 /\
               worker_list x' = worker_list x0 /\
               function_name x' = function_name x0 /\
               function_name_size x' = function_name_size x0).
  { intros f' x'. unfold s', free_state. fields.
    destruct (decide (f' = f)) as [->|Hne].
    - rewrite lookup_insert_eq. intros [= <-]. exists x. split; [done|].
      unfold queue_release. by destruct (bool_decide _).
    - rewrite lookup_insert_ne by done. intros Hx'. by exists x'. }
  assert (Hxr : forall f' x0, functions s !! f' = Some x0 ->
    exists x', functions s' !! f' = Some x').
  { intros f' x0 Hx0. unfold s', free_state. fields.
    destruct (decide (f' = f)) as [->|Hne].
    - rewrite lookup_insert_eq. eauto.
    - rewrite lookup_insert_ne by done. eauto. }
  assert (Hwk : forall w wk, workers s !! w = Some wk ->
    exists wk', workers s' !! w = Some wk' /\
                worker_con wk' = worker_con wk /\
                worker_function wk' = worker_function wk).
  { intros w wk Hw. unfold s', free_state. fields.
    destruct (worker j) as [w0|]; [|by exists wk].
    destruct (workers s !! w0) as [wk0|] eqn:Hw0; [|by exists wk].
    destruct (decide (w = w0)) as [->|Hne].
    - rewrite lookup_insert_eq. assert (wk0 = wk) as -> by congruence.
      by eexists.
    - rewrite lookup_insert_ne by done. by exists wk. }
  assert (Hnq : forall f' x0 q prio,
    queues_ok s f' x0 q ->
    (forall p0 prio0, pending = Some p0 ->
       prio0 <> GEARMAN_JOB_PRIORITY_MAX -> p0 ∉ q prio0) ->
    prio <> GEARMAN_JOB_PRIORITY_MAX -> p ∉ q prio).
  { intros f' x0 q prio Hq Hp Hprio.
    by eapply (not_queued pending s p j f' x0 q prio). }
  assert (Hqs : forall f' x', f' ∈ function_list s ->
    functions s' !! f' = Some x' ->
    exists x0 q, functions s !! f' = Some x0 /\ queues_ok s f' x0 q /\
                 queues_ok s' f' x' q).
  { intros f' x' Hf' Hx'.
    destruct (Hxl f' x' Hx') as (x0 & Hx0 & E1 & E2 & E3 & _).
    destruct (inv_queues _ _ Hi f' x0 Hf' Hx0) as (q & Hq & Hp).
    exists x0, q. split; [done|]. split; [done|].
    destruct Hq as [Hq Hcount]. split; [|by rewrite E3].
    intros prio Hprio. destruct (Hq prio Hprio) as (Hc & He & Hall).
    assert (Hn : p ∉ q prio) by (eapply Hnq; eauto; by split).
    rewrite E1, E2. split; [by apply Hchain|]. split; [done|].
    intros a Ha. destruct (Hall a Ha) as (Hla & ja & Hja & Hrest).
    assert (a <> p) by (by intros ->).
    split; [by apply Hlive|]. exists ja. by rewrite Hjobs. }
  destruct (inv_live _ _ Hi p j Hl Hj) as (f0 & Hf0 & Hfl & Hprio & Hd & Hcl & Hw).
  assert (f0 = f) as -> by congruence.
  destruct (inv_free_count _ _ Hi) as [Hfc Hfm].
  destruct (inv_free_list _ _ Hi) as [Hfnd Hfree].
  assert (Hpf : p ∉ free_job_list s).
  { intros Hin. by destruct (Hfree p Hin). }
  constructor.
  - intros f' Hf'.
    destruct (inv_function_list _ _ Hi f' Hf') as (x0 & name & Hx0 & Hn & Hs).
    destruct (Hxr f' x0 Hx0) as [x' Hx'].
    destruct (Hxl f' x' Hx') as (x1 & Hx1 & _ & _ & _ & _ & E1 & E2).
    assert (x1 = x0) as -> by congruence.
    exists x', name. by rewrite E1, E2.
  - intros f' x' Hf' Hx'.
    destruct (Hxl f' x' Hx') as (x0 & Hx0 & _ & _ & _ & E & _). rewrite E.
    intros w Hin.
    destruct (inv_workers _ _ Hi f' x0 Hf' Hx0 w Hin) as (wk & c & Hwk0 & Hc).
    destruct (Hwk w wk Hwk0) as (wk' & Hwk' & E1 & _).
    exists wk', c. by rewrite E1.
  - intros c con Hc w Hin.
    destruct (inv_cons _ _ Hi c con Hc w Hin) as (wk & Hwk0 & Hfn).
    destruct (Hwk w wk Hwk0) as (wk' & Hwk' & _ & E2).
    exists wk'. by rewrite E2.
  - intros k q Hq. unfold s', free_state in Hq. fields.
    apply hash_del_elem in Hq as [Hq Hn]; [|apply (inv_job_hash_NoDup _ _ Hi)].
    destruct (inv_job_hash _ _ Hi k q Hq) as (j0 & Hj0 & Hk).
    exists j0. split; [|done]. rewrite Hjobs; [done|].
    intros ->. apply Hn. split; [|done]. by apply Hkey.
  - intros k. apply NoDup_hash_del, (inv_job_hash_NoDup _ _ Hi).
  - intros k q. rewrite Hlive. unfold s' at 1. unfold free_state. fields.
    rewrite hash_del_elem by apply (inv_unique_hash_NoDup _ _ Hi).
    rewrite (inv_unique_hash _ _ Hi). split.
    + intros [[Hlq (j0 & Hj0 & Hk)] Hn].
      assert (q <> p).
      { intros ->. apply Hn. split; [|done].
        assert (j0 = j) as -> by congruence. done. }
      split; [done|]. exists j0. by rewrite Hjobs.
    + intros [[Hlq Hne] (j0 & Hj0 & Hk)]. rewrite Hjobs in Hj0 by done.
      split; [|by intros [_ ?]]. split; [done|]. by exists j0.
  - intros k. apply NoDup_hash_del, (inv_unique_hash_NoDup _ _ Hi).
  - unfold s', free_state. fields.
    destruct (has_flag (job_options j) GEARMAN_SERVER_JOB_ALLOCATED); simpl; [|done].
    destruct (Z.ltb_spec (free_job_count s) GEARMAN_MAX_FREE_SERVER_JOB); [|done].
    unfold GEARMAN_MAX_FREE_SERVER_JOB in *. simpl length.
    rewrite wrap32_small by lia. lia.
  - assert (Hlist : free_job_list s'
      = if has_flag (job_options j) GEARMAN_SERVER_JOB_ALLOCATED &&
           (free_job_count s <? GEARMAN_MAX_FREE_SERVER_JOB)
        then p :: free_job_list s else free_job_list s) by done.
    assert (Hkept : has_flag (job_options j) GEARMAN_SERVER_JOB_ALLOCATED &&
                    (free_job_count s <? GEARMAN_MAX_FREE_SERVER_JOB) = true ->
                    is_Some (jobs s' !! p)).
    { intros [Ha Hlt]%andb_prop. unfold s', free_state. fields.
      rewrite Ha, Hlt. simpl. rewrite lookup_insert_eq. eauto. }
    rewrite Hlist.
    destruct (has_flag (job_options j) GEARMAN_SERVER_JOB_ALLOCATED &&
              (free_job_count s <? GEARMAN_MAX_FREE_SERVER_JOB)).
    + split; [by constructor|]. intros q [->|Hq]%elem_of_cons.
      * split; [by apply Hkept|]. rewrite Hlive. by intros [_ ?].
      * destruct (Hfree q Hq) as [Hs Hnl].
        assert (q <> p) by (by intros ->).
        rewrite Hjobs by done. split; [done|].
        rewrite Hlive. by intros [? _].
    + split; [done|]. intros q Hq. destruct (Hfree q Hq) as [Hs Hnl].
      assert (q <> p) by (by intros ->).
      rewrite Hjobs by done. split; [done|].
      rewrite Hlive. by intros [? _].
  - intros q j0 [Hlq Hne]%Hlive Hj0. rewrite Hjobs in Hj0 by done.
    destruct (inv_live _ _ Hi q j0 Hlq Hj0)
      as (f' & Hf' & Hfl' & Hprio' & Hd' & Hcl' & Hw').
    exists f'. repeat (split; [done|]). split.
    + destruct Hcl' as [Hnd Hall]. split; [done|]. intros c Hc.
      destruct (Hall c Hc) as (cl & Hcl0 & Hcj). exists cl. split; [|done].
      unfold s', free_state. fields. rewrite lookup_foldr_delete; [done|].
      intros Hin. destruct Hcl as [_ Hall0].
      destruct (Hall0 c Hin) as (cl0 & Hcl1 & Hcj0). congruence.
    + destruct (worker j0) as [w|].
      * destruct Hw' as [wk Hwk0]. destruct (Hwk w wk Hwk0) as (wk' & ? & _).
        by exists wk'.
      * rewrite decide_False by done.
        rewrite decide_False in Hw'
          by (destruct Hpend as [->|[-> _]]; congruence).
        destruct Hw' as (l & (x0 & Hx0 & _ & Hc0) & Hin).
        destruct (Hxr f' x0 Hx0) as [x' Hx'].
        destruct (Hqs f' x' Hfl' Hx') as (x1 & q0 & Hx1 & [Hq0 _] & [Hq' _]).
        assert (x1 = x0) as -> by congruence.
        destruct (Hq0 _ Hprio') as (Hc1 & _).
        pose proof (chain_det _ _ _ _ Hc0 Hc1) as ->.
        exists (q0 (priority j0)). split; [|done].
        exists x'. split; [done|]. split; [done|]. by destruct (Hq' _ Hprio').
  - intros f' x' Hf' Hx'.
    destruct (Hqs f' x' Hf' Hx') as (x0 & q & _ & _ & Hq').
    exists q. split; [done|]. done.
  - done.
Qed.

(** *** The invariant and [gearman_server_job_take] *)

Lemma chain_cons_inv m p l head :
  chain m head (p :: l) ->
  head = Some p /\ exists j, m !! p = Some j /\ chain m (function_next j) l.
Proof. inversion 1; subst. eauto. Qed.

Lemma server_inv_take s w wk x prio p j :
  server_inv s ->
  workers s !! w = Some wk ->
  worker_function wk ∈ function_list s ->
  functions s !! worker_function wk = Some x ->
  prio <> GEARMAN_JOB_PRIORITY_MAX ->
  job_list x prio = Some p ->
  jobs s !! p = Some j ->
  server_inv (take_state p w (worker_function wk) prio j x wk s).
Proof.
  intros Hi Hw Hfl Hx Hprio Hhead Hj.
  set (f := worker_function wk) in *.
  set (s' := take_state p w f prio j x wk s).
  destruct (inv_queues _ _ Hi f x Hfl Hx) as (q & [Hq Hcount] & _).
  destruct (Hq prio Hprio) as (Hc & He & Hall).
  rewrite Hhead in Hc.
  destruct (q prio) as [|p0 rest] eqn:El; [by inversion Hc|].
  destruct (chain_cons_inv _ _ _ _ Hc) as ([= <-] & j0 & Hj0 & Hrest).
  assert (j0 = j) as -> by congruence.
  pose proof (chain_NoDup _ _ _ Hc) as [Hprest _]%NoDup_cons.
  destruct (Hall p (list_elem_of_here _ _)) as (Hlp & j0 & Hj0' & Hjf & Hjp & Hjw).
  assert (j0 = j) as -> by congruence.
  assert (Hlive : forall a, live s' a <-> live s a) by done.
  assert (Hjobs : forall a,
    (a <> p -> jobs s' !! a = jobs s !! a) /\
    jobs s' !! p = Some (set_worker (Some w) j)).
  { intros a. unfold s', take_state. fields. split.
    - intros Hne. by rewrite lookup_insert_ne.
    - by rewrite lookup_insert_eq. }
  assert (Hchain : forall head l, chain (jobs s) head l -> chain (jobs s') head l).
  { intros head l Hch. unfold s', take_state. fields.
    apply chain_insert; [done|]. intros j1 _ Hj1.
    by assert (j1 = j) as -> by congruence. }
  assert (Hwk : forall w0 wk0, workers s !! w0 = Some wk0 ->
    exists wk', workers s' !! w0 = Some wk' /\
                worker_con wk' = worker_con wk0 /\
                worker_function wk' = worker_function wk0).
  { intros w0 wk0 Hw0. unfold s', take_state. fields.
    destruct (decide (w0 = w)) as [->|Hne].
    - rewrite lookup_insert_eq. assert (wk0 = wk) as -> by congruence. by eexists.
    - rewrite lookup_insert_ne by done. by exists wk0. }
  assert (Hxl : forall f' x', functions s' !! f' = Some x' ->
    exists x0, functions s !! f' = Some x0 /\
               worker_list x' = worker_list x0 /\
               function_name x' = function_name x0 /\
               function_name_size x' = function_name_size x0 /\
               (f' <> f -> x' = x0) /\
               (f' = f -> x' = take_function p prio j x)).
  { intros f' x'. unfold s', take_state. fields.
    destruct (decide (f' = f)) as [->|Hne].
    - rewrite lookup_insert_eq. intros [= <-]. exists x. split; [done|].
      unfold take_function. destruct (bool_decide _); by fields.
    - rewrite lookup_insert_ne by done. intros Hx'. by exists x'. }
  assert (Hxr : forall f' x0, functions s !! f' = Some x0 ->
    exists x', functions s' !! f' = Some x').
  { intros f' x0 Hx0. unfold s', take_state. fields.
    destruct (decide (f' = f)) as [->|Hne].
    - rewrite lookup_insert_eq. eauto.
    - rewrite lookup_insert_ne by done. eauto. }
  assert (Hqs : forall f' x', f' ∈ function_list s ->
    functions s' !! f' = Some x' ->
    exists x0 q0 q', functions s !! f' = Some x0 /\
      queues_ok s f' x0 q0 /\ queues_ok s' f' x' q' /\
      (forall pr a, a ∈ q0 pr -> a <> p -> a ∈ q' pr)).
  { intros f' x' Hf' Hx'.
    destruct (Hxl f' x' Hx') as (x0 & Hx0 & _ & _ & _ & Hother & Hsame).
    destruct (decide (f' = f)) as [->|Hnf].
    - assert (x0 = x) as -> by congruence. rewrite (Hsame eq_refl). clear Hother Hsame.
      exists x, q, (fun pr => if decide (pr = prio) then rest else q pr).
      split; [done|]. split; [done|]. split.
      + split.
        * intros pr Hpr. destruct (decide (pr = prio)) as [->|Hnp].
          -- split; [|split].
             ++ apply Hchain. unfold take_function. fields.
                destruct (bool_decide _); fields; unfold assign;
                  by rewrite decide_True.
             ++ intros e Hlast.
                assert (Hin : e ∈ rest) by (by apply last_Some_elem).
                assert (Hend : job_end x prio = Some e).
                { apply He. destruct rest; [done|]. by rewrite last_cons, Hlast. }
                unfold take_function. fields.
                rewrite bool_decide_false.
                ** fields. done.
                ** unfold assign. fields. rewrite Hend. intros [= ->]. done.
             ++ intros a Ha.
                destruct (Hall a (list_elem_of_further _ _ _ Ha))
                  as (Hla & ja & Hja & Hrest').
                assert (a <> p) by (by intros ->).
                split; [done|]. exists ja. split; [|done].
                by rewrite (proj1 (Hjobs a)).
          -- destruct (Hq pr Hpr) as (Hc' & He' & Hall').
             assert (Hnotin : p ∉ q pr).
             { intros Hin. destruct (Hall' p Hin) as (_ & j1 & Hj1 & _ & E & _).
               assert (j1 = j) as -> by congruence. congruence. }
             split; [|split].
             ++ apply Hchain. unfold take_function. fields.
                destruct (bool_decide _); fields; unfold assign;
                  by rewrite decide_False.
             ++ intros e Hlast. unfold take_function. fields.
                destruct (bool_decide _); fields; unfold assign;
                  rewrite ?decide_False by done; by apply He'.
             ++ intros a Ha. destruct (Hall' a Ha) as (Hla & ja & Hja & Hrest').
                assert (a <> p) by (by intros ->).
                split; [done|]. exists ja. split; [|done].
                by rewrite (proj1 (Hjobs a)).
        * unfold take_function. fields.
          assert (Hlen : forall pr, pr <> GEARMAN_JOB_PRIORITY_MAX ->
            Z.of_nat (length (if decide (pr = prio) then rest else q pr))
            = Z.of_nat (length (q pr)) - (if decide (pr = prio) then 1 else 0)).
          { intros pr _. destruct (decide (pr = prio)) as [->|]; [|lia].
            rewrite El. simpl length. lia. }
          destruct (bool_decide _); fields; rewrite Hcount; unfold wrap32;
            rewrite Zminus_mod_idemp_l; f_equal;
            rewrite !Nat2Z.inj_add, !Hlen by done;
            clear -Hprio; destruct prio; try done;
            repeat case_decide; try done; lia.
      + intros pr a Ha Hne. destruct (decide (pr = prio)) as [->|]; [|done].
        rewrite El in Ha. by apply elem_of_cons in Ha as [->|Ha].
    - rewrite (Hother Hnf).
      destruct (inv_queues _ _ Hi f' x0 Hf' Hx0) as (q0 & [Hq0 Hcount0] & _).
      exists x0, q0, q0. split; [done|]. split; [done|]. split; [|done].
      split; [|done]. intros pr Hpr. destruct (Hq0 pr Hpr) as (Hc' & He' & Hall').
      split; [by apply Hchain|]. split; [done|].
      intros a Ha. destruct (Hall' a Ha) as (Hla & ja & Hja & E & Hrest').
      assert (a <> p) by (intros ->; congruence).
      split; [done|]. exists ja. split; [|done]. by rewrite (proj1 (Hjobs a)). }
  constructor.
  - intros f' Hf'.
    destruct (inv_function_list _ _ Hi f' Hf') as (x0 & name & Hx0 & Hn & Hs).
    destruct (Hxr f' x0 Hx0) as [x' Hx'].
    destruct (Hxl f' x' Hx') as (x1 & Hx1 & _ & E1 & E2 & _).
    assert (x1 = x0) as -> by congruence.
    exists x', name. by rewrite E1, E2.
  - intros f' x' Hf' Hx'.
    destruct (Hxl f' x' Hx') as (x0 & Hx0 & E & _). rewrite E.
    intros w0 Hin.
    destruct (inv_workers _ _ Hi f' x0 Hf' Hx0 w0 Hin) as (wk0 & c & Hwk0 & Hc0).
    destruct (Hwk w0 wk0 Hwk0) as (wk' & Hwk' & E1 & _).
    exists wk', c. by rewrite E1.
  - intros c con Hc0 w0 Hin.
    destruct (inv_cons _ _ Hi c con Hc0 w0 Hin) as (wk0 & Hwk0 & Hfn).
    destruct (Hwk w0 wk0 Hwk0) as (wk' & Hwk' & _ & E2).
    exists wk'. by rewrite E2.
  - intros k a Ha. destruct (inv_job_hash _ _ Hi k a Ha) as (ja & Hja & Hk).
    destruct (decide (a = p)) as [->|Hne].
    + assert (ja = j) as -> by congruence.
      exists (set_worker (Some w) j). split; [apply (Hjobs p)|done].
    + exists ja. by rewrite (proj1 (Hjobs a)).
  - apply (inv_job_hash_NoDup _ _ Hi).
  - intros k a. rewrite Hlive. change (unique_hash s') with (unique_hash s).
    rewrite (inv_unique_hash _ _ Hi).
    destruct (decide (a = p)) as [->|Hne].
    + rewrite (proj2 (Hjobs p)), Hj. split; intros [? (ja & [= <-] & ?)]; eauto.
    + by rewrite (proj1 (Hjobs a)).
  - apply (inv_unique_hash_NoDup _ _ Hi).
  - apply (inv_free_count _ _ Hi).
  - destruct (inv_free_list _ _ Hi) as [Hnd Hfree]. split; [done|].
    intros a Ha. destruct (Hfree a Ha) as [Hs Hnl]. split; [|done].
    destruct (decide (a = p)) as [->|Hne]; [by rewrite (proj2 (Hjobs p))|].
    by rewrite (proj1 (Hjobs a)).
  - intros a ja Hla Hja.
    destruct (decide (a = p)) as [->|Hne].
    + rewrite (proj2 (Hjobs p)) in Hja. injection Hja as <-.
      destruct (inv_live _ _ Hi p j Hla Hj) as (f' & Hf' & Hfl' & Hprio' & Hd' & Hcl' & _).
      exists f'. fields. repeat (split; [done|]).
      destruct (Hwk w wk Hw) as (wk' & ? & _). by exists wk'.
    + rewrite (proj1 (Hjobs a)) in Hja by done.
      destruct (inv_live _ _ Hi a ja Hla Hja) as (f' & Hf' & Hfl' & Hprio' & Hd' & Hcl' & Hw').
      exists f'. repeat (split; [done|]).
      destruct (worker ja) as [w0|].
      * destruct Hw' as [wk0 Hwk0]. destruct (Hwk w0 wk0 Hwk0) as (wk' & ? & _).
        by exists wk'.
      * rewrite decide_False by done. rewrite decide_False in Hw' by done.
        destruct Hw' as (l & (x0 & Hx0 & _ & Hc0) & Hin).
        destruct (Hxr f' x0 Hx0) as [x' Hx'].
        destruct (Hqs f' x' Hfl' Hx') as (x1 & q0 & q' & Hx1 & [Hq0 _] & [Hq' _] & Hsub).
        assert (x1 = x0) as -> by congruence.
        destruct (Hq0 _ Hprio') as (Hc1 & _).
        pose proof (chain_det _ _ _ _ Hc0 Hc1) as ->.
        exists (q' (priority ja)). split; [|by apply Hsub].
        exists x'. split; [done|]. split; [done|]. by destruct (Hq' _ Hprio').
  - intros f' x' Hf' Hx'.
    destruct (Hqs f' x' Hf' Hx') as (x0 & q0 & q' & _ & _ & Hq' & _).
    exists q'. split; [done|]. done.
  - done.
Qed.

Lemma job_add_persist_run p fn fns us d ds prio c s j f x :
  jobs s !! p = Some j ->
  function j = Some f ->
  functions s !! f = Some x ->
  client_list j = [] ->
  worker j = None ->
  job_add_persist p fn fns us d ds prio c s
  = Some (persisted fn fns us d ds prio c p f j x s).
Proof.
  intros Hj Hf Hx Hcl Hw. unfold persisted.
  destruct (has_flag (options s) GEARMAN_SERVER_QUEUE_REPLAY) eqn:Hrep.
  { by apply job_add_persist_replay. }
  destruct c as [c|].
  { apply job_add_persist_skip; [done|]. by left. }
  destruct (queue_add_fn (gearman s)) as [add_fn|] eqn:Hadd.
  2:{ apply job_add_persist_skip; [done|]. by right. }
  rewrite (job_add_persist_fail p fn fns us d ds prio s j f x add_fn)
    by done.
  destruct (is_success _); [|done].
  destruct (queue_flush_fn (gearman s)); [|done].
  by destruct (is_success _).
Qed.

Lemma job_add_enqueue_total env p us c s j f x :
  jobs s !! p = Some j ->
  function j = Some f ->
  functions s !! f = Some x ->
  wakeable (workers s) (cons s) (worker_list x) ->
  priority j <> GEARMAN_JOB_PRIORITY_MAX ->
  (forall h, job_list x (priority j) = Some h ->
     exists e, job_end x (priority j) = Some e /\
               is_Some (<[p := queue_reset j]> (jobs s) !! e)) ->
  client_list j = [] ->
  worker j = None ->
  job_add_enqueue env p us c s = Some (enqueued env us c p f j x s).
Proof.
  intros. unfold enqueued.
  rewrite (job_add_enqueue_run env p us c s j f x) by done.
  by destruct (is_success _).
Qed.

(** *** [gearman_server_function_get] under the invariant *)

Lemma function_get_loop_total s name size l :
  (size <= length name)%nat ->
  (forall f, f ∈ l ->
     exists x n, functions s !! f = Some x /\ function_name x = Some n /\
                 (function_name_size x <= length n)%nat) ->
  exists r, function_get_loop s l name size = Some r /\
            forall f, r = Some f -> f ∈ l.
Proof.
  intros Hsz. induction l as [|f l IH]; intros Hall; simpl.
  - by exists None.
  - destruct (Hall f (list_elem_of_here _ _)) as (x & n & -> & Hn & Hlen).
    destruct IH as (r & Hr & Hin).
    { intros f' Hf'. apply Hall. by apply list_elem_of_further. }
    destruct (decide (function_name_size x = size)) as [E|_].
    + rewrite Hn. destruct (memcmp_eq_defined n name size) as [b ->]; [lia|done|].
      destruct b.
      * exists (Some f). split; [done|]. intros ? [= <-]. apply list_elem_of_here.
      * exists r. split; [done|]. intros f' Hf'. apply list_elem_of_further; auto.
    + exists r. split; [done|]. intros f' Hf'. apply list_elem_of_further; auto.
Qed.

(** The three ways in which [gearman_server_function_get] returns. *)
Lemma function_get_cases env pending name size s :
  server_inv_upto pending s ->
  (size <= length name)%nat ->
  (exists f, f ∈ function_list s /\
     function_get_loop s (function_list s) name size = Some (Some f) /\
     gearman_server_function_get env name size s = Some (Some f, s)) \/
  (function_get_loop s (function_list s) name size = Some None /\
   gearman_server_function_get env name size s
   = Some (Some (fresh (dom (functions s))), function_added name size s)) \/
  (function_get_loop s (function_list s) name size = Some None /\
   malloc_function env && malloc_function_name env = false /\
   exists c, gearman_server_function_get env name size s
             = Some (None, set_function_count c s)).
Proof.
  intros Hi Hsz.
  destruct (function_get_loop_total s name size (function_list s) Hsz)
    as ([f|] & Hr & Hin).
  { intros f Hf. by apply (inv_function_list _ _ Hi). }
  - left. exists f. split; [by apply Hin|]. split; [done|].
    by apply function_get_found.
  - right. destruct (malloc_function env && malloc_function_name env) eqn:Hm.
    + left. apply andb_prop in Hm as [H1 H2]. split; [done|].
      by apply function_get_new.
    + right. split; [done|]. split; [done|]. by apply function_get_fail.
Qed.

Lemma function_get_inv env pending name size s r sf :
  server_inv_upto pending s ->
  (size <= length name)%nat ->
  gearman_server_function_get env name size s = Some (r, sf) ->
  server_inv_upto pending sf /\
  (forall f, r = Some f -> f ∈ function_list sf) /\
  (forall p, live sf p <-> live s p) /\
  jobs sf = jobs s /\ clients sf = clients s /\ queue_log sf = queue_log s /\
  options sf = options s /\ gearman sf = gearman s.
Proof.
  intros Hi Hsz Hrun.
  destruct (function_get_cases env pending name size s Hi Hsz)
    as [(f & Hf & _ & E)|[[_ E]|(_ & _ & c & E)]];
    rewrite E in Hrun; injection Hrun as <- <-.
  - split; [done|]. split; [by intros ? [= <-]|done].
  - split; [by apply server_inv_function_added|].
    split; [|done]. intros ? [= <-]. unfold function_added. fields.
    apply list_elem_of_here.
  - split; [|done]. eapply server_inv_sim; [|done]. apply state_sim_function_count.
Qed.

(** *** The search for a duplicate under the invariant *)

Lemma strcmp_eq_defined a b : 0 ∈ b -> is_Some (strcmp_eq a b).
Proof.
  revert a. induction b as [|c b IH]; intros a Hin.
  - by apply elem_of_nil in Hin.
  - destruct a as [|x a]; simpl; [eauto|].
    destruct (x =? 0) eqn:Hx; [eauto|].
    destruct (Z.eqb_spec x c) as [->|]; [|eauto].
    apply IH. apply elem_of_cons in Hin as [E|]; [|done].
    subst c. done.
Qed.

Lemma get_unique_loop_total s key f u ds l :
  (forall p, p ∈ l ->
     exists j, jobs s !! p = Some j /\ data_ok (data j) (data_size j)) ->
  (ds = 0%nat -> 0 ∈ u) ->
  (ds <= length u)%nat ->
  exists r, _server_job_get_unique_loop s l key f u ds = Some r /\
            forall p, r = Some p -> p ∈ l.
Proof.
  intros Hall Hu Hd. induction l as [|p l IH]; simpl.
  - by exists None.
  - destruct (Hall p (list_elem_of_here _ _)) as (j & -> & Hdata).
    destruct IH as (r & Hr & Hin).
    { intros p' Hp'. apply Hall. by apply list_elem_of_further. }
    assert (Hsame : exists b,
      (if decide (ds = 0%nat) then
         if bool_decide (function j = Some f) && (unique_key j =? key)
         then strcmp_eq (unique j) u else Some false
       else
         if bool_decide (function j = Some f) && (unique_key j =? key) &&
            bool_decide (data_size j = ds)
         then match data j with
              | Some d => memcmp_eq d u ds
              | None => None
              end
         else Some false) = Some b).
    { destruct (decide (ds = 0%nat)) as [E|E].
      - destruct (_ && _); [|eauto]. by apply strcmp_eq_defined, Hu.
      - destruct (bool_decide (function j = Some f) && (unique_key j =? key));
          simpl; [|eauto].
        destruct (bool_decide_reflect (data_size j = ds)) as [E'|]; [|eauto].
        destruct Hdata as (d & -> & Hlen); [congruence|].
        apply memcmp_eq_defined; lia. }
    destruct Hsame as [b ->]. destruct b.
    + exists (Some p). split; [done|]. intros ? [= <-]. apply list_elem_of_here.
    + exists r. split; [done|]. intros p' Hp'. apply list_elem_of_further; auto.
Qed.

Lemma get_unique_total pending s key f u ds :
  server_inv_upto pending s ->
  (ds = 0%nat -> 0 ∈ u) ->
  (ds <= length u)%nat ->
  exists r, _server_job_get_unique s key f u ds = Some r /\
            forall p, r = Some p -> live s p.
Proof.
  intros Hi Hu Hd. unfold _server_job_get_unique.
  destruct (get_unique_loop_total s key f u ds
              (unique_hash s (key mod GEARMAN_JOB_HASH_SIZE))) as (r & Hr & Hin);
    [|done|done|].
  - intros p Hp. apply (inv_unique_hash _ _ Hi) in Hp as (Hl & j & Hj & _).
    exists j. split; [done|].
    by destruct (inv_live _ _ Hi p j Hl Hj) as (_ & _ & _ & _ & ? & _).
  - exists r. split; [done|]. intros p Hp. specialize (Hin p Hp).
    by apply (inv_unique_hash _ _ Hi) in Hin as [? _].
Qed.

Lemma job_add_lookup_total pending s f u us d ds :
  server_inv_upto pending s ->
  (us <= length u)%nat ->
  (us <> 0%nat -> 0 ∈ u) ->
  data_ok d ds ->
  exists key r, job_add_lookup s f u us d ds = Some (key, r) /\
                (us = 0%nat <-> key = None) /\
                forall p, r = Some p -> live s p.
Proof.
  intros Hi Hu Hnul Hd. unfold job_add_lookup.
  destruct (decide (us = 0%nat)) as [E|E].
  { exists None, None. by repeat split. }
  assert (Hdash : exists b,
    (if decide (us = 1%nat) then
       match head u with
       | Some c => Some (c =? 45)
       | None => None
       end
     else Some false) = Some b).
  { destruct (decide (us = 1%nat)); [|eauto].
    destruct u; simpl in *; [lia|eauto]. }
  destruct Hdash as [b ->]. destruct b.
  - destruct (decide (ds = 0%nat)) as [E'|E'].
    { exists (Some 0), None. split; [done|]. split; [|done]. split; [done|congruence]. }
    destruct (Hd E') as (d0 & -> & Hlen).
    rewrite server_job_hash_run by done.
    destruct (get_unique_total pending s (HashSpec.hash (firstn ds d0)) f d0 ds)
      as (r & -> & Hr); [done|done|done|].
    eexists _, r. split; [done|]. split; [|done]. split; [done|congruence].
  - rewrite server_job_hash_run by done.
    destruct (get_unique_total pending s (HashSpec.hash (firstn us u)) f u 0)
      as (r & -> & Hr); [done|auto|lia|].
    eexists _, r. split; [done|]. split; [|done]. split; [done|congruence].
Qed.

(** *** States that differ in what the invariant does not read *)

Lemma state_sim_client_added c p s cl j :
  clients s !! c = Some cl ->
  client_job cl = None ->
  jobs s !! p = Some j ->
  state_sim s (client_added (Some c) p s).
Proof.
  intros Hc Hcj Hj. unfold client_added. rewrite Hc, Hj.
  constructor; sim_same.
  - intros q j0 j0' _ Hj0 Hj0' [Hnd Hall]. fields.
    assert (Hfresh : c ∉ client_list j0).
    { intros Hin. destruct (Hall c Hin) as (cl0 & Hcl0 & Hq). congruence. }
    assert (Hold : forall c', c' ∈ client_list j0 ->
      exists cl', <[c := set_client_job (Some p) cl]> (clients s) !! c' = Some cl' /\
                  client_job cl' = Some q).
    { intros c' Hin. destruct (Hall c' Hin) as (cl' & Hcl' & Hq).
      exists cl'. split; [|done]. rewrite lookup_insert_ne; [done|].
      by intros ->. }
    destruct (decide (q = p)) as [->|Hne].
    + rewrite lookup_insert_eq in Hj0'. injection Hj0' as <-.
      assert (j0 = j) as -> by congruence. fields. split.
      * by constructor.
      * intros c' [->|Hin]%elem_of_cons; [|by apply Hold].
        eexists. by rewrite lookup_insert_eq.
    + rewrite lookup_insert_ne in Hj0' by done.
      assert (j0' = j0) as -> by congruence. by split.
  - intros q. fields. destruct (decide (q = p)) as [->|Hne].
    + rewrite lookup_insert_eq, Hj. simpl. intros _. by repeat split.
    + rewrite lookup_insert_ne by done. apply opt_sim_refl.
      intros a _. apply job_sim_refl.
Qed.

Lemma free_state_live pending s p j f x q :
  server_inv_upto pending s ->
  jobs s !! p = Some j ->
  live (free_state p f j x s) q <-> live s q /\ q <> p.
Proof.
  intros Hi Hj.
  assert (Hkey : forall k, p ∈ job_hash s k ->
                 k = job_handle_key j mod GEARMAN_JOB_HASH_SIZE).
  { intros k Hk. destruct (inv_job_hash _ _ Hi k p Hk) as (j0 & Hj0 & ->).
    congruence. }
  unfold live, free_state. fields. split.
  - intros [k Hk]. apply hash_del_elem in Hk as [Hk Hn];
      [|apply (inv_job_hash_NoDup _ _ Hi)].
    split; [by exists k|]. intros ->. apply Hn. split; [|done]. by apply Hkey.
  - intros [[k Hk] Hne]. exists k. apply hash_del_elem;
      [apply (inv_job_hash_NoDup _ _ Hi)|]. split; [done|]. by intros [_ ?].
Qed.

(** Freeing a job whose payload pointer was cleared first, after calls of
    the persistent queue. *)
Lemma state_sim_free_data pending s p j f x l :
  server_inv_upto pending s ->
  jobs s !! p = Some j ->
  state_sim (free_state p f j x s)
    (free_state p f (set_data None j) x
       (set_queue_log l (set_jobs (<[p := set_data None j]> (jobs s)) s))).
Proof.
  intros Hi Hj.
  assert (Hnl : ~ live (free_state p f j x s) p).
  { rewrite (free_state_live pending) by done. by intros [_ ?]. }
  assert (Hjobs : forall q, q <> p ->
    jobs (free_state p f (set_data None j) x
       (set_queue_log l (set_jobs (<[p := set_data None j]> (jobs s)) s))) !! q
    = jobs (free_state p f j x s) !! q).
  { intros q Hne. unfold free_state. fields.
    destruct (_ && negb _);
      rewrite ?lookup_delete_ne, ?lookup_insert_ne by done; done. }
  constructor; try done;
    try (intros; apply opt_sim_refl; intros; by repeat split).
  - intros q j0 j0' Hl Hj0 Hj0' Hc.
    assert (q <> p) by (by intros ->).
    rewrite Hjobs in Hj0' by done.
    by assert (j0' = j0) as -> by congruence.
  - intros q. destruct (decide (q = p)) as [->|Hne].
    + unfold free_state. fields.
      destruct (_ && negb _).
      * by rewrite !lookup_delete_eq.
      * rewrite !lookup_insert_eq. simpl. intros Hl. by destruct Hnl.
    + rewrite Hjobs by done. apply opt_sim_refl. intros a _. apply job_sim_refl.
Qed.

Lemma queue_tail_ok pending s f x prio :
  server_inv_upto pending s ->
  f ∈ function_list s ->
  functions s !! f = Some x ->
  prio <> GEARMAN_JOB_PRIORITY_MAX ->
  forall h, job_list x prio = Some h ->
    exists e, job_end x prio = Some e /\ is_Some (jobs s !! e).
Proof.
  intros Hi Hf Hx Hprio h Hh.
  destruct (inv_queues _ _ Hi f x Hf Hx) as (q & [Hq _] & _).
  destruct (Hq prio Hprio) as (Hc & He & Hall).
  rewrite Hh in Hc. destruct (q prio) as [|a l] eqn:El; [by inversion Hc|].
  destruct (last_nonempty (a :: l)) as [e Hlast]; [done|].
  exists e. split; [by apply He|].
  destruct (Hall e (last_Some_elem _ _ Hlast)) as (_ & j & Hj & _). eauto.
Qed.

Lemma persisted_cases fn fns us d ds prio c p f j x s :
  jobs s !! p = Some j ->
  match persisted fn fns us d ds prio c p f j x s with
  | (None, s') =>
      state_sim s s' /\
      jobs s' !! p = Some (persisted_job c j s) /\
      functions s' = functions s /\ workers s' = workers s /\
      cons s' = cons s /\ clients s' = clients s /\
      gearman s' = gearman s /\ options s' = options s /\
      (forall q, q <> p -> jobs s' !! q = jobs s !! q) /\
      (has_flag (options s) GEARMAN_SERVER_QUEUE_REPLAY || negb (persists c s)
       = true -> queue_log s' = queue_log s)
  | (Some r, s') =>
      is_success r = false /\
      has_flag (options s) GEARMAN_SERVER_QUEUE_REPLAY = false /\
      c = None /\
      exists l, s' = free_state p f (set_data None j) x
                       (set_queue_log l
                          (set_jobs (<[p := set_data None j]> (jobs s)) s))
  end.
Proof.
  intros Hj.
  assert (Hq : forall s0, jobs s0 = jobs s -> state_sim s s0 ->
    state_sim s (set_jobs (<[p := queued_job j]> (jobs s)) s0)).
  { intros s0 E Hs. eapply state_sim_trans; [exact Hs|].
    rewrite <- E. apply (state_sim_job p j); [by rewrite E|].
    intros _. by repeat split. }
  assert (Hother : forall q, q <> p ->
    <[p := queued_job j]> (jobs s) !! q = jobs s !! q).
  { intros q Hne. by rewrite lookup_insert_ne. }
  unfold persisted, persisted_job, persists.
  destruct (has_flag (options s) GEARMAN_SERVER_QUEUE_REPLAY) eqn:Hrep; simpl.
  { split; [apply Hq; [done|apply state_sim_refl]|].
    fields. rewrite lookup_insert_eq. do 7 (split; [done|]).
    split; [exact Hother|done]. }
  destruct c as [c|].
  { split; [apply state_sim_refl|done]. }
  destruct (queue_add_fn (gearman s)) as [add_fn|].
  2:{ split; [apply state_sim_refl|done]. }
  destruct (is_success (add_fn _)) eqn:Ha.
  2:{ split; [done|]. split; [done|]. split; [done|]. by eexists. }
  destruct (queue_flush_fn (gearman s)) as [flush_fn|].
  - destruct (is_success (flush_fn _)) eqn:Hfl.
    + split; [apply Hq; [done|]|].
      * eapply state_sim_trans; apply state_sim_logged.
      * fields. rewrite lookup_insert_eq. do 7 (split; [done|]).
        split; [exact Hother|done].
    + split; [done|]. split; [done|]. split; [done|]. by eexists.
  - split; [apply Hq; [done|apply state_sim_logged]|].
    fields. rewrite lookup_insert_eq. do 7 (split; [done|]).
    split; [exact Hother|done].
Qed.

(** *** [gearman_server_job_add], path by path *)

Lemma job_add_no_function env fn fns u us d ds prio c s sf :
  gearman_server_function_get env fn fns s = Some (None, sf) ->
  gearman_server_job_add env fn fns u us d ds prio c s
  = Some ((None, GEARMAN_MEMORY_ALLOCATION_FAILURE), sf).
Proof.
  intros Hget. unfold gearman_server_job_add.
  eapply bind_run; [exact Hget|]. reflexivity.
Qed.

Lemma job_add_exists env fn fns u us d ds prio c s f sf key p :
  gearman_server_function_get env fn fns s = Some (Some f, sf) ->
  job_add_lookup sf f u us d ds = Some (key, Some p) ->
  (forall c', c = Some c' ->
     is_Some (clients sf !! c') /\ is_Some (jobs sf !! p)) ->
  gearman_server_job_add env fn fns u us d ds prio c s
  = Some ((Some p, GEARMAN_JOB_EXISTS), client_added c p sf).
Proof.
  intros Hget Hlook Hc. unfold gearman_server_job_add.
  eapply bind_run; [exact Hget|]. cbn beta iota.
  eapply bind_run; [reflexivity|]. cbn beta.
  rewrite Hlook.
  eapply bind_run; [reflexivity|]. cbn beta iota.
  eapply bind_run; [reflexivity|]. cbn beta iota.
  eapply bind_run; [by apply job_add_client_run|]. reflexivity.
Qed.

Lemma job_add_not_created env fn fns u us d ds prio c s f sf key r :
  gearman_server_function_get env fn fns s = Some (Some f, sf) ->
  job_add_lookup sf f u us d ds = Some (key, None) ->
  job_add_create env f key u us d ds prio sf = Some (inr r, sf) ->
  gearman_server_job_add env fn fns u us d ds prio c s
  = Some ((None, r), sf).
Proof.
  intros Hget Hlook Hcreate. unfold gearman_server_job_add.
  eapply bind_run; [exact Hget|]. cbn beta iota.
  eapply bind_run; [reflexivity|]. cbn beta.
  rewrite Hlook.
  eapply bind_run; [reflexivity|]. cbn beta iota.
  eapply bind_run.
  { eapply bind_run; [exact Hcreate|]. reflexivity. }
  reflexivity.
Qed.

Lemma job_add_fresh env fn fns u us d ds prio c s f sf key x p :
  server_inv s ->
  job_add_args_ok s fn fns u us d ds prio c ->
  gearman_server_function_get env fn fns s = Some (Some f, sf) ->
  job_add_lookup sf f u us d ds = Some (key, None) ->
  functions sf !! f = Some x ->
  queue_full x = false ->
  job_slot env sf = Some p ->
  gearman_server_job_add env fn fns u us d ds prio c s
  = Some (job_added env fn fns u us d ds prio c f key p x sf) /\
  server_inv (snd (job_added env fn fns u us d ds prio c f key p x sf)).
Proof.
  intros Hi Hargs Hget Hlook Hx Hfull Hslot.
  destruct (function_get_inv env None fn fns s _ _ Hi
              (args_function_name _ _ _ _ _ _ _ _ _ Hargs) Hget)
    as (Hif & Hfin & Hlive & Ejobs & Eclients & _).
  specialize (Hfin f eq_refl).
  unfold job_added.
  set (j := created_job env f key u us d ds prio sf).
  set (x1 := set_job_total (wrap32 (job_total x + 1)) x).
  set (s1 := created_state p f j x sf).
  assert (Hi1 : server_inv_upto (Some p) s1).
  { apply server_inv_created; try done.
    - by eapply job_slot_not_live.
    - unfold job_slot in Hslot. destruct (0 <? free_job_count sf); [done|].
      destruct (malloc_job env); [|done]. injection Hslot as <-.
      apply fresh_job.
    - apply (args_priority _ _ _ _ _ _ _ _ _ Hargs).
    - apply (args_data _ _ _ _ _ _ _ _ _ Hargs). }
  assert (Hj1 : jobs s1 !! p = Some j) by apply lookup_insert_eq.
  assert (Hx1 : functions s1 !! f = Some x1) by apply lookup_insert_eq.
  assert (Hcreate : job_add_create env f key u us d ds prio sf
                    = Some (inl p, s1)).
  { apply job_add_create_run; try done. by apply job_slot_free. }
  assert (Hpersist : job_add_persist p fn fns us d ds prio c s1
                     = Some (persisted fn fns us d ds prio c p f j x1 s1)).
  { by apply job_add_persist_run. }
  pose proof (persisted_cases fn fns us d ds prio c p f j x1 s1 Hj1) as Hcases.
  destruct (persisted fn fns us d ds prio c p f j x1 s1) as [failed s2] eqn:Hp.
  assert (Hstart : forall res s3,
    match failed with
    | Some r => ret (None, r)
    | None => job_add_enqueue env p us c
    end s2 = Some (res, s3) ->
    gearman_server_job_add env fn fns u us d ds prio c s
    = match res with
      | (None, r) => ret (None, r)
      | (Some server_job, r) =>
          bind (job_add_client server_job c)
            (fun _ => ret (Some server_job, r))
      end s3).
  { intros res s3 HR. unfold gearman_server_job_add.
    eapply bind_run; [exact Hget|]. cbn beta iota.
    eapply bind_run; [reflexivity|]. cbn beta.
    rewrite Hlook.
    eapply bind_run; [reflexivity|]. cbn beta iota.
    eapply bind_run.
    { eapply bind_run; [exact Hcreate|]. cbn beta iota.
      eapply bind_run; [exact Hpersist|]. exact HR. }
    reflexivity. }
  destruct failed as [r|].
  - (* the persistent queue failed *)
    destruct Hcases as (Hr & _ & _ & l & ->). split.
    + by rewrite (Hstart (None, r) _ eq_refl).
    + simpl. eapply server_inv_sim.
      * by apply (state_sim_free_data (Some p) s1 p j f x1 l).
      * eapply (server_inv_free (Some p)); eauto.
        by destruct (inv_pending _ _ Hi1 p eq_refl).
  - destruct Hcases as (Hsim & Hj2 & Ef & Ew & Ec & Ecl & Eg & Eo & _).
    set (j2 := persisted_job c j s1) in *.
    assert (Hi2 : server_inv_upto (Some p) s2) by (by eapply server_inv_sim).
    assert (Hj2f : function j2 = Some f /\ priority j2 = prio /\
                   client_list j2 = [] /\ worker j2 = None).
    { unfold j2, persisted_job. by destruct (_ || _). }
    destruct Hj2f as (Hjf & Hjp & Hjc & Hjw).
    assert (Hx2 : functions s2 !! f = Some x1) by (by rewrite Ef).
    assert (Hfl2 : f ∈ function_list s2) by (by rewrite (sim_function_list _ _ Hsim)).
    assert (Hprio : priority j2 <> GEARMAN_JOB_PRIORITY_MAX).
    { rewrite Hjp. apply (args_priority _ _ _ _ _ _ _ _ _ Hargs). }
    assert (Hl2 : live s2 p) by (by destruct (inv_pending _ _ Hi2 p eq_refl)).
    assert (Henq : job_add_enqueue env p us c s2
                   = Some (enqueued env us c p f j2 x1 s2)).
    { apply job_add_enqueue_total; try done.
      - by apply (inv_workers _ _ Hi2 f).
      - intros h Hh.
        destruct (queue_tail_ok _ _ _ _ _ Hi2 Hfl2 Hx2 Hprio h Hh) as (e & He & Hs).
        exists e. split; [done|]. destruct (decide (e = p)) as [->|Hne].
        + rewrite lookup_insert_eq. eauto.
        + by rewrite lookup_insert_ne. }
    pose proof (server_inv_queue_state env (Some p) s2 p j2 f x1 Hi2
                  (or_introl eq_refl) Hl2 Hj2 Hjf Hfl2 Hx2) as Hq.
    unfold enqueued in *.
    destruct (is_success (queue_ret env x1 s2)) eqn:Hr.
    + (* queued *)
      set (s3 := queue_state env p f j2 x1 s2) in *.
      assert (Hl3 : live s3 p).
      { unfold s3. rewrite queue_state_success by done. exact Hl2. }
      assert (Hj3 : is_Some (jobs s3 !! p)).
      { destruct Hl3 as [k Hk].
        destruct (inv_job_hash _ _ Hq k p Hk) as (j3 & Hj3 & _). eauto. }
      destruct Hj3 as [j3 Hj3].
      assert (Ecl3 : clients s3 = clients sf).
      { unfold s3. rewrite queue_state_success by done.
        unfold queue_appended, queue_prepared. fields. by rewrite Ecl. }
      assert (Hc3 : forall c', c = Some c' ->
        exists cl, clients s3 !! c' = Some cl /\ client_job cl = None).
      { intros c' ->. rewrite Ecl3, Eclients.
        by apply (args_client _ _ _ _ _ _ _ _ _ Hargs). }
      split.
      * rewrite (Hstart _ _ Henq). simpl.
        eapply bind_run; [|reflexivity]. apply job_add_client_run.
        intros c' Hc'. destruct (Hc3 c' Hc') as (cl & -> & _). eauto.
      * simpl. destruct c as [c'|]; [|exact Hq].
        destruct (Hc3 c' eq_refl) as (cl & Hcl & Hcj).
        eapply server_inv_sim; [|exact Hq].
        by eapply state_sim_client_added.
    + (* the wake-up failed *)
      set (s3 := queue_state env p f j2 x1 s2) in *.
      set (s4 := match c, queue_done_fn (gearman s2) with
                 | None, Some _ =>
                     logged (QueueDone (unique j2) us (function_name x1)
                               (function_name_size x1)) s3
                 | _, _ => s3
                 end) in *.
      split; [by rewrite (Hstart _ _ Henq)|]. simpl.
      assert (Hi4 : server_inv_upto (Some p) s4).
      { unfold s4. destruct c; [done|]. destruct (queue_done_fn _); [|done].
        eapply server_inv_sim; [apply state_sim_logged|done]. }
      assert (Hj4 : jobs s4 !! p = Some (queue_reset j2)).
      { assert (jobs s4 = jobs s3) as -> by
          (unfold s4; destruct c; [done|]; by destruct (queue_done_fn _)).
        unfold s3. rewrite queue_state_failure by done.
        unfold queue_prepared. fields. apply lookup_insert_eq. }
      assert (Hx4 : functions s4 !! f = Some x1).
      { assert (functions s4 = functions s3) as -> by
          (unfold s4; destruct c; [done|]; by destruct (queue_done_fn _)).
        unfold s3. rewrite queue_state_failure by done.
        unfold queue_prepared. fields. rewrite lookup_insert_eq.
        unfold queue_release. rewrite Hjw.
        by rewrite bool_decide_false by (intros H; by apply H). }
      eapply (server_inv_free (Some p)); eauto.
      * by destruct (inv_pending _ _ Hi4 p eq_refl).
      * destruct (queue_reset_fields j2) as (E & _). by rewrite E.
Qed.

(** Every way in which [gearman_server_job_add] returns: it always does,
    under the invariant, for arguments as a caller passes them. *)
Lemma job_add_cases env fn fns u us d ds prio c s :
  server_inv s ->
  job_add_args_ok s fn fns u us d ds prio c ->
  (exists sf,
     gearman_server_function_get env fn fns s = Some (None, sf) /\
     gearman_server_job_add env fn fns u us d ds prio c s
     = Some ((None, GEARMAN_MEMORY_ALLOCATION_FAILURE), sf)) \/
  (exists f sf x key existing,
     gearman_server_function_get env fn fns s = Some (Some f, sf) /\
     server_inv sf /\ f ∈ function_list sf /\
     functions sf !! f = Some x /\
     job_add_lookup sf f u us d ds = Some (key, existing) /\
     (us = 0%nat <-> key = None) /\
     match existing with
     | Some p =>
         live sf p /\
         gearman_server_job_add env fn fns u us d ds prio c s
         = Some ((Some p, GEARMAN_JOB_EXISTS), client_added c p sf)
     | None =>
         if queue_full x then
           gearman_server_job_add env fn fns u us d ds prio c s
           = Some ((None, GEARMAN_JOB_QUEUE_FULL), sf)
         else
           match job_slot env sf with
           | None =>
               gearman_server_job_add env fn fns u us d ds prio c s
               = Some ((None, GEARMAN_MEMORY_ALLOCATION_FAILURE), sf)
           | Some p =>
               gearman_server_job_add env fn fns u us d ds prio c s
               = Some (job_added env fn fns u us d ds prio c f key p x sf)
           end
     end).
Proof.
  intros Hi Hargs.
  pose proof (args_function_name _ _ _ _ _ _ _ _ _ Hargs) as Hfn.
  assert (Hget : exists r sf,
    gearman_server_function_get env fn fns s = Some (r, sf)).
  { destruct (function_get_cases env None fn fns s Hi Hfn)
      as [(f & _ & _ & E)|[[_ E]|(_ & _ & c0 & E)]]; eauto. }
  destruct Hget as ([f|] & sf & Hget).
  2:{ left. exists sf. split; [done|]. by apply job_add_no_function. }
  right.
  destruct (function_get_inv env None fn fns s _ _ Hi Hfn Hget)
    as (Hif & Hfin & Hlive & Ejobs & Eclients & _).
  specialize (Hfin f eq_refl).
  destruct (inv_function_list _ _ Hif f Hfin) as (x & name & Hx & _).
  destruct (job_add_lookup_total None sf f u us d ds Hif
              (args_unique _ _ _ _ _ _ _ _ _ Hargs)
              (args_unique_nul _ _ _ _ _ _ _ _ _ Hargs)
              (args_data _ _ _ _ _ _ _ _ _ Hargs))
    as (key & existing & Hlook & Hkey & Hex).
  exists f, sf, x, key, existing. do 6 (split; [done|]).
  destruct existing as [p|].
  - split; [by apply Hex|]. eapply job_add_exists; eauto.
    intros c' ->. rewrite Eclients.
    destruct (args_client _ _ _ _ _ _ _ _ _ Hargs c' eq_refl) as (cl & -> & _).
    split; [eauto|]. destruct (Hex p eq_refl) as [k Hk].
    destruct (inv_job_hash _ _ Hif k p Hk) as (j & -> & _). eauto.
  - destruct (queue_full x) eqn:Hfull.
    + eapply job_add_not_created; eauto. by eapply job_add_create_full.
    + destruct (job_slot env sf) as [p|] eqn:Hslot.
      * by apply job_add_fresh.
      * eapply job_add_not_created; eauto.
        eapply job_add_create_nomem; eauto. by apply job_slot_free.
Qed.

Lemma job_add_total env fn fns u us d ds prio c s :
  server_inv s ->
  job_add_args_ok s fn fns u us d ds prio c ->
  exists r s',
    gearman_server_job_add env fn fns u us d ds prio c s = Some (r, s') /\
    server_inv s'.
Proof.
  intros Hi Hargs.
  pose proof (args_function_name _ _ _ _ _ _ _ _ _ Hargs) as Hfn.
  destruct (job_add_cases env fn fns u us d ds prio c s Hi Hargs)
    as [(sf & Hget & E)|(f & sf & x & key & existing & Hget & Hif & Hfin &
                          Hx & Hlook & _ & Hrest)].
  - eexists _, _. split; [exact E|].
    by destruct (function_get_inv env None fn fns s _ _ Hi Hfn Hget).
  - destruct (function_get_inv env None fn fns s _ _ Hi Hfn Hget)
      as (_ & _ & _ & _ & Eclients & _).
    destruct existing as [p|].
    + destruct Hrest as [Hl E]. eexists _, _. split; [exact E|].
      destruct c as [c'|]; [|done].
      destruct (args_client _ _ _ _ _ _ _ _ _ Hargs c' eq_refl) as (cl & Hcl & Hcj).
      destruct Hl as [k Hk].
      destruct (inv_job_hash _ _ Hif k p Hk) as (j & Hj & _).
      eapply server_inv_sim; [|exact Hif].
      eapply state_sim_client_added; eauto. by rewrite Eclients.
    + destruct (queue_full x) eqn:Hfull; [eauto|].
      destruct (job_slot env sf) as [p|] eqn:Hslot; [|eauto].
      destruct (job_added env fn fns u us d ds prio c f key p x sf)
        as [r s'] eqn:Hadd.
      exists r, s'. split; [done|].
      destruct (job_add_fresh env fn fns u us d ds prio c s f sf key x p)
        as [_ Hinv]; try done.
      by rewrite Hadd in Hinv.
Qed.

Lemma job_add_inv env fn fns u us d ds prio c s r s' :
  server_inv s ->
  job_add_args_ok s fn fns u us d ds prio c ->
  gearman_server_job_add env fn fns u us d ds prio c s = Some (r, s') ->
  server_inv s'.
Proof.
  intros Hi Hargs Hrun.
  destruct (job_add_total env fn fns u us d ds prio c s Hi Hargs)
    as (r0 & s0 & E & Hinv).
  rewrite E in Hrun. by injection Hrun as _ <-.
Qed.

(** *** [gearman_server_job_free] and [gearman_server_job_queue] under the
    invariant *)

Lemma job_free_total pending s p j :
  server_inv_upto pending s ->
  pending = Some p \/ (pending = None /\ worker j <> None) ->
  live s p ->
  jobs s !! p = Some j ->
  exists f x,
    function j = Some f /\ f ∈ function_list s /\
    functions s !! f = Some x /\
    gearman_server_job_free p s = Some (tt, free_state p f j x s) /\
    server_inv (free_state p f j x s).
Proof.
  intros Hi Hpend Hl Hj.
  destruct (inv_live _ _ Hi p j Hl Hj) as (f & Hf & Hfl & Hprio & Hd & Hcl & Hw).
  destruct (inv_function_list _ _ Hi f Hfl) as (x & name & Hx & _).
  exists f, x. do 3 (split; [done|]). split.
  - apply job_free_run; try done. intros w Hw'. by rewrite Hw' in Hw.
  - by eapply server_inv_free.
Qed.

Lemma job_queue_total env pending s p j :
  server_inv_upto pending s ->
  pending = Some p \/ (pending = None /\ worker j <> None) ->
  live s p ->
  jobs s !! p = Some j ->
  exists f x,
    function j = Some f /\ f ∈ function_list s /\
    functions s !! f = Some x /\
    gearman_server_job_queue env p s
    = Some (queue_ret env x s, queue_state env p f j x s) /\
    if is_success (queue_ret env x s)
    then server_inv (queue_state env p f j x s)
    else server_inv_upto (Some p) (queue_state env p f j x s).
Proof.
  intros Hi Hpend Hl Hj.
  destruct (inv_live _ _ Hi p j Hl Hj) as (f & Hf & Hfl & Hprio & Hd & Hcl & Hw).
  destruct (inv_function_list _ _ Hi f Hfl) as (x & name & Hx & _).
  exists f, x. do 3 (split; [done|]). split.
  - apply job_queue_run; try done.
    + by apply (inv_workers _ _ Hi f).
    + intros h Hh.
      destruct (queue_tail_ok _ _ _ _ _ Hi Hfl Hx Hprio h Hh) as (e & He & Hs).
      exists e. split; [done|]. destruct (decide (e = p)) as [->|Hne].
      * rewrite lookup_insert_eq. eauto.
      * by rewrite lookup_insert_ne.
  - by eapply server_inv_queue_state.
Qed.

(** *** [gearman_server_job_take] and [gearman_server_job_peek] *)

Lemma chain_None_nil m l : chain m None l -> l = [].
Proof. by inversion 1. Qed.

Lemma chain_head_None m head : chain m head [] -> head = None.
Proof. by inversion 1. Qed.

Lemma first_priority_eq jl :
  first_priority jl
  = match jl GEARMAN_JOB_PRIORITY_HIGH with
    | Some _ => GEARMAN_JOB_PRIORITY_HIGH
    | None =>
        match jl GEARMAN_JOB_PRIORITY_NORMAL with
        | Some _ => GEARMAN_JOB_PRIORITY_NORMAL
        | None =>
            match jl GEARMAN_JOB_PRIORITY_LOW with
            | Some _ => GEARMAN_JOB_PRIORITY_LOW
            | None => GEARMAN_JOB_PRIORITY_MAX
            end
        end
    end.
Proof. reflexivity. Qed.

(** The priority at which the scan of [gearman_server_job_take] stops,
    for the three lists of a function: the first one that is not empty. *)
Lemma first_priority_head m (x : gearman_server_function_st) qh qn ql p rest :
  chain m (job_list x GEARMAN_JOB_PRIORITY_HIGH) qh ->
  chain m (job_list x GEARMAN_JOB_PRIORITY_NORMAL) qn ->
  chain m (job_list x GEARMAN_JOB_PRIORITY_LOW) ql ->
  qh ++ qn ++ ql = p :: rest ->
  first_priority (job_list x) <> GEARMAN_JOB_PRIORITY_MAX /\
  job_list x (first_priority (job_list x)) = Some p /\
  exists l, chain m (Some p) (p :: l) /\
    match first_priority (job_list x) with
    | GEARMAN_JOB_PRIORITY_HIGH => qh = p :: l /\ rest = l ++ qn ++ ql
    | GEARMAN_JOB_PRIORITY_NORMAL => qh = [] /\ qn = p :: l /\ rest = l ++ ql
    | GEARMAN_JOB_PRIORITY_LOW => qh = [] /\ qn = [] /\ ql = p :: l /\ rest = l
    | GEARMAN_JOB_PRIORITY_MAX => False
    end.
Proof.
  intros Hh Hn Hl E. rewrite first_priority_eq.
  destruct qh as [|a qh].
  - rewrite (chain_head_None _ _ Hh). destruct qn as [|a qn].
    + rewrite (chain_head_None _ _ Hn). destruct ql as [|a ql]; [done|].
      simpl in E. injection E as -> <-.
      pose proof (chain_head _ _ _ _ Hl) as E. rewrite E. simpl.
      rewrite E in Hl. split; [done|]. split; [done|]. by exists ql.
    + simpl in E. injection E as -> <-.
      pose proof (chain_head _ _ _ _ Hn) as E. rewrite E. simpl.
      rewrite E in Hn. split; [done|]. split; [done|]. by exists qn.
  - simpl in E. injection E as -> <-.
    pose proof (chain_head _ _ _ _ Hh) as E. rewrite E. simpl.
    rewrite E in Hh. split; [done|]. split; [done|]. by exists qh.
Qed.

Lemma job_take_worker_cases s l :
  (forall w, w ∈ l ->
     exists wk x, workers s !! w = Some wk /\
                  functions s !! worker_function wk = Some x) ->
  (forall w, w ∈ l -> idle s w) \/
  exists l1 w l2 wk x,
    l = l1 ++ w :: l2 /\ (forall w', w' ∈ l1 -> idle s w') /\
    workers s !! w = Some wk /\
    functions s !! worker_function wk = Some x /\ job_count x <> 0.
Proof.
  induction l as [|w l IH]; intros Hall.
  - left. by intros w Hw%elem_of_nil.
  - destruct (Hall w (list_elem_of_here _ _)) as (wk & x & Hwk & Hx).
    destruct (decide (job_count x = 0)) as [E|E].
    + destruct IH as [Hidle|(l1 & w' & l2 & wk' & x' & -> & Hidle & Hrest)].
      { intros w' Hw'. apply Hall. by apply list_elem_of_further. }
      * left. intros w' [->|Hw']%elem_of_cons; [|by apply Hidle].
        by exists wk, x.
      * right. exists (w :: l1), w', l2, wk', x'. split; [done|].
        split; [|done]. intros w0 [->|Hw0]%elem_of_cons; [|by apply Hidle].
        by exists wk, x.
    + right. exists [], w, l, wk, x. split; [done|]. split; [|done].
      by intros w' Hw'%elem_of_nil.
Qed.

Lemma job_take_none fuel con s c :
  cons s !! con = Some c ->
  (forall w, w ∈ con_worker_list c -> idle s w) ->
  gearman_server_job_take (S fuel) con s = Some (None, s).
Proof.
  intros Hc Hidle. simpl.
  eapply bind_run; [by apply load_con_run|]. cbn beta.
  eapply bind_run; [reflexivity|]. cbn beta.
  rewrite job_take_worker_none by done.
  eapply bind_run; [reflexivity|]. reflexivity.
Qed.

(** The jobs of a function whose counter is not 0, under the invariant. *)
Lemma queues_nonempty s f x q :
  queues_ok s f x q -> job_count x <> 0 ->
  exists p rest,
    q GEARMAN_JOB_PRIORITY_HIGH ++ q GEARMAN_JOB_PRIORITY_NORMAL ++
    q GEARMAN_JOB_PRIORITY_LOW = p :: rest.
Proof.
  intros [_ Hcount] Hne.
  destruct (q GEARMAN_JOB_PRIORITY_HIGH ++ q GEARMAN_JOB_PRIORITY_NORMAL ++
            q GEARMAN_JOB_PRIORITY_LOW) as [|p rest] eqn:E; [|eauto].
  apply app_eq_nil in E as [E1 [E2 E3]%app_eq_nil].
  rewrite E1, E2, E3 in Hcount. done.
Qed.

(** One round of [gearman_server_job_take] under the invariant: no job for
    the connection, or the job [p] goes to a worker, and is freed when
    it was marked to be ignored. *)
Lemma job_take_step fuel con s c :
  server_inv s ->
  cons s !! con = Some c ->
  gearman_server_job_take (S fuel) con s = Some (None, s) \/
  exists p w wk x j,
    let s1 := take_state p w (worker_function wk)
                (first_priority (job_list x)) j x wk s in
    workers s !! w = Some wk /\
    functions s !! worker_function wk = Some x /\
    live s p /\ jobs s !! p = Some j /\ worker j = None /\
    server_inv s1 /\ cons s1 = cons s /\
    if has_flag (job_options j) GEARMAN_SERVER_JOB_IGNORE then
      exists s2, gearman_server_job_free p s1 = Some (tt, s2) /\
                 server_inv s2 /\ cons s2 = cons s /\
                 gearman_server_job_take (S fuel) con s
                 = gearman_server_job_take fuel con s2
    else gearman_server_job_take (S fuel) con s = Some (Some p, s1).
Proof.
  intros Hi Hc.
  destruct (job_take_worker_cases s (con_worker_list c))
    as [Hidle|(l1 & w & l2 & wk & x & El & Hidle & Hwk & Hx & Hcount)].
  { intros w Hw. destruct (inv_cons _ _ Hi con c Hc w Hw) as (wk & Hwk & Hf).
    destruct (inv_function_list _ _ Hi _ Hf) as (x & _ & Hx & _). eauto. }
  { left. by eapply job_take_none. }
  right.
  assert (Hfl : worker_function wk ∈ function_list s).
  { destruct (inv_cons _ _ Hi con c Hc w) as (wk' & Hwk' & Hf).
    - rewrite El. apply elem_of_app. right. apply list_elem_of_here.
    - by assert (wk' = wk) as -> by congruence. }
  destruct (inv_queues _ _ Hi _ x Hfl Hx) as (q & Hq & _).
  destruct (queues_nonempty _ _ _ _ Hq Hcount) as (p & rest & Eq).
  destruct Hq as [Hq Hcnt].
  destruct (Hq GEARMAN_JOB_PRIORITY_HIGH) as (Hch & _ & Hallh); [done|].
  destruct (Hq GEARMAN_JOB_PRIORITY_NORMAL) as (Hcn & _ & Halln); [done|].
  destruct (Hq GEARMAN_JOB_PRIORITY_LOW) as (Hcl & _ & Halll); [done|].
  destruct (first_priority_head _ _ _ _ _ _ _ Hch Hcn Hcl Eq)
    as (Hprio & Hhead & l & Hcp & Hwhich).
  assert (Hin : p ∈ q (first_priority (job_list x))).
  { destruct (first_priority (job_list x)); try done.
    - destruct Hwhich as [-> _]. apply list_elem_of_here.
    - destruct Hwhich as (_ & -> & _). apply list_elem_of_here.
    - destruct Hwhich as (_ & _ & -> & _). apply list_elem_of_here. }
  destruct (Hq _ Hprio) as (_ & _ & Hall).
  destruct (Hall p Hin) as (Hl & j & Hj & Hjf & Hjp & Hjw).
  exists p, w, wk, x, j. intros s1.
  assert (Hi1 : server_inv s1) by (by apply server_inv_take).
  do 5 (split; [done|]). split; [done|]. split; [done|].
  pose proof (job_take_run fuel con s c l1 w l2 wk x p j Hc El Hidle Hwk Hx
                Hcount Hprio Hhead Hj Hjf) as Hrun.
  cbv zeta in Hrun. fold s1 in Hrun.
  destruct (has_flag (job_options j) GEARMAN_SERVER_JOB_IGNORE); [|done].
  assert (Hj1 : jobs s1 !! p = Some (set_worker (Some w) j))
    by apply lookup_insert_eq.
  destruct (job_free_total None s1 p (set_worker (Some w) j) Hi1)
    as (f' & x' & _ & _ & _ & Hfree & Hi2); [by right|done|done|].
  eexists. split; [exact Hfree|]. split; [done|]. split; [done|].
  rewrite Hrun. unfold bind. by rewrite Hfree.
Qed.

Lemma job_take_inv fuel : forall con s r s',
  server_inv s ->
  gearman_server_job_take fuel con s = Some (r, s') ->
  server_inv s' /\ cons s' = cons s /\
  forall p, r = Some p ->
    live s' p /\ exists j, jobs s' !! p = Some j /\ worker j <> None.
Proof.
  induction fuel as [|fuel IH]; intros con s r s' Hi Hrun; [done|].
  destruct (cons s !! con) as [c|] eqn:Hc.
  2:{ simpl in Hrun. unfold bind, load_con, bind, get, deref in Hrun.
      by rewrite Hc in Hrun. }
  destruct (job_take_step fuel con s c Hi Hc)
    as [E|(p & w & wk & x & j & Hwk & Hx & Hl & Hj & Hjw & Hi1 & Hc1 & Hrest)].
  { rewrite E in Hrun. injection Hrun as <- <-.
    split; [done|]. split; [done|]. by intros p [=]. }
  cbv zeta in Hi1, Hc1, Hrest.
  destruct (has_flag (job_options j) GEARMAN_SERVER_JOB_IGNORE).
  - destruct Hrest as (s2 & _ & Hi2 & Hc2 & E). rewrite E in Hrun.
    destruct (IH con s2 r s' Hi2 Hrun) as (Hi' & Hc' & Hr).
    split; [done|]. split; [congruence|done].
  - rewrite Hrest in Hrun. injection Hrun as <- <-.
    split; [done|]. split; [done|]. intros ? [= <-]. split; [done|].
    eexists. split; [apply lookup_insert_eq|done].
Qed.

Lemma job_peek_inv fuel : forall con s r s',
  server_inv s ->
  gearman_server_job_peek fuel con s = Some (r, s') ->
  server_inv s' /\ cons s' = cons s.
Proof.
  induction fuel as [|fuel IH]; intros con s r s' Hi Hrun; [done|].
  simpl in Hrun.
  apply bind_inv in Hrun as (c & s1 & H1 & Hrun).
  apply load_con_inv in H1 as [Hc ->].
  apply bind_inv in Hrun as (s0 & s1 & H1 & Hrun).
  apply get_inv in H1 as [-> ->].
  apply bind_inv in Hrun as (head & s1 & H1 & Hrun).
  apply deref_inv in H1 as [Hhead ->].
  destruct head as [p|].
  2:{ apply ret_inv in Hrun as [-> ->]. done. }
  apply bind_inv in Hrun as (j & s1 & H1 & Hrun).
  apply load_job_inv in H1 as [Hj ->].
  destruct (has_flag (job_options j) GEARMAN_SERVER_JOB_IGNORE).
  2:{ apply ret_inv in Hrun as [-> ->]. done. }
  apply bind_inv in Hrun as (? & s1 & H1 & Hrun).
  apply update_job_inv in H1 as (j0 & Hj0 & ->).
  assert (j0 = j) as -> by congruence.
  set (sc := set_jobs _ s) in *.
  assert (Hic : server_inv sc).
  { eapply server_inv_sim; [|exact Hi].
    apply (state_sim_job p j); [done|]. intros _. by repeat split. }
  apply bind_inv in Hrun as (taken & st & H1 & Hrun).
  destruct (job_take_inv (S fuel) con sc taken st Hic H1)
    as (Hit & Hct & Htaken).
  apply bind_inv in Hrun as (p' & s1 & H2 & Hrun).
  apply deref_inv in H2 as [-> ->].
  destruct (Htaken p' eq_refl) as (Hl' & j' & Hj' & Hw').
  apply bind_inv in Hrun as (? & s2 & H2 & Hrun).
  destruct (job_free_total None st p' j' Hit)
    as (f' & x' & _ & _ & _ & Hfree & Hi2); [by right|done|done|].
  rewrite Hfree in H2. injection H2 as _ <-.
  destruct (IH con _ r s' Hi2 Hrun) as [Hi' Hc'].
  split; [done|]. rewrite Hc'. done.
Qed.

Lemma fifo_tail s x prio l p j' :
  fifo s x prio l ->
  forall h, job_list x prio = Some h ->
    exists e, job_end x prio = Some e /\ is_Some (<[p := j']> (jobs s) !! e).
Proof.
  intros (_ & Hc & He) h Hh. rewrite Hh in Hc.
  destruct l as [|a l]; [by inversion Hc|].
  destruct (last_nonempty (a :: l)) as [e Hlast]; [done|].
  exists e. split; [by apply He|].
  destruct (chain_lookup _ _ _ e Hc (last_Some_elem _ _ Hlast)) as [je Hje].
  destruct (decide (e = p)) as [->|Hne].
  - rewrite lookup_insert_eq. eauto.
  - rewrite lookup_insert_ne by done. eauto.
Qed.

(** [gearman_server_job_queue] returns; when it returns success the job is
    the last of its priority's list. *)
Lemma job_queue_fifo env p s j f x l :
  jobs s !! p = Some j ->
  function j = Some f ->
  functions s !! f = Some x ->
  wakeable (workers s) (cons s) (worker_list x) ->
  fifo s x (priority j) l ->
  p ∉ l ->
  worker j <> None \/ function_next j = None ->
  gearman_server_job_queue env p s
  = Some (queue_ret env x s, queue_state env p f j x s) /\
  jobs (queue_state env p f j x s) !! p = Some (queue_reset j) /\
  (is_success (queue_ret env x s) = false ->
   functions (queue_state env p f j x s) !! f = Some (queue_release j x)) /\
  (is_success (queue_ret env x s) = true ->
   functions (queue_state env p f j x s) !! f
   = Some (queue_append p (priority j) (queue_release j x)) /\
   fifo (queue_state env p f j x s)
     (queue_append p (priority j) (queue_release j x)) (priority j)
     (l ++ [p])).
Proof.
  intros Hj Hf Hx Hwk (Hprio & Hc & He) Hnotin Hnext.
  assert (Hrun : gearman_server_job_queue env p s
                 = Some (queue_ret env x s, queue_state env p f j x s)).
  { apply job_queue_run; try done. by eapply fifo_tail. }
  split; [done|].
  assert (Hn : function_next (queue_reset j) = None).
  { unfold queue_reset. fields.
    destruct (bool_decide_reflect (worker j <> None)) as [|Hw]; [done|].
    fields. destruct Hnext as [?|?]; [|done]. by destruct Hw. }
  assert (Hc1 : chain (<[p := queue_reset j]> (jobs s)) (job_list x (priority j)) l).
  { by apply chain_insert_notin. }
  assert (Hp : jobs (queue_state env p f j x s) !! p = Some (queue_reset j)).
  { unfold queue_state.
    destruct (is_success (queue_ret env x s)); fields;
      [|apply lookup_insert_eq].
    unfold queue_link. rewrite queue_release_job_list, queue_release_job_end.
    destruct (job_list x (priority j)) as [h|] eqn:Hh; [|apply lookup_insert_eq].
    destruct (job_end x (priority j)) as [e|] eqn:Hend; [|apply lookup_insert_eq].
    destruct (decide (e = p)) as [->|Hne].
    - exfalso. apply Hnotin. destruct l as [|a l]; [by inversion Hc|].
      destruct (last_nonempty (a :: l)) as [e Hlast]; [done|].
      pose proof (He e Hlast) as [= <-]. by apply last_Some_elem.
    - rewrite lookup_insert_ne by done.
      destruct (jobs s !! e); [rewrite lookup_insert_ne by done|];
        apply lookup_insert_eq. }
  split; [done|]. split.
  { intros Hr. unfold queue_state. rewrite Hr. fields. apply lookup_insert_eq. }
  intros Hr. unfold queue_state. rewrite Hr. fields.
  split; [apply lookup_insert_eq|]. split; [done|].
  unfold queue_link, queue_append.
  rewrite !queue_release_job_list, !queue_release_job_end. fields.
  destruct l as [|a l].
  - rewrite (chain_head_None _ _ Hc) in *. fields.
    rewrite ?queue_release_job_list. unfold assign.
    rewrite !decide_True by done. split.
    + econstructor; [apply lookup_insert_eq|]. rewrite Hn. constructor.
    + by intros e [= <-].
  - pose proof (chain_head _ _ _ _ Hc) as Hh. rewrite Hh in *.
    destruct (last_nonempty (a :: l)) as [e Hlast]; [done|].
    rewrite (He e Hlast).
    assert (Hin : e ∈ a :: l) by (by apply last_Some_elem).
    assert (Hne : e <> p) by (by intros ->).
    destruct (chain_lookup _ _ _ e Hc Hin) as [je Hje].
    rewrite lookup_insert_ne by done. rewrite Hje. fields.
    rewrite ?queue_release_job_list, ?Hh. split.
    + eapply chain_snoc; eauto.
      * by rewrite lookup_insert_ne.
      * apply lookup_insert_eq.
    + intros e'. rewrite last_snoc. intros [= <-]. unfold assign.
      by rewrite decide_True.
Qed.

(** [gearman_server_job_take] returns the head of the first list that is
    not empty, in the order HIGH, NORMAL, LOW, of the first worker whose
    function has jobs; the lists keep the other jobs, in their order. *)
Lemma job_take_fifo fuel con s c l1 w l2 wk x qh qn ql p rest j :
  cons s !! con = Some c ->
  con_worker_list c = l1 ++ w :: l2 ->
  (forall w', w' ∈ l1 -> idle s w') ->
  workers s !! w = Some wk ->
  functions s !! worker_function wk = Some x ->
  job_count x <> 0 ->
  fifo s x GEARMAN_JOB_PRIORITY_HIGH qh ->
  fifo s x GEARMAN_JOB_PRIORITY_NORMAL qn ->
  fifo s x GEARMAN_JOB_PRIORITY_LOW ql ->
  qh ++ qn ++ ql = p :: rest ->
  jobs s !! p = Some j ->
  function j = Some (worker_function wk) ->
  has_flag (job_options j) GEARMAN_SERVER_JOB_IGNORE = false ->
  let prio := first_priority (job_list x) in
  let x' := take_function p prio j x in
  let s' := take_state p w (worker_function wk) prio j x wk s in
  gearman_server_job_take (S fuel) con s = Some (Some p, s') /\
  exists qh' qn' ql',
    fifo s' x' GEARMAN_JOB_PRIORITY_HIGH qh' /\
    fifo s' x' GEARMAN_JOB_PRIORITY_NORMAL qn' /\
    fifo s' x' GEARMAN_JOB_PRIORITY_LOW ql' /\
    qh' ++ qn' ++ ql' = rest.
Proof.
  intros Hc El Hidle Hwk Hx Hcount (_ & Hch & Heh) (_ & Hcn & Hen)
    (_ & Hcl & Hel) Eq Hj Hjf Hign prio x' s'.
  destruct (first_priority_head _ _ _ _ _ _ _ Hch Hcn Hcl Eq)
    as (Hprio & Hhead & l & Hcp & Hwhich).
  split.
  { pose proof (job_take_run fuel con s c l1 w l2 wk x p j Hc El Hidle Hwk Hx
                  Hcount Hprio Hhead Hj Hjf) as Hrun.
    cbv zeta in Hrun. by rewrite Hign in Hrun. }
  destruct (chain_cons_inv _ _ _ _ Hcp) as (_ & j0 & Hj0 & Hrest).
  assert (j0 = j) as -> by congruence.
  pose proof (chain_NoDup _ _ _ Hcp) as [Hpl _]%NoDup_cons.
  assert (Hchain : forall head l0, chain (jobs s) head l0 ->
                   chain (jobs s') head l0).
  { intros head l0 Hc0. unfold s', take_state. fields.
    apply chain_insert; [done|]. intros j1 _ Hj1.
    by assert (j1 = j) as -> by congruence. }
  assert (Hsame : forall pr l0, pr <> prio ->
    pr <> GEARMAN_JOB_PRIORITY_MAX ->
    chain (jobs s) (job_list x pr) l0 ->
    (forall e, last l0 = Some e -> job_end x pr = Some e) ->
    fifo s' x' pr l0).
  { intros pr l0 Hne Hpr Hc0 He0. split; [done|].
    unfold x', take_function. split.
    - apply Hchain. destruct (bool_decide _); fields; unfold assign;
        by rewrite decide_False.
    - intros e Hlast. destruct (bool_decide _); fields; unfold assign;
        rewrite ?decide_False by done; by apply He0. }
  assert (Htail :
    (forall e, last (p :: l) = Some e -> job_end x prio = Some e) ->
    fifo s' x' prio l).
  { intros He0. split; [done|]. unfold x', take_function. split.
    - apply Hchain. destruct (bool_decide _); fields; unfold assign;
        by rewrite decide_True.
    - intros e Hlast.
      assert (Hin : e ∈ l) by (by apply last_Some_elem).
      assert (Hend : job_end x prio = Some e).
      { apply He0. destruct l; [done|]. by rewrite last_cons, Hlast. }
      fields. rewrite bool_decide_false; [done|].
      rewrite Hend. intros [= ->]. done. }
  fold prio in Hwhich, Hprio. clearbody prio.
  destruct prio; try done.
  - destruct Hwhich as [-> ->]. exists l, qn, ql.
    split; [by apply Htail|]. split; [by apply Hsame|].
    split; [by apply Hsame|done].
  - destruct Hwhich as (-> & -> & ->). exists [], l, ql.
    split; [by apply Hsame|]. split; [by apply Htail|].
    split; [by apply Hsame|done].
  - destruct Hwhich as (-> & -> & -> & ->). exists [], [], l.
    split; [by apply Hsame|]. split; [by apply Hsame|].
    split; [by apply Htail|done].
Qed.

(** The wake-up loop of [gearman_server_job_queue], seen from one
    connection. *)
Lemma job_queue_noop env p s j f x l :
  jobs s !! p = Some j ->
  function j = Some f ->
  functions s !! f = Some x ->
  wakeable (workers s) (cons s) (worker_list x) ->
  fifo s x (priority j) l ->
  forall con c, cons s !! con = Some c ->
    exists c' n,
      cons (queue_state env p f j x s) !! con = Some c' /\
      woken c c' n /\
      (queue_ret env x s = GEARMAN_SUCCESS -> needs_noop c = true ->
       (exists w wk, w ∈ worker_list x /\ workers s !! w = Some wk /\
                     worker_con wk = con) ->
       n <> 0%nat).
Proof.
  intros Hj Hf Hx Hwk Hfifo con c Hc.
  destruct (noop_cons_spec env (workers s) (worker_list x) (cons s) Hwk)
    as (_ & Hsome & _).
  destruct (Hsome con c Hc) as (c' & n & Hc' & Hwoken & Hn).
  exists c', n. split; [|done].
  unfold queue_state. by destruct (is_success _).
Qed.

Lemma job_same_refl j : job_same j j.
Proof. by repeat split. Qed.

Lemma job_same_trans j1 j2 j3 :
  job_same j1 j2 -> job_same j2 j3 -> job_same j1 j3.
Proof. unfold job_same. intuition congruence. Qed.

Lemma queue_link_lookup p prio x m q :
  queue_link p prio x m !! q = m !! q \/
  exists jq, m !! q = Some jq /\
    queue_link p prio x m !! q = Some (set_function_next (Some p) jq).
Proof.
  unfold queue_link. destruct (job_list x prio); [|by left].
  destruct (job_end x prio) as [e|]; [|by left].
  destruct (m !! e) as [je|] eqn:He; [|by left].
  destruct (decide (q = e)) as [->|Hne].
  - right. exists je. by rewrite lookup_insert_eq.
  - left. by rewrite lookup_insert_ne.
Qed.

Lemma queue_link_same p prio x m q jq :
  m !! q = Some jq ->
  exists jq', queue_link p prio x m !! q = Some jq' /\ job_same jq jq' /\
              worker jq' = worker jq /\ client_list jq' = client_list jq.
Proof.
  intros Hq. destruct (queue_link_lookup p prio x m q) as [E|(j0 & Hj0 & E)].
  - exists jq. by rewrite E.
  - assert (j0 = jq) as -> by congruence. eexists. split; [exact E|].
    by repeat split.
Qed.

Lemma client_added_lookup c p s q jq :
  jobs s !! q = Some jq ->
  exists jq', jobs (client_added c p s) !! q = Some jq' /\ job_same jq jq' /\
              worker jq' = worker jq /\
              (q <> p -> jq' = jq).
Proof.
  intros Hq. unfold client_added. destruct c as [c|]; [|by exists jq].
  destruct (clients s !! c); [|by exists jq].
  destruct (jobs s !! p) as [jp|] eqn:Hp; [|by exists jq]. fields.
  destruct (decide (q = p)) as [->|Hne].
  - rewrite lookup_insert_eq. assert (jp = jq) as -> by congruence.
    eexists. split; [done|]. by repeat split.
  - rewrite lookup_insert_ne by done. by exists jq.
Qed.

Lemma client_added_fields c p s :
  function_list (client_added c p s) = function_list s /\
  functions (client_added c p s) = functions s /\
  (forall k, job_hash (client_added c p s) k = job_hash s k) /\
  (forall k, unique_hash (client_added c p s) k = unique_hash s k) /\
  options (client_added c p s) = options s /\
  gearman (client_added c p s) = gearman s /\
  queue_log (client_added c p s) = queue_log s /\
  workers (client_added c p s) = workers s /\
  cons (client_added c p s) = cons s.
Proof.
  unfold client_added. destruct c as [c|]; [|done].
  destruct (clients s !! c); [|done]. by destruct (jobs s !! p).
Qed.

(** What a successful submission of a fresh job leaves. *)
Lemma job_added_success env fn fns u us d ds prio c f key p x sf p' s1 :
  job_added env fn fns u us d ds prio c f key p x sf
  = ((Some p', GEARMAN_SUCCESS), s1) ->
  let j := created_job env f key u us d ds prio sf in
  let s0 := created_state p f j x sf in
  p' = p /\
  (exists j1, jobs s1 !! p = Some j1 /\
     job_same (persisted_job c j s0) j1 /\ worker j1 = None) /\
  (forall q jq, q <> p -> jobs sf !! q = Some jq ->
     exists jq', jobs s1 !! q = Some jq' /\ job_same jq jq' /\
                 worker jq' = worker jq) /\
  function_list s1 = function_list sf /\
  (forall k, job_hash s1 k = job_hash s0 k) /\
  (forall k, unique_hash s1 k = unique_hash s0 k) /\
  options s1 = options sf /\ gearman s1 = gearman sf /\
  (exists x1, functions s1 !! f = Some x1 /\
     job_total x1 = wrap32 (job_total x + 1) /\
     max_queue_size x1 = max_queue_size x /\
     function_name x1 = function_name x /\
     function_name_size x1 = function_name_size x) /\
  (forall f', f' <> f -> functions s1 !! f' = functions sf !! f') /\
  (has_flag (options sf) GEARMAN_SERVER_QUEUE_REPLAY || negb (persists c sf)
   = true -> queue_log s1 = queue_log sf).
Proof.
  intros Hadd j s0. unfold job_added in Hadd. fold j s0 in Hadd.
  set (x1 := set_job_total (wrap32 (job_total x + 1)) x) in *.
  assert (Hj0 : jobs s0 !! p = Some j) by apply lookup_insert_eq.
  pose proof (persisted_cases fn fns us d ds prio c p f j x1 s0 Hj0) as Hcases.
  destruct (persisted fn fns us d ds prio c p f j x1 s0) as [[r|] s2]; [done|].
  destruct Hcases as (Hsim & Hj2 & Ef & Ew & Ec & Ecl & Eg & Eo & Hoth & Hlog).
  set (j2 := persisted_job c j s0) in *.
  unfold enqueued in Hadd.
  destruct (is_success (queue_ret env x1 s2)) eqn:Hr; [|done].
  injection Hadd as <- Hret <-. split; [done|].
  rewrite queue_state_success by done.
  set (s3 := queue_appended _ _ _ _ _).
  destruct (client_added_fields c p s3) as (F1 & F2 & F3 & F4 & F5 & F6 & F7 & _).
  assert (Hj3 : forall q jq, <[p := queue_reset j2]> (jobs s2) !! q = Some jq ->
    exists jq', jobs (client_added c p s3) !! q = Some jq' /\
                job_same jq jq' /\ worker jq' = worker jq).
  { intros q jq Hq.
    destruct (queue_link_same p (priority j2) (queue_release j2 x1) _ q jq Hq)
      as (jq1 & Hq1 & Hs1 & Hw1 & _).
    destruct (client_added_lookup c p s3 q jq1) as (jq2 & Hq2 & Hs2 & Hw2 & _).
    { unfold s3, queue_appended, queue_prepared. fields. exact Hq1. }
    exists jq2. split; [done|]. split; [by eapply job_same_trans|congruence]. }
  split.
  { destruct (Hj3 p (queue_reset j2)) as (j1 & Hj1 & Hs & Hw);
      [apply lookup_insert_eq|].
    exists j1. split; [done|]. split; [|by rewrite Hw].
    eapply job_same_trans; [|exact Hs].
    destruct (queue_reset_fields j2)
      as (E1 & E2 & E3 & E4 & E5 & E6 & E7 & E8 & E9 & E10 & E11).
    by repeat split. }
  split.
  { intros q jq Hne Hq. apply Hj3. rewrite lookup_insert_ne by done.
    rewrite Hoth by done. unfold s0, created_state. fields.
    by rewrite lookup_insert_ne. }
  rewrite F1, F2, F5, F6, F7.
  assert (G1 : function_list s3 = function_list s2) by done.
  assert (G2 : forall k, job_hash s3 k = job_hash s2 k) by done.
  assert (G3 : forall k, unique_hash s3 k = unique_hash s2 k) by done.
  assert (G4 : options s3 = options s2) by done.
  assert (G5 : gearman s3 = gearman s2) by done.
  split; [by rewrite G1, (sim_function_list _ _ Hsim)|].
  split; [intros k; rewrite F3, G2; apply (sim_job_hash _ _ Hsim)|].
  split; [intros k; rewrite F4, G3; apply (sim_unique_hash _ _ Hsim)|].
  split; [by rewrite G4, Eo|]. split; [by rewrite G5, Eg|].
  split.
  { eexists. unfold s3, queue_appended, queue_prepared. fields.
    split; [apply lookup_insert_eq|].
    unfold queue_append, queue_release.
    destruct (bool_decide _), (job_list _ _); by fields. }
  split.
  { intros f' Hne. unfold s3, queue_appended, queue_prepared. fields.
    rewrite !lookup_insert_ne by done. rewrite Ef.
    unfold s0, created_state. fields. by rewrite lookup_insert_ne. }
  intros Hrep. unfold s3, queue_appended, queue_prepared. fields.
  apply Hlog. unfold persists in *. by rewrite Eg in *.
Qed.

(** A submission that returns a job with [GEARMAN_SUCCESS] created it. *)
Lemma job_add_success env fn fns u us d ds prio c s p s1 :
  server_inv s ->
  job_add_args_ok s fn fns u us d ds prio c ->
  gearman_server_job_add env fn fns u us d ds prio c s
  = Some ((Some p, GEARMAN_SUCCESS), s1) ->
  exists f sf x key,
    gearman_server_function_get env fn fns s = Some (Some f, sf) /\
    server_inv sf /\ f ∈ function_list sf /\
    functions sf !! f = Some x /\
    job_add_lookup sf f u us d ds = Some (key, None) /\
    (us = 0%nat <-> key = None) /\
    queue_full x = false /\ job_slot env sf = Some p /\ ~ live sf p /\
    job_added env fn fns u us d ds prio c f key p x sf
    = ((Some p, GEARMAN_SUCCESS), s1) /\
    server_inv s1.
Proof.
  intros Hi Hargs Hrun.
  pose proof (job_add_inv _ _ _ _ _ _ _ _ _ _ _ _ Hi Hargs Hrun) as Hi1.
  destruct (job_add_cases env fn fns u us d ds prio c s Hi Hargs)
    as [(sf & Hget & E)|(f & sf & x & key & existing & Hget & Hif & Hfin &
                          Hx & Hlook & Hkey & Hrest)].
  { rewrite E in Hrun. done. }
  destruct existing as [p0|].
  { destruct Hrest as [_ E]. rewrite E in Hrun. done. }
  destruct (queue_full x) eqn:Hfull.
  { rewrite Hrest in Hrun. done. }
  destruct (job_slot env sf) as [p0|] eqn:Hslot.
  2:{ rewrite Hrest in Hrun. done. }
  rewrite Hrest in Hrun. injection Hrun as Hadd.
  destruct (job_added_success _ _ _ _ _ _ _ _ _ _ _ _ _ _ _ _ Hadd) as [<- _].
  exists f, sf, x, key. do 8 (split; [done|]).
  split; [by eapply job_slot_not_live|]. done.
Qed.

(** The invariant holds when no job was submitted yet. *)
Lemma server_inv_no_jobs s :
  (forall k, job_hash s k = []) ->
  (forall k, unique_hash s k = []) ->
  free_job_list s = [] ->
  free_job_count s = 0 ->
  (forall f, f ∈ function_list s ->
     exists x name,
       functions s !! f = Some x /\ function_name x = Some name /\
       (function_name_size x <= length name)%nat /\
       wakeable (workers s) (cons s) (worker_list x) /\
       (forall priority', job_list x priority' = None) /\
       job_count x = 0) ->
  (forall c con, cons s !! c = Some con ->
     forall w, w ∈ con_worker_list con ->
       exists wk, workers s !! w = Some wk /\
                  worker_function wk ∈ function_list s) ->
  server_inv s.
Proof.
  intros Hjh Huh Hfl Hfc Hfs Hcs.
  assert (Hnl : forall p, ~ live s p).
  { intros p [k Hk]. rewrite Hjh in Hk. by apply elem_of_nil in Hk. }
  constructor.
  - intros f Hf. destruct (Hfs f Hf) as (x & name & ? & ? & ? & _). eauto.
  - intros f x Hf Hx. destruct (Hfs f Hf) as (x' & name & Hx' & _ & _ & ? & _).
    by assert (x' = x) as -> by congruence.
  - done.
  - intros k p Hp. rewrite Hjh in Hp. by apply elem_of_nil in Hp.
  - intros k. rewrite Hjh. constructor.
  - intros k p. rewrite Huh. split.
    + by intros ?%elem_of_nil.
    + intros [Hl _]. by destruct (Hnl p).
  - intros k. rewrite Huh. constructor.
  - rewrite Hfl, Hfc. done.
  - rewrite Hfl. split; [constructor|]. by intros p ?%elem_of_nil.
  - intros p j Hl. by destruct (Hnl p).
  - intros f x Hf Hx. destruct (Hfs f Hf) as (x' & name & Hx' & _ & _ & _ & Hjl & Hc).
    assert (x' = x) as -> by congruence.
    exists (fun _ => []). split; [|done]. split; [|done].
    intros prio _. rewrite Hjl. split; [constructor|]. split; [done|].
    by intros p ?%elem_of_nil.
  - done.
Qed.

Lemma server_inv_new g options' : server_inv (new_server g options').
Proof.
  apply server_inv_no_jobs; try done.
  by intros f ?%elem_of_nil.
Qed.

Lemma server_inv_empty : server_inv empty_server.
Proof. apply server_inv_new. Qed.

(** C10: a submission without a unique ([unique_size == 0]) that creates a
    job never assigns the local [key]: the search of lines 66-92 leaves it
    unassigned, and the job's [unique_key], and with it the bucket of the
    unique table that gets the job, is whatever the uninitialised variable
    holds. *)
Theorem job_add_key_uninitialised env fn fns u d ds prio c s p s' :
  server_inv s ->
  job_add_args_ok s fn fns u 0 d ds prio c ->
  gearman_server_job_add env fn fns u 0 d ds prio c s
  = Some ((Some p, GEARMAN_SUCCESS), s') ->
  (forall sf f, job_add_lookup sf f u 0 d ds = Some (None, None)) /\
  exists j,
    jobs s' !! p = Some j /\
    unique_key j = read_key env None /\
    read_key env None = wrap32 (indeterminate env) /\
    p ∈ unique_hash s'
          (wrap32 (indeterminate env) mod GEARMAN_JOB_HASH_SIZE).
Proof.
  intros Hi Hargs Hrun. split; [done|].
  destruct (job_add_success _ _ _ _ _ _ _ _ _ _ _ _ Hi Hargs Hrun)
    as (f & sf & x & key & Hget & Hif & Hfin & Hx & Hlook & Hkey & Hfull &
        Hslot & Hnl & Hadd & Hi').
  assert (key = None) as -> by (by apply Hkey).
  destruct (job_added_success _ _ _ _ _ _ _ _ _ _ _ _ _ _ _ _ Hadd)
    as (_ & (j1 & Hj1 & Hsame & _) & _ & _ & Hjh & _).
  assert (Hk : unique_key j1 = wrap32 (indeterminate env)).
  { destruct Hsame as (_ & _ & _ & _ & _ & -> & _).
    unfold persisted_job. by destruct (_ || _). }
  exists j1. split; [done|]. split; [done|]. split; [done|].
  apply (inv_unique_hash _ _ Hi'). split.
  - exists (job_handle_key
              (created_job env f None u 0 d ds prio sf) mod GEARMAN_JOB_HASH_SIZE).
    rewrite Hjh. unfold created_state, GEARMAN_HASH_ADD. fields.
    rewrite Z.eqb_refl. apply list_elem_of_here.
  - exists j1. by rewrite Hk.
Qed.

Lemma job_add_key_uninitialised_witness :
  exists j,
    jobs (exec (submit [0] GEARMAN_JOB_PRIORITY_NORMAL None) empty_server)
      !! 0%nat = Some j /\
    unique_key j = read_key env_ok None /\
    read_key env_ok None = wrap32 (indeterminate env_ok) /\
    0%nat ∈ unique_hash
              (exec (submit [0] GEARMAN_JOB_PRIORITY_NORMAL None) empty_server)
              (wrap32 (indeterminate env_ok) mod GEARMAN_JOB_HASH_SIZE).
Proof.
  apply (job_add_key_uninitialised env_ok [102; 0] 1 [0] (Some [65]) 1
           GEARMAN_JOB_PRIORITY_NORMAL None empty_server).
  - apply server_inv_empty.
  - constructor; simpl; try done; try lia.
    intros _. exists [65]. split; [done|]. simpl. lia.
  - vm_compute. reflexivity.
Defined.

Lemma persisted_error fn fns us d ds prio c p f j x s :
  fst (persisted fn fns us d ds prio c p f j x s)
  = adapter_error fn fns (unique j) us d ds prio c s.
Proof.
  unfold persisted, adapter_error.
  destruct (has_flag _ _); [done|]. destruct c; [done|].
  destruct (queue_add_fn _); [|done]. destruct (is_success _); [|done].
  destruct (queue_flush_fn _); [|done]. by destruct (is_success _).
Qed.

Lemma adapter_error_failure fn fns u us d ds prio c s r :
  adapter_error fn fns u us d ds prio c s = Some r ->
  is_success r = false /\
  exists fn0 log,
    (queue_add_fn (gearman s) = Some fn0 \/
     queue_flush_fn (gearman s) = Some fn0) /\ r = fn0 log.
Proof.
  unfold adapter_error. destruct (has_flag _ _); [done|].
  destruct c; [done|]. destruct (queue_add_fn _) as [add_fn|]; [|done].
  destruct (is_success (add_fn _)) eqn:Ha.
  - destruct (queue_flush_fn _) as [flush_fn|]; [|done].
    destruct (is_success (flush_fn _)) eqn:Hf; [done|].
    intros [= <-]. split; [done|]. eauto.
  - intros [= <-]. split; [done|]. eauto.
Qed.

(** The return code of a submission that created its job. *)
Lemma job_added_ret env fn fns u us d ds prio c f key p x sf :
  let j := created_job env f key u us d ds prio sf in
  let s0 := created_state p f j x sf in
  let res := fst (job_added env fn fns u us d ds prio c f key p x sf) in
  match adapter_error fn fns (unique j) us d ds prio c s0 with
  | Some r => res = (None, r)
  | None =>
      snd res = fst (noop_cons env (workers sf) (worker_list x) (cons sf)) /\
      fst res = if is_success (snd res) then Some p else None
  end.
Proof.
  intros j s0. unfold job_added. fold j s0.
  set (x1 := set_job_total (wrap32 (job_total x + 1)) x).
  assert (Hj0 : jobs s0 !! p = Some j) by apply lookup_insert_eq.
  pose proof (persisted_cases fn fns us d ds prio c p f j x1 s0 Hj0) as Hcases.
  rewrite <- (persisted_error fn fns us d ds prio c p f j x1 s0).
  destruct (persisted fn fns us d ds prio c p f j x1 s0) as [[r|] s2]; [done|].
  destruct Hcases as (_ & _ & _ & Ew & Ec & _). simpl.
  unfold enqueued, queue_ret. rewrite Ew, Ec. fields.
  destruct (is_success (noop_cons env _ _ _).1) eqn:E; simpl;
    simpl in E; split; try done; by rewrite E.
Qed.

(** C6: [gearman_server_job_add] reports [GEARMAN_JOB_QUEUE_FULL] exactly
    when it found no duplicate and the function has a bound
    [max_queue_size > 0] that [job_total] has reached: it then returns
    NULL and creates nothing.  A function that the call itself creates has
    the bound 0, and a function with the bound 0 never refuses.  (The code
    [GEARMAN_JOB_QUEUE_FULL] is assumed not to come from the connection
    layer or the persistent queue.) *)
Theorem job_add_queue_full env fn fns u us d ds prio c s :
  server_inv s ->
  job_add_args_ok s fn fns u us d ds prio c ->
  (forall con, io_packet_add_ret env con <> GEARMAN_JOB_QUEUE_FULL) ->
  (forall fn0 log,
     queue_add_fn (gearman s) = Some fn0 \/
     queue_flush_fn (gearman s) = Some fn0 ->
     fn0 log <> GEARMAN_JOB_QUEUE_FULL) ->
  exists res r s',
    gearman_server_job_add env fn fns u us d ds prio c s
    = Some ((res, r), s') /\
    (r = GEARMAN_JOB_QUEUE_FULL <->
     exists f sf x key,
       gearman_server_function_get env fn fns s = Some (Some f, sf) /\
       functions sf !! f = Some x /\
       job_add_lookup sf f u us d ds = Some (key, None) /\
       0 < max_queue_size x <= job_total x) /\
    (r = GEARMAN_JOB_QUEUE_FULL ->
     res = None /\ jobs s' = jobs s /\ forall p, live s' p <-> live s p) /\
    (function_get_loop s (function_list s) fn fns = Some None ->
     r <> GEARMAN_JOB_QUEUE_FULL /\
     forall f sf x,
       gearman_server_function_get env fn fns s = Some (Some f, sf) ->
       functions sf !! f = Some x ->
       max_queue_size x = GEARMAN_DEFAULT_MAX_QUEUE_SIZE).
Proof.
  intros Hi Hargs Hio Hq.
  pose proof (args_function_name _ _ _ _ _ _ _ _ _ Hargs) as Hfn.
  destruct (job_add_cases env fn fns u us d ds prio c s Hi Hargs)
    as [(sf & Hget & E)|(f & sf & x & key & existing & Hget & Hif & Hfin &
                          Hx & Hlook & _ & Hrest)].
  { exists None, GEARMAN_MEMORY_ALLOCATION_FAILURE, sf. split; [done|].
    split; [|split; [done|]].
    - split; [done|]. intros (f & sf' & x & key & Hget' & _). congruence.
    - intros _. split; [done|]. intros f sf' x Hget'. congruence. }
  destruct (function_get_inv env None fn fns s _ _ Hi Hfn Hget)
    as (_ & _ & Hlive & Ejobs & _ & _ & _ & Eg).
  assert (Hnew : function_get_loop s (function_list s) fn fns = Some None ->
                 max_queue_size x = GEARMAN_DEFAULT_MAX_QUEUE_SIZE).
  { intros Hloop.
    destruct (function_get_cases env None fn fns s Hi Hfn)
      as [(f' & _ & Hloop' & _)|[[_ E]|(_ & _ & c0 & E)]]; [congruence| |congruence].
    rewrite E in Hget. injection Hget as <- <-.
    unfold function_added in Hx. fields. rewrite lookup_insert_eq in Hx.
    by injection Hx as <-. }
  assert (Hfull : queue_full x = true <-> 0 < max_queue_size x <= job_total x).
  { unfold queue_full. rewrite andb_true_iff, Z.ltb_lt, Z.leb_le. done. }
  assert (Hthird : forall r, (queue_full x = true -> r <> GEARMAN_JOB_QUEUE_FULL) ->
    r <> GEARMAN_JOB_QUEUE_FULL ->
    function_get_loop s (function_list s) fn fns = Some None ->
    r <> GEARMAN_JOB_QUEUE_FULL /\
    forall f0 sf0 x0,
      gearman_server_function_get env fn fns s = Some (Some f0, sf0) ->
      functions sf0 !! f0 = Some x0 ->
      max_queue_size x0 = GEARMAN_DEFAULT_MAX_QUEUE_SIZE).
  { intros r _ Hr Hloop. split; [done|]. intros f0 sf0 x0 Hget0 Hx0.
    rewrite Hget in Hget0. injection Hget0 as <- <-.
    assert (x0 = x) as -> by congruence. by apply Hnew. }
  assert (Hback : forall r, r <> GEARMAN_JOB_QUEUE_FULL ->
    (existing <> None \/ queue_full x = false) ->
    r = GEARMAN_JOB_QUEUE_FULL <->
    exists f0 sf0 x0 key0,
      gearman_server_function_get env fn fns s = Some (Some f0, sf0) /\
      functions sf0 !! f0 = Some x0 /\
      job_add_lookup sf0 f0 u us d ds = Some (key0, None) /\
      0 < max_queue_size x0 <= job_total x0).
  { intros r Hr Hno. split; [done|].
    intros (f0 & sf0 & x0 & key0 & Hget0 & Hx0 & Hlook0 & Hb).
    rewrite Hget in Hget0. injection Hget0 as <- <-.
    assert (x0 = x) as -> by congruence.
    destruct Hno as [Hno|Hno].
    - rewrite Hlook in Hlook0. injection Hlook0 as _ ->. done.
    - apply Hfull in Hb. congruence. }
  destruct existing as [p0|].
  { destruct Hrest as [_ E]. eexists _, _, _. split; [exact E|].
    split; [apply Hback; [done|by left]|]. split; [done|].
    by apply Hthird. }
  destruct (queue_full x) eqn:Hqf.
  { eexists _, _, _. split; [exact Hrest|]. split; [|split].
    - split; [|done]. intros _. exists f, sf, x, key.
      do 3 (split; [done|]). by apply Hfull.
    - intros _. split; [done|]. split; [done|]. exact Hlive.
    - intros Hloop. specialize (Hnew Hloop).
      unfold queue_full in Hqf. rewrite Hnew in Hqf. done. }
  destruct (job_slot env sf) as [p|] eqn:Hslot.
  2:{ eexists _, _, _. split; [exact Hrest|].
      split; [apply Hback; [done|by right]|]. split; [done|].
      by apply Hthird. }
  pose proof (job_added_ret env fn fns u us d ds prio c f key p x sf) as Hret.
  cbv zeta in Hret.
  destruct (job_added env fn fns u us d ds prio c f key p x sf)
    as [[res r] s'] eqn:Hadd.
  assert (Hr : r <> GEARMAN_JOB_QUEUE_FULL).
  { simpl in Hret.
    destruct (adapter_error _ _ _ _ _ _ _ _ _) as [r0|] eqn:Herr.
    - injection Hret as _ ->.
      destruct (adapter_error_failure _ _ _ _ _ _ _ _ _ _ Herr)
        as (_ & fn0 & log & Hfn0 & ->).
      apply Hq. by rewrite <- Eg.
    - destruct Hret as [-> _].
      destruct (noop_cons_spec env (workers sf) (worker_list x) (cons sf))
        as (_ & _ & [->|(w & wk & _ & _ & ->)] & _); [|done|apply Hio].
      by apply (inv_workers _ _ Hif f). }
  exists res, r, s'. split; [done|].
  split; [apply Hback; [done|by right]|]. split; [done|].
  by apply Hthird.
Qed.

Lemma server_inv_bounded : server_inv bounded_server.
Proof.
  apply server_inv_no_jobs; try done.
  intros f ->%list_elem_of_singleton. eexists _, _.
  split; [reflexivity|]. split; [reflexivity|]. simpl.
  split; [lia|]. split; [|done]. by intros w ?%elem_of_nil.
Qed.

Lemma submit_args_ok s u prio :
  (0 < length u)%nat -> last u = Some 0 -> prio <> GEARMAN_JOB_PRIORITY_MAX ->
  job_add_args_ok s [102; 0] 1 u (length u - 1) (Some [65]) 1 prio None.
Proof.
  intros Hlen Hlast Hprio. constructor; simpl; try done; try lia.
  - intros _. by apply last_Some_elem.
  - intros _. exists [65]. split; [done|]. simpl. lia.
Qed.

Lemma server_inv_exec env fn fns u us d ds prio c s :
  server_inv s ->
  job_add_args_ok s fn fns u us d ds prio c ->
  server_inv (exec (gearman_server_job_add env fn fns u us d ds prio c) s).
Proof.
  intros Hi Hargs.
  destruct (job_add_total env fn fns u us d ds prio c s Hi Hargs)
    as (r & s' & E & Hi').
  unfold exec. by rewrite E.
Qed.

Lemma job_add_queue_full_witness :
  (exists res r s',
     submit [50; 0] GEARMAN_JOB_PRIORITY_NORMAL None
       (exec (submit [49; 0] GEARMAN_JOB_PRIORITY_NORMAL None) bounded_server)
     = Some ((res, r), s') /\ r = GEARMAN_JOB_QUEUE_FULL /\ res = None) /\
  fst <$> submit [50; 0] GEARMAN_JOB_PRIORITY_NORMAL None
            (exec (submit [49; 0] GEARMAN_JOB_PRIORITY_NORMAL None)
               bounded_server)
  = Some (None, GEARMAN_JOB_QUEUE_FULL).
Proof.
  split; [|vm_compute; reflexivity].
  destruct (job_add_queue_full env_ok [102; 0] 1 [50; 0] 1 (Some [65]) 1
              GEARMAN_JOB_PRIORITY_NORMAL None
              (exec (submit [49; 0] GEARMAN_JOB_PRIORITY_NORMAL None)
                 bounded_server))
    as (res & r & s' & Hrun & Hiff & Hnull & _).
  - apply server_inv_exec; [apply server_inv_bounded|].
    apply (submit_args_ok _ [49; 0]); [simpl; lia|done|done].
  - apply (submit_args_ok _ [50; 0]); [simpl; lia|done|done].
  - done.
  - intros fn0 log [H|H]; vm_compute in H; discriminate.
  - exists res, r, s'. split; [exact Hrun|].
    assert (r = GEARMAN_JOB_QUEUE_FULL) as ->; [|by destruct Hnull].
    vm_compute in Hrun. by injection Hrun as _ <- _.
Defined.

Lemma hash_del_add h key p k :
  GEARMAN_HASH_DEL (GEARMAN_HASH_ADD h key p) key p k = h k.
Proof.
  unfold GEARMAN_HASH_DEL, GEARMAN_HASH_ADD.
  destruct (k =? key); [apply unlink_head|done].
Qed.

Lemma wrap32_add_sub z : wrap32 (wrap32 (z + 1) - 1) = wrap32 z.
Proof.
  unfold wrap32. rewrite Zminus_mod_idemp_l. f_equal. lia.
Qed.

(** Freeing the job just created undoes its creation. *)
Lemma free_created_rolled_back p f j jx x sf sx :
  ~ live sf p ->
  0 <= job_total x < 2 ^ 32 ->
  worker jx = None ->
  job_handle_key jx = job_handle_key j ->
  unique_key jx = unique_key j ->
  (forall k, job_hash sx k = job_hash (created_state p f j x sf) k) ->
  (forall k, unique_hash sx k = unique_hash (created_state p f j x sf) k) ->
  rolled_back sf
    (free_state p f jx (set_job_total (wrap32 (job_total x + 1)) x) sx)
    p f (job_total x).
Proof.
  intros Hnl Hrange Hw Hk1 Hk2 Hjh Huh.
  assert (H1 : forall k,
    job_hash (free_state p f jx (set_job_total (wrap32 (job_total x + 1)) x) sx) k
    = job_hash sf k).
  { intros k. unfold free_state. fields. unfold GEARMAN_HASH_DEL.
    rewrite Hjh, Hk1. apply (hash_del_add (job_hash sf)). }
  split; [done|]. split; [|split].
  - intros k. unfold free_state. fields. unfold GEARMAN_HASH_DEL.
    rewrite Huh, Hk2. apply (hash_del_add (unique_hash sf)).
  - eexists. unfold free_state. fields. split; [apply lookup_insert_eq|].
    unfold queue_release. rewrite Hw.
    rewrite bool_decide_false by (intros H; by apply H). fields.
    rewrite wrap32_add_sub. apply wrap32_small. lia.
  - intros [k Hk]. rewrite H1 in Hk. apply Hnl. by exists k.
Qed.

(** The state in which a submission that created its job and then failed
    returns. *)
Lemma job_added_failure env fn fns u us d ds prio c f key p x sf r s' :
  job_added env fn fns u us d ds prio c f key p x sf = ((None, r), s') ->
  ~ live sf p ->
  0 <= job_total x < 2 ^ 32 ->
  let j := created_job env f key u us d ds prio sf in
  rolled_back sf s' p f (job_total x) /\
  (adapter_error fn fns (unique j) us d ds prio c sf = None ->
   c = None ->
   forall done_fn, queue_done_fn (gearman sf) = Some done_fn ->
     head (queue_log s')
     = Some (QueueDone (unique j) us (function_name x)
               (function_name_size x))).
Proof.
  intros Hadd Hnl Hrange j. unfold job_added in Hadd. fold j in Hadd.
  set (s0 := created_state p f j x sf) in *.
  set (x1 := set_job_total (wrap32 (job_total x + 1)) x) in *.
  assert (Hj0 : jobs s0 !! p = Some j) by apply lookup_insert_eq.
  pose proof (persisted_cases fn fns us d ds prio c p f j x1 s0 Hj0) as Hcases.
  pose proof (persisted_error fn fns us d ds prio c p f j x1 s0) as Herr.
  change (adapter_error fn fns (unique j) us d ds prio c s0)
    with (adapter_error fn fns (unique j) us d ds prio c sf) in Herr.
  destruct (persisted fn fns us d ds prio c p f j x1 s0) as [[r0|] s2].
  - injection Hadd as <- <-.
    destruct Hcases as (_ & _ & _ & l & ->). split.
    + by apply (free_created_rolled_back p f j).
    + intros E. rewrite E in Herr. done.
  - destruct Hcases as (Hsim & Hj2 & Ef & Ew & Ec & Ecl & Eg & Eo & _).
    set (j2 := persisted_job c j s0) in *.
    unfold enqueued in Hadd.
    destruct (is_success (queue_ret env x1 s2)) eqn:Hr; [done|].
    injection Hadd as <- <-.
    rewrite queue_state_failure by done.
    assert (Hj2f : worker j2 = None /\ job_handle_key j2 = job_handle_key j /\
                   unique_key j2 = unique_key j /\ unique j2 = unique j).
    { unfold j2, persisted_job. by destruct (_ || _). }
    destruct Hj2f as (Hw & Hk1 & Hk2 & Hu).
    destruct (queue_reset_fields j2)
      as (_ & _ & E3 & _ & _ & _ & E7 & E8 & _).
    split.
    + apply (free_created_rolled_back p f j); try done; try congruence.
      * intros k. transitivity (job_hash s2 k);
          [|apply (sim_job_hash _ _ Hsim)].
        destruct c; [done|]. by destruct (queue_done_fn _).
      * intros k. transitivity (unique_hash s2 k);
          [|apply (sim_unique_hash _ _ Hsim)].
        destruct c; [done|]. by destruct (queue_done_fn _).
    + intros _ -> done_fn Hdone. rewrite Eg.
      change (gearman s0) with (gearman sf). rewrite Hdone.
      unfold free_state, logged. fields. by rewrite Hu.
Qed.

(** C5: a submission that creates its job and then fails in the
    persistent queue (its add or flush callback) or in
    [gearman_server_job_queue] returns NULL with the code of the failing
    call, and the creation is undone: both hash tables are as before, the
    function's [job_total] is restored and the job is not live; when the
    queueing fails and the job has no client, [queue_done] is invoked if
    it is installed. *)
Theorem job_add_failure_atomic env fn fns u us d ds prio c s f sf x key p :
  server_inv s ->
  job_add_args_ok s fn fns u us d ds prio c ->
  gearman_server_function_get env fn fns s = Some (Some f, sf) ->
  job_add_lookup sf f u us d ds = Some (key, None) ->
  functions sf !! f = Some x ->
  queue_full x = false ->
  job_slot env sf = Some p ->
  0 <= job_total x < 2 ^ 32 ->
  let unique' := snprintf_s GEARMAN_UNIQUE_SIZE us u in
  exists res r s',
    gearman_server_job_add env fn fns u us d ds prio c s
    = Some ((res, r), s') /\
    server_inv s' /\
    (res = None -> rolled_back sf s' p f (job_total x)) /\
    (forall r0,
       adapter_error fn fns unique' us d ds prio c sf = Some r0 ->
       res = None /\ r = r0 /\ is_success r0 = false) /\
    (adapter_error fn fns unique' us d ds prio c sf = None ->
     is_success (queue_ret env x sf) = false ->
     res = None /\ r = queue_ret env x sf /\
     (c = None ->
      forall done_fn, queue_done_fn (gearman sf) = Some done_fn ->
        head (queue_log s')
        = Some (QueueDone unique' us (function_name x)
                  (function_name_size x)))).
Proof.
  intros Hi Hargs Hget Hlook Hx Hfull Hslot Hrange unique'.
  destruct (job_add_fresh env fn fns u us d ds prio c s f sf key x p)
    as [Hrun Hinv]; try done.
  pose proof (args_function_name _ _ _ _ _ _ _ _ _ Hargs) as Hfn.
  destruct (function_get_inv env None fn fns s _ _ Hi Hfn Hget) as (Hif & _).
  assert (Hnl : ~ live sf p) by (by eapply job_slot_not_live).
  pose proof (job_added_ret env fn fns u us d ds prio c f key p x sf) as Hret.
  cbv zeta in Hret.
  change (adapter_error fn fns _ us d ds prio c (created_state _ _ _ _ _))
    with (adapter_error fn fns unique' us d ds prio c sf) in Hret.
  pose proof (job_added_failure env fn fns u us d ds prio c f key p x sf) as Hfail.
  destruct (job_added env fn fns u us d ds prio c f key p x sf)
    as [[res r] s'] eqn:Hadd.
  exists res, r, s'. split; [done|]. split; [done|]. simpl in Hret.
  split; [|split].
  - intros ->. by destruct (Hfail r s' eq_refl Hnl Hrange).
  - intros r0 Herr. rewrite Herr in Hret. injection Hret as -> ->.
    split; [done|]. split; [done|].
    by destruct (adapter_error_failure _ _ _ _ _ _ _ _ _ _ Herr).
  - intros Herr Hq. rewrite Herr in Hret. destruct Hret as [-> ->].
    unfold queue_ret in Hq. rewrite Hq in *. split; [done|]. split; [done|].
    destruct (Hfail _ _ eq_refl Hnl Hrange) as [_ Hdone]. by apply Hdone.
Qed.

Lemma job_add_failure_atomic_witness :
  exists s',
    submit [49; 0] GEARMAN_JOB_PRIORITY_NORMAL None
      (new_server failing_queue 0)
    = Some ((None, GEARMAN_QUEUE_ERROR), s') /\
    rolled_back
      (exec (gearman_server_function_get env_ok [102; 0] 1)
         (new_server failing_queue 0))
      s' 0%nat 0%nat 0.
Proof.
  destruct (job_add_failure_atomic env_ok [102; 0] 1 [49; 0] 1 (Some [65]) 1
              GEARMAN_JOB_PRIORITY_NORMAL None (new_server failing_queue 0)
              0%nat
              (exec (gearman_server_function_get env_ok [102; 0] 1)
                 (new_server failing_queue 0))
              (new_function [102; 0] 1) (Some (HashSpec.hash [49])) 0%nat)
    as (res & r & s' & Hrun & _ & Hback & Herr & _).
  - apply server_inv_new.
  - apply (submit_args_ok _ [49; 0]); [simpl; lia|done|done].
  - vm_compute. reflexivity.
  - vm_compute. reflexivity.
  - vm_compute. reflexivity.
  - reflexivity.
  - vm_compute. reflexivity.
  - simpl. lia.
  - destruct (Herr GEARMAN_QUEUE_ERROR) as (-> & -> & _);
      [vm_compute; reflexivity|].
    exists s'. split; [exact Hrun|]. by apply Hback.
Defined.


Lemma args_ok_no_client s fn fns u us d ds prio :
  (fns <= length fn)%nat -> (us <= length u)%nat ->
  (us <> 0%nat -> 0 ∈ u) -> data_ok d ds ->
  prio <> GEARMAN_JOB_PRIORITY_MAX ->
  job_add_args_ok s fn fns u us d ds prio None.
Proof. intros. by constructor. Qed.

Lemma data_ok_byte b : data_ok (Some [b]) 1.
Proof. intros _. exists [b]. split; [done|]. simpl. lia. Qed.

(** *** One submission in replay mode that creates no job *)









(** C1 (as the code has it): [gearman_server_job_queue] returns, and for
    every worker of the job's function whose connection sleeps and has no
    NOOP pending ([noop_queued] not set) it has appended a NOOP packet to
    that connection and set its [noop_queued], when it returns success; a
    connection that neither sleeps nor has [noop_queued] set is left as it
    is; only NOOP packets are appended. *)
Theorem job_queue_wakes_sleeping env p s j f x l w wk c :
  jobs s !! p = Some j ->
  function j = Some f ->
  functions s !! f = Some x ->
  wakeable (workers s) (cons s) (worker_list x) ->
  fifo s x (priority j) l ->
  w ∈ worker_list x ->
  workers s !! w = Some wk ->
  cons s !! worker_con wk = Some c ->
  exists r s' c' n,
    gearman_server_job_queue env p s = Some (r, s') /\
    cons s' !! worker_con wk = Some c' /\
    io_packet_list c' = io_packet_list c ++ repeat noop_packet n /\
    (sleeping c = false -> noop_queued c = false -> c' = c) /\
    (r = GEARMAN_SUCCESS -> sleeping c = true -> noop_queued c = false ->
     n <> 0%nat /\ noop_queued c' = true).
Proof.
  intros Hj Hf Hx Hwk Hfifo Hw Hwk0 Hc.
  destruct (job_queue_noop env p s j f x l Hj Hf Hx Hwk Hfifo _ c Hc)
    as (c' & n & Hc' & (_ & _ & Hio & Hzero & Hset & Hskip) & Hn).
  exists (queue_ret env x s), (queue_state env p f j x s), c', n.
  split.
  { apply job_queue_run; try done; [by destruct Hfifo|by eapply fifo_tail]. }
  split; [done|]. split; [done|]. split.
  - intros Hs Hq. apply Hzero, Hskip. unfold needs_noop.
    unfold sleeping in Hs. by rewrite Hq, Hs.
  - intros Hr Hs _.
    assert (n <> 0%nat).
    { apply Hn; [done| |by exists w, wk]. unfold needs_noop.
      unfold sleeping in Hs. rewrite Hs. apply orb_true_r. }
    split; [done|]. by apply Hset.
Qed.

(** C2 (as the code has it): [gearman_server_job_queue] on a job that has
    a worker returns, clears the job's worker and decrements the
    function's [job_running]; when it returns success the job is the last
    of its priority's list, after the jobs that were there. *)
Theorem job_requeue_tail env p s j w f x l :
  jobs s !! p = Some j ->
  worker j = Some w ->
  function j = Some f ->
  functions s !! f = Some x ->
  wakeable (workers s) (cons s) (worker_list x) ->
  fifo s x (priority j) l ->
  p ∉ l ->
  exists r s' j' x',
    gearman_server_job_queue env p s = Some (r, s') /\
    jobs s' !! p = Some j' /\
    worker j' = None /\ priority j' = priority j /\
    functions s' !! f = Some x' /\
    job_running x' = wrap32 (job_running x - 1) /\
    (r = GEARMAN_SUCCESS ->
     fifo s' x' (priority j) (l ++ [p]) /\
     job_count x' = wrap32 (job_count x + 1)).
Proof.
  intros Hj Hw Hf Hx Hwk Hfifo Hnotin.
  destruct (job_queue_fifo env p s j f x l Hj Hf Hx Hwk Hfifo Hnotin)
    as (Hrun & Hp & Hfail & Hok); [left; by rewrite Hw|].
  assert (Hrel : job_running (queue_release j x) = wrap32 (job_running x - 1)).
  { unfold queue_release. rewrite Hw. by rewrite bool_decide_true. }
  destruct (queue_reset_fields j) as (_ & E2 & E3 & _).
  destruct (is_success (queue_ret env x s)) eqn:Hr.
  - destruct (Hok eq_refl) as [Hx' Hfifo'].
    eexists _, _, _, _. split; [exact Hrun|]. split; [exact Hp|].
    split; [done|]. split; [done|]. split; [exact Hx'|]. split.
    + unfold queue_append. by destruct (job_list _ _).
    + intros _. split; [done|]. unfold queue_append. fields.
      by rewrite queue_release_job_count.
  - eexists _, _, _, _. split; [exact Hrun|]. split; [exact Hp|].
    split; [done|]. split; [done|]. split; [by apply Hfail|].
    split; [done|]. intros E. apply is_success_true in E. congruence.
Qed.

(** C7: [gearman_server_job_take] goes to the first worker of the
    connection whose function has [job_count != 0] and returns the head of
    that function's first list that is not empty, in the order HIGH,
    NORMAL, LOW, leaving the other jobs in their order; and
    [gearman_server_job_queue] puts a job behind the jobs of its priority.
    So the jobs of a function leave in the order of their priorities and,
    within a priority, in the order in which they were queued. *)
Theorem dispatch_order env fuel con s c l1 w l2 wk x qh qn ql :
  cons s !! con = Some c ->
  con_worker_list c = l1 ++ w :: l2 ->
  (forall w', w' ∈ l1 -> idle s w') ->
  workers s !! w = Some wk ->
  functions s !! worker_function wk = Some x ->
  job_count x <> 0 ->
  wakeable (workers s) (cons s) (worker_list x) ->
  fifo s x GEARMAN_JOB_PRIORITY_HIGH qh ->
  fifo s x GEARMAN_JOB_PRIORITY_NORMAL qn ->
  fifo s x GEARMAN_JOB_PRIORITY_LOW ql ->
  (forall p rest j,
     qh ++ qn ++ ql = p :: rest ->
     jobs s !! p = Some j ->
     function j = Some (worker_function wk) ->
     has_flag (job_options j) GEARMAN_SERVER_JOB_IGNORE = false ->
     exists s' x' qh' qn' ql',
       gearman_server_job_take (S fuel) con s = Some (Some p, s') /\
       functions s' !! worker_function wk = Some x' /\
       fifo s' x' GEARMAN_JOB_PRIORITY_HIGH qh' /\
       fifo s' x' GEARMAN_JOB_PRIORITY_NORMAL qn' /\
       fifo s' x' GEARMAN_JOB_PRIORITY_LOW ql' /\
       qh' ++ qn' ++ ql' = rest) /\
  (forall p j l,
     jobs s !! p = Some j ->
     function j = Some (worker_function wk) ->
     fifo s x (priority j) l ->
     p ∉ l ->
     worker j <> None \/ function_next j = None ->
     exists r s',
       gearman_server_job_queue env p s = Some (r, s') /\
       (r = GEARMAN_SUCCESS ->
        exists x', functions s' !! worker_function wk = Some x' /\
                   fifo s' x' (priority j) (l ++ [p]))).
Proof.
  intros Hc El Hidle Hwk Hx Hcount Hwake Hh Hn Hl. split.
  - intros p rest j Eq Hj Hjf Hign.
    destruct (job_take_fifo fuel con s c l1 w l2 wk x qh qn ql p rest j)
      as (Hrun & qh' & qn' & ql' & Hrest); try done.
    eexists _, _, qh', qn', ql'. split; [exact Hrun|].
    split; [apply lookup_insert_eq|done].
  - intros p j l Hj Hjf Hfifo Hnotin Hnext.
    destruct (job_queue_fifo env p s j _ x l Hj Hjf Hx Hwake Hfifo Hnotin Hnext)
      as (Hrun & _ & _ & Hok).
    eexists _, _. split; [exact Hrun|]. intros E.
    apply is_success_true in E. destruct (Hok E) as [Hx' Hfifo'].
    eexists. split; [exact Hx'|exact Hfifo'].
Qed.

Lemma wakeableb_sound wks cs l : wakeableb wks cs l = true -> wakeable wks cs l.
Proof.
  unfold wakeableb. rewrite forallb_forall. intros H w Hw.
  apply list_elem_of_In in Hw. specialize (H w Hw).
  destruct (wks !! w) as [wk|]; [|done].
  destruct (cs !! worker_con wk) as [c|] eqn:Hc; [|done]. eauto.
Qed.

Lemma fifo_check s x prio l n :
  prio <> GEARMAN_JOB_PRIORITY_MAX ->
  chain_list n (jobs s) (job_list x prio) = Some l ->
  l = [] \/ job_end x prio = last l ->
  fifo s x prio l.
Proof.
  intros Hprio Hc He. split; [done|]. split; [by eapply chain_list_sound|].
  intros e Hlast. destruct He as [E | E]; rewrite E in *; done.
Qed.

Lemma job_queue_wakes_sleeping_witness :
  exists s' c',
    gearman_server_job_queue env_ok 0%nat (asleep_server)
    = Some (GEARMAN_SUCCESS, s') /\
    cons s' !! 0%nat = Some c' /\
    io_packet_list c' <> [] /\ noop_queued c' = true.
Proof.
  destruct (job_queue_wakes_sleeping env_ok 0%nat (asleep_server)
              (job_at (asleep_server) 0%nat) 0%nat
              (function_at (asleep_server) 0%nat) [1%nat] 0%nat
              (worker_at (asleep_server) 0%nat)
              (con_at (asleep_server) 0%nat))
    as (r & s' & c' & n & Hrun & Hc' & Hio & _ & Hwoken).
  - vm_compute. reflexivity.
  - vm_compute. reflexivity.
  - vm_compute. reflexivity.
  - apply wakeableb_sound. vm_compute. reflexivity.
  - apply (fifo_check _ _ _ _ 2); [vm_compute; done|vm_compute; reflexivity|].
    right. vm_compute. reflexivity.
  - vm_compute. apply list_elem_of_here.
  - vm_compute. reflexivity.
  - vm_compute. reflexivity.
  - assert (r = GEARMAN_SUCCESS) as ->.
    { vm_compute in Hrun. injection Hrun as Hr _. by rewrite <- Hr. }
    destruct Hwoken as [Hn Hq];
      [reflexivity|vm_compute; reflexivity|vm_compute; reflexivity|].
    exists s', c'. split; [exact Hrun|]. split; [exact Hc'|].
    split; [|exact Hq]. rewrite Hio. clear -Hn.
    generalize (io_packet_list (con_at (asleep_server) 0%nat)).
    intros l0. destruct n; [done|]. by destruct l0.
Defined.

Lemma awake_worker_gets_no_noop :
  match gearman_server_job_queue env_ok 0%nat (running_server awake_con) with
  | Some (r, s') =>
      r = GEARMAN_SUCCESS /\
      worker_list (function_at s' 0%nat) = [0%nat] /\
      worker_con (worker_at s' 0%nat) = 0%nat /\
      noop_queued awake_con = false /\
      sleeping awake_con = false /\
      cons (running_server awake_con) !! 0%nat = Some awake_con /\
      cons s' !! 0%nat = Some awake_con /\
      io_packet_list awake_con = []
  | None => False
  end.
Proof. vm_compute. repeat split. Qed.

Lemma job_requeue_tail_witness :
  exists s' x',
    gearman_server_job_queue env_ok 0%nat (running_server awake_con)
    = Some (GEARMAN_SUCCESS, s') /\
    functions s' !! 0%nat = Some x' /\
    fifo s' x' GEARMAN_JOB_PRIORITY_NORMAL [1%nat; 0%nat].
Proof.
  destruct (job_requeue_tail env_ok 0%nat (running_server awake_con)
              (job_at (running_server awake_con) 0%nat) 0%nat 0%nat
              (function_at (running_server awake_con) 0%nat) [1%nat])
    as (r & s' & j' & x' & Hrun & _ & _ & _ & Hx' & _ & Hok).
  - vm_compute. reflexivity.
  - vm_compute. reflexivity.
  - vm_compute. reflexivity.
  - vm_compute. reflexivity.
  - apply wakeableb_sound. vm_compute. reflexivity.
  - apply (fifo_check _ _ _ _ 2); [vm_compute; done|vm_compute; reflexivity|].
    right. vm_compute. reflexivity.
  - intros [?|?%elem_of_nil]%elem_of_cons; done.
  - assert (r = GEARMAN_SUCCESS) as ->.
    { vm_compute in Hrun. injection Hrun as Hr _. by rewrite <- Hr. }
    exists s', x'. split; [exact Hrun|]. split; [exact Hx'|].
    by destruct (Hok eq_refl).
Defined.

Lemma requeue_not_at_head :
  match gearman_server_job_queue env_ok 0%nat (running_server awake_con) with
  | Some (r, s') =>
      r = GEARMAN_SUCCESS /\
      worker (job_at (running_server awake_con) 0%nat) = Some 0%nat /\
      priority (job_at (running_server awake_con) 0%nat)
      = GEARMAN_JOB_PRIORITY_NORMAL /\
      job_list (function_at s' 0%nat) GEARMAN_JOB_PRIORITY_NORMAL
      = Some 1%nat /\
      chain_list 3 (jobs s')
        (job_list (function_at s' 0%nat) GEARMAN_JOB_PRIORITY_NORMAL)
      = Some [1%nat; 0%nat]
  | None => False
  end.
Proof. vm_compute. repeat split. Qed.

Lemma dispatch_order_witness :
  (exists s',
     gearman_server_job_take 1 0%nat (three_jobs awake_con)
     = Some (Some 2%nat, s')) /\
  priority (job_at (three_jobs awake_con) 2%nat) = GEARMAN_JOB_PRIORITY_HIGH /\
  fst <$> gearman_server_job_take 1 0%nat
            (exec (gearman_server_job_take 1 0%nat) (three_jobs awake_con))
  = Some (Some 1%nat) /\
  priority (job_at (three_jobs awake_con) 1%nat) = GEARMAN_JOB_PRIORITY_NORMAL.
Proof.
  split; [|vm_compute; repeat split].
  destruct (dispatch_order env_ok 0 0%nat (three_jobs awake_con)
              (con_at (three_jobs awake_con) 0%nat) [] 0%nat []
              (worker_at (three_jobs awake_con) 0%nat)
              (function_at (three_jobs awake_con) 0%nat)
              [2%nat] [1%nat] [0%nat]) as [Htake _].
  - vm_compute. reflexivity.
  - vm_compute. reflexivity.
  - by intros w' ?%elem_of_nil.
  - vm_compute. reflexivity.
  - vm_compute. reflexivity.
  - vm_compute. done.
  - apply wakeableb_sound. vm_compute. reflexivity.
  - apply (fifo_check _ _ _ _ 2); [vm_compute; done|vm_compute; reflexivity|].
    right. vm_compute. reflexivity.
  - apply (fifo_check _ _ _ _ 2); [vm_compute; done|vm_compute; reflexivity|].
    right. vm_compute. reflexivity.
  - apply (fifo_check _ _ _ _ 2); [vm_compute; done|vm_compute; reflexivity|].
    right. vm_compute. reflexivity.
  - destruct (Htake 2%nat [1%nat; 0%nat] (job_at (three_jobs awake_con) 2%nat))
      as (s' & x' & qh' & qn' & ql' & Hrun & _).
    + reflexivity.
    + vm_compute. reflexivity.
    + vm_compute. reflexivity.
    + vm_compute. reflexivity.
    + by exists s'.
Defined.

Lemma server_inv_job_states s : server_inv s -> job_states s.
Proof.
  intros Hi p j Hl Hj.
  destruct (inv_live _ _ Hi p j Hl Hj) as (f & Hf & Hfl & Hprio & _ & _ & Hw).
  assert (Hon : forall f' prio', on_list s p f' prio' ->
    f' = f /\ prio' = priority j /\ worker j = None).
  { intros f' prio' (Hfl' & l & (x & Hx & Hp' & Hc) & Hin).
    destruct (inv_queues _ _ Hi f' x Hfl' Hx) as (q & [Hq _] & _).
    destruct (Hq prio' Hp') as (Hc' & _ & Hall).
    pose proof (chain_det _ _ _ _ Hc Hc') as ->.
    destruct (Hall p Hin) as (_ & j0 & Hj0 & E1 & E2 & E3).
    assert (j0 = j) as -> by congruence.
    split; [congruence|]. split; [done|done]. }
  split.
  - intros Hnone. rewrite Hnone in Hw. rewrite decide_False in Hw by done.
    destruct Hw as (l & Hq & Hin).
    exists f, (priority j). split; [split; eauto|].
    intros f' prio' Hon'. by destruct (Hon f' prio' Hon') as (? & ? & _).
  - intros Hsome f' prio' Hon'. by destruct (Hon f' prio' Hon') as (_ & _ & ?).
Qed.

Lemma broker_step_inv env s s' :
  server_inv s -> broker_step env s s' -> server_inv s'.
Proof.
  intros Hi Hstep.
  destruct Hstep as [s s' fn fns u us d ds prio c r Hargs Hrun
                    |s s' p j Hl Hj Hw Hrun
                    |s s' fuel con r Hrun
                    |s s' fuel con r Hrun
                    |s s' p j Hl Hj Hw Hrun].
  - by eapply job_add_inv.
  - destruct (job_queue_total env None s p j Hi) as (f & x & _ & _ & _ & E & Hq);
      [by right|done|done|].
    rewrite E in Hrun. injection Hrun as Hr <-. by rewrite Hr in Hq.
  - by destruct (job_peek_inv _ _ _ _ _ Hi Hrun).
  - by destruct (job_take_inv _ _ _ _ _ Hi Hrun).
  - destruct (job_free_total None s p j Hi) as (f & x & _ & _ & _ & E & Hq);
      [by right|done|done|].
    rewrite E in Hrun. by injection Hrun as <-.
Qed.

(** C3 (as the code has it): the operations of the job store keep the
    broker's invariant, and with it the state of every live job: a job
    without a worker is on exactly one priority list, of its function and
    at its priority, and a job with a worker is on none; the IGNORE flag
    does not take a job off its list. *)
Theorem job_states_invariant env s s' :
  server_inv s ->
  broker_step env s s' ->
  server_inv s' /\ job_states s'.
Proof.
  intros Hi Hstep.
  pose proof (broker_step_inv env s s' Hi Hstep) as Hi'.
  split; [done|]. by apply server_inv_job_states.
Qed.

Lemma job_states_invariant_witness :
  server_inv submitted_server /\ job_states submitted_server.
Proof.
  apply (job_states_invariant env_ok empty_server submitted_server).
  - apply server_inv_empty.
  - apply (step_job_add env_ok empty_server submitted_server [102; 0] 1
             [49; 0] 1 (Some [65]) 1 GEARMAN_JOB_PRIORITY_NORMAL None
             (Some 0%nat, GEARMAN_SUCCESS)).
    + apply args_ok_no_client.
      * simpl. lia.
      * simpl. lia.
      * intros _. apply list_elem_of_further, list_elem_of_here.
      * apply data_ok_byte.
      * done.
    + vm_compute. reflexivity.
Defined.

Lemma ignored_job_stays_queued :
  head (job_hash ignored_server
          (job_handle_key (job_at ignored_server 0%nat)
             mod GEARMAN_JOB_HASH_SIZE)) = Some 0%nat /\
  worker (job_at ignored_server 0%nat) = None /\
  has_flag (job_options (job_at ignored_server 0%nat))
    GEARMAN_SERVER_JOB_IGNORE = true /\
  function_list ignored_server = [0%nat] /\
  chain_list 3 (jobs ignored_server)
    (job_list (function_at ignored_server 0%nat) GEARMAN_JOB_PRIORITY_NORMAL)
  = Some [0%nat; 1%nat] /\
  chain_list 3 (jobs ignored_server)
    (job_list (function_at ignored_server 0%nat) GEARMAN_JOB_PRIORITY_HIGH)
  = Some [] /\
  chain_list 3 (jobs ignored_server)
    (job_list (function_at ignored_server 0%nat) GEARMAN_JOB_PRIORITY_LOW)
  = Some [].
Proof. vm_compute. repeat split. Qed.

(** *** Strings *)

Lemma strcmp_c_str u : 0 ∈ u -> strcmp_eq (c_str u) u = Some true.
Proof.
  induction u as [|c u IH]; intros Hin; [by apply elem_of_nil in Hin|].
  simpl. destruct (Z.eqb_spec c 0) as [->|Hne]; [done|].
  simpl. destruct (Z.eqb_spec c 0) as [|_]; [done|].
  rewrite Z.eqb_refl. apply IH.
  apply elem_of_cons in Hin as [E|]; [congruence|done].
Qed.

Lemma c_str_firstn u : c_str (firstn (length (c_str u)) u) = c_str u.
Proof.
  induction u as [|c u IH]; [done|]. simpl.
  destruct (c =? 0) eqn:E; [done|]. simpl. by rewrite E, IH.
Qed.

Lemma snprintf_s_c_str size u :
  (length (c_str u) < size)%nat ->
  snprintf_s size (length (c_str u)) u = c_str u.
Proof.
  intros Hlt. unfold snprintf_s. rewrite c_str_firstn.
  apply firstn_all2. lia.
Qed.

(** *** The function is found again *)

Lemma function_get_loop_ext s s' name size l :
  (forall f, f ∈ l ->
     exists x x', functions s !! f = Some x /\ functions s' !! f = Some x' /\
       function_name x' = function_name x /\
       function_name_size x' = function_name_size x) ->
  function_get_loop s' l name size = function_get_loop s l name size.
Proof.
  induction l as [|f l IH]; intros Hall; [done|]. simpl.
  destruct (Hall f (list_elem_of_here _ _)) as (x & x' & -> & -> & -> & ->).
  rewrite IH; [done|]. intros f' Hf'. apply Hall. by apply list_elem_of_further.
Qed.

Lemma function_get_again env name size s f sf x :
  server_inv s ->
  (size <= length name)%nat ->
  gearman_server_function_get env name size s = Some (Some f, sf) ->
  functions sf !! f = Some x ->
  function_get_loop sf (function_list sf) name size = Some (Some f) /\
  job_total x = match functions s !! f with
                | Some x0 => job_total x0
                | None => 0
                end.
Proof.
  intros Hi Hsz Hget Hx.
  destruct (function_get_cases env None name size s Hi Hsz)
    as [(f' & _ & Hloop & E)|[[_ E]|(_ & _ & c0 & E)]];
    rewrite E in Hget; [| |done].
  - injection Hget as <- <-. split; [done|]. by rewrite Hx.
  - injection Hget as <- <-. rewrite fresh_function.
    unfold function_added in *. fields. rewrite lookup_insert_eq in Hx.
    injection Hx as <-. split; [|done]. simpl. rewrite lookup_insert_eq.
    unfold new_function. fields. rewrite decide_True by done.
    unfold memcmp_eq, read_bytes.
    rewrite length_app, length_firstn. simpl.
    destruct (Nat.leb_spec size (size `min` length name + 1)); [|lia].
    destruct (Nat.leb_spec size (length name)); [|lia].
    rewrite firstn_app, firstn_firstn, Nat.min_id, length_firstn.
    replace (size - size `min` length name)%nat with 0%nat by lia.
    simpl. rewrite app_nil_r. by rewrite bool_decide_true.
Qed.

Lemma job_add_lookup_key pending sf f u us d ds key existing :
  server_inv_upto pending sf ->
  (us <= length u)%nat ->
  us <> 0%nat ->
  data_ok d ds ->
  job_add_lookup sf f u us d ds = Some (key, existing) ->
  (~ dash u us ->
   key = Some (HashSpec.hash (firstn us u)) /\
   _server_job_get_unique sf (HashSpec.hash (firstn us u)) f u 0
   = Some existing) /\
  (dash u us -> ds <> 0%nat ->
   exists d0, d = Some d0 /\ (ds <= length d0)%nat /\
     key = Some (HashSpec.hash (firstn ds d0)) /\
     _server_job_get_unique sf (HashSpec.hash (firstn ds d0)) f d0 ds
     = Some existing).
Proof.
  intros Hi Hu Hne Hd Hlook. unfold job_add_lookup in Hlook.
  rewrite decide_False in Hlook by done. unfold dash. split.
  - intros Hnd.
    assert (Hdash : (if decide (us = 1%nat) then
                       match head u with
                       | Some c => Some (c =? 45)
                       | None => None
                       end
                     else Some false) = Some false
                    \/ head u = None).
    { destruct (decide (us = 1%nat)); [|by left].
      destruct (head u) as [c|] eqn:Hh; [|by right].
      left. f_equal. apply Z.eqb_neq. intros ->. by apply Hnd. }
    destruct Hdash as [E|E].
    + rewrite E in Hlook. rewrite server_job_hash_run in Hlook by done.
      destruct (_server_job_get_unique _ _ _ _ _) as [r|]; [|done].
      by injection Hlook as <- <-.
    + destruct u; [simpl in Hu; lia|done].
  - intros [-> Hh] Hds. rewrite decide_True in Hlook by done.
    rewrite Hh in Hlook. simpl in Hlook.
    rewrite decide_False in Hlook by done.
    destruct (Hd Hds) as (d0 & -> & Hlen). exists d0.
    rewrite server_job_hash_run in Hlook by done.
    destruct (_server_job_get_unique _ _ _ _ _) as [r|]; [|done].
    by injection Hlook as <- <-.
Qed.

Lemma c_str_firstn_le n u :
  (length (c_str u) <= n)%nat -> c_str (firstn n u) = c_str u.
Proof.
  revert n. induction u as [|c u IH]; intros n Hn; [by destruct n|].
  simpl in *. destruct (c =? 0) eqn:E.
  - destruct n; [done|]. simpl. by rewrite E.
  - simpl in Hn. destruct n; [lia|]. simpl. rewrite E, IH; [done|lia].
Qed.

Lemma memcmp_eq_refl d n :
  (n <= length d)%nat -> memcmp_eq d d n = Some true.
Proof.
  intros Hn. unfold memcmp_eq, read_bytes.
  destruct (Nat.leb_spec n (length d)); [|lia]. by rewrite bool_decide_true.
Qed.

(** C4: a second submission made directly after one that created a job,
    with the same function name and the same unique, finds that job: the
    call returns it with [GEARMAN_JOB_EXISTS], no function changes, so the
    total was incremented by the first call only, and the handle is the
    same.  The unique is a string shorter than [GEARMAN_UNIQUE_SIZE] that
    [unique_size] covers, or it is ["-"] and both calls carry the same
    non-empty data. *)
Theorem job_add_twice env fn fns u us d ds prio c d2 ds2 prio2 c2 s p s1 :
  server_inv s ->
  job_add_args_ok s fn fns u us d ds prio c ->
  gearman_server_job_add env fn fns u us d ds prio c s
  = Some ((Some p, GEARMAN_SUCCESS), s1) ->
  job_add_args_ok s1 fn fns u us d2 ds2 prio2 c2 ->
  us <> 0%nat ->
  (if decide (dash u us) then ds <> 0%nat /\ d2 = d /\ ds2 = ds
   else (length (c_str u) <= us)%nat /\
        (length (c_str u) < GEARMAN_UNIQUE_SIZE)%nat) ->
  exists s2 f j1 j2 x1,
    gearman_server_job_add env fn fns u us d2 ds2 prio2 c2 s1
    = Some ((Some p, GEARMAN_JOB_EXISTS), s2) /\
    jobs s1 !! p = Some j1 /\ jobs s2 !! p = Some j2 /\
    job_handle j2 = job_handle j1 /\
    function j1 = Some f /\
    functions s1 !! f = Some x1 /\
    job_total x1 = wrap32 (total_of s f + 1) /\
    functions s2 = functions s1 /\
    job_handle_count s2 = job_handle_count s1.
Proof.
  intros Hi Hargs Hrun Hargs2 Hus Hsame.
  destruct (job_add_success _ _ _ _ _ _ _ _ _ _ _ _ Hi Hargs Hrun)
    as (f & sf & x & key & Hget & Hif & Hfin & Hx & Hlook & Hkey & Hfull &
        Hslot & Hnl & Hadd & Hi1).
  destruct (job_added_success _ _ _ _ _ _ _ _ _ _ _ _ _ _ _ _ Hadd)
    as (_ & (j1 & Hj1 & Hs1 & Hw1) & Hoth & Hfl & Hjh & Huh & _ & _ &
        (x1 & Hx1 & Ht1 & _ & Hn1 & Hz1) & Hfo & _).
  destruct (function_get_again env fn fns s f sf x Hi
              (args_function_name _ _ _ _ _ _ _ _ _ Hargs) Hget Hx)
    as [Hloop Htot].
  assert (Hget2 : gearman_server_function_get env fn fns s1 = Some (Some f, s1)).
  { apply function_get_found. rewrite Hfl, <- Hloop.
    apply function_get_loop_ext. intros f' Hf'.
    destruct (inv_function_list _ _ Hif f' Hf') as (x' & name & Hx' & _).
    destruct (decide (f' = f)) as [->|Hne].
    - exists x, x1. rewrite Hx in Hx'. by injection Hx' as <-.
    - exists x', x'. by rewrite Hfo. }
  set (j := created_job env f key u us d ds prio sf) in *.
  set (s0 := created_state p f j x sf) in *.
  assert (Hjs : unique j1 = unique j /\ unique_key j1 = unique_key j /\
                data j1 = data j /\ data_size j1 = data_size j /\
                function j1 = function j /\
                job_handle j1 = job_handle (persisted_job c j s0)).
  { destruct Hs1 as (E1 & E2 & _ & _ & _ & E6 & E7 & E8 & E9).
    unfold persisted_job in *.
    destruct (_ || _); repeat split; done. }
  destruct Hjs as (Eu & Ek & Ed & Eds & Ef & _).
  pose proof (job_add_lookup_key _ sf f u us d ds key None Hif
                (args_unique _ _ _ _ _ _ _ _ _ Hargs) Hus
                (args_data _ _ _ _ _ _ _ _ _ Hargs) Hlook) as [Hnd Hd].
  assert (Hlook2 : exists key2,
             job_add_lookup s1 f u us d2 ds2 = Some (key2, Some p)).
  { unfold job_add_lookup. rewrite decide_False by done.
    destruct (decide (dash u us)) as [Hdash|Hdash].
    - destruct Hsame as (Hds & -> & ->).
      destruct (Hd Hdash Hds) as (d0 & -> & Hlen & -> & _).
      destruct Hdash as [-> Hh]. rewrite decide_True by done.
      rewrite Hh. simpl. rewrite decide_False by done.
      rewrite server_job_hash_run by done.
      unfold _server_job_get_unique. rewrite Huh.
      unfold s0 at 1, created_state, GEARMAN_HASH_ADD. fields.
      rewrite Z.eqb_refl. simpl. rewrite Hj1.
      rewrite decide_False by done.
      rewrite Ef, Ek, Eds, Ed. unfold j at 1 2 3 4. simpl.
      rewrite bool_decide_true by done. rewrite Z.eqb_refl.
      rewrite bool_decide_true by done. simpl.
      rewrite memcmp_eq_refl by done. by eexists.
    - destruct Hsame as [Hle Hlt].
      destruct (Hnd Hdash) as [-> _].
      assert (Hd' : (if decide (us = 1%nat) then
                       match head u with
                       | Some c => Some (c =? 45)
                       | None => None
                       end
                     else Some false) = Some false).
      { destruct (decide (us = 1%nat)) as [E|]; [|done].
        destruct (head u) as [c0|] eqn:Hh.
        - f_equal. apply Z.eqb_neq. intros ->. by apply Hdash.
        - pose proof (args_unique _ _ _ _ _ _ _ _ _ Hargs).
          destruct u; [simpl in *; lia|done]. }
      rewrite Hd'.
      rewrite server_job_hash_run
        by apply (args_unique _ _ _ _ _ _ _ _ _ Hargs).
      unfold _server_job_get_unique. rewrite Huh.
      unfold s0 at 1, created_state, GEARMAN_HASH_ADD. fields.
      rewrite Z.eqb_refl. simpl. rewrite Hj1.
      rewrite Ef, Ek, Eu. unfold j at 1 2 3. simpl.
      rewrite bool_decide_true by done. rewrite Z.eqb_refl. simpl.
      unfold snprintf_s. rewrite c_str_firstn_le by done.
      rewrite firstn_all2 by (unfold GEARMAN_UNIQUE_SIZE in *; lia).
      rewrite strcmp_c_str
        by apply (args_unique_nul _ _ _ _ _ _ _ _ _ Hargs Hus).
      by eexists. }
  destruct Hlook2 as [key2 Hlook2].
  eexists (client_added c2 p s1), f, j1.
  destruct (client_added_lookup c2 p s1 p j1 Hj1) as (j2 & Hj2 & Hs2 & _).
  destruct (client_added_fields c2 p s1) as (_ & F2 & _).
  exists j2, x1. split.
  { eapply job_add_exists; [exact Hget2|exact Hlook2|].
    intros c' ->.
    destruct (args_client _ _ _ _ _ _ _ _ _ Hargs2 c' eq_refl)
      as (cl & Hcl & _).
    split; by eexists. }
  split; [done|]. split; [done|]. split; [apply Hs2|].
  split; [by rewrite Ef|]. split; [done|].
  split; [by rewrite Ht1, Htot|]. split; [done|].
  unfold client_added. destruct c2 as [c2'|]; [|done].
  destruct (clients s1 !! c2'); [|done]. by destruct (jobs s1 !! p).
Qed.

Lemma job_add_twice_witness :
  (exists s2 f j1 j2 x1,
     submit [49; 0] GEARMAN_JOB_PRIORITY_HIGH None
       (exec (submit [49; 0] GEARMAN_JOB_PRIORITY_NORMAL None) empty_server)
     = Some ((Some 0%nat, GEARMAN_JOB_EXISTS), s2) /\
     jobs (exec (submit [49; 0] GEARMAN_JOB_PRIORITY_NORMAL None) empty_server)
       !! 0%nat = Some j1 /\
     jobs s2 !! 0%nat = Some j2 /\
     job_handle j2 = job_handle j1 /\
     function j1 = Some f /\
     functions
       (exec (submit [49; 0] GEARMAN_JOB_PRIORITY_NORMAL None) empty_server)
       !! f = Some x1 /\
     job_total x1 = wrap32 (total_of empty_server f + 1) /\
     functions s2
     = functions
         (exec (submit [49; 0] GEARMAN_JOB_PRIORITY_NORMAL None) empty_server) /\
     job_handle_count s2
     = job_handle_count
         (exec (submit [49; 0] GEARMAN_JOB_PRIORITY_NORMAL None) empty_server)) /\
  (exists s2 f j1 j2 x1,
     submit [45; 0] GEARMAN_JOB_PRIORITY_HIGH None
       (exec (submit [45; 0] GEARMAN_JOB_PRIORITY_NORMAL None) empty_server)
     = Some ((Some 0%nat, GEARMAN_JOB_EXISTS), s2) /\
     jobs (exec (submit [45; 0] GEARMAN_JOB_PRIORITY_NORMAL None) empty_server)
       !! 0%nat = Some j1 /\
     jobs s2 !! 0%nat = Some j2 /\
     job_handle j2 = job_handle j1 /\
     function j1 = Some f /\
     functions
       (exec (submit [45; 0] GEARMAN_JOB_PRIORITY_NORMAL None) empty_server)
       !! f = Some x1 /\
     job_total x1 = wrap32 (total_of empty_server f + 1) /\
     functions s2
     = functions
         (exec (submit [45; 0] GEARMAN_JOB_PRIORITY_NORMAL None) empty_server) /\
     job_handle_count s2
     = job_handle_count
         (exec (submit [45; 0] GEARMAN_JOB_PRIORITY_NORMAL None) empty_server)).
Proof.
  split.
  - apply (job_add_twice env_ok [102; 0] 1 [49; 0] 1 (Some [65]) 1
             GEARMAN_JOB_PRIORITY_NORMAL None (Some [65]) 1
             GEARMAN_JOB_PRIORITY_HIGH None empty_server 0%nat
             (exec (submit [49; 0] GEARMAN_JOB_PRIORITY_NORMAL None)
                empty_server)).
    + apply server_inv_empty.
    + apply (submit_args_ok empty_server [49; 0]); [simpl; lia|reflexivity|].
      intros E; discriminate E.
    + vm_compute. reflexivity.
    + apply (submit_args_ok _ [49; 0]); [simpl; lia|reflexivity|].
      intros E; discriminate E.
    + intros E; discriminate E.
    + vm_compute. split; lia.
  - apply (job_add_twice env_ok [102; 0] 1 [45; 0] 1 (Some [65]) 1
             GEARMAN_JOB_PRIORITY_NORMAL None (Some [65]) 1
             GEARMAN_JOB_PRIORITY_HIGH None empty_server 0%nat
             (exec (submit [45; 0] GEARMAN_JOB_PRIORITY_NORMAL None)
                empty_server)).
    + apply server_inv_empty.
    + apply (submit_args_ok empty_server [45; 0]); [simpl; lia|reflexivity|].
      intros E; discriminate E.
    + vm_compute. reflexivity.
    + apply (submit_args_ok _ [45; 0]); [simpl; lia|reflexivity|].
      intros E; discriminate E.
    + intros E; discriminate E.
    + vm_compute. repeat split. intros E; discriminate E.
Defined.

Lemma long_unique_not_deduplicated :
  match submit long_unique GEARMAN_JOB_PRIORITY_NORMAL None empty_server with
  | Some ((Some p, r), s1) =>
      r = GEARMAN_SUCCESS /\ total_f s1 = Some 1 /\
      match submit long_unique GEARMAN_JOB_PRIORITY_NORMAL None s1 with
      | Some ((Some p', r'), s2) =>
          p' <> p /\ r' = GEARMAN_SUCCESS /\ total_f s2 = Some 2
      | _ => False
      end
  | _ => False
  end.
Proof. vm_compute. repeat split. intros E; discriminate E. Qed.

(** *** C strings *)

Lemma strcmp_eq_spec a b :
  0 ∈ b -> strcmp_eq a b = Some (bool_decide (c_str a = c_str b)).
Proof.
  revert a. induction b as [|c b IH]; intros a Hin.
  { by apply elem_of_nil in Hin. }
  destruct a as [|x a]; simpl.
  - destruct (Z.eqb_spec c 0) as [->|Hc]; [done|].
    by rewrite bool_decide_false.
  - destruct (Z.eqb_spec x 0) as [->|Hx].
    + destruct (Z.eqb_spec c 0) as [->|Hc]; [done|].
      by rewrite bool_decide_false.
    + destruct (Z.eqb_spec x c) as [->|Hxc].
      * destruct (Z.eqb_spec c 0) as [->|_]; [done|].
        rewrite IH.
        -- f_equal. apply bool_decide_ext. split; [congruence|].
           intros E. by injection E.
        -- apply elem_of_cons in Hin as [E|]; [congruence|done].
      * destruct (Z.eqb_spec c 0) as [->|_].
        -- by rewrite bool_decide_false.
        -- rewrite bool_decide_false; [done|]. intros E. by injection E.
Qed.

Lemma c_str_nul_free l : 0 ∉ c_str l.
Proof.
  induction l as [|c l IH]; simpl; [apply not_elem_of_nil|].
  destruct (Z.eqb_spec c 0) as [->|Hc]; [apply not_elem_of_nil|].
  apply not_elem_of_cons. split; [congruence|done].
Qed.

Lemma c_str_id l : 0 ∉ l -> c_str l = l.
Proof.
  induction l as [|c l IH]; intros Hl; [done|]. simpl.
  apply not_elem_of_cons in Hl as [Hc Hl].
  destruct (Z.eqb_spec c 0) as [->|_]; [done|]. by rewrite IH.
Qed.

Lemma c_str_app_nul l rest : 0 ∉ l -> c_str (l ++ 0 :: rest) = l.
Proof.
  induction l as [|c l IH]; intros Hl; [done|]. simpl.
  apply not_elem_of_cons in Hl as [Hc Hl].
  destruct (Z.eqb_spec c 0) as [->|_]; [done|]. by rewrite IH.
Qed.

Lemma firstn_c_str l : firstn (length (c_str l)) l = c_str l.
Proof.
  induction l as [|c l IH]; [done|]. simpl.
  destruct (c =? 0); [done|]. simpl. by rewrite IH.
Qed.

Lemma uint_chars_nul_free d : 0 ∉ uint_chars d.
Proof.
  induction d; simpl; [apply not_elem_of_nil|..];
    (apply not_elem_of_cons; split; [lia|done]).
Qed.

Lemma snprintf_handle_nul_free size prefix count :
  0 ∉ snprintf_handle size prefix count.
Proof.
  unfold snprintf_handle. intros Hin.
  apply elem_of_take in Hin as (i & Hin & _).
  apply list_elem_of_lookup_2 in Hin.
  apply elem_of_app in Hin as [Hin|Hin].
  - by apply c_str_nul_free in Hin.
  - apply elem_of_cons in Hin as [Hin|Hin]; [lia|].
    by apply uint_chars_nul_free in Hin.
Qed.

(** *** [gearman_server_job_get] *)

Lemma job_get_loop_spec s key h : forall bucket,
  (forall p, p ∈ bucket -> is_Some (jobs s !! p)) ->
  0 ∈ h ->
  exists r,
    job_get_loop s bucket key h = Some r /\
    (forall p, r = Some p ->
       p ∈ bucket /\
       exists j, jobs s !! p = Some j /\ job_handle_key j = key /\
                 c_str (job_handle j) = c_str h) /\
    (r = None ->
     forall p j, p ∈ bucket -> jobs s !! p = Some j ->
       job_handle_key j = key -> c_str (job_handle j) <> c_str h).
Proof.
  induction bucket as [|q bucket IH]; intros Hall Hh; simpl.
  { exists None. split; [done|]. split; [done|].
    intros _ p j Hp. by apply elem_of_nil in Hp. }
  destruct (Hall q (list_elem_of_here _ _)) as [jq Hq]. rewrite Hq.
  destruct IH as (r & Hr & Hsome & Hnone); [|done|].
  { intros p Hp. apply Hall. by apply list_elem_of_further. }
  destruct (Z.eqb_spec (job_handle_key jq) key) as [Hk|Hk].
  - rewrite strcmp_eq_spec by done.
    destruct (decide (c_str (job_handle jq) = c_str h)) as [E|E].
    + rewrite bool_decide_true by done. exists (Some q).
      split; [done|]. split; [|done].
      intros p [= <-]. split; [apply list_elem_of_here|]. by exists jq.
    + rewrite bool_decide_false by done. exists r. split; [done|]. split.
      * intros p Hp. destruct (Hsome p Hp) as [Hin Hj].
        split; [by apply list_elem_of_further|done].
      * intros -> p j Hp Hj Hkey.
        apply elem_of_cons in Hp as [->|Hp]; [congruence|].
        by apply (Hnone eq_refl p j).
  - exists r. split; [done|]. split.
    + intros p Hp. destruct (Hsome p Hp) as [Hin Hj].
      split; [by apply list_elem_of_further|done].
    + intros -> p j Hp Hj Hkey.
      apply elem_of_cons in Hp as [->|Hp]; [congruence|].
      by apply (Hnone eq_refl p j).
Qed.

Lemma job_get_run s h :
  0 ∈ h ->
  gearman_server_job_get s h
  = job_get_loop s
      (job_hash s (HashSpec.hash (c_str h) mod GEARMAN_JOB_HASH_SIZE))
      (HashSpec.hash (c_str h)) h.
Proof.
  intros Hh. unfold gearman_server_job_get.
  rewrite strcmp_eq_spec by done.
  rewrite server_job_hash_run.
  - by rewrite firstn_c_str.
  - clear Hh. induction h as [|c h IH]; [done|]. simpl.
    destruct (c =? 0); simpl; lia.
Qed.

(** X1: [gearman_server_job_get] is defined on every string; it returns only a
    live job whose handle is this string and whose key is the hash of it, and
    it returns NULL only when no live job with that key has this handle. *)
Theorem job_get_sound s h :
  server_inv s ->
  0 ∈ h ->
  exists r,
    gearman_server_job_get s h = Some r /\
    (forall p, r = Some p ->
       live s p /\
       exists j, jobs s !! p = Some j /\
                 job_handle_key j = HashSpec.hash (c_str h) /\
                 c_str (job_handle j) = c_str h) /\
    (r = None ->
     forall p j, live s p -> jobs s !! p = Some j ->
       job_handle_key j = HashSpec.hash (c_str h) ->
       c_str (job_handle j) <> c_str h).
Proof.
  intros Hi Hh. rewrite job_get_run by done.
  set (key := HashSpec.hash (c_str h)).
  destruct (job_get_loop_spec s key h
              (job_hash s (key mod GEARMAN_JOB_HASH_SIZE)))
    as (r & Hr & Hsome & Hnone); [|done|].
  { intros p Hp. destruct (inv_job_hash _ _ Hi _ _ Hp) as (j & Hj & _).
    by exists j. }
  exists r. split; [done|]. split.
  - intros p Hp. destruct (Hsome p Hp) as [Hin Hj].
    split; [by eexists|done].
  - intros Hn p j [k Hk] Hj Hkey.
    apply (Hnone Hn p j); [|done..].
    destruct (inv_job_hash _ _ Hi _ _ Hk) as (j' & Hj' & ->).
    assert (j' = j) as -> by congruence. by rewrite Hkey in Hk.
Qed.

Lemma server_inv_submitted : server_inv submitted_server.
Proof.
  apply server_inv_exec; [apply server_inv_empty|].
  apply (submit_args_ok empty_server [49; 0]); [simpl; lia|reflexivity|].
  intros E; discriminate E.
Qed.

Lemma job_get_sound_witness :
  exists r,
    gearman_server_job_get submitted_server [72; 58; 115; 58; 49; 0] = Some r /\
    forall p, r = Some p -> live submitted_server p.
Proof.
  destruct (job_get_sound submitted_server [72; 58; 115; 58; 49; 0])
    as (r & Hr & Hsome & _).
  - apply server_inv_submitted.
  - vm_compute. do 5 apply list_elem_of_further. apply list_elem_of_here.
  - exists r. split; [exact Hr|]. intros p Hp. by destruct (Hsome p Hp).
Defined.

Lemma client_added_scalars c p s :
  job_handle_prefix (client_added c p s) = job_handle_prefix s /\
  job_handle_count (client_added c p s) = job_handle_count s /\
  function_count (client_added c p s) = function_count s /\
  free_job_list (client_added c p s) = free_job_list s /\
  free_job_count (client_added c p s) = free_job_count s.
Proof.
  unfold client_added. destruct c as [c|]; [|done].
  destruct (clients s !! c); [|done]. by destruct (jobs s !! p).
Qed.

Lemma queue_state_scalars env p f j x s :
  job_handle_prefix (queue_state env p f j x s) = job_handle_prefix s /\
  job_handle_count (queue_state env p f j x s) = job_handle_count s /\
  function_count (queue_state env p f j x s) = function_count s /\
  function_list (queue_state env p f j x s) = function_list s /\
  free_job_list (queue_state env p f j x s) = free_job_list s /\
  free_job_count (queue_state env p f j x s) = free_job_count s /\
  workers (queue_state env p f j x s) = workers s /\
  clients (queue_state env p f j x s) = clients s /\
  queue_log (queue_state env p f j x s) = queue_log s /\
  (forall k, job_hash (queue_state env p f j x s) k = job_hash s k) /\
  (forall k, unique_hash (queue_state env p f j x s) k = unique_hash s k).
Proof. unfold queue_state. by destruct (is_success _). Qed.

Lemma persisted_scalars fn fns us d ds prio c p f j x s r s' :
  persisted fn fns us d ds prio c p f j x s = (r, s') ->
  job_handle_prefix s' = job_handle_prefix s /\
  job_handle_count s' = job_handle_count s /\
  function_count s' = function_count s /\
  function_list s' = function_list s.
Proof.
  unfold persisted, logged, free_state. intros H.
  repeat case_match; injection H as <- <-; done.
Qed.

Lemma job_added_scalars env fn fns u us d ds prio c f key p x sf res s1 :
  job_added env fn fns u us d ds prio c f key p x sf = (res, s1) ->
  job_handle_prefix s1 = job_handle_prefix sf /\
  job_handle_count s1 = wrap32 (job_handle_count sf + 1) /\
  function_count s1 = function_count sf /\
  function_list s1 = function_list sf.
Proof.
  unfold job_added. intros H.
  destruct (persisted _ _ _ _ _ _ _ _ _ _ _ _) as [[r|] s2] eqn:Hp;
    apply persisted_scalars in Hp as (P1 & P2 & P3 & P4); fields.
  { injection H as <- <-. done. }
  unfold enqueued in H.
  match type of H with
  | context [queue_state ?e ?p ?f ?j ?x ?s] =>
      destruct (queue_state_scalars e p f j x s)
        as (Q1 & Q2 & Q3 & Q4 & _);
      set (sq := queue_state e p f j x s) in *
  end.
  destruct (is_success _).
  - injection H as <- <-.
    destruct (client_added_scalars c p sq) as (C1 & C2 & C3 & _).
    destruct (client_added_fields c p sq) as (C4 & _).
    rewrite C1, C2, C3, C4, Q1, Q2, Q3, Q4, P1, P2, P3, P4. done.
  - injection H as <- <-. unfold free_state, logged. fields.
    destruct c; [|destruct (queue_done_fn _)]; fields;
      rewrite ?Q1, ?Q2, ?Q3, ?Q4, ?P1, ?P2, ?P3, ?P4; done.
Qed.

Lemma function_get_scalars env name size s r sf :
  server_inv s ->
  (size <= length name)%nat ->
  gearman_server_function_get env name size s = Some (r, sf) ->
  job_handle_prefix sf = job_handle_prefix s /\
  job_handle_count sf = job_handle_count s /\
  free_job_list sf = free_job_list s /\
  free_job_count sf = free_job_count s /\
  jobs sf = jobs s /\ clients sf = clients s /\ workers sf = workers s /\
  cons sf = cons s /\ queue_log sf = queue_log s /\
  (forall k, job_hash sf k = job_hash s k) /\
  (forall k, unique_hash sf k = unique_hash s k).
Proof.
  intros Hi Hsz Hget.
  destruct (function_get_cases env None name size s Hi Hsz)
    as [(f' & _ & _ & E)|[[_ E]|(_ & _ & c0 & E)]];
    rewrite E in Hget; injection Hget as <- <-; done.
Qed.

(** X2: a job that [gearman_server_job_add] created has the handle that the
    prefix and the handle counter of the server give, the counter is then one
    more, and [gearman_server_job_get] finds the job by that handle. *)
Theorem job_add_get env fn fns u us d ds prio c s p s1 :
  server_inv s ->
  job_add_args_ok s fn fns u us d ds prio c ->
  gearman_server_job_add env fn fns u us d ds prio c s
  = Some ((Some p, GEARMAN_SUCCESS), s1) ->
  exists j,
    jobs s1 !! p = Some j /\
    job_handle j
    = snprintf_handle GEARMAN_JOB_HANDLE_SIZE (job_handle_prefix s)
        (job_handle_count s) /\
    job_handle_count s1 = wrap32 (job_handle_count s + 1) /\
    forall rest, gearman_server_job_get s1 (job_handle j ++ 0 :: rest)
                 = Some (Some p).
Proof.
  intros Hi Hargs Hrun.
  destruct (job_add_success _ _ _ _ _ _ _ _ _ _ _ _ Hi Hargs Hrun)
    as (f & sf & x & key & Hget & Hif & Hfin & Hx & Hlook & Hkey & Hfull &
        Hslot & Hnl & Hadd & Hi1).
  destruct (job_added_success _ _ _ _ _ _ _ _ _ _ _ _ _ _ _ _ Hadd)
    as (_ & (j1 & Hj1 & Hs1 & Hw1) & Hoth & Hfl & Hjh & Huh & _ & _ & _).
  set (j := created_job env f key u us d ds prio sf) in *.
  set (s0 := created_state p f j x sf) in *.
  assert (Hh : job_handle j1 = job_handle j /\
               job_handle_key j1 = job_handle_key j).
  { destruct Hs1 as (E1 & _ & _ & _ & E5 & _).
    unfold persisted_job in *. by destruct (_ || _). }
  destruct Hh as [Eh Ek]. exists j1. split; [done|].
  destruct (function_get_scalars env fn fns s _ sf Hi
              (args_function_name _ _ _ _ _ _ _ _ _ Hargs) Hget)
    as (G1 & G2 & _).
  destruct (job_added_scalars _ _ _ _ _ _ _ _ _ _ _ _ _ _ _ _ Hadd)
    as (A1 & A2 & _).
  split; [by rewrite Eh; unfold j; simpl; rewrite G1, G2|].
  split; [by rewrite A2, G2|].
  intros rest.
  pose proof (snprintf_handle_nul_free GEARMAN_JOB_HANDLE_SIZE
                (job_handle_prefix sf) (job_handle_count sf)) as Hnf.
  assert (Hj : job_handle j
               = snprintf_handle GEARMAN_JOB_HANDLE_SIZE
                   (job_handle_prefix sf) (job_handle_count sf)) by done.
  rewrite <- Hj, <- Eh in Hnf.
  rewrite job_get_run by (apply elem_of_app; right; apply list_elem_of_here).
  rewrite c_str_app_nul by done.
  assert (Hkey1 : job_handle_key j1 = HashSpec.hash (job_handle j1)).
  { rewrite Ek, Eh. done. }
  rewrite <- Hkey1, Hjh.
  unfold s0 at 1, created_state, GEARMAN_HASH_ADD. fields.
  rewrite <- Ek, Z.eqb_refl. simpl. rewrite Hj1, Z.eqb_refl.
  rewrite strcmp_eq_spec by (apply elem_of_app; right; apply list_elem_of_here).
  rewrite c_str_app_nul by done. rewrite c_str_id by done.
  by rewrite bool_decide_true.
Qed.

Lemma job_add_get_witness :
  gearman_server_job_get submitted_server [72; 58; 115; 58; 49; 0]
  = Some (Some 0%nat).
Proof.
  destruct (job_add_get env_ok [102; 0] 1 [49; 0] 1 (Some [65]) 1
              GEARMAN_JOB_PRIORITY_NORMAL None empty_server 0%nat
              submitted_server)
    as (j & Hj & Hh & _ & Hget).
  - apply server_inv_empty.
  - apply (submit_args_ok empty_server [49; 0]); [simpl; lia|reflexivity|].
    intros E; discriminate E.
  - vm_compute. reflexivity.
  - etransitivity; [|exact (Hget [])]. rewrite Hh. vm_compute. reflexivity.
Defined.

(** *** Scenarios with a worker *)

Lemma server_inv_worker_server c :
  con_worker_list c = [0%nat] -> server_inv (worker_server c).
Proof.
  intros Hc. apply server_inv_no_jobs; try done.
  - intros f ->%list_elem_of_singleton.
    exists (function_f 0 [0%nat]), [102; 0].
    split; [reflexivity|]. split; [reflexivity|]. simpl.
    split; [lia|]. split; [|done].
    intros w ->%list_elem_of_singleton.
    eexists _, c. split; reflexivity.
  - intros c0 con Hcon w Hw. unfold worker_server in Hcon. simpl in Hcon.
    apply lookup_singleton_Some in Hcon as [<- <-].
    rewrite Hc in Hw. apply list_elem_of_singleton in Hw as ->.
    eexists. split; [reflexivity|]. apply list_elem_of_here.
Qed.

Lemma server_inv_exec_take fuel con s :
  server_inv s -> server_inv (exec (gearman_server_job_take fuel con) s).
Proof.
  intros Hi. unfold exec.
  destruct (gearman_server_job_take fuel con s) as [[r s']|] eqn:E; [|done].
  by destruct (job_take_inv fuel con s r s' Hi E).
Qed.

Lemma server_inv_running_server c :
  con_worker_list c = [0%nat] -> server_inv (running_server c).
Proof.
  intros Hc. unfold running_server.
  apply server_inv_exec.
  - apply server_inv_exec_take, server_inv_exec.
    + by apply server_inv_worker_server.
    + apply (submit_args_ok _ [49; 0]); [simpl; lia|reflexivity|].
      intros E; discriminate E.
  - apply (submit_args_ok _ [50; 0]); [simpl; lia|reflexivity|].
    intros E; discriminate E.
Qed.

(** *** [gearman_server_function_get] *)

Lemma function_get_loop_found s name size : forall l f,
  function_get_loop s l name size = Some (Some f) ->
  f ∈ l /\
  exists x n, functions s !! f = Some x /\ function_name_size x = size /\
              function_name x = Some n /\
              (size <= length n)%nat /\
              firstn size n = firstn size name.
Proof.
  induction l as [|g l IH]; intros f H; [done|]. simpl in H.
  destruct (functions s !! g) as [x|] eqn:Hx; [|done].
  destruct (decide (function_name_size x = size)) as [Hs|Hs].
  - destruct (function_name x) as [n|] eqn:Hn; [|done].
    unfold memcmp_eq, read_bytes in H.
    destruct (Nat.leb_spec size (length n)); [|done].
    destruct (Nat.leb_spec size (length name)); [|done].
    destruct (decide (firstn size n = firstn size name)) as [E|E].
    + rewrite bool_decide_true in H by done. injection H as <-.
      split; [apply list_elem_of_here|]. by exists x, n.
    + rewrite bool_decide_false in H by done.
      destruct (IH f H) as [Hin Hf].
      split; [by apply list_elem_of_further|done].
  - destruct (IH f H) as [Hin Hf].
    split; [by apply list_elem_of_further|done].
Qed.

(** X3: the function that [gearman_server_function_get] returns is on the list
    and has the requested name; a second call returns it again and changes
    nothing, whatever the allocator does; the first call either found it, and
    changed nothing, or created it with no jobs and no bound on its queue. *)
Theorem function_get_stable env env' name size s f s1 :
  server_inv s ->
  (size <= length name)%nat ->
  gearman_server_function_get env name size s = Some (Some f, s1) ->
  gearman_server_function_get env' name size s1 = Some (Some f, s1) /\
  f ∈ function_list s1 /\
  exists x n,
    functions s1 !! f = Some x /\ function_name_size x = size /\
    function_name x = Some n /\ firstn size n = firstn size name /\
    (s1 = s \/
     ((f ∉ function_list s) /\ function_list s1 = f :: function_list s /\
      function_count s1 = wrap32 (function_count s + 1) /\
      n = firstn size name ++ [0] /\
      max_queue_size x = 0 /\ job_total x = 0 /\ job_count x = 0 /\
      worker_list x = [])).
Proof.
  intros Hi Hsz Hget.
  destruct (function_get_inv env None name size s _ s1 Hi Hsz Hget)
    as (Hi1 & Hin & _).
  destruct (inv_function_list _ _ Hi1 f (Hin f eq_refl)) as (x & n & Hx & Hn & _).
  destruct (function_get_again env name size s f s1 x Hi Hsz Hget Hx)
    as [Hloop _].
  split; [by apply function_get_found|]. split; [by apply Hin|].
  destruct (function_get_loop_found s1 name size _ f Hloop)
    as (_ & x' & n' & Hx' & Hs' & Hn' & _ & Hfirst).
  exists x', n'. do 4 (split; [done|]).
  destruct (function_get_cases env None name size s Hi Hsz)
    as [(f' & _ & _ & E)|[[Hnone E]|(_ & _ & c0 & E)]];
    rewrite E in Hget; [| |done].
  - left. by injection Hget as _ <-.
  - right. injection Hget as <- <-.
    unfold function_added in *. simpl in *.
    rewrite lookup_insert_eq in Hx'. injection Hx' as <-.
    simpl in Hn'. injection Hn' as <-.
    split; [|done]. intros Hf.
    destruct (inv_function_list _ _ Hi _ Hf) as (x0 & _ & Hx0 & _).
    by rewrite fresh_function in Hx0.
Qed.

Lemma function_get_stable_witness :
  gearman_server_function_get env_ok [102; 0] 1
    (exec (gearman_server_function_get env_ok [102; 0] 1) empty_server)
  = Some (Some 0%nat,
          exec (gearman_server_function_get env_ok [102; 0] 1) empty_server).
Proof.
  apply (function_get_stable env_ok env_ok [102; 0] 1 empty_server 0%nat).
  - apply server_inv_empty.
  - simpl. lia.
  - vm_compute. reflexivity.
Defined.

(** When the allocation of the function or of its name fails, the created
    function is released again and the server is as it was. *)
Lemma function_get_fail_count env name size s :
  function_get_loop s (function_list s) name size = Some None ->
  malloc_function env && malloc_function_name env = false ->
  gearman_server_function_get env name size s
  = Some (None,
          set_function_count
            (if malloc_function env
             then wrap32 (wrap32 (function_count s + 1) - 1)
             else function_count s) s).
Proof.
  intros H Hm. unfold gearman_server_function_get.
  destruct (malloc_function env) eqn:Hm1.
  - simpl in Hm.
    eapply bind_run; [reflexivity|]. cbn beta. rewrite H.
    eapply bind_run; [reflexivity|]. cbn beta.
    eapply bind_run; [by apply function_create_run|]. cbn beta.
    rewrite Hm.
    eapply bind_run.
    { unfold gearman_server_function_free.
      eapply bind_run; [apply load_function_run; fields; apply lookup_insert_eq|].
      cbn beta.
      eapply bind_run; [reflexivity|]. cbn beta. fields. reflexivity. }
    cbn beta. unfold ret. fields. rewrite unlink_head.
    rewrite delete_insert_eq, delete_id by apply fresh_function.
    reflexivity.
  - eapply bind_run; [reflexivity|]. cbn beta. rewrite H.
    eapply bind_run; [reflexivity|]. cbn beta.
    eapply bind_run.
    { unfold gearman_server_function_create. rewrite Hm1.
      eapply bind_run; reflexivity. }
    cbn beta. unfold ret. by destruct s.
Qed.

(** X4: with an allocator that fails, [gearman_server_function_get] is a pure
    lookup: it returns the function of that name if there is one, NULL
    otherwise, and leaves the server as it was. *)
Theorem function_get_nomem env name size s :
  server_inv s ->
  (size <= length name)%nat ->
  malloc_function env && malloc_function_name env = false ->
  0 <= function_count s < 2 ^ 32 ->
  exists r,
    gearman_server_function_get env name size s = Some (r, s) /\
    function_get_loop s (function_list s) name size = Some r.
Proof.
  intros Hi Hsz Hm Hc.
  destruct (function_get_loop_total s name size (function_list s) Hsz)
    as ([f|] & Hr & _).
  { intros f Hf. by apply (inv_function_list _ _ Hi). }
  - exists (Some f). split; [by apply function_get_found|done].
  - exists None. split; [|done].
    rewrite (function_get_fail_count env name size s Hr Hm).
    do 2 f_equal.
    replace (if malloc_function env
             then wrap32 (wrap32 (function_count s + 1) - 1)
             else function_count s) with (function_count s).
    + by destruct s.
    + destruct (malloc_function env); [|done].
      by rewrite wrap32_add_sub, wrap32_small.
Qed.

Lemma function_get_nomem_witness :
  gearman_server_function_get env_nomem [102; 0] 1 empty_server
  = Some (None, empty_server).
Proof.
  destruct (function_get_nomem env_nomem [102; 0] 1 empty_server)
    as (r & Hrun & Hloop).
  - apply server_inv_empty.
  - simpl. lia.
  - reflexivity.
  - vm_compute. split; [discriminate|reflexivity].
  - rewrite Hrun. vm_compute in Hloop. by injection Hloop as <-.
Defined.

(** X5: [gearman_server_job_free] on a job that a worker has: the job leaves
    both hash tables, its function counts one job less in total and one less
    running while its lists stay as they are, and the worker has no job any
    more; no other job changes its place. *)
Theorem job_free_unregisters s p j w :
  server_inv s ->
  live s p ->
  jobs s !! p = Some j ->
  worker j = Some w ->
  exists f x s1 x1 wk1,
    function j = Some f /\ functions s !! f = Some x /\
    gearman_server_job_free p s = Some (tt, s1) /\
    server_inv s1 /\
    functions s1 !! f = Some x1 /\
    job_total x1 = wrap32 (job_total x - 1) /\
    job_running x1 = wrap32 (job_running x - 1) /\
    job_count x1 = job_count x /\
    job_list x1 = job_list x /\ job_end x1 = job_end x /\
    workers s1 !! w = Some wk1 /\ worker_job wk1 = None /\
    (forall k, p ∉ job_hash s1 k) /\
    (forall k, p ∉ unique_hash s1 k) /\
    (forall q, live s1 q <-> live s q /\ q <> p) /\
    (forall q k, q <> p -> q ∈ unique_hash s1 k <-> q ∈ unique_hash s k).
Proof.
  intros Hi Hl Hj Hw.
  destruct (job_free_total None s p j Hi) as (f & x & Hf & Hfin & Hx & Hrun & Hi1);
    [right; split; [done|congruence]|done..|].
  destruct (inv_live _ _ Hi p j Hl Hj) as (f' & Hf' & _ & _ & _ & _ & Hwk).
  rewrite Hw in Hwk. destruct Hwk as [wk Hwk].
  set (s1 := free_state p f j x s) in *.
  assert (Hlive : forall q, live s1 q <-> live s q /\ q <> p).
  { intros q. by apply (free_state_live None). }
  exists f, x, s1. eexists _, (set_worker_job None wk).
  do 4 (split; [done|]).
  split. { unfold s1, free_state. fields. apply lookup_insert_eq. }
  unfold queue_release. rewrite bool_decide_true by congruence. fields.
  do 5 (split; [done|]).
  split. { unfold s1, free_state. fields. rewrite Hw, Hwk.
           apply lookup_insert_eq. }
  split; [done|].
  split. { intros k Hk. assert (live s1 p) as Hp by by exists k.
           apply Hlive in Hp. by destruct Hp. }
  assert (Hu : forall q k, q ∈ unique_hash s1 k <->
                           q ∈ unique_hash s k /\
                           ~ (k = unique_key j mod GEARMAN_JOB_HASH_SIZE /\
                              q = p)).
  { intros q k. unfold s1, free_state. fields.
    apply hash_del_elem, (inv_unique_hash_NoDup _ _ Hi). }
  split.
  { intros k Hk. apply Hu in Hk as [Hk Hne]. apply Hne. split; [|done].
    apply (inv_unique_hash _ _ Hi) in Hk as (_ & j' & Hj' & ->). congruence. }
  split; [done|].
  intros q k Hq. rewrite Hu. intuition congruence.
Qed.

Lemma job_free_unregisters_witness :
  exists s1,
    gearman_server_job_free 0%nat (running_server awake_con) = Some (tt, s1) /\
    server_inv s1 /\ forall k, 0%nat ∉ job_hash s1 k.
Proof.
  destruct (job_free_unregisters (running_server awake_con) 0%nat
              (job_at (running_server awake_con) 0%nat) 0%nat)
    as (f & x & s1 & x1 & wk1 & _ & _ & Hrun & Hi1 & _ & _ & _ & _ & _ & _ &
        _ & _ & Hh & _).
  - apply server_inv_running_server. reflexivity.
  - exists (job_handle_key (job_at (running_server awake_con) 0%nat)
            mod GEARMAN_JOB_HASH_SIZE).
    vm_compute. apply list_elem_of_here.
  - vm_compute. reflexivity.
  - vm_compute. reflexivity.
  - exists s1. split; [exact Hrun|]. split; [exact Hi1|exact Hh].
Defined.

(** X6: a job structure that [gearman_server_job_free] released is the next
    one that [gearman_server_job_create] hands out, zeroed, without asking the
    allocator, and the free list is then as it was; when the free list already
    holds [GEARMAN_MAX_FREE_SERVER_JOB] structures, the structure is
    deallocated instead and the free list stays as it is. *)
Theorem job_free_recycles env s p j :
  server_inv s ->
  live s p ->
  jobs s !! p = Some j ->
  worker j <> None ->
  has_flag (job_options j) GEARMAN_SERVER_JOB_ALLOCATED = true ->
  exists s1,
    gearman_server_job_free p s = Some (tt, s1) /\
    if free_job_count s <? GEARMAN_MAX_FREE_SERVER_JOB then
      head (free_job_list s1) = Some p /\
      exists s2,
        gearman_server_job_create env None s1 = Some (Some p, s2) /\
        jobs s2 !! p = Some allocated_job /\
        free_job_list s2 = free_job_list s /\
        free_job_count s2 = free_job_count s
    else
      jobs s1 !! p = None /\
      free_job_list s1 = free_job_list s /\
      free_job_count s1 = free_job_count s.
Proof.
  intros Hi Hl Hj Hw Ha.
  destruct (job_free_total None s p j Hi) as (f & x & Hf & Hfin & Hx & Hrun & Hi1);
    [by right|done..|].
  exists (free_state p f j x s). split; [done|].
  destruct (inv_free_count _ _ Hi) as [Hc Hmax].
  destruct (inv_free_list _ _ Hi) as [Hnd Hfree].
  destruct (Z.ltb_spec (free_job_count s) GEARMAN_MAX_FREE_SERVER_JOB)
    as [Hlt|Hge].
  - assert (Hrec : has_flag (job_options j) GEARMAN_SERVER_JOB_ALLOCATED &&
                   (free_job_count s <? GEARMAN_MAX_FREE_SERVER_JOB) = true).
    { rewrite Ha. simpl. by apply Z.ltb_lt. }
    assert (Hcount : free_job_count (free_state p f j x s)
                     = free_job_count s + 1).
    { unfold free_state. fields. rewrite Hrec. apply wrap32_small.
      unfold GEARMAN_MAX_FREE_SERVER_JOB in *. lia. }
    assert (Hlist : free_job_list (free_state p f j x s)
                    = p :: free_job_list s).
    { unfold free_state. fields. by rewrite Hrec. }
    split; [by rewrite Hlist|].
    assert (Hslot : job_slot env (free_state p f j x s) = Some p).
    { unfold job_slot. rewrite Hcount, Hlist.
      destruct (Z.ltb_spec 0 (free_job_count s + 1)); [done|lia]. }
    exists (create_state p (free_state p f j x s)).
    split.
    { rewrite job_create_run; [by rewrite Hslot|].
      intros H0. by apply job_slot_free. }
    unfold create_state. rewrite Hcount, Hlist.
    destruct (Z.ltb_spec 0 (free_job_count s + 1)); [|lia]. fields.
    split; [apply lookup_insert_eq|]. split; [apply unlink_head|].
    replace (free_job_count s + 1 - 1) with (free_job_count s) by lia.
    apply wrap32_small. unfold GEARMAN_MAX_FREE_SERVER_JOB in *. lia.
  - assert (Hrec : has_flag (job_options j) GEARMAN_SERVER_JOB_ALLOCATED &&
                   (free_job_count s <? GEARMAN_MAX_FREE_SERVER_JOB) = false).
    { rewrite Ha. simpl. by apply Z.ltb_ge. }
    assert (Hrel : has_flag (job_options j) GEARMAN_SERVER_JOB_ALLOCATED &&
                   negb (free_job_count s <? GEARMAN_MAX_FREE_SERVER_JOB)
                   = true).
    { rewrite Ha. simpl. apply negb_true_iff. by apply Z.ltb_ge. }
    unfold free_state. fields. rewrite Hrec, Hrel.
    split; [apply lookup_delete_eq|done].
Qed.

Lemma job_free_recycles_witness :
  exists s1 s2,
    gearman_server_job_free 0%nat (running_server awake_con) = Some (tt, s1) /\
    gearman_server_job_create env_nomem None s1 = Some (Some 0%nat, s2).
Proof.
  destruct (job_free_recycles env_nomem (running_server awake_con) 0%nat
              (job_at (running_server awake_con) 0%nat))
    as (s1 & Hrun & Hrest).
  - apply server_inv_running_server. reflexivity.
  - exists (job_handle_key (job_at (running_server awake_con) 0%nat)
            mod GEARMAN_JOB_HASH_SIZE).
    vm_compute. apply list_elem_of_here.
  - vm_compute. reflexivity.
  - vm_compute. intros E; discriminate E.
  - vm_compute. reflexivity.
  - exists s1.
    assert (Hlt : (free_job_count (running_server awake_con)
                   <? GEARMAN_MAX_FREE_SERVER_JOB) = true)
      by (vm_compute; reflexivity).
    rewrite Hlt in Hrest. destruct Hrest as (_ & s2 & Hcreate & _).
    exists s2. split; [exact Hrun|exact Hcreate].
Defined.

(** *** What [gearman_server_job_add] returns *)

Lemma function_get_live env name size s r sf :
  server_inv s ->
  (size <= length name)%nat ->
  gearman_server_function_get env name size s = Some (r, sf) ->
  forall p, live sf p <-> live s p.
Proof.
  intros Hi Hsz Hget.
  by destruct (function_get_inv env None name size s r sf Hi Hsz Hget)
    as (_ & _ & Hl & _).
Qed.

Lemma client_added_live c p s q : live (client_added c p s) q <-> live s q.
Proof.
  destruct (client_added_fields c p s) as (_ & _ & Hh & _).
  unfold live. by setoid_rewrite Hh.
Qed.

(** X7: a call of [gearman_server_job_add] with a unique
    ([unique_size != 0], so that [key] is assigned before it is read)
    returns; it returns a job only with [GEARMAN_SUCCESS], for a job that
    was not there, or with [GEARMAN_JOB_EXISTS], for a job that was there,
    and the job is then in the table of the handles; it never returns NULL
    with [GEARMAN_SUCCESS]. *)
Theorem job_add_returns env fn fns u us d ds prio c s :
  server_inv s ->
  job_add_args_ok s fn fns u us d ds prio c ->
  us <> 0%nat ->
  exists res r s',
    gearman_server_job_add env fn fns u us d ds prio c s
    = Some ((res, r), s') /\
    server_inv s' /\
    (forall p, res = Some p ->
       live s' p /\
       ((r = GEARMAN_SUCCESS /\ ~ live s p) \/
        (r = GEARMAN_JOB_EXISTS /\ live s p))) /\
    (res = None -> r <> GEARMAN_SUCCESS).
Proof.
  intros Hi Hargs _.
  pose proof (args_function_name _ _ _ _ _ _ _ _ _ Hargs) as Hsz.
  destruct (job_add_cases env fn fns u us d ds prio c s Hi Hargs)
    as [(sf & Hget & E)|(f & sf & x & key & existing & Hget & Hif & Hfin &
                          Hx & Hlook & Hkey & Hrest)].
  { eexists _, _, _. split; [exact E|].
    split; [exact (job_add_inv _ _ _ _ _ _ _ _ _ _ _ _ Hi Hargs E)|]. by split. }
  pose proof (function_get_live env fn fns s _ sf Hi Hsz Hget) as Hlive.
  destruct existing as [p0|].
  { destruct Hrest as [Hl0 E]. eexists _, _, _. split; [exact E|].
    split; [exact (job_add_inv _ _ _ _ _ _ _ _ _ _ _ _ Hi Hargs E)|]. split; [|done].
    intros p [= <-]. split; [by apply client_added_live|].
    right. split; [done|]. by apply Hlive. }
  destruct (queue_full x) eqn:Hfull.
  { eexists _, _, _. split; [exact Hrest|].
    split; [exact (job_add_inv _ _ _ _ _ _ _ _ _ _ _ _ Hi Hargs Hrest)|]. by split. }
  destruct (job_slot env sf) as [p0|] eqn:Hslot.
  2:{ eexists _, _, _. split; [exact Hrest|].
      split; [exact (job_add_inv _ _ _ _ _ _ _ _ _ _ _ _ Hi Hargs Hrest)|]. by split. }
  destruct (job_added env fn fns u us d ds prio c f key p0 x sf)
    as [[res r] s'] eqn:Hadd.
  exists res, r, s'. split; [exact Hrest|].
  split; [exact (job_add_inv _ _ _ _ _ _ _ _ _ _ _ _ Hi Hargs Hrest)|].
  pose proof (job_added_ret env fn fns u us d ds prio c f key p0 x sf) as Hret.
  cbv zeta in Hret. rewrite Hadd in Hret. simpl in Hret.
  destruct (adapter_error _ _ _ _ _ _ _ _ _) as [r0|] eqn:Hae.
  - injection Hret as -> ->. split; [done|]. intros _.
    apply adapter_error_failure in Hae as [Hf _].
    by apply is_success_false.
  - destruct Hret as [Hr Hres].
    destruct (is_success r) eqn:Hs.
    + apply is_success_true in Hs as ->. subst res.
      split; [|done]. intros p [= <-].
      destruct (job_added_success _ _ _ _ _ _ _ _ _ _ _ _ _ _ _ _ Hadd)
        as (_ & _ & _ & _ & Hjh & _).
      split.
      * eexists. rewrite Hjh. unfold created_state. fields.
        apply hash_add_elem. left. split; reflexivity.
      * left. split; [done|]. rewrite <- Hlive.
        by apply (job_slot_not_live env).
    + subst res. split; [done|]. intros _. by apply is_success_false.
Qed.

Lemma job_add_returns_witness :
  exists res r s',
    submit [49; 0] GEARMAN_JOB_PRIORITY_NORMAL None submitted_server
    = Some ((res, r), s') /\ server_inv s'.
Proof.
  destruct (job_add_returns env_ok [102; 0] 1 [49; 0] 1 (Some [65]) 1
              GEARMAN_JOB_PRIORITY_NORMAL None submitted_server)
    as (res & r & s' & Hrun & Hi & _).
  - apply server_inv_submitted.
  - apply (submit_args_ok _ [49; 0]); [simpl; lia|reflexivity|].
    intros E; discriminate E.
  - intros E; discriminate E.
  - exists res, r, s'. split; [exact Hrun|exact Hi].
Defined.

(** *** A duplicate *)

Lemma get_unique_loop_found s key f u dsz : forall bucket p,
  _server_job_get_unique_loop s bucket key f u dsz = Some (Some p) ->
  p ∈ bucket /\
  exists j, jobs s !! p = Some j /\ function j = Some f /\
            unique_key j = key /\
            if decide (dsz = 0%nat) then strcmp_eq (unique j) u = Some true
            else data_size j = dsz /\
                 exists dj, data j = Some dj /\
                            memcmp_eq dj u dsz = Some true.
Proof.
  induction bucket as [|q bucket IH]; intros p H; [done|]. simpl in H.
  destruct (jobs s !! q) as [jq|] eqn:Hq; [|done].
  assert (Hrec : _server_job_get_unique_loop s bucket key f u dsz
                 = Some (Some p) ->
                 p ∈ q :: bucket /\
                 exists j, jobs s !! p = Some j /\ function j = Some f /\
                   unique_key j = key /\
                   if decide (dsz = 0%nat)
                   then strcmp_eq (unique j) u = Some true
                   else data_size j = dsz /\
                        exists dj, data j = Some dj /\
                                   memcmp_eq dj u dsz = Some true).
  { intros H'. destruct (IH p H') as [Hin Hj].
    split; [by apply list_elem_of_further|done]. }
  destruct (decide (dsz = 0%nat)) as [Hd|Hd].
  - destruct (bool_decide (function jq = Some f)) eqn:Hf; simpl in H; [|auto].
    destruct (Z.eqb_spec (unique_key jq) key) as [Hk|Hk]; [|auto].
    destruct (strcmp_eq (unique jq) u) as [[|]|] eqn:Hc; [|auto|done].
    injection H as <-. split; [apply list_elem_of_here|].
    exists jq. by apply bool_decide_eq_true in Hf.
  - destruct (bool_decide (function jq = Some f)) eqn:Hf; simpl in H; [|auto].
    destruct (Z.eqb_spec (unique_key jq) key) as [Hk|Hk]; simpl in H; [|auto].
    destruct (bool_decide (data_size jq = dsz)) eqn:Hsz; [|auto].
    destruct (data jq) as [dj|] eqn:Hdj; [|done].
    destruct (memcmp_eq dj u dsz) as [[|]|] eqn:Hc; [|auto|done].
    injection H as <-. split; [apply list_elem_of_here|].
    exists jq. apply bool_decide_eq_true in Hf, Hsz.
    do 4 (split; [done|]). by exists dj.
Qed.

Lemma memcmp_eq_true a b n :
  memcmp_eq a b n = Some true -> firstn n a = firstn n b.
Proof.
  unfold memcmp_eq, read_bytes.
  destruct (n <=? length a)%nat; [|done].
  destruct (n <=? length b)%nat; [|done].
  intros [= H]. by apply bool_decide_eq_true in H.
Qed.

(** X8: a call that returns [GEARMAN_JOB_EXISTS] had a unique, found a live
    job of the function of that name whose unique is the same string (or, for
    the unique ["-"], whose data are the same bytes), and created nothing: the
    hash tables, the handle counter and every function are as before. *)
Theorem job_exists_matches env fn fns u us d ds prio c s p s' :
  server_inv s ->
  job_add_args_ok s fn fns u us d ds prio c ->
  gearman_server_job_add env fn fns u us d ds prio c s
  = Some ((Some p, GEARMAN_JOB_EXISTS), s') ->
  us <> 0%nat /\ live s p /\
  (exists j f x n,
     jobs s !! p = Some j /\ function j = Some f /\
     functions s' !! f = Some x /\ function_name x = Some n /\
     function_name_size x = fns /\ firstn fns n = firstn fns fn /\
     if decide (dash u us) then
       ds <> 0%nat /\ data_size j = ds /\
       exists dj d0, data j = Some dj /\ d = Some d0 /\
                     firstn ds dj = firstn ds d0
     else c_str (unique j) = c_str u) /\
  (forall k, job_hash s' k = job_hash s k) /\
  (forall k, unique_hash s' k = unique_hash s k) /\
  job_handle_count s' = job_handle_count s /\
  (forall f x, functions s !! f = Some x -> functions s' !! f = Some x).
Proof.
  intros Hi Hargs Hrun.
  pose proof (args_function_name _ _ _ _ _ _ _ _ _ Hargs) as Hsz.
  destruct (job_add_cases env fn fns u us d ds prio c s Hi Hargs)
    as [(sf & Hget & E)|(f & sf & x & key & existing & Hget & Hif & Hfin &
                          Hx & Hlook & Hkey & Hrest)].
  { rewrite E in Hrun. done. }
  destruct existing as [p0|].
  2:{ destruct (queue_full x); [by rewrite Hrest in Hrun|].
      destruct (job_slot env sf) as [p0|]; [|by rewrite Hrest in Hrun].
      rewrite Hrest in Hrun. injection Hrun as Hadd.
      pose proof (job_added_ret env fn fns u us d ds prio c f key p0 x sf)
        as Hret.
      cbv zeta in Hret. rewrite Hadd in Hret. simpl in Hret.
      destruct (adapter_error _ _ _ _ _ _ _ _ _); [done|].
      by destruct Hret as [_ Hres]. }
  destruct Hrest as [Hl0 E]. rewrite E in Hrun. injection Hrun as -> <-.
  assert (Hus : us <> 0%nat).
  { intros ->. unfold job_add_lookup in Hlook.
    by rewrite decide_True in Hlook. }
  destruct (function_get_scalars env fn fns s _ sf Hi Hsz Hget)
    as (_ & G2 & _ & _ & Gj & _ & _ & _ & _ & Gh & Gu).
  destruct (client_added_fields c p sf) as (_ & C2 & C3 & C4 & _).
  destruct (client_added_scalars c p sf) as (_ & C6 & _).
  pose proof (function_get_live env fn fns s _ sf Hi Hsz Hget) as Hlive.
  split; [done|]. split; [by apply Hlive|].
  split.
  2:{ split; [by intros k; rewrite C3|]. split; [by intros k; rewrite C4|].
      split; [by rewrite C6|]. rewrite C2. intros f0 x0 Hx0.
      destruct (function_get_cases env None fn fns s Hi Hsz)
        as [(f' & _ & _ & E')|[[_ E']|(_ & _ & c0 & E')]];
        rewrite E' in Hget; [| |done].
      - by injection Hget as _ <-.
      - injection Hget as _ <-. unfold function_added. fields.
        rewrite lookup_insert_ne; [done|]. intros <-.
        by rewrite fresh_function in Hx0. }
  destruct (function_get_again env fn fns s f sf x Hi Hsz Hget Hx)
    as [Hloop _].
  destruct (function_get_loop_found sf fn fns _ f Hloop)
    as (_ & x' & n & Hx' & Hs' & Hn' & _ & Hfirst).
  pose proof (job_add_lookup_key _ sf f u us d ds key (Some p) Hif
                (args_unique _ _ _ _ _ _ _ _ _ Hargs) Hus
                (args_data _ _ _ _ _ _ _ _ _ Hargs) Hlook) as [Hnd Hd].
  destruct (decide (dash u us)) as [Hdash|Hdash].
  - destruct (decide (ds = 0%nat)) as [->|Hds].
    { unfold job_add_lookup in Hlook. destruct Hdash as [-> Hh].
      rewrite decide_False in Hlook by done.
      rewrite decide_True in Hlook by done. rewrite Hh in Hlook.
      simpl in Hlook. congruence. }
    destruct (Hd Hdash Hds) as (d0 & -> & Hlen & -> & Hfound).
    apply get_unique_loop_found in Hfound
      as (_ & j & Hj & Hjf & _ & Hm).
    rewrite decide_False in Hm by done. destruct Hm as (Hsize & dj & Hdj & Hm).
    exists j, f, x', n. rewrite C2, <- Gj.
    do 6 (split; [done|]). do 2 (split; [done|]).
    exists dj, d0. do 2 (split; [done|]). by apply memcmp_eq_true.
  - destruct (Hnd Hdash) as [-> Hfound].
    apply get_unique_loop_found in Hfound
      as (_ & j & Hj & Hjf & _ & Hm).
    rewrite decide_True in Hm by done.
    exists j, f, x', n. rewrite C2, <- Gj.
    do 6 (split; [done|]).
    rewrite strcmp_eq_spec in Hm
      by apply (args_unique_nul _ _ _ _ _ _ _ _ _ Hargs Hus).
    injection Hm as Hm. by apply bool_decide_eq_true in Hm.
Qed.

Lemma job_exists_matches_witness :
  live submitted_server 0%nat /\
  job_handle_count
    (exec (submit [49; 0] GEARMAN_JOB_PRIORITY_HIGH None) submitted_server)
  = job_handle_count submitted_server.
Proof.
  destruct (job_exists_matches env_ok [102; 0] 1 [49; 0] 1 (Some [65]) 1
              GEARMAN_JOB_PRIORITY_HIGH None submitted_server 0%nat
              (exec (submit [49; 0] GEARMAN_JOB_PRIORITY_HIGH None)
                 submitted_server))
    as (_ & Hl & _ & _ & _ & Hc & _); [| | |split; [exact Hl|exact Hc]].
  - apply server_inv_submitted.
  - apply (submit_args_ok _ [49; 0]); [simpl; lia|reflexivity|].
    intros E; discriminate E.
  - vm_compute. reflexivity.
Defined.

Lemma sum_list_with_same (f g : nat -> nat) l :
  (forall k, k ∈ l -> g k = f k) ->
  sum_list_with g l = sum_list_with f l.
Proof.
  induction l as [|k l IH]; intros Hsame; [done|]. simpl.
  rewrite Hsame by apply list_elem_of_here.
  rewrite IH; [done|]. intros k' Hk'. apply Hsame.
  by apply list_elem_of_further.
Qed.

Lemma sum_list_with_change (f g : nat -> nat) l k0 :
  NoDup l -> k0 ∈ l ->
  (forall k, k ∈ l -> k <> k0 -> g k = f k) ->
  S (g k0) = f k0 ->
  S (sum_list_with g l) = sum_list_with f l.
Proof.
  induction l as [|k l IH]; intros Hnd Hin Hsame Hk0.
  { by apply elem_of_nil in Hin. }
  apply NoDup_cons in Hnd as [Hk Hnd]. simpl.
  destruct (decide (k = k0)) as [->|Hne].
  - rewrite <- Hk0.
    rewrite (sum_list_with_same f g l); [lia|].
    intros k' Hk'. apply Hsame; [by apply list_elem_of_further|].
    intros ->. by apply Hk.
  - rewrite Hsame by (done || apply list_elem_of_here).
    rewrite <- IH; [lia|done| | |done].
    + apply elem_of_cons in Hin as [E|Hin]; [congruence|done].
    + intros k' Hk' Hne'. apply Hsame; [|done].
      by apply list_elem_of_further.
Qed.

Lemma length_unlink p l : p ∈ l -> S (length (unlink p l)) = length l.
Proof.
  induction l as [|q l IH]; intros Hin; [by apply elem_of_nil in Hin|].
  simpl. destruct (decide (q = p)) as [->|Hne]; [done|].
  apply elem_of_cons in Hin as [E|Hin]; [congruence|].
  simpl. by rewrite IH.
Qed.

Lemma live_count_free pending s p j f x :
  server_inv_upto pending s ->
  live s p ->
  jobs s !! p = Some j ->
  S (live_count (free_state p f j x s)) = live_count s.
Proof.
  intros Hi [k Hk] Hj.
  destruct (inv_job_hash _ _ Hi _ _ Hk) as (j' & Hj' & ->).
  assert (j' = j) as -> by congruence.
  set (key := job_handle_key j mod GEARMAN_JOB_HASH_SIZE) in *.
  assert (Hkey : 0 <= key < GEARMAN_JOB_HASH_SIZE).
  { apply Z.mod_pos_bound. done. }
  unfold live_count.
  apply (sum_list_with_change _ _ _ (Z.to_nat key)).
  - apply NoDup_seq.
  - apply elem_of_seq. lia.
  - intros k _ Hne. unfold free_state, GEARMAN_HASH_DEL. fields.
    fold key. destruct (Z.eqb_spec (Z.of_nat k) key) as [E|E]; [|done].
    exfalso. apply Hne. lia.
  - unfold free_state, GEARMAN_HASH_DEL. fields. fold key.
    rewrite Z2Nat.id by lia. rewrite Z.eqb_refl. by apply length_unlink.
Qed.

Lemma live_count_take p w f prio j x wk s :
  live_count (take_state p w f prio j x wk s) = live_count s.
Proof. done. Qed.

(** *** One round of [gearman_server_job_take] *)

Lemma job_take_next con s c :
  server_inv s ->
  cons s !! con = Some c ->
  ((forall w, w ∈ con_worker_list c -> idle s w) /\
   forall fuel, gearman_server_job_take (S fuel) con s = Some (None, s)) \/
  exists l1 w l2 wk x p j,
    con_worker_list c = l1 ++ w :: l2 /\
    (forall w', w' ∈ l1 -> idle s w') /\
    workers s !! w = Some wk /\
    functions s !! worker_function wk = Some x /\
    job_count x <> 0 /\
    first_priority (job_list x) <> GEARMAN_JOB_PRIORITY_MAX /\
    job_list x (first_priority (job_list x)) = Some p /\
    live s p /\ jobs s !! p = Some j /\
    function j = Some (worker_function wk) /\ worker j = None /\
    let s1 := take_state p w (worker_function wk)
                (first_priority (job_list x)) j x wk s in
    server_inv s1 /\
    forall fuel,
      gearman_server_job_take (S fuel) con s
      = if has_flag (job_options j) GEARMAN_SERVER_JOB_IGNORE
        then bind (gearman_server_job_free p)
               (fun _ => gearman_server_job_take fuel con) s1
        else Some (Some p, s1).
Proof.
  intros Hi Hc.
  destruct (job_take_worker_cases s (con_worker_list c))
    as [Hidle|(l1 & w & l2 & wk & x & El & Hidle & Hwk & Hx & Hcount)].
  { intros w Hw. destruct (inv_cons _ _ Hi con c Hc w Hw) as (wk & Hwk & Hf).
    destruct (inv_function_list _ _ Hi _ Hf) as (x & _ & Hx & _). eauto. }
  { left. split; [done|]. intros fuel. by eapply job_take_none. }
  right.
  assert (Hfl : worker_function wk ∈ function_list s).
  { destruct (inv_cons _ _ Hi con c Hc w) as (wk' & Hwk' & Hf).
    - rewrite El. apply elem_of_app. right. apply list_elem_of_here.
    - by assert (wk' = wk) as -> by congruence. }
  destruct (inv_queues _ _ Hi _ x Hfl Hx) as (q & Hq & _).
  destruct (queues_nonempty _ _ _ _ Hq Hcount) as (p & rest & Eq).
  destruct Hq as [Hq Hcnt].
  destruct (Hq GEARMAN_JOB_PRIORITY_HIGH) as (Hch & _ & Hallh); [done|].
  destruct (Hq GEARMAN_JOB_PRIORITY_NORMAL) as (Hcn & _ & Halln); [done|].
  destruct (Hq GEARMAN_JOB_PRIORITY_LOW) as (Hcl & _ & Halll); [done|].
  destruct (first_priority_head _ _ _ _ _ _ _ Hch Hcn Hcl Eq)
    as (Hprio & Hhead & l & Hcp & Hwhich).
  assert (Hin : p ∈ q (first_priority (job_list x))).
  { destruct (first_priority (job_list x)); try done.
    - destruct Hwhich as [-> _]. apply list_elem_of_here.
    - destruct Hwhich as (_ & -> & _). apply list_elem_of_here.
    - destruct Hwhich as (_ & _ & -> & _). apply list_elem_of_here. }
  destruct (Hq _ Hprio) as (_ & _ & Hall).
  destruct (Hall p Hin) as (Hl & j & Hj & Hjf & Hjp & Hjw).
  exists l1, w, l2, wk, x, p, j. do 11 (split; [done|]). intros s1.
  split; [by apply server_inv_take|]. intros fuel.
  exact (job_take_run fuel con s c l1 w l2 wk x p j Hc El Hidle Hwk Hx
           Hcount Hprio Hhead Hj Hjf).
Qed.

Lemma job_free_taken s p j w :
  server_inv s ->
  live s p ->
  jobs s !! p = Some j ->
  worker j = Some w ->
  exists s2,
    gearman_server_job_free p s = Some (tt, s2) /\ server_inv s2 /\
    cons s2 = cons s /\ S (live_count s2) = live_count s.
Proof.
  intros Hi Hl Hj Hw.
  destruct (job_free_total None s p j Hi)
    as (f & x & _ & _ & _ & Hfree & Hi2);
    [right; split; [done|congruence]|done..|].
  eexists. split; [exact Hfree|]. split; [done|]. split; [done|].
  by apply (live_count_free None).
Qed.

Lemma live_take_state p w f prio j x wk s q :
  live (take_state p w f prio j x wk s) q <-> live s q.
Proof. done. Qed.

Lemma job_take_total fuel : forall con s c,
  server_inv s ->
  cons s !! con = Some c ->
  (live_count s < fuel)%nat ->
  exists r s',
    (live_count s' <= live_count s)%nat /\
    forall fuel', (fuel <= fuel')%nat ->
      gearman_server_job_take fuel' con s = Some (r, s').
Proof.
  induction fuel as [|fuel IH]; intros con s c Hi Hc Hlt; [lia|].
  destruct (job_take_next con s c Hi Hc)
    as [[_ E]|(l1 & w & l2 & wk & x & p & j & _ & _ & Hwk & Hx & _ & _ & _ &
               Hl & Hj & Hjf & Hjw & Hrest)].
  { exists None, s. split; [done|]. intros [|fuel'] Hle; [lia|]. apply E. }
  cbv zeta in Hrest. destruct Hrest as [Hi1 Hrun].
  set (s1 := take_state p w (worker_function wk) (first_priority (job_list x))
               j x wk s) in *.
  destruct (has_flag (job_options j) GEARMAN_SERVER_JOB_IGNORE).
  - destruct (job_free_taken s1 p (set_worker (Some w) j) w Hi1)
      as (s2 & Hfree & Hi2 & Hc2 & Hcount);
      [by apply live_take_state|apply lookup_insert_eq|done|].
    unfold s1 in Hcount. rewrite live_count_take in Hcount.
    destruct (IH con s2 c Hi2) as (r & s' & Hle' & Hall).
    { by rewrite Hc2. }
    { lia. }
    exists r, s'. split; [lia|]. intros [|fuel'] Hle; [lia|].
    rewrite Hrun. unfold bind. rewrite Hfree. apply Hall. lia.
  - exists (Some p), s1. split; [done|].
    intros [|fuel'] Hle; [lia|]. apply Hrun.
Qed.

(** X9: [gearman_server_job_take] returns for every connection of the server:
    its recursion ends after at most as many rounds as there are live jobs,
    whatever the fuel beyond that; the server is then in a good state again,
    no job was added, and a job that is returned is live and has a worker. *)
Theorem job_take_terminates con s c :
  server_inv s ->
  cons s !! con = Some c ->
  exists r s',
    (forall fuel, (live_count s < fuel)%nat ->
       gearman_server_job_take fuel con s = Some (r, s')) /\
    server_inv s' /\ cons s' = cons s /\
    (live_count s' <= live_count s)%nat /\
    forall p, r = Some p ->
      live s' p /\ exists j, jobs s' !! p = Some j /\ worker j <> None.
Proof.
  intros Hi Hc.
  destruct (job_take_total (S (live_count s)) con s c Hi Hc)
    as (r & s' & Hle & Hall); [lia|].
  exists r, s'. split; [intros fuel Hlt; apply Hall; lia|].
  destruct (job_take_inv _ con s r s' Hi (Hall _ (le_n _))) as (Hi' & Hc' & Hr).
  done.
Qed.

Lemma server_inv_three_jobs : server_inv (three_jobs awake_con).
Proof.
  unfold three_jobs.
  repeat (apply server_inv_exec;
          [|apply (submit_args_ok _ [_; 0]);
            [simpl; lia|reflexivity|intros E; discriminate E]]).
  apply server_inv_worker_server. reflexivity.
Qed.

Lemma job_take_terminates_witness :
  exists r s',
    gearman_server_job_take 4 0%nat (three_jobs awake_con) = Some (r, s') /\
    server_inv s'.
Proof.
  destruct (job_take_terminates 0%nat (three_jobs awake_con) awake_con)
    as (r & s' & Hrun & Hi & _).
  - apply server_inv_three_jobs.
  - vm_compute. reflexivity.
  - exists r, s'. split; [|exact Hi]. apply Hrun. vm_compute. lia.
Defined.

(** *** One round of [gearman_server_job_peek] *)

Lemma has_flag_clear options flag :
  has_flag (clear_flag options flag) flag = false.
Proof.
  unfold has_flag, clear_flag.
  rewrite <- Z.land_assoc, (Z.land_comm (Z.lnot flag)), Z.land_lnot_diag.
  by rewrite Z.land_0_r.
Qed.

Lemma job_peek_head_idle s l :
  (forall w, w ∈ l -> idle s w) -> job_peek_head s l = Some None.
Proof.
  induction l as [|w l IH]; intros Hidle; simpl; [done|].
  destruct (Hidle w) as (wk & x & Hw & Hx & Hc); [apply list_elem_of_here|].
  rewrite Hw, Hx, Hc. simpl. apply IH.
  intros w0 Hin. apply Hidle. by apply list_elem_of_further.
Qed.

Lemma job_peek_head_found s l1 w l2 wk x :
  (forall w', w' ∈ l1 -> idle s w') ->
  workers s !! w = Some wk ->
  functions s !! worker_function wk = Some x ->
  job_count x <> 0 ->
  first_priority (job_list x) <> GEARMAN_JOB_PRIORITY_MAX ->
  job_peek_head s (l1 ++ w :: l2)
  = Some (job_list x (first_priority (job_list x))).
Proof.
  intros Hidle Hw Hx Hc Hp.
  induction l1 as [|w' l1 IH]; simpl.
  - rewrite Hw, Hx. destruct (Z.eqb_spec (job_count x) 0) as [|_]; [done|].
    simpl. by destruct (first_priority (job_list x)).
  - destruct (Hidle w') as (wk' & x' & Hw' & Hx' & Hc');
      [apply list_elem_of_here|].
    rewrite Hw', Hx', Hc'. simpl. apply IH.
    intros w0 Hin. apply Hidle. by apply list_elem_of_further.
Qed.

Lemma job_peek_head_sim s s' l :
  workers s' = workers s -> functions s' = functions s ->
  job_peek_head s' l = job_peek_head s l.
Proof.
  intros Hw Hf. induction l as [|w l IH]; simpl; [done|].
  rewrite Hw, Hf. destruct (workers s !! w) as [wk|]; [|done].
  destruct (functions s !! worker_function wk) as [x|]; [|done].
  destruct (negb _); [|done]. by destruct (first_priority _).
Qed.

Lemma job_peek_eq fuel con :
  gearman_server_job_peek (S fuel) con
  = (c <- load_con con;;
     s <- get;;
     head <- deref (job_peek_head s (con_worker_list c));;
     match head with
     | None => ret None
     | Some server_job =>
         j <- load_job server_job;;
         if has_flag (job_options j) GEARMAN_SERVER_JOB_IGNORE then
           update_job server_job (fun j =>
             set_job_options
               (clear_flag (job_options j) GEARMAN_SERVER_JOB_IGNORE) j);;
           taken <- gearman_server_job_take (S fuel) con;;
           taken <- deref taken;;
           gearman_server_job_free taken;;
           gearman_server_job_peek fuel con
         else ret (Some server_job)
     end).
Proof. reflexivity. Qed.

(** What [gearman_server_job_peek] finds is what
    [gearman_server_job_take] takes. *)
Lemma job_take_peeked con s c p j :
  server_inv s ->
  cons s !! con = Some c ->
  job_peek_head s (con_worker_list c) = Some (Some p) ->
  jobs s !! p = Some j ->
  has_flag (job_options j) GEARMAN_SERVER_JOB_IGNORE = false ->
  live s p /\ worker j = None /\
  exists w s1,
    server_inv s1 /\ cons s1 = cons s /\ live_count s1 = live_count s /\
    live s1 p /\ jobs s1 !! p = Some (set_worker (Some w) j) /\
    forall fuel, gearman_server_job_take (S fuel) con s = Some (Some p, s1).
Proof.
  intros Hi Hc Hhead Hj Hig.
  destruct (job_take_next con s c Hi Hc)
    as [[Hidle _]|(l1 & w & l2 & wk & x & p' & j' & El & Hidle & Hwk & Hx &
                   Hcount & Hprio & Hp' & Hl & Hj' & Hjf & Hjw & Hrest)].
  { rewrite job_peek_head_idle in Hhead by done. done. }
  rewrite El, (job_peek_head_found s l1 w l2 wk x) in Hhead by done.
  rewrite Hp' in Hhead. injection Hhead as ->.
  assert (j' = j) as -> by congruence.
  cbv zeta in Hrest. destruct Hrest as [Hi1 Hrun]. rewrite Hig in Hrun.
  do 2 (split; [done|]). eexists w, _. split; [exact Hi1|].
  split; [done|]. split; [done|]. split; [done|].
  split; [apply lookup_insert_eq|done].
Qed.

Lemma job_peek_next con s c :
  server_inv s ->
  cons s !! con = Some c ->
  ((forall w, w ∈ con_worker_list c -> idle s w) /\
   forall fuel, gearman_server_job_peek (S fuel) con s = Some (None, s)) \/
  exists p j,
    job_peek_head s (con_worker_list c) = Some (Some p) /\
    jobs s !! p = Some j /\
    if has_flag (job_options j) GEARMAN_SERVER_JOB_IGNORE then
      exists s2,
        server_inv s2 /\ cons s2 = cons s /\
        S (live_count s2) = live_count s /\
        forall fuel, gearman_server_job_peek (S fuel) con s
                     = gearman_server_job_peek fuel con s2
    else
      forall fuel, gearman_server_job_peek (S fuel) con s = Some (Some p, s).
Proof.
  intros Hi Hc.
  destruct (job_take_next con s c Hi Hc)
    as [[Hidle _]|(l1 & w & l2 & wk & x & p & j & El & Hidle & Hwk & Hx &
                   Hcount & Hprio & Hp & Hl & Hj & Hjf & Hjw & _)].
  { left. split; [done|]. intros fuel. rewrite job_peek_eq.
    eapply bind_run; [by apply load_con_run|]. cbn beta.
    eapply bind_run; [reflexivity|]. cbn beta.
    rewrite job_peek_head_idle by done.
    eapply bind_run; reflexivity. }
  right. exists p, j.
  assert (Hhead : job_peek_head s (con_worker_list c) = Some (Some p)).
  { rewrite El, (job_peek_head_found s l1 w l2 wk x) by done.
    by rewrite Hp. }
  do 2 (split; [done|]).
  destruct (has_flag (job_options j) GEARMAN_SERVER_JOB_IGNORE) eqn:Hig.
  - set (jc := set_job_options
                 (clear_flag (job_options j) GEARMAN_SERVER_JOB_IGNORE) j).
    set (sc := set_jobs (<[p := jc]> (jobs s)) s).
    assert (Hic : server_inv sc).
    { eapply server_inv_sim; [|exact Hi].
      apply (state_sim_job p j); [done|]. intros _. by repeat split. }
    destruct (job_take_peeked con sc c p jc Hic)
      as (_ & _ & w' & s1 & Hi1 & Hc1 & Hn1 & Hl1 & Hj1 & Htake);
      [done| |apply lookup_insert_eq|apply has_flag_clear|].
    { by rewrite (job_peek_head_sim s sc). }
    destruct (job_free_taken s1 p (set_worker (Some w') jc) w' Hi1)
      as (s2 & Hfree & Hi2 & Hc2 & Hcount2); [done..|].
    exists s2. split; [done|]. split; [by rewrite Hc2, Hc1|].
    split; [by rewrite Hcount2, Hn1|].
    intros fuel. rewrite job_peek_eq.
    eapply bind_run; [by apply load_con_run|]. cbn beta.
    eapply bind_run; [reflexivity|]. cbn beta. rewrite Hhead.
    eapply bind_run; [reflexivity|]. cbn beta.
    eapply bind_run; [by apply load_job_run|]. cbn beta. rewrite Hig.
    eapply bind_run; [by apply update_job_run|]. cbn beta.
    eapply bind_run; [apply Htake|]. cbn beta.
    eapply bind_run; [reflexivity|]. cbn beta.
    eapply bind_run; [exact Hfree|]. reflexivity.
  - intros fuel. rewrite job_peek_eq.
    eapply bind_run; [by apply load_con_run|]. cbn beta.
    eapply bind_run; [reflexivity|]. cbn beta. rewrite Hhead.
    eapply bind_run; [reflexivity|]. cbn beta.
    eapply bind_run; [by apply load_job_run|]. cbn beta. rewrite Hig.
    reflexivity.
Qed.

Lemma job_peek_total fuel : forall con s c,
  server_inv s ->
  cons s !! con = Some c ->
  (live_count s < fuel)%nat ->
  exists r s',
    (forall fuel', (fuel <= fuel')%nat ->
       gearman_server_job_peek fuel' con s = Some (r, s')) /\
    server_inv s' /\ cons s' = cons s /\
    (live_count s' <= live_count s)%nat /\
    (forall fuel', gearman_server_job_peek (S fuel') con s' = Some (r, s')) /\
    job_peek_head s' (con_worker_list c) = Some r /\
    forall p, r = Some p ->
      exists j, jobs s' !! p = Some j /\
        has_flag (job_options j) GEARMAN_SERVER_JOB_IGNORE = false.
Proof.
  induction fuel as [|fuel IH]; intros con s c Hi Hc Hlt; [lia|].
  destruct (job_peek_next con s c Hi Hc)
    as [[Hidle E]|(p & j & Hhead & Hj & Hrest)].
  { exists None, s. split; [intros [|fuel'] Hle; [lia|apply E]|].
    do 3 (split; [done|]). split; [done|].
    split; [by apply job_peek_head_idle|done]. }
  destruct (has_flag (job_options j) GEARMAN_SERVER_JOB_IGNORE) eqn:Hig.
  - destruct Hrest as (s2 & Hi2 & Hc2 & Hcount & Hrun).
    destruct (IH con s2 c Hi2) as (r & s' & Hall & Hi' & Hc' & Hle' & Hrest');
      [by rewrite Hc2|lia|].
    exists r, s'. split.
    { intros [|fuel'] Hle; [lia|]. rewrite Hrun. apply Hall. lia. }
    split; [done|]. split; [congruence|]. split; [lia|done].
  - exists (Some p), s. split; [intros [|fuel'] Hle; [lia|apply Hrest]|].
    do 3 (split; [done|]). split; [done|]. split; [done|].
    intros ? [= <-]. by exists j.
Qed.

(** X10: [gearman_server_job_peek] returns for every connection of the server:
    its recursion ends after at most as many rounds as there are live jobs,
    whatever the fuel beyond that; the server is then in a good state again,
    with the same connections and no job more, and a job that is shown is
    live, has no worker and is not marked IGNORE. *)
Theorem job_peek_terminates con s c :
  server_inv s ->
  cons s !! con = Some c ->
  exists r s',
    (forall fuel, (live_count s < fuel)%nat ->
       gearman_server_job_peek fuel con s = Some (r, s')) /\
    server_inv s' /\ cons s' = cons s /\
    (live_count s' <= live_count s)%nat /\
    forall p, r = Some p ->
      live s' p /\
      exists j, jobs s' !! p = Some j /\ worker j = None /\
        has_flag (job_options j) GEARMAN_SERVER_JOB_IGNORE = false.
Proof.
  intros Hi Hc.
  destruct (job_peek_total (S (live_count s)) con s c Hi Hc)
    as (r & s' & Hall & Hi' & Hc' & Hle & _ & Hhead & Hr); [lia|].
  exists r, s'. split; [intros fuel Hlt; apply Hall; lia|].
  do 3 (split; [done|]). intros p ->.
  destruct (Hr p eq_refl) as (j & Hj & Hig).
  destruct (job_take_peeked con s' c p j Hi') as (Hl & Hw & _);
    [congruence|done..|].
  split; [done|]. by exists j.
Qed.

Lemma job_peek_terminates_witness :
  exists r s',
    gearman_server_job_peek 4 0%nat (three_jobs awake_con) = Some (r, s') /\
    server_inv s'.
Proof.
  destruct (job_peek_terminates 0%nat (three_jobs awake_con) awake_con)
    as (r & s' & Hrun & Hi & _).
  - apply server_inv_three_jobs.
  - vm_compute. reflexivity.
  - exists r, s'. split; [|exact Hi]. apply Hrun. vm_compute. lia.
Defined.

(** X11: what [gearman_server_job_peek] returns stays: in the state it leaves,
    a second call returns the same and changes nothing, and
    [gearman_server_job_take] returns the job that was shown, or NULL when
    none was shown. *)
Theorem job_peek_take_agree con s c :
  server_inv s ->
  cons s !! con = Some c ->
  exists r s',
    (forall fuel, (live_count s < fuel)%nat ->
       gearman_server_job_peek fuel con s = Some (r, s')) /\
    (forall fuel, gearman_server_job_peek (S fuel) con s' = Some (r, s')) /\
    exists s2,
      (forall fuel, gearman_server_job_take (S fuel) con s' = Some (r, s2)) /\
      (r = None -> s2 = s').
Proof.
  intros Hi Hc.
  destruct (job_peek_total (S (live_count s)) con s c Hi Hc)
    as (r & s' & Hall & Hi' & Hc' & Hle & Hagain & Hhead & Hr); [lia|].
  exists r, s'. split; [intros fuel Hlt; apply Hall; lia|].
  split; [done|]. rewrite <- Hc' in Hc.
  destruct r as [p|].
  - destruct (Hr p eq_refl) as (j & Hj & Hig).
    destruct (job_take_peeked con s' c p j Hi' Hc Hhead Hj Hig)
      as (_ & _ & w & s1 & _ & _ & _ & _ & _ & Htake).
    exists s1. by split.
  - exists s'. split; [|done].
    destruct (job_take_next con s' c Hi' Hc)
      as [[_ E]|(l1 & w & l2 & wk & x & p & j & El & Hidle & Hwk & Hx &
                 Hcount & Hprio & Hp & _)]; [done|].
    rewrite El, (job_peek_head_found s' l1 w l2 wk x) in Hhead by done.
    congruence.
Qed.

Lemma job_peek_take_agree_witness :
  exists r s' s2,
    gearman_server_job_peek 4 0%nat (three_jobs awake_con) = Some (r, s') /\
    gearman_server_job_take 1 0%nat s' = Some (r, s2).
Proof.
  destruct (job_peek_take_agree 0%nat (three_jobs awake_con) awake_con)
    as (r & s' & Hrun & _ & s2 & Htake & _).
  - apply server_inv_three_jobs.
  - vm_compute. reflexivity.
  - exists r, s', s2. split; [|apply Htake]. apply Hrun. vm_compute. lia.
Defined.

(** *** What [gearman_server_job_take] leaves *)

Lemma job_take_assigns_fuel fuel : forall con s c p s1,
  server_inv s ->
  cons s !! con = Some c ->
  gearman_server_job_take fuel con s = Some (Some p, s1) ->
  exists j w wk,
    jobs s1 !! p = Some j /\ worker j = Some w /\
    has_flag (job_options j) GEARMAN_SERVER_JOB_IGNORE = false /\
    w ∈ con_worker_list c /\
    workers s1 !! w = Some wk /\ worker_job wk = Some p /\
    function j = Some (worker_function wk).
Proof.
  induction fuel as [|fuel IH]; intros con s c p s1 Hi Hc Hrun; [done|].
  destruct (job_take_next con s c Hi Hc)
    as [[_ E]|(l1 & w & l2 & wk & x & p' & j & El & _ & Hwk & Hx & _ & _ & _ &
               Hl & Hj & Hjf & Hjw & Hrest)].
  { rewrite E in Hrun. done. }
  cbv zeta in Hrest. destruct Hrest as [Hi1 Hrun']. rewrite Hrun' in Hrun.
  destruct (has_flag (job_options j) GEARMAN_SERVER_JOB_IGNORE) eqn:Hig.
  - destruct (job_free_taken _ p' (set_worker (Some w) j) w Hi1)
      as (s2 & Hfree & Hi2 & Hc2 & _);
      [by apply live_take_state|apply lookup_insert_eq|done|].
    unfold bind in Hrun. rewrite Hfree in Hrun.
    apply (IH con s2 c p s1 Hi2); [by rewrite Hc2|done].
  - injection Hrun as <- <-.
    exists (set_worker (Some w) j), w, (set_worker_job (Some p') wk).
    split; [apply lookup_insert_eq|]. split; [done|]. split; [done|].
    split.
    { rewrite El. apply elem_of_app. right. apply list_elem_of_here. }
    split; [apply lookup_insert_eq|done].
Qed.

(** X12: the job that [gearman_server_job_take] returns is assigned: it is
    live, not marked IGNORE and on no priority list, its worker is one of the
    connection's workers, registered for the job's function, and that worker's
    job is this job. *)
Theorem job_take_assigns fuel con s c p s1 :
  server_inv s ->
  cons s !! con = Some c ->
  gearman_server_job_take fuel con s = Some (Some p, s1) ->
  exists j w wk,
    live s1 p /\ jobs s1 !! p = Some j /\ worker j = Some w /\
    has_flag (job_options j) GEARMAN_SERVER_JOB_IGNORE = false /\
    w ∈ con_worker_list c /\
    workers s1 !! w = Some wk /\ worker_job wk = Some p /\
    function j = Some (worker_function wk) /\
    forall f priority', ~ on_list s1 p f priority'.
Proof.
  intros Hi Hc Hrun.
  destruct (job_take_assigns_fuel fuel con s c p s1 Hi Hc Hrun)
    as (j & w & wk & Hj & Hw & Hig & Hin & Hwk & Hwj & Hf).
  destruct (job_take_inv fuel con s _ s1 Hi Hrun) as (Hi1 & _ & Hr).
  destruct (Hr p eq_refl) as [Hl _].
  exists j, w, wk. do 8 (split; [done|]).
  apply (server_inv_job_states s1 Hi1 p j Hl Hj). congruence.
Qed.

Lemma job_take_assigns_witness :
  exists j w wk,
    jobs (exec (gearman_server_job_take 1 0%nat) (three_jobs awake_con))
      !! 2%nat = Some j /\
    worker j = Some w /\
    workers (exec (gearman_server_job_take 1 0%nat) (three_jobs awake_con))
      !! w = Some wk /\
    worker_job wk = Some 2%nat.
Proof.
  destruct (job_take_assigns 1 0%nat (three_jobs awake_con) awake_con 2%nat
              (exec (gearman_server_job_take 1 0%nat) (three_jobs awake_con)))
    as (j & w & wk & _ & Hj & Hw & _ & _ & Hwk & Hwj & _).
  - apply server_inv_three_jobs.
  - vm_compute. reflexivity.
  - vm_compute. reflexivity.
  - exists j, w, wk. split; [exact Hj|]. split; [exact Hw|].
    split; [exact Hwk|exact Hwj].
Defined.

(** *** [gearman_server_job_queue] when a NOOP cannot be queued *)

(** X13: when queueing a NOOP fails, [gearman_server_job_queue] returns the
    code of that connection and stops: the job has lost its worker and the
    function one running job, but the priority lists, their ends and
    [job_count] are as before, and the job, still live, is on no list. *)
Theorem job_queue_failure env s p j w r s' :
  server_inv s ->
  live s p ->
  jobs s !! p = Some j ->
  worker j = Some w ->
  gearman_server_job_queue env p s = Some (r, s') ->
  r <> GEARMAN_SUCCESS ->
  exists f x x' j',
    function j = Some f /\ functions s !! f = Some x /\
    functions s' !! f = Some x' /\
    (exists w0 wk0, w0 ∈ worker_list x /\ workers s !! w0 = Some wk0 /\
                    r = io_packet_add_ret env (worker_con wk0)) /\
    job_list x' = job_list x /\ job_end x' = job_end x /\
    job_count x' = job_count x /\
    job_running x' = wrap32 (job_running x - 1) /\
    jobs s' !! p = Some j' /\ worker j' = None /\ live s' p /\
    (forall f0 priority', ~ on_list s' p f0 priority') /\
    server_inv_upto (Some p) s'.
Proof.
  intros Hi Hl Hj Hw Hrun Hr.
  destruct (job_queue_total env None s p j Hi)
    as (f & x & Hf & Hfin & Hx & Hrun' & Hi');
    [right; split; [done|congruence]|done..|].
  rewrite Hrun' in Hrun. injection Hrun as <- <-.
  apply is_success_false in Hr. rewrite Hr in Hi'.
  rewrite queue_state_failure in * by done.
  set (s' := set_cons _ _) in *.
  exists f, x, (queue_release j x), (queue_reset j).
  do 2 (split; [done|]).
  split; [apply lookup_insert_eq|].
  split.
  { destruct (noop_cons_spec env (workers s) (worker_list x) (cons s))
      as (_ & _ & [E|E] & _).
    - exact (inv_workers _ _ Hi f x Hfin Hx).
    - unfold queue_ret in Hr. rewrite E in Hr. done.
    - done. }
  unfold queue_release. rewrite bool_decide_true by congruence. fields.
  do 4 (split; [done|]).
  split; [apply lookup_insert_eq|]. split; [done|].
  split; [done|]. split; [|done].
  intros f0 prio (Hf0 & l & (x0 & Hx0 & Hprio & Hc) & Hin).
  destruct (inv_queues _ _ Hi' f0 x0 Hf0 Hx0) as (q & [Hq _] & Hpend).
  destruct (Hq prio Hprio) as (Hc' & _).
  pose proof (chain_det _ _ _ _ Hc Hc') as ->.
  by apply (Hpend p prio).
Qed.

Lemma job_queue_failure_witness :
  exists j',
    jobs (exec (gearman_server_job_queue env_no_io 0%nat)
            (running_server sleeping_con)) !! 0%nat = Some j' /\
    worker j' = None.
Proof.
  destruct (job_queue_failure env_no_io (running_server sleeping_con) 0%nat
              (job_at (running_server sleeping_con) 0%nat) 0%nat GEARMAN_ERRNO
              (exec (gearman_server_job_queue env_no_io 0%nat)
                 (running_server sleeping_con)))
    as (f & x & x' & j' & _ & _ & _ & _ & _ & _ & _ & _ & Hj & Hw & _).
  - apply server_inv_running_server. reflexivity.
  - exists (job_handle_key (job_at (running_server sleeping_con) 0%nat)
            mod GEARMAN_JOB_HASH_SIZE).
    vm_compute. apply list_elem_of_here.
  - vm_compute. reflexivity.
  - vm_compute. reflexivity.
  - vm_compute. reflexivity.
  - intros E; discriminate E.
  - exists j'. split; [exact Hj|exact Hw].
Defined.

(** *** A submission with a client *)

Lemma persisted_client fn fns us d ds prio cl p f j x s :
  persisted fn fns us d ds prio (Some cl) p f j x s
  = (None,
     if has_flag (options s) GEARMAN_SERVER_QUEUE_REPLAY
     then set_jobs (<[p := queued_job j]> (jobs s)) s else s).
Proof. unfold persisted. by destruct (has_flag _ _). Qed.

Lemma job_added_client env fn fns u us d ds prio cl f key p x sf res r s1 :
  job_added env fn fns u us d ds prio (Some cl) f key p x sf
  = ((res, r), s1) ->
  forall c0, clients sf !! cl = Some c0 ->
  queue_log s1 = queue_log sf /\
  match res with
  | Some p' =>
      p' = p /\
      clients s1 !! cl = Some (set_client_job (Some p) c0) /\
      exists j, jobs s1 !! p = Some j /\ client_list j = [cl]
  | None => clients s1 !! cl = Some c0
  end.
Proof.
  unfold job_added. rewrite persisted_client. intros H c0 Hc0.
  set (j0 := created_job env f key u us d ds prio sf) in *.
  set (s0 := created_state p f j0 x sf) in *.
  set (s2 := if has_flag (options s0) GEARMAN_SERVER_QUEUE_REPLAY
             then set_jobs (<[p := queued_job j0]> (jobs s0)) s0 else s0) in *.
  assert (Hs2 : queue_log s2 = queue_log sf /\ clients s2 = clients sf /\
                jobs s2 !! p = Some (persisted_job (Some cl) j0 s0)).
  { unfold s2, persisted_job, persists. simpl.
    destruct (has_flag (options sf) GEARMAN_SERVER_QUEUE_REPLAY); simpl;
      (split; [done|]); (split; [done|]); apply lookup_insert_eq. }
  destruct Hs2 as (L2 & C2 & J2).
  set (jp := persisted_job (Some cl) j0 s0) in *.
  assert (Hjp : client_list jp = [] /\ worker jp = None).
  { unfold jp, persisted_job. by destruct (_ || _). }
  destruct Hjp as [Hcl Hwp].
  unfold enqueued in H.
  match type of H with
  | context [queue_state ?e ?p ?f ?j ?x ?s] =>
      destruct (queue_state_scalars e p f j x s)
        as (_ & _ & _ & _ & _ & _ & _ & Q1 & Q2 & _);
      pose proof (eq_refl (queue_state e p f j x s)) as Hq;
      set (sq := queue_state e p f j x s) in *
  end.
  destruct (is_success _) eqn:Hs.
  - injection H as <- <- <-.
    unfold sq at 1 in Hq. rewrite queue_state_success in Hq by done.
    assert (Hjq : exists jq, jobs sq !! p = Some jq /\ client_list jq = []).
    { destruct (queue_link_same p (priority jp)
                  (queue_release jp
                     (set_job_total (wrap32 (job_total x + 1)) x))
                  (<[p := queue_reset jp]> (jobs s2)) p (queue_reset jp))
        as (jq & Hjq & _ & _ & Hc); [apply lookup_insert_eq|].
      exists jq. rewrite <- Hq. unfold queue_appended, queue_prepared. fields.
      split; [done|]. rewrite Hc. unfold queue_reset.
      rewrite bool_decide_false by (rewrite Hwp; auto). done. }
    destruct Hjq as (jq & Hjq & Hclq).
    unfold client_added. rewrite Q1, C2, Hc0, Hjq. fields.
    split; [by rewrite Q2|]. split; [done|].
    split; [apply lookup_insert_eq|].
    eexists. split; [apply lookup_insert_eq|]. fields. by rewrite Hclq.
  - injection H as <- <- <-. unfold free_state. fields.
    split; [by rewrite Q2|]. unfold queue_reset.
    rewrite bool_decide_false by (rewrite Hwp; auto). fields.
    rewrite Hcl. simpl. by rewrite Q1, C2.
Qed.

(** X14: a submission with a client never calls the persistent queue; when it
    returns a job, new or found, the client is registered for that job and is
    the head of the job's client list; when it returns NULL the client is as
    it was. *)
Theorem job_add_foreground env fn fns u us d ds prio cl s res r s' :
  server_inv s ->
  job_add_args_ok s fn fns u us d ds prio (Some cl) ->
  gearman_server_job_add env fn fns u us d ds prio (Some cl) s
  = Some ((res, r), s') ->
  queue_log s' = queue_log s /\
  exists c0,
    clients s !! cl = Some c0 /\
    match res with
    | Some p =>
        clients s' !! cl = Some (set_client_job (Some p) c0) /\
        exists j, jobs s' !! p = Some j /\ head (client_list j) = Some cl
    | None => clients s' !! cl = Some c0
    end.
Proof.
  intros Hi Hargs Hrun.
  pose proof (args_function_name _ _ _ _ _ _ _ _ _ Hargs) as Hsz.
  destruct (args_client _ _ _ _ _ _ _ _ _ Hargs cl eq_refl) as (c0 & Hc0 & _).
  destruct (job_add_cases env fn fns u us d ds prio (Some cl) s Hi Hargs)
    as [(sf & Hget & E)|(f & sf & x & key & existing & Hget & Hif & Hfin &
                          Hx & Hlook & Hkey & Hrest)].
  { rewrite E in Hrun. injection Hrun as <- <- <-.
    destruct (function_get_scalars env fn fns s _ sf Hi Hsz Hget)
      as (_ & _ & _ & _ & _ & Gc & _ & _ & Gl & _).
    split; [done|]. exists c0. by rewrite Gc. }
  destruct (function_get_scalars env fn fns s _ sf Hi Hsz Hget)
    as (_ & _ & _ & _ & _ & Gc & _ & _ & Gl & _).
  destruct existing as [p0|].
  { destruct Hrest as [[k Hl0] E]. rewrite E in Hrun.
    injection Hrun as <- <- <-.
    destruct (inv_job_hash _ _ Hif _ _ Hl0) as (j0 & Hj0 & _).
    destruct (client_added_fields (Some cl) p0 sf) as (_ & _ & _ & _ & _ & _ &
                                                        Cl & _).
    unfold client_added in *.
    split; [by rewrite Cl|]. exists c0. split; [done|].
    rewrite Gc, Hc0, Hj0. fields.
    split; [apply lookup_insert_eq|].
    eexists. split; [apply lookup_insert_eq|done]. }
  destruct (queue_full x).
  { rewrite Hrest in Hrun. injection Hrun as <- <- <-.
    split; [done|]. exists c0. by rewrite Gc. }
  destruct (job_slot env sf) as [p0|].
  2:{ rewrite Hrest in Hrun. injection Hrun as <- <- <-.
      split; [done|]. exists c0. by rewrite Gc. }
  rewrite Hrest in Hrun. injection Hrun as Hadd.
  destruct (job_added_client _ _ _ _ _ _ _ _ _ _ _ _ _ _ _ _ _ Hadd c0)
    as [Hlog Hres]; [by rewrite Gc|].
  split; [by rewrite Hlog|]. exists c0. split; [done|].
  destruct res as [p|]; [|done].
  destruct Hres as (-> & Hcl & j & Hj & Hlist).
  split; [done|]. exists j. by rewrite Hlist.
Qed.

Lemma job_add_foreground_witness :
  queue_log
    (exec (submit [49; 0] GEARMAN_JOB_PRIORITY_NORMAL (Some 0%nat))
       client_server)
  = queue_log client_server.
Proof.
  apply (job_add_foreground env_ok [102; 0] 1 [49; 0] 1 (Some [65]) 1
           GEARMAN_JOB_PRIORITY_NORMAL 0%nat client_server (Some 0%nat)
           GEARMAN_SUCCESS).
  - apply server_inv_no_jobs; try done.
    + intros f ->%list_elem_of_singleton.
      exists (function_f 0 [0%nat]), [102; 0].
      split; [reflexivity|]. split; [reflexivity|]. simpl.
      split; [lia|]. split; [|done].
      intros w ->%list_elem_of_singleton.
      eexists _, awake_con. split; reflexivity.
    + intros c0 con Hcon w Hw. unfold client_server in Hcon. simpl in Hcon.
      apply lookup_singleton_Some in Hcon as [<- <-].
      apply list_elem_of_singleton in Hw as ->.
      eexists. split; [reflexivity|]. apply list_elem_of_here.
  - constructor; simpl; try done; try lia.
    + intros _. apply list_elem_of_further, list_elem_of_here.
    + apply data_ok_byte.
    + intros c [= <-]. eexists. split; reflexivity.
  - vm_compute. reflexivity.
Defined.

(** *** A job that is there is found *)

Lemma get_unique_loop_none s key f u dsz : forall bucket,
  _server_job_get_unique_loop s bucket key f u dsz = Some None ->
  forall p j, p ∈ bucket -> jobs s !! p = Some j ->
    function j = Some f -> unique_key j = key ->
    if decide (dsz = 0%nat) then strcmp_eq (unique j) u <> Some true
    else data_size j = dsz ->
         forall dj, data j = Some dj -> memcmp_eq dj u dsz <> Some true.
Proof.
  induction bucket as [|q bucket IH]; intros H p j Hp Hj Hf Hk.
  { by apply elem_of_nil in Hp. }
  simpl in H. destruct (jobs s !! q) as [jq|] eqn:Hq; [|done].
  apply elem_of_cons in Hp as [->|Hp].
  - assert (jq = j) as -> by congruence.
    rewrite bool_decide_true in H by done.
    rewrite Hk, Z.eqb_refl in H. simpl in H.
    destruct (decide (dsz = 0%nat)) as [Hd|Hd].
    + intros E. by rewrite E in H.
    + intros Hsz dj Hdj E.
      rewrite bool_decide_true in H by done. by rewrite Hdj, E in H.
  - assert (H' : _server_job_get_unique_loop s bucket key f u dsz
                 = Some None).
    { destruct (decide (dsz = 0%nat)).
      - destruct (bool_decide _ && _); [|done].
        by destruct (strcmp_eq _ _) as [[|]|].
      - destruct (bool_decide _ && _ && _); [|done].
        destruct (data jq) as [dj|]; [|done].
        by destruct (memcmp_eq _ _ _) as [[|]|]. }
    exact (IH H' p j Hp Hj Hf Hk).
Qed.

(** X15: deduplication is complete: when the function of that name exists
    and a live job of it has the key and the string of the submitted
    unique (or, for the unique ["-"], the key, the size and the bytes of
    the submitted data), [gearman_server_job_add] returns a job with
    [GEARMAN_JOB_EXISTS] and creates none. *)
Theorem job_add_finds env fn fns u us d ds prio c s f p j :
  server_inv s ->
  job_add_args_ok s fn fns u us d ds prio c ->
  us <> 0%nat ->
  function_get_loop s (function_list s) fn fns = Some (Some f) ->
  live s p ->
  jobs s !! p = Some j ->
  function j = Some f ->
  (if decide (dash u us) then
     ds <> 0%nat /\ data_size j = ds /\
     exists dj d0, data j = Some dj /\ d = Some d0 /\
                   firstn ds dj = firstn ds d0 /\
                   unique_key j = HashSpec.hash (firstn ds d0)
   else c_str (unique j) = c_str u /\
        unique_key j = HashSpec.hash (firstn us u)) ->
  exists p',
    gearman_server_job_add env fn fns u us d ds prio c s
    = Some ((Some p', GEARMAN_JOB_EXISTS), client_added c p' s).
Proof.
  intros Hi Hargs Hus Hloop Hl Hj Hf Hmatch.
  pose proof (function_get_found env fn fns s f Hloop) as Hget.
  pose proof (args_unique _ _ _ _ _ _ _ _ _ Hargs) as Hu.
  pose proof (args_data _ _ _ _ _ _ _ _ _ Hargs) as Hd.
  destruct (job_add_lookup_total None s f u us d ds Hi Hu
              (args_unique_nul _ _ _ _ _ _ _ _ _ Hargs) Hd)
    as (key & r & Hlook & _ & Hlive).
  assert (Hbucket : p ∈ unique_hash s (unique_key j mod GEARMAN_JOB_HASH_SIZE)).
  { apply (inv_unique_hash _ _ Hi). split; [done|]. by exists j. }
  destruct r as [p'|].
  { exists p'. apply (job_add_exists env fn fns u us d ds prio c s f s key p');
      [done..|].
    intros c' ->.
    destruct (args_client _ _ _ _ _ _ _ _ _ Hargs c' eq_refl) as (cl & Hcl & _).
    split; [by eexists|].
    destruct (Hlive p' eq_refl) as [k Hk].
    destruct (inv_job_hash _ _ Hi _ _ Hk) as (j' & Hj' & _). by eexists. }
  exfalso.
  destruct (job_add_lookup_key None s f u us d ds key None Hi Hu Hus Hd Hlook)
    as [Hnd Hdash].
  destruct (decide (dash u us)) as [Hdu|Hdu].
  - destruct Hmatch as (Hds & Hsize & dj & d0 & Hdj & -> & Hfirst & Hkey).
    destruct (Hdash Hdu Hds) as (d0' & [= <-] & Hlen & _ & Hnone).
    unfold _server_job_get_unique in Hnone. rewrite <- Hkey in Hnone.
    pose proof (get_unique_loop_none s _ f d0 ds _ Hnone p j Hbucket Hj Hf
                  eq_refl) as Hno.
    rewrite decide_False in Hno by done.
    apply (Hno Hsize dj Hdj).
    destruct (inv_live _ _ Hi p j Hl Hj) as (_ & _ & _ & _ & Hdata & _).
    rewrite Hsize, Hdj in Hdata.
    destruct (Hdata Hds) as (dj' & [= <-] & Hlenj).
    unfold memcmp_eq, read_bytes.
    destruct (Nat.leb_spec ds (length dj)); [|lia].
    destruct (Nat.leb_spec ds (length d0)); [|lia].
    by rewrite bool_decide_true.
  - destruct Hmatch as [Hstr Hkey].
    destruct (Hnd Hdu) as [_ Hnone].
    unfold _server_job_get_unique in Hnone. rewrite <- Hkey in Hnone.
    pose proof (get_unique_loop_none s _ f u 0 _ Hnone p j Hbucket Hj Hf
                  eq_refl) as Hno.
    rewrite decide_True in Hno by done. apply Hno.
    rewrite strcmp_eq_spec
      by apply (args_unique_nul _ _ _ _ _ _ _ _ _ Hargs Hus).
    by rewrite bool_decide_true.
Qed.

Lemma job_add_finds_witness :
  exists p',
    submit [49; 0] GEARMAN_JOB_PRIORITY_LOW None submitted_server
    = Some ((Some p', GEARMAN_JOB_EXISTS), client_added None p' submitted_server).
Proof.
  apply (job_add_finds env_ok [102; 0] 1 [49; 0] 1 (Some [65]) 1
           GEARMAN_JOB_PRIORITY_LOW None submitted_server 0%nat 0%nat
           (job_at submitted_server 0%nat)).
  - apply server_inv_submitted.
  - apply (submit_args_ok _ [49; 0]); [simpl; lia|reflexivity|].
    intros E; discriminate E.
  - intros E; discriminate E.
  - vm_compute. reflexivity.
  - exists (job_handle_key (job_at submitted_server 0%nat)
            mod GEARMAN_JOB_HASH_SIZE).
    vm_compute. apply list_elem_of_here.
  - vm_compute. reflexivity.
  - vm_compute. reflexivity.
  - vm_compute. split; reflexivity.
Defined.
